(** * Drone control subsystem: shared-memory actors

    A shallow embedding of the C sources of the simulated drone
    (proj_types.h, drone_sys.c, battery.c, flight_ctrl.c, gps_ctrl.c,
    telemetry.c, accelerometer.c, watchdog.c, operator.c) and the
    properties checked against it.

    Modelling conventions.
    - Every actor loop function of the sources becomes a computation in a
      small state monad over the process: its file-level statics, the
      shared memory region and the output it produced.  One run of a loop
      function is taken in isolation: no other process writes the region
      while it runs.
    - A POSIX semaphore is its counter.  [sem_wait] on a counter that is
      not positive does not return, which the monad renders as [None];
      a timed wait on such a counter times out.
    - [float] is IEEE 754 binary32, through the parametric specification
      of the standard library at precision 24 and maximal exponent 128;
      expressions are evaluated in the precision of their type.
    - Integers are mathematical integers with the C wrap-around written at
      the stores ([uint8], [uint32], [size_t]); the byte order of the enum
      read from the network is little-endian, as on the Linux targets the
      sources are written for. *)

From Stdlib Require Import ZArith String Ascii Bool Lia DecimalString.
From Stdlib Require Import Floats.SpecFloat.
From stdpp Require Import base list.

Open Scope Z_scope.

(* ================================================================= *)
(** ** Machine integers *)

Definition uint8 (z : Z) : Z := z mod 256.
Definition uint32 (z : Z) : Z := z mod 2 ^ 32.
Definition size_t (z : Z) : Z := z mod 2 ^ 64.

(* ================================================================= *)
(** ** binary32 *)

Definition float : Type := spec_float.

Definition prec32 : Z := 24.
Definition emax32 : Z := 128.

Definition fadd : float -> float -> float := SFadd prec32 emax32.
Definition fsub : float -> float -> float := SFsub prec32 emax32.
Definition fmul : float -> float -> float := SFmul prec32 emax32.
Definition fdiv : float -> float -> float := SFdiv prec32 emax32.
(** [a < b], [a <= b] and [a == b] of C: false as soon as one side is NaN. *)
Definition flt : float -> float -> bool := SFltb.
Definition fle : float -> float -> bool := SFleb.
Definition feq : float -> float -> bool := SFeqb.
(** Conversion of an integer constant to [float]. *)
Definition float_of_Z (z : Z) : float := binary_normalize prec32 emax32 z 0 false.
(** A decimal literal [n/d] with the [f] suffix: the binary32 value nearest
    to the quotient. *)
Definition float_lit (n d : Z) : float := fdiv (float_of_Z n) (float_of_Z d).

Definition f0 : float := S754_zero false.
Definition f1 : float := Eval vm_compute in float_of_Z 1.
Definition f4 : float := Eval vm_compute in float_of_Z 4.

(** The values a [float] object can hold. *)
Definition is_float (x : float) : bool := valid_binary prec32 emax32 x.

Definition is_nan (x : float) : bool :=
  match x with S754_nan => true | _ => false end.

(* ================================================================= *)
(** ** proj_types.h *)

Definition NANOSECONDS_IN_MS : Z := 1000000.

(** [current_action_t]: an enum whose enumerators are single bits.  An
    object of the type holds any 32-bit pattern (it is filled from the
    network), so the model keeps the integer. *)
Definition current_action_t : Type := Z.
Definition Reserved  : current_action_t := Z.shiftl 1 0.
Definition SampleGPS : current_action_t := Z.shiftl 1 1.
Definition Fly       : current_action_t := Z.shiftl 1 2.
Definition Land      : current_action_t := Z.shiftl 1 3.
Definition Idle      : current_action_t := Z.shiftl 1 4.
Definition Charge    : current_action_t := Z.shiftl 1 5.
Definition Abort     : current_action_t := Z.shiftl 1 6.

Record acceleration_t := { x : float; y : float; z : float }.

(** [float motors[4]]. *)
Record motors_t := { motors0 : float; motors1 : float; motors2 : float; motors3 : float }.

Definition GPS_BUFFER_SIZE : Z := 128 * 10.

(** [char buf[GPS_BUFFER_SIZE]]. *)
Definition nmea_t : Type := list ascii.

Definition sem_t : Type := Z.

Record rw_lock_t := { read : sem_t; write : sem_t; read_counter : Z }.

Record drone_pids_t := {
  pid_flight_ctrl : Z; pid_accel : Z; pid_battery : Z;
  pid_gps_ctrl : Z; pid_telemetry : Z; pid_wdg : Z }.

Record wdg_counters_t := {
  wdg_flight_ctrl : Z; wdg_accel : Z; wdg_battery : Z;
  wdg_gps_ctrl : Z; wdg_telemetry : Z }.

Record action_shm := { action_lock : rw_lock_t; action_type : current_action_t }.
Record accel_shm := { accel_mutex : sem_t; acceleration : acceleration_t }.
Record pwm_shm := { pwm_mutex : sem_t; motors : motors_t }.
Record gps_shm := {
  gps_mutex : sem_t; gps_full : sem_t; gps_empty : sem_t;
  gps_write : Z; gps_read : Z;
  nmea : nmea_t }.

Record drone_shared_t := {
  pids : drone_pids_t;
  operator_ip : string;
  drone_ip : string;
  telemetry_port : Z;
  flight_ctrl_port : Z;
  wdg : wdg_counters_t;
  action : action_shm;
  accel : accel_shm;
  pwm : pwm_shm;
  gps : gps_shm;
  battery : Z }.

(** Field stores. *)
Definition set_wdg (f : wdg_counters_t -> wdg_counters_t) (s : drone_shared_t) :=
  {| pids := pids s; operator_ip := operator_ip s; drone_ip := drone_ip s;
     telemetry_port := telemetry_port s; flight_ctrl_port := flight_ctrl_port s;
     wdg := f (wdg s); action := action s; accel := accel s; pwm := pwm s;
     gps := gps s; battery := battery s |}.
Definition set_action (f : action_shm -> action_shm) (s : drone_shared_t) :=
  {| pids := pids s; operator_ip := operator_ip s; drone_ip := drone_ip s;
     telemetry_port := telemetry_port s; flight_ctrl_port := flight_ctrl_port s;
     wdg := wdg s; action := f (action s); accel := accel s; pwm := pwm s;
     gps := gps s; battery := battery s |}.
Definition set_accel (f : accel_shm -> accel_shm) (s : drone_shared_t) :=
  {| pids := pids s; operator_ip := operator_ip s; drone_ip := drone_ip s;
     telemetry_port := telemetry_port s; flight_ctrl_port := flight_ctrl_port s;
     wdg := wdg s; action := action s; accel := f (accel s); pwm := pwm s;
     gps := gps s; battery := battery s |}.
Definition set_pwm (f : pwm_shm -> pwm_shm) (s : drone_shared_t) :=
  {| pids := pids s; operator_ip := operator_ip s; drone_ip := drone_ip s;
     telemetry_port := telemetry_port s; flight_ctrl_port := flight_ctrl_port s;
     wdg := wdg s; action := action s; accel := accel s; pwm := f (pwm s);
     gps := gps s; battery := battery s |}.
Definition set_gps (f : gps_shm -> gps_shm) (s : drone_shared_t) :=
  {| pids := pids s; operator_ip := operator_ip s; drone_ip := drone_ip s;
     telemetry_port := telemetry_port s; flight_ctrl_port := flight_ctrl_port s;
     wdg := wdg s; action := action s; accel := accel s; pwm := pwm s;
     gps := f (gps s); battery := battery s |}.
Definition set_battery (v : Z) (s : drone_shared_t) :=
  {| pids := pids s; operator_ip := operator_ip s; drone_ip := drone_ip s;
     telemetry_port := telemetry_port s; flight_ctrl_port := flight_ctrl_port s;
     wdg := wdg s; action := action s; accel := accel s; pwm := pwm s;
     gps := gps s; battery := v |}.

Definition set_action_lock (f : rw_lock_t -> rw_lock_t) (a : action_shm) :=
  {| action_lock := f (action_lock a); action_type := action_type a |}.
Definition set_action_type (v : current_action_t) (a : action_shm) :=
  {| action_lock := action_lock a; action_type := v |}.
Definition set_accel_mutex (v : sem_t) (a : accel_shm) :=
  {| accel_mutex := v; acceleration := acceleration a |}.
Definition set_acceleration (v : acceleration_t) (a : accel_shm) :=
  {| accel_mutex := accel_mutex a; acceleration := v |}.
Definition set_pwm_mutex (v : sem_t) (a : pwm_shm) :=
  {| pwm_mutex := v; motors := motors a |}.
Definition set_motors (v : motors_t) (a : pwm_shm) :=
  {| pwm_mutex := pwm_mutex a; motors := v |}.
Definition set_gps_mutex (v : sem_t) (g : gps_shm) :=
  {| gps_mutex := v; gps_full := gps_full g; gps_empty := gps_empty g;
     gps_write := gps_write g; gps_read := gps_read g; nmea := nmea g |}.
Definition set_gps_full (v : sem_t) (g : gps_shm) :=
  {| gps_mutex := gps_mutex g; gps_full := v; gps_empty := gps_empty g;
     gps_write := gps_write g; gps_read := gps_read g; nmea := nmea g |}.
Definition set_gps_empty (v : sem_t) (g : gps_shm) :=
  {| gps_mutex := gps_mutex g; gps_full := gps_full g; gps_empty := v;
     gps_write := gps_write g; gps_read := gps_read g; nmea := nmea g |}.
Definition set_gps_write (v : Z) (g : gps_shm) :=
  {| gps_mutex := gps_mutex g; gps_full := gps_full g; gps_empty := gps_empty g;
     gps_write := v; gps_read := gps_read g; nmea := nmea g |}.
Definition set_gps_read (v : Z) (g : gps_shm) :=
  {| gps_mutex := gps_mutex g; gps_full := gps_full g; gps_empty := gps_empty g;
     gps_write := gps_write g; gps_read := v; nmea := nmea g |}.
Definition set_nmea (v : nmea_t) (g : gps_shm) :=
  {| gps_mutex := gps_mutex g; gps_full := gps_full g; gps_empty := gps_empty g;
     gps_write := gps_write g; gps_read := gps_read g; nmea := v |}.
Definition set_read (v : sem_t) (l : rw_lock_t) :=
  {| read := v; write := write l; read_counter := read_counter l |}.
Definition set_write (v : sem_t) (l : rw_lock_t) :=
  {| read := read l; write := v; read_counter := read_counter l |}.
Definition set_read_counter (v : Z) (l : rw_lock_t) :=
  {| read := read l; write := write l; read_counter := v |}.

(** The semaphores of the region, as the addresses the calls receive. *)
Inductive sem_ref :=
| action_lock_read | action_lock_write
| accel_mutex_ref | pwm_mutex_ref
| gps_mutex_ref | gps_full_ref | gps_empty_ref.

Definition sem_get (r : sem_ref) (s : drone_shared_t) : sem_t :=
  match r with
  | action_lock_read => read (action_lock (action s))
  | action_lock_write => write (action_lock (action s))
  | accel_mutex_ref => accel_mutex (accel s)
  | pwm_mutex_ref => pwm_mutex (pwm s)
  | gps_mutex_ref => gps_mutex (gps s)
  | gps_full_ref => gps_full (gps s)
  | gps_empty_ref => gps_empty (gps s)
  end.

Definition sem_set (r : sem_ref) (v : sem_t) (s : drone_shared_t) : drone_shared_t :=
  match r with
  | action_lock_read => set_action (set_action_lock (set_read v)) s
  | action_lock_write => set_action (set_action_lock (set_write v)) s
  | accel_mutex_ref => set_accel (set_accel_mutex v) s
  | pwm_mutex_ref => set_pwm (set_pwm_mutex v) s
  | gps_mutex_ref => set_gps (set_gps_mutex v) s
  | gps_full_ref => set_gps (set_gps_full v) s
  | gps_empty_ref => set_gps (set_gps_empty v) s
  end.

(* ================================================================= *)
(** ** Processes *)

Inductive arg := Int (i : Z) | Flt (f : float) | Str (s : string).

(** What a process does to the outside of the region. *)
Inductive event :=
| printf (fmt : string) (args : list arg)
| fprintf_stderr (fmt : string) (args : list arg)
| perror (msg : string)
| kill (pid sig : Z)
| send (msg : string)
| usleep (us : Z)
| sleep (s : Z).

Definition SIGTERM : Z := 15.
Definition SIGUSR1 : Z := 10.
Definition EINTR : Z := 4.
Definition EAGAIN : Z := 11.
Definition EWOULDBLOCK : Z := 11.
Definition ETIMEDOUT : Z := 110.

(** A process: its statics [L], the mapped region, the events so far
    (oldest first), and for each timed semaphore wait still to come
    whether a signal interrupts it (none once the list is used up). *)
Record proc (L : Type) := Proc {
  locals : L;
  shm : drone_shared_t;
  out : list event;
  intr : list bool }.
Arguments Proc {L}.
Arguments locals {L}.
Arguments shm {L}.
Arguments out {L}.
Arguments intr {L}.

(** Computations of a process; [None]: blocked for ever on a semaphore. *)
Definition M (L A : Type) : Type := proc L -> option (A * proc L).

#[global] Instance M_ret L : MRet (M L) := fun A a p => Some (a, p).
#[global] Instance M_bind L : MBind (M L) := fun A B f c p =>
  match c p with
  | Some (a, p') => f a p'
  | None => None
  end.

Section Process.
Context {L : Type}.

Definition get_locals : M L L := fun p => Some (locals p, p).
Definition set_locals (f : L -> L) : M L unit :=
  fun p => Some (tt, Proc (f (locals p)) (shm p) (out p) (intr p)).
Definition load {A} (f : drone_shared_t -> A) : M L A := fun p => Some (f (shm p), p).
Definition store (f : drone_shared_t -> drone_shared_t) : M L unit :=
  fun p => Some (tt, Proc (locals p) (f (shm p)) (out p) (intr p)).
Definition emit (e : event) : M L unit :=
  fun p => Some (tt, Proc (locals p) (shm p) (out p ++ [e]) (intr p)).
Definition blocked {A} : M L A := fun _ => None.
(** Is the next timed wait cut short by a signal? *)
Definition next_intr : M L bool :=
  fun p => Some (hd false (intr p), Proc (locals p) (shm p) (out p) (tl (intr p))).

Definition when (b : bool) (c : M L unit) : M L unit := if b then c else mret tt.

(** *** Semaphores *)

Definition sem_wait (r : sem_ref) : M L unit :=
  v ← load (sem_get r);
  if 0 <? v then store (sem_set r (v - 1)) else blocked.

Definition sem_post (r : sem_ref) : M L unit :=
  v ← load (sem_get r);
  store (sem_set r (v + 1)).

(** Returns 0 when the semaphore was taken, -1 otherwise. *)
Definition sem_trywait (r : sem_ref) : M L Z :=
  v ← load (sem_get r);
  if 0 <? v then store (sem_set r (v - 1));; mret 0 else mret (-1).

(** Returns the pair of the result and of [errno]. *)
Definition sem_timedwait (r : sem_ref) : M L (Z * Z) :=
  i ← next_intr;
  if (i : bool) then mret (-1, EINTR)
  else
    v ← load (sem_get r);
    if 0 <? v then store (sem_set r (v - 1));; mret (0, 0)
    else mret (-1, ETIMEDOUT).

(** *** drone_sys.c: the reader/writer lock of [action] *)

Definition rwlock_read_lock : M L unit :=
  sem_wait action_lock_read;;
  store (set_action (set_action_lock (fun l => set_read_counter (uint8 (read_counter l + 1)) l)));;
  c ← load (fun s => read_counter (action_lock (action s)));
  when (c =? 1) (sem_wait action_lock_write);;
  sem_post action_lock_read.

Definition rwlock_read_unlock : M L unit :=
  sem_wait action_lock_read;;
  store (set_action (set_action_lock (fun l => set_read_counter (uint8 (read_counter l - 1)) l)));;
  c ← load (fun s => read_counter (action_lock (action s)));
  when (c =? 0) (sem_post action_lock_write);;
  sem_post action_lock_read.

Definition rwlock_write_lock : M L unit := sem_wait action_lock_write.
Definition rwlock_write_unlock : M L unit := sem_post action_lock_write.

(** The recurring [rwlock_write_lock; action.type = v; rwlock_write_unlock]. *)
Definition write_action (v : current_action_t) : M L unit :=
  rwlock_write_lock;;
  store (set_action (set_action_type v));;
  rwlock_write_unlock.

(** The recurring [rwlock_read_lock; v = action.type; rwlock_read_unlock]. *)
Definition read_action : M L current_action_t :=
  rwlock_read_lock;;
  v ← load (fun s => action_type (action s));
  rwlock_read_unlock;;
  mret v.
End Process.

(** [struct timespec]. *)
Record timespec := { tv_sec : Z; tv_nsec : Z }.

(** The elapsed-time expression shared by battery.c and flight_ctrl.c;
    [/] of C truncates. *)
Definition elapsed (now last_time : timespec) : Z :=
  (tv_sec now - tv_sec last_time) * 1000
  + (tv_nsec now - tv_nsec last_time) ÷ NANOSECONDS_IN_MS.

(** The lock of [action] is free and nobody reads. *)
Definition action_lock_free (s : drone_shared_t) : Prop :=
  read (action_lock (action s)) = 1 /\
  write (action_lock (action s)) = 1 /\
  read_counter (action_lock (action s)) = 0.

(* ================================================================= *)
(** ** battery.c *)

Module Battery.

Definition DISCHARGE_INTERVAL_MS : Z := 2000.
Definition CHARGE_INTERVAL_MS : Z := 500.

Record statics := {
  last_time : timespec;
  now : timespec;
  current_battery : Z;
  current_action : current_action_t;
  init : bool }.

Definition initial : statics :=
  {| last_time := {| tv_sec := 0; tv_nsec := 0 |};
     now := {| tv_sec := 0; tv_nsec := 0 |};
     current_battery := 0; current_action := 0; init := true |}.

Definition set_last_time v (l : statics) :=
  {| last_time := v; now := now l; current_battery := current_battery l;
     current_action := current_action l; init := init l |}.
Definition set_now v (l : statics) :=
  {| last_time := last_time l; now := v; current_battery := current_battery l;
     current_action := current_action l; init := init l |}.
Definition set_current_battery v (l : statics) :=
  {| last_time := last_time l; now := now l; current_battery := v;
     current_action := current_action l; init := init l |}.
Definition set_current_action v (l : statics) :=
  {| last_time := last_time l; now := now l; current_battery := current_battery l;
     current_action := v; init := init l |}.
Definition set_init v (l : statics) :=
  {| last_time := last_time l; now := now l; current_battery := current_battery l;
     current_action := current_action l; init := v |}.

(** [battery_loop]; [clock] is what [clock_gettime] returns. *)
Definition battery_loop (clock : timespec) : M statics unit :=
  set_locals (set_now clock);;
  l ← get_locals;
  when (init l) (set_locals (fun l => set_init false (set_last_time (now l) l)));;
  l ← get_locals;
  let elapsed_ms := elapsed (now l) (last_time l) in
  b ← load battery;
  set_locals (set_current_battery b);;
  a ← read_action;
  set_locals (set_current_action a);;
  l ← get_locals;
  (if current_action l =? Charge then
     when (CHARGE_INTERVAL_MS <=? elapsed_ms)
       (set_locals (set_last_time (now l));;
        when (current_battery l <? 100)
          (store (set_battery (uint8 (current_battery l + 1))));;
        emit (printf "Charging: Battery value (%u%%)\n" [Int (current_battery l)]))
   else
     when (DISCHARGE_INTERVAL_MS <=? elapsed_ms)
       (set_locals (set_last_time (now l));;
        if 0 <? current_battery l then
          store (set_battery (uint8 (current_battery l - 1)));;
          emit (printf "Discharging: Battery value %u%%\n" [Int (current_battery l)]);;
          when ((current_battery l <? 15) && negb (current_action l =? Abort))
            (emit (printf "Battery low (%u%%). Switching to Abort state.\n"
                     [Int (current_battery l)]);;
             write_action Abort)
        else
          emit (perror "Battery charge is 0. Hard system shutdown.");;
          emit (kill 0 SIGTERM)));;
  store (set_wdg (fun w =>
    {| wdg_flight_ctrl := wdg_flight_ctrl w; wdg_accel := wdg_accel w;
       wdg_battery := uint32 (wdg_battery w + 1);
       wdg_gps_ctrl := wdg_gps_ctrl w; wdg_telemetry := wdg_telemetry w |}));;
  emit (usleep 100).

(** The milliseconds that [battery_loop] finds elapsed at [clock]: on
    its first run it takes [clock] for the time of the last step. *)
Definition elapsed_at (clock : timespec) (l : statics) : Z :=
  elapsed clock (if init l then clock else last_time l).


End Battery.

(* ================================================================= *)
(** ** drone_sys.c *)

Module DroneSys.

(** The statics of the supervisor: its two signal flags. *)
Record statics := { sigterm : Z; sigchld : Z }.

Definition sem_init (value : Z) : sem_t := value.

Definition rwlock_init (rwlock : rw_lock_t) : rw_lock_t :=
  set_read_counter 0 (set_write (sem_init 1) (set_read (sem_init 1) rwlock)).

Definition init_locks_shm (ptr : drone_shared_t) : drone_shared_t :=
  let ptr := set_action (set_action_lock rwlock_init) ptr in
  let ptr := set_accel (set_accel_mutex (sem_init 1)) ptr in
  let ptr := set_pwm (set_pwm_mutex (sem_init 1)) ptr in
  let ptr := set_gps (set_gps_mutex (sem_init 1)) ptr in
  let ptr := set_gps (set_gps_empty (sem_init GPS_BUFFER_SIZE)) ptr in
  set_gps (set_gps_full (sem_init 0)) ptr.

(** The region after [memset(ptr, 0, sizeof(drone_shared_t))]. *)
Definition zeroed : drone_shared_t :=
  {| pids := {| pid_flight_ctrl := 0; pid_accel := 0; pid_battery := 0;
                pid_gps_ctrl := 0; pid_telemetry := 0; pid_wdg := 0 |};
     operator_ip := EmptyString; drone_ip := EmptyString;
     telemetry_port := 0; flight_ctrl_port := 0;
     wdg := {| wdg_flight_ctrl := 0; wdg_accel := 0; wdg_battery := 0;
               wdg_gps_ctrl := 0; wdg_telemetry := 0 |};
     action := {| action_lock := {| read := 0; write := 0; read_counter := 0 |};
                  action_type := 0 |};
     accel := {| accel_mutex := 0; acceleration := {| x := f0; y := f0; z := f0 |} |};
     pwm := {| pwm_mutex := 0;
               motors := {| motors0 := f0; motors1 := f0; motors2 := f0; motors3 := f0 |} |};
     gps := {| gps_mutex := 0; gps_full := 0; gps_empty := 0;
               gps_write := 0; gps_read := 0;
               nmea := replicate (Z.to_nat GPS_BUFFER_SIZE) "000"%char |};
     battery := 0 |}.

Definition init_drone_shm (ptr : drone_shared_t) : drone_shared_t :=
  let ptr := zeroed in
  let ptr := set_battery 100 ptr in
  let ptr := set_action (set_action_type Idle) ptr in
  let ptr := set_accel (set_acceleration {| x := f0; y := f0; z := f0 |}) ptr in
  init_locks_shm ptr.

(** [sigusr1_handler], run by the supervisor on the signal of the
    watchdog. *)
Definition sigusr1_handler : M statics unit :=
  emit (printf "SIGUSR1: Watchdog detected a deadlock...\n" []);;
  p ← load pids;
  emit (kill (pid_accel p) SIGTERM);;
  emit (kill (pid_battery p) SIGTERM);;
  emit (kill (pid_gps_ctrl p) SIGTERM);;
  emit (kill (pid_telemetry p) SIGTERM);;
  emit (kill (pid_flight_ctrl p) SIGTERM);;
  emit (kill (pid_wdg p) SIGTERM);;
  store init_locks_shm.

End DroneSys.

(* ================================================================= *)
(** ** gps_ctrl.c *)

(** The newline of the C string literals. *)
Definition nl : string := String "010" EmptyString.

(** The [n] characters of the ring from index [start] on, going round at
    the end of the array. *)
Definition ring_slice (buf : nmea_t) (start : Z) (n : nat) : list ascii :=
  map (fun i => default "000"%char
                  (buf !! Z.to_nat ((start + Z.of_nat i) mod GPS_BUFFER_SIZE)))
      (seq 0 n).

(** The ring after the characters [cs] were stored from index [w] on. *)
Fixpoint ring_write (cs : list ascii) (w : Z) (buf : nmea_t) : nmea_t :=
  match cs with
  | [] => buf
  | c :: cs => ring_write cs ((w + 1) mod GPS_BUFFER_SIZE) (<[Z.to_nat w := c]> buf)
  end.

Module GpsCtrl.

Definition nmea_samples : list string :=
  [ "$GPGGA,123519,4807.038,N,01131.000,E,1,08,0.9,545.4,M,46.9,M,,*47" ++ nl;
    "$GPGSA,A,3,04,05,09,12,24,25,29,30,31,,,1.8,1.0,1.5*33" ++ nl;
    "$GPRMC,123519,A,4807.038,N,01131.000,E,022.4,084.4,230394,003.1,W*6A" ++ nl;
    "$GPVTG,084.4,T,003.1,M,022.4,N,041.4,K*1F" ++ nl ]%string.

Record statics := { sample_index : Z; nmea_samples_count : Z }.

Definition initial : statics :=
  {| sample_index := 0; nmea_samples_count := Z.of_nat (length nmea_samples) |}.

Definition set_sample_index v (l : statics) :=
  {| sample_index := v; nmea_samples_count := nmea_samples_count l |}.

Definition strlen (msg : string) : Z := Z.of_nat (String.length msg).

(** [msg[count]]. *)
Definition char_at (msg : string) (count : Z) : ascii :=
  default "000"%char (list_ascii_of_string msg !! Z.to_nat count).

(** Lines 51 to 58 of [gps_loop]: one character into the ring, under the
    mutex, and the post of [full]. *)
Definition put_char (c : ascii) : M statics unit :=
  sem_wait gps_mutex_ref;;
  w ← load (fun s => gps_write (gps s));
  store (set_gps (fun g => set_nmea (<[Z.to_nat w := c]> (nmea g)) g));;
  store (set_gps (set_gps_write (size_t (w + 1) mod GPS_BUFFER_SIZE)));;
  sem_post gps_mutex_ref;;
  sem_post gps_full_ref.

(** The [while (count < strlen(msg))] loop; the result tells whether it
    ran to its end ([false]: left through [goto _wdg]).  Every turn
    either moves [count] or uses up one interruption, which [fuel]
    bounds. *)
Fixpoint produce (fuel : nat) (msg : string) (count : Z) : M statics bool :=
  match fuel with
  | O => mret true
  | S fuel =>
    if count <? strlen msg then
      r ← sem_timedwait gps_empty_ref;
      if fst r =? -1 then
        if snd r =? ETIMEDOUT then mret false
        else emit (perror "sem_timedwait");; produce fuel msg count
      else
        put_char (char_at msg count);;
        produce fuel msg (count + 1)
    else mret true
  end.

(** What a turn of the loop that gets a slot does to the region. *)
Definition produce_step (c : ascii) (s : drone_shared_t) : drone_shared_t :=
  set_gps (fun g =>
    {| gps_mutex := gps_mutex g;
       gps_full := gps_full g + 1;
       gps_empty := gps_empty g - 1;
       gps_write := size_t (gps_write g + 1) mod GPS_BUFFER_SIZE;
       gps_read := gps_read g;
       nmea := <[Z.to_nat (gps_write g) := c]> (nmea g) |}) s.

(** What the loop does to the region when no wait is interrupted: the
    characters go in one by one as long as [empty] has a slot. *)
Fixpoint ring_puts (cs : list ascii) (s : drone_shared_t) : drone_shared_t :=
  match cs with
  | [] => s
  | c :: cs => if 0 <? gps_empty (gps s) then ring_puts cs (produce_step c s) else s
  end.

(** The sample that [gps_loop] sends next. *)
Definition current_sample (l : statics) : string :=
  default EmptyString (nmea_samples !! Z.to_nat (sample_index l)).

Definition wdg_gps_ctrl_incr (w : wdg_counters_t) : wdg_counters_t :=
  {| wdg_flight_ctrl := wdg_flight_ctrl w; wdg_accel := wdg_accel w;
     wdg_battery := wdg_battery w;
     wdg_gps_ctrl := uint32 (wdg_gps_ctrl w + 1); wdg_telemetry := wdg_telemetry w |}.

Definition gps_loop : M statics unit :=
  l ← get_locals;
  let msg := default EmptyString (nmea_samples !! Z.to_nat (sample_index l)) in
  emit (printf "Writing: " []);;
  pending ← (fun p => Some (length (intr p), p));
  completed ← produce (S (String.length msg + pending)) msg 0;
  when completed
    (set_locals (fun l =>
       set_sample_index (size_t (sample_index l + 1) mod nmea_samples_count l) l));;
  store (set_wdg wdg_gps_ctrl_incr);;
  emit (sleep 1).

End GpsCtrl.

(* ================================================================= *)
(** ** telemetry.c *)

Module Telemetry.

Definition TELEMETRY_TIMEOUT_US : Z := 10000.
Definition GPS_WAIT_TIMEOUT_S : Z := 5.

(** [sizeof(msg)] of [char msg[256]]. *)
Definition sizeof_msg : Z := 256.

Record statics := { sock_fd : Z; init : bool }.

Definition initial : statics := {| sock_fd := -1; init := true |}.

Definition set_sock_fd v (l : statics) := {| sock_fd := v; init := init l |}.
Definition set_init v (l : statics) := {| sock_fd := sock_fd l; init := v |}.

(** [%d]. *)
Definition fmt_d (i : Z) : string := NilZero.string_of_int (Z.to_int i).

(** An [unsigned int] argument as [%d] takes it, as an [int]. *)
Definition as_int (z : Z) : Z := (z + 2 ^ 31) mod 2 ^ 32 - 2 ^ 31.

Fixpoint zeros (n : nat) : string :=
  match n with
  | O => EmptyString
  | S n => String "0" (zeros n)
  end.

(** The digits [s] on at least [width] places, with zeros in front. *)
Definition pad0 (width : nat) (s : string) : string :=
  (zeros (width - String.length s) ++ s)%string.

(** [m * 2^e * 10^6] rounded to an integer, ties to even. *)
Definition scaled6 (m : positive) (e : Z) : Z :=
  if 0 <=? e then Z.pos m * 2 ^ e * 10 ^ 6
  else
    let num := Z.pos m * 10 ^ 6 in
    let den := 2 ^ (- e) in
    let q := num / den in
    match Z.compare (2 * (num mod den)) den with
    | Lt => q
    | Gt => q + 1
    | Eq => if Z.even q then q else q + 1
    end.

(** [%.6f] of a [float] argument (promoted to [double], which changes
    no value): the integer part, and six digits of the fraction.  Of a
    NaN [printf] prints the sign bit, which [float] does not keep: it is
    set in the NaN that an invalid operation of the processor gives, the
    only one that the arithmetic of this program can come to, and the
    text is then [-nan]. *)
Definition fmt_f6 (f : float) : string :=
  let sign (s : bool) : string := if s then "-"%string else EmptyString in
  match f with
  | S754_nan => "-nan"
  | S754_infinity s => sign s ++ "inf"
  | S754_zero s => sign s ++ "0.000000"
  | S754_finite s m e =>
      let r := scaled6 m e in
      sign s ++ fmt_d (r / 10 ^ 6) ++ "." ++ pad0 6 (fmt_d (r mod 10 ^ 6))
  end%string.

(** [(int)f]: the fraction is dropped; outside of the range of [int]
    and on NaN the conversion instruction yields [INT_MIN]. *)
Definition int_of_float (f : float) : Z :=
  let r :=
    match f with
    | S754_finite s m e =>
        let a := if 0 <=? e then Z.pos m * 2 ^ e else Z.pos m / 2 ^ (- e) in
        Some (if s then - a else a)
    | S754_zero _ => Some 0
    | _ => None
    end in
  match r with
  | Some v => if (- 2 ^ 31 <=? v) && (v <? 2 ^ 31) then v else - 2 ^ 31
  | None => - 2 ^ 31
  end.

(** [PERCENT(f)]: [(int)(f * 100 + 0.5f)]. *)
Definition PERCENT (f : float) : Z :=
  int_of_float (fadd (fmul f (float_of_Z 100)) (float_lit 1 2)).

Definition ptr (msg : string) : Z := Z.of_nat (String.length msg).

(** [BUF_APPEND(msg, ptr, fmt, ...)], [text] being the expansion of
    [fmt]: [snprintf] is given the [sizeof(msg) - ptr] bytes that are
    left, writes the text and a newline cut to one byte less, and [ptr]
    moves over what was written.  [msg] is the content of the buffer
    below [ptr]. *)
Definition BUF_APPEND (msg text : string) : string :=
  if ptr msg <? sizeof_msg then
    let line := (text ++ nl)%string in
    let _written := Z.of_nat (String.length line) in
    let room := sizeof_msg - ptr msg in
    if 0 <? _written then
      let k := if _written <? room then _written else room - 1 in
      (msg ++ substring 0 (Z.to_nat k) line)%string
    else msg
  else msg.

(** How the socket calls of [try_connect] end: [socket] fails,
    [inet_pton] does not take the address, [connect] fails, or the
    connection is made on the descriptor [fd]. *)
Inductive connect_result :=
| socket_fails
| address_refused
| connect_fails
| connects (fd : Z).

Definition is_connected (r : connect_result) : bool :=
  match r with connects _ => true | _ => false end.

(** [try_connect]: the socket calls are outside of the model, which is
    given their outcome. *)
Definition try_connect (r : connect_result) : M statics bool :=
  let trying :=
    ip ← load operator_ip;
    port ← load telemetry_port;
    emit (printf "Trying TCP connect to %s:%d...\n" [Str ip; Int port]) in
  match r with
  | socket_fails =>
      set_locals (set_sock_fd (-1));;
      emit (perror "telemetry socket()");;
      mret false
  | address_refused =>
      emit (perror "telemetry inet_pton");;
      set_locals (set_sock_fd (-1));;
      mret false
  | connect_fails =>
      trying;;
      emit (perror "Telemetry connect");;
      set_locals (set_sock_fd (-1));;
      mret false
  | connects fd =>
      set_locals (set_sock_fd fd);;
      trying;;
      emit (printf "Connected to operator.\n" []);;
      mret true
  end.

(** Lines 160 to 166 of [telemetry_loop]: one character out of the ring,
    the mutex being held, and the post of [empty]. *)
Definition get_char : M statics ascii :=
  rd ← load (fun s => gps_read (gps s));
  buf ← load (fun s => nmea (gps s));
  let c := default "000"%char (buf !! Z.to_nat rd) in
  store (set_gps (set_gps_read (size_t (rd + 1) mod GPS_BUFFER_SIZE)));;
  sem_post gps_mutex_ref;;
  sem_post gps_empty_ref;;
  mret c.

(** The [while (ptr < sizeof(msg) - 2)] loop over the ring buffer.
    Every turn that does not leave the loop adds one character, so 256
    turns are never used up. *)
Fixpoint drain (fuel : nat) (msg : string) : M statics string :=
  match fuel with
  | O => mret msg
  | S fuel =>
    if ptr msg <? sizeof_msg - 2 then
      r ← sem_timedwait gps_full_ref;
      if fst r =? -1 then
        if snd r =? ETIMEDOUT then
          emit (printf "\n[GPS timeout: no new data]\n" []);;
          let msg := BUF_APPEND msg "NO FIX." in
          write_action Abort;;
          mret msg
        else
          emit (perror "sem_timedwait(full)");;
          mret msg
      else
        r ← sem_timedwait gps_mutex_ref;
        if fst r =? -1 then
          emit (perror "sem_timedwait(mutex)");;
          sem_post gps_full_ref;;
          mret msg
        else
          c ← get_char;
          let msg := (msg ++ String c EmptyString)%string in
          if Ascii.eqb c "010" then mret msg else drain fuel msg
    else mret msg
  end.

Definition wdg_telemetry_incr (w : wdg_counters_t) : wdg_counters_t :=
  {| wdg_flight_ctrl := wdg_flight_ctrl w; wdg_accel := wdg_accel w;
     wdg_battery := wdg_battery w;
     wdg_gps_ctrl := wdg_gps_ctrl w; wdg_telemetry := uint32 (wdg_telemetry w + 1) |}.

(** The lines of the message, as their [BUF_APPEND] formats give them. *)
Definition battery_line (b : Z) : string := "BAT = " ++ fmt_d b ++ "%".
Definition accel_line (a : acceleration_t) : string :=
  "ACCEL = (x: " ++ fmt_f6 (x a) ++ ", y: " ++ fmt_f6 (y a) ++ ", z: " ++ fmt_f6 (z a) ++ ")".
Definition motors_line (m : motors_t) : string :=
  "MOTORS PWM = [" ++ fmt_d (PERCENT (motors0 m)) ++ "%, "
  ++ fmt_d (PERCENT (motors1 m)) ++ "%, "
  ++ fmt_d (PERCENT (motors2 m)) ++ "%, "
  ++ fmt_d (PERCENT (motors3 m)) ++ "%]".
Definition action_line (a : current_action_t) : string := "ACTION = " ++ fmt_d (as_int a).

(** The part of [telemetry_loop] from the first [BUF_APPEND] to the
    [send]: the message of this iteration. *)
Definition compose : M statics string :=
  let msg := EmptyString in
  b ← load battery;
  let msg := BUF_APPEND msg (battery_line b) in
  t ← sem_trywait accel_mutex_ref;
  msg ← (if t =? 0 then
           a ← load (fun s => acceleration (accel s));
           sem_post accel_mutex_ref;;
           mret (BUF_APPEND msg (accel_line a))
         else mret msg);
  t ← sem_trywait pwm_mutex_ref;
  msg ← (if t =? 0 then
           m ← load (fun s => motors (pwm s));
           sem_post pwm_mutex_ref;;
           mret (BUF_APPEND msg (motors_line m))
         else mret msg);
  a ← read_action;
  let msg := BUF_APPEND msg (action_line a) in
  if a =? SampleGPS then
    let msg := BUF_APPEND msg ("GPS {" ++ nl)%string in
    emit (printf "Obtained GPS strings: " []);;
    msg ← drain 256 msg;
    let msg := BUF_APPEND msg (nl ++ "}")%string in
    emit (printf "\n" []);;
    mret msg
  else mret msg.

(** The message as [compose] has it when it comes to the ring in
    [SampleGPS]: the lines that the two [sem_trywait] let it write, and
    the opening of the GPS block. *)
Definition gps_header (s : drone_shared_t) : string :=
  let msg := BUF_APPEND EmptyString (battery_line (battery s)) in
  let msg := if 0 <? accel_mutex (accel s)
             then BUF_APPEND msg (accel_line (acceleration (accel s))) else msg in
  let msg := if 0 <? pwm_mutex (pwm s)
             then BUF_APPEND msg (motors_line (motors (pwm s))) else msg in
  let msg := BUF_APPEND msg (action_line (action_type (action s))) in
  BUF_APPEND msg ("GPS {" ++ nl)%string.

(** None of the three components of the reading is a NaN.  The text
    that [printf] gives a NaN depends on its sign bit; what is stated on
    the text of a message is stated for readings that hold none. *)
Definition numbers (a : acceleration_t) : bool :=
  negb (is_nan (x a)) && negb (is_nan (y a)) && negb (is_nan (z a)).

(** What reading [k] characters does to the ring. *)
Definition consumed (k : Z) (g : gps_shm) : gps_shm :=
  {| gps_mutex := gps_mutex g;
     gps_full := gps_full g - k;
     gps_empty := gps_empty g + k;
     gps_write := gps_write g;
     gps_read := (gps_read g + k) mod GPS_BUFFER_SIZE;
     nmea := nmea g |}.

(** [telemetry_loop]; [connected] is how the socket calls of
    [try_connect] end should it be called, [n] what [send] returns. *)
Definition telemetry_loop (connected : connect_result) (n : Z) : M statics unit :=
  l ← get_locals;
  ok ← (if init l then
          c ← try_connect connected;
          when c (set_locals (set_init false));;
          mret c
        else mret true);
  if (ok : bool) then
    msg ← compose;
    emit (send msg);;
    if n <=? 0 then
      emit (fprintf_stderr "Telemetry send failed, connection lost\n" []);;
      set_locals (set_sock_fd (-1));;
      set_locals (set_init true)
    else
      store (set_wdg wdg_telemetry_incr);;
      emit (usleep TELEMETRY_TIMEOUT_US)
  else
    store (set_wdg wdg_telemetry_incr);;
    emit (usleep TELEMETRY_TIMEOUT_US).

End Telemetry.

(* ================================================================= *)
(** ** flight_ctrl.c *)

Module FlightCtrl.

Definition DELTA_SIMULATION_US : Z := 50000.
Definition DELTA_DECREASE : float := Eval vm_compute in float_lit 1 100.
Definition DELTA_INCREASE : float := Eval vm_compute in float_lit 5 1000.
Definition FLY_THRESH : float := Eval vm_compute in float_lit 7 10.
Definition BIND_RETRY_MS : Z := 2000.
Definition MAX_FLY_TIMEOUT : Z := 10.
Definition ACCEL_STABILIZATION_THRESHOLD : float := Eval vm_compute in float_lit 1 2.

(** The statics of the file and of [flight_loop] that the control flow
    depends on; the socket descriptor and address are left out. *)
Record statics := {
  current_battery : Z;
  last_action : current_action_t;
  last_accel : acceleration_t;
  init : bool;
  now : timespec;
  last_time : timespec;
  fly_timeout : Z }.

Definition initial : statics :=
  {| current_battery := 0; last_action := Reserved;
     last_accel := {| x := f0; y := f0; z := f0 |};
     init := true;
     now := {| tv_sec := 0; tv_nsec := 0 |};
     last_time := {| tv_sec := 0; tv_nsec := 0 |};
     fly_timeout := 0 |}.

Definition set_current_battery v (l : statics) :=
  {| current_battery := v; last_action := last_action l; last_accel := last_accel l;
     init := init l; now := now l; last_time := last_time l; fly_timeout := fly_timeout l |}.
Definition set_last_action v (l : statics) :=
  {| current_battery := current_battery l; last_action := v; last_accel := last_accel l;
     init := init l; now := now l; last_time := last_time l; fly_timeout := fly_timeout l |}.
Definition set_last_accel v (l : statics) :=
  {| current_battery := current_battery l; last_action := last_action l; last_accel := v;
     init := init l; now := now l; last_time := last_time l; fly_timeout := fly_timeout l |}.
Definition set_init v (l : statics) :=
  {| current_battery := current_battery l; last_action := last_action l;
     last_accel := last_accel l;
     init := v; now := now l; last_time := last_time l; fly_timeout := fly_timeout l |}.
Definition set_now v (l : statics) :=
  {| current_battery := current_battery l; last_action := last_action l;
     last_accel := last_accel l;
     init := init l; now := v; last_time := last_time l; fly_timeout := fly_timeout l |}.
Definition set_last_time v (l : statics) :=
  {| current_battery := current_battery l; last_action := last_action l;
     last_accel := last_accel l;
     init := init l; now := now l; last_time := v; fly_timeout := fly_timeout l |}.
Definition set_fly_timeout v (l : statics) :=
  {| current_battery := current_battery l; last_action := last_action l;
     last_accel := last_accel l;
     init := init l; now := now l; last_time := last_time l; fly_timeout := v |}.

(** [sizeof(operator_cmd)]. *)
Definition sizeof_operator_cmd : Z := 4.

(** What one call of [recvfrom] on the non-blocking socket gives: an
    error with its [errno], or the payload of the next datagram. *)
Inductive recv_result :=
| recv_error (errno : Z)
| recv_datagram (payload : list Z).

(** The value of a little-endian byte sequence. *)
Fixpoint le_value (bytes : list Z) : Z :=
  match bytes with
  | [] => 0
  | b :: bytes => b mod 256 + 256 * le_value bytes
  end.

(** The object [old] of four bytes after its first bytes were
    overwritten by [bytes]. *)
Definition overwrite (old : Z) (bytes : list Z) : Z :=
  let n := Z.of_nat (length bytes) in
  le_value bytes + 256 ^ n * (old / 256 ^ n).

(** [recvfrom(sockfd, &operator_cmd, sizeof(operator_cmd), ...)] on a
    datagram: at most [sizeof(operator_cmd)] bytes are copied, the rest
    of the datagram is dropped, and the number of bytes copied is
    returned. *)
Definition recvfrom (operator_cmd : Z) (payload : list Z) : Z * Z :=
  let copied := take (Z.to_nat sizeof_operator_cmd) payload in
  (Z.of_nat (length copied), overwrite operator_cmd copied).

(** The block under the label [_binded]; [rs] lists what the calls of
    [recvfrom] of this iteration give, in order, and the socket has
    nothing to read once the list is used up.  The result is
    [operator_cmd]. *)
Fixpoint receive (rs : list recv_result) (operator_cmd : Z) : M statics Z :=
  match rs with
  | [] => mret operator_cmd
  | recv_error errno :: rs =>
      if errno =? EWOULDBLOCK then mret operator_cmd
      else if (errno =? EAGAIN) || (errno =? EINTR) then receive rs operator_cmd
      else
        write_action Abort;;
        emit (perror "recvfrom");;
        set_locals (set_init true);;
        mret operator_cmd
  | recv_datagram payload :: _ =>
      let '(n, operator_cmd) := recvfrom operator_cmd payload in
      when (n =? sizeof_operator_cmd)
        (emit (printf "Obtained command from operator: %d.\n" [Int operator_cmd]));;
      mret operator_cmd
  end.

(** [printactln]. *)
Definition printactln (a : current_action_t) : M statics unit :=
  let msg : string :=
    if a =? Reserved then "Reserved"%string
    else if a =? Fly then "Fly"%string
    else if a =? SampleGPS then "SampleGPS"%string
    else if a =? Land then "Land"%string
    else if a =? Idle then "Idle"%string
    else if a =? Charge then "Charge"%string
    else if a =? Abort then "Abort"%string
    else "Undefined"%string in
  emit (printf "%s\n" [Str msg]).

Definition motors_map (f : float -> float) (m : motors_t) : motors_t :=
  {| motors0 := f (motors0 m); motors1 := f (motors1 m);
     motors2 := f (motors2 m); motors3 := f (motors3 m) |}.

(** The sum of the loops [for (i = 0; i < 4; ++i) avg += ...], from 0. *)
Definition motors_sum (m : motors_t) : float :=
  fadd (fadd (fadd (fadd f0 (motors0 m)) (motors1 m)) (motors2 m)) (motors3 m).

(** [if (v > 1.0f) v = 1.0f;] *)
Definition clamp_hi (v : float) : float := if flt f1 v then f1 else v.
(** [if (v < 0.0f) v = 0.0f;] *)
Definition clamp_lo (v : float) : float := if flt v f0 then f0 else v.

Definition wdg_flight_ctrl_incr (w : wdg_counters_t) : wdg_counters_t :=
  {| wdg_flight_ctrl := uint32 (wdg_flight_ctrl w + 1); wdg_accel := wdg_accel w;
     wdg_battery := wdg_battery w;
     wdg_gps_ctrl := wdg_gps_ctrl w; wdg_telemetry := wdg_telemetry w |}.

(** [case Fly:] up to its [break]. *)
Definition case_Fly (operator_cmd : Z) : M statics unit :=
  sem_wait pwm_mutex_ref;;
  tmp_m ← load (fun s => motors (pwm s));
  sem_post pwm_mutex_ref;;
  let avg_pwm := fdiv (motors_sum tmp_m) f4 in
  let tmp_m :=
    if flt avg_pwm FLY_THRESH
    then motors_map (fun v => clamp_hi (fadd v DELTA_INCREASE)) tmp_m
    else tmp_m in
  sem_wait accel_mutex_ref;;
  accel ← load (fun s => acceleration (accel s));
  sem_post accel_mutex_ref;;
  let tmp_m :=
    if fle ACCEL_STABILIZATION_THRESHOLD avg_pwm
    then motors_map (fun v => clamp_lo (clamp_hi (fsub v (fadd (x accel) (y accel))))) tmp_m
    else tmp_m in
  sem_wait pwm_mutex_ref;;
  store (set_pwm (set_motors tmp_m));;
  sem_post pwm_mutex_ref;;
  l ← get_locals;
  (if feq (x accel) (x (last_accel l)) && feq (y accel) (y (last_accel l))
      && feq (z accel) (z (last_accel l))
   then
     set_locals (set_fly_timeout (uint8 (fly_timeout l + 1)));;
     l ← get_locals;
     when (MAX_FLY_TIMEOUT <=? fly_timeout l)
       (emit (fprintf_stderr
                "Too much same accelerometer data. Unable to predict current drone movement. Aborting..."
                []);;
        write_action Abort;;
        set_locals (set_fly_timeout 0))
   else set_locals (set_fly_timeout 0));;
  set_locals (set_last_accel accel);;
  when (negb (Z.land operator_cmd (Z.lor SampleGPS (Z.lor Land Abort)) =? 0))
    (write_action operator_cmd).

(** [case Land:] up to its last [break]; [case Abort:] runs into it when
    it does not leave the [switch]. *)
Definition case_Land (current_action operator_cmd : Z) : M statics unit :=
  if negb (Z.land operator_cmd (Z.lor Fly Abort) =? 0) then
    write_action operator_cmd
  else
    sem_wait pwm_mutex_ref;;
    m ← load (fun s => motors (pwm s));
    let m := motors_map (fun current => clamp_lo (fsub current DELTA_DECREASE)) m in
    store (set_pwm (set_motors m));;
    let avg := fdiv (motors_sum m) f4 in
    emit (printf "Landing: Average motor PWM: %f%%.\n" [Flt avg]);;
    when (feq avg f0)
      (rwlock_write_lock;;
       (if current_action =? Abort then
          emit (printf "Landing while Abort: Set to Charge.\n" []);;
          store (set_action (set_action_type Charge))
        else
          emit (printf "Landing: Set to Idle.\n" []);;
          store (set_action (set_action_type Idle)));;
       rwlock_write_unlock);;
    sem_post pwm_mutex_ref.

(** [case Abort:]. *)
Definition case_Abort (current_action operator_cmd : Z) : M statics unit :=
  b ← load battery;
  set_locals (set_current_battery b);;
  if b <? 15 then
    write_action Charge
  else
    emit (printf "Changing to previous action." []);;
    l ← get_locals;
    write_action (last_action l);;
    case_Land current_action operator_cmd.

(** The [switch (current_action)]. *)
Definition dispatch (current_action operator_cmd : Z) : M statics unit :=
  if current_action =? Fly then case_Fly operator_cmd
  else if current_action =? SampleGPS then
    when (negb (Z.land operator_cmd (Z.lor Fly Abort) =? 0)) (write_action operator_cmd)
  else if current_action =? Idle then
    when (negb (Z.land operator_cmd (Z.lor Fly (Z.lor Charge Abort)) =? 0))
      (write_action operator_cmd)
  else if current_action =? Charge then
    when (negb (Z.land operator_cmd (Z.lor Idle Abort) =? 0))
      (b ← load battery;
       set_locals (set_current_battery b);;
       if 15 <=? b then write_action operator_cmd
       else emit (printf "Charging: Battery below 15%%, ignoring operator commands.\n" []))
  else if current_action =? Abort then case_Abort current_action operator_cmd
  else if current_action =? Land then case_Land current_action operator_cmd
  else
    emit (fprintf_stderr
            "Unexpected state value obtained: %d. Switching to `Abort` due to undefined behavior.\n."
            [Int current_action]);;
    write_action Abort.

(** [flight_loop]; [clock] is what [clock_gettime] returns, [bound] the
    result of [try_bind] should it be called, [rs] what the calls of
    [recvfrom] give. *)
Definition flight_loop (clock : timespec) (bound : bool) (rs : list recv_result)
  : M statics unit :=
  let operator_cmd := Reserved in
  set_locals (set_now clock);;
  l ← get_locals;
  let elapsed_ms := elapsed (now l) (last_time l) in
  operator_cmd ←
    (if init l then
       binded ←
         (if BIND_RETRY_MS <=? elapsed_ms then
            emit (printf "Connection is not initialized. Trying to bind... " []);;
            if bound then
              emit (printf "Socket bind complete..\n" []);;
              set_locals (set_init false);;
              mret true
            else mret false
          else mret false);
       if (binded : bool) then receive rs operator_cmd
       else set_locals (set_last_time (now l));; mret operator_cmd
     else receive rs operator_cmd);
  current_action ← read_action;
  l ← get_locals;
  when (negb (current_action =? last_action l))
    (emit (printf "Current state: " []);;
     printactln current_action;;
     set_locals (set_last_action current_action));;
  dispatch current_action operator_cmd;;
  store (set_wdg wdg_flight_ctrl_incr);;
  emit (usleep DELTA_SIMULATION_US).

(** Does the iteration at [clock] reach the [recvfrom] under [_binded]:
    the socket is bound, or it is bound in this very iteration. *)
Definition listening (clock : timespec) (bound : bool) (l : statics) : bool :=
  negb (init l) || ((BIND_RETRY_MS <=? elapsed clock (last_time l)) && bound).

End FlightCtrl.


(* ================================================================= *)
(** ** operator.c *)

Module Operator.

(** The payload of [sendto(udp_fd, &action, sizeof(action), ...)]: the four
    bytes of the enum object. *)
Definition datagram (action : current_action_t) : list Z :=
  [ action mod 256; (action / 256) mod 256; (action / 256 ^ 2) mod 256;
    (action / 256 ^ 3) mod 256 ].

End Operator.

(* ================================================================= *)
(** ** Scenarios *)

(** The region as [init_drone_shm] leaves it. *)
Definition fresh_shm : drone_shared_t := DroneSys.init_drone_shm DroneSys.zeroed.

Definition at_time (s ns : Z) : timespec := {| tv_sec := s; tv_nsec := ns |}.

(** The battery process in state [a] with the charge at [charge], its last
    step made at [last]. *)
Definition battery_proc (a : current_action_t) (charge : Z) (last : timespec)
  : proc Battery.statics :=
  Proc (Battery.set_init false (Battery.set_last_time last Battery.initial))
       (set_action (set_action_type a) (set_battery charge fresh_shm)) [] [].

(** The flight controller, bound to its socket, finding the region in
    state [a] with the charge at [charge] and the motors at [m]. *)
Definition flight_proc (a : current_action_t) (charge : Z) (m : motors_t)
  : proc FlightCtrl.statics :=
  Proc (FlightCtrl.set_init false FlightCtrl.initial)
       (set_pwm (set_motors m) (set_action (set_action_type a) (set_battery charge fresh_shm)))
       [] [].

Definition all_motors (v : float) : motors_t :=
  {| motors0 := v; motors1 := v; motors2 := v; motors3 := v |}.

(** 0.5f. *)
Definition half : float := FlightCtrl.ACCEL_STABILIZATION_THRESHOLD.

(** The flight controller that saw [Fly] in its last iteration and now
    finds [Abort] at a charge of 50, the motors at one half. *)
Definition aborted_in_flight : proc FlightCtrl.statics :=
  Proc (FlightCtrl.set_last_action Fly (FlightCtrl.set_init false FlightCtrl.initial))
       (set_pwm (set_motors (all_motors half))
          (set_action (set_action_type Abort) (set_battery 50 fresh_shm)))
       [] [].

(** [n] iterations of a loop function, one after the other. *)
Fixpoint iterate {L : Type} (n : nat) (c : M L unit) (p : proc L) : option (proc L) :=
  match n with
  | O => Some p
  | S n =>
      match c p with
      | Some (_, p') => iterate n c p'
      | None => None
      end
  end.

(** Another process takes its turn on the region that [p] leaves. *)
Definition turn_of {L1 L2 : Type} (l : L2) (p : proc L1) : proc L2 := Proc l (shm p) [] [].

(** The producer after 21 iterations on the untouched ring of a region in
    [SampleGPS]: 1226 characters are pending, 54 slots are left, and the
    next sample has 55 characters. *)
Definition ring_nearly_full : proc GpsCtrl.statics :=
  Eval vm_compute in
    default (Proc GpsCtrl.initial fresh_shm [] [])
      (iterate 21 GpsCtrl.gps_loop
         (Proc GpsCtrl.initial (set_action (set_action_type SampleGPS) fresh_shm) [] [])).

(** The telemetry process with its connection up. *)
Definition connected : Telemetry.statics := Telemetry.set_init false Telemetry.initial.

(** The region in [SampleGPS] after a producer that was started three
    times on the untouched ring and stopped each time in the middle of its
    first sample: after 65, 65 and [n] characters, the line end never
    written.  With [n] at most 65, [130 + n] characters are pending. *)
Definition stalled_ring (n : nat) : proc Telemetry.statics :=
  let cs := list_ascii_of_string (GpsCtrl.current_sample GpsCtrl.initial) in
  Proc connected
       (GpsCtrl.ring_puts (take 65 cs ++ take 65 cs ++ take n cs)
          (set_action (set_action_type SampleGPS) fresh_shm))
       [] [].

(** The same with the drone in the air: the motors at 0.505 and a
    reading of the accelerometer of -0.09298, 0.05 and 9.81. *)
Definition stalled_ring_in_air (n : nat) : proc Telemetry.statics :=
  Proc connected
       (set_accel (set_acceleration {| x := float_lit (-9298) 100000;
                                       y := float_lit 5 100;
                                       z := float_lit 981 100 |})
          (set_pwm (set_motors (all_motors (float_lit 505 1000)))
             (shm (stalled_ring n))))
       [] [].

(** The telemetry process that has read 1279 characters of a ring of
    which every slot was written: its read index is at the last slot. *)
Definition reader_at_last_slot : proc Telemetry.statics :=
  Proc connected
       (set_gps (Telemetry.consumed 1279)
          (GpsCtrl.ring_puts
             (take 54 (list_ascii_of_string (GpsCtrl.current_sample (locals ring_nearly_full))))
             (shm ring_nearly_full)))
       [] [].

(** The producer of [ring_nearly_full] 53 characters further: its write
    index is at the last slot. *)
Definition writer_at_last_slot : proc GpsCtrl.statics :=
  Proc (locals ring_nearly_full)
       (GpsCtrl.ring_puts
          (take 53 (list_ascii_of_string (GpsCtrl.current_sample (locals ring_nearly_full))))
          (shm ring_nearly_full))
       [] [].

(* ================================================================= *)
(** ** Predicates of the statements *)

(** What every run of the consumer keeps: the write index and the content
    of the ring, and a read index that went round the ring by the number of
    slots given back to [empty]. *)
Definition consumer_inv (p p' : proc Telemetry.statics) : Prop :=
  gps_write (gps (shm p')) = gps_write (gps (shm p)) /\
  nmea (gps (shm p')) = nmea (gps (shm p)) /\
  0 <= gps_read (gps (shm p')) < GPS_BUFFER_SIZE /\
  0 <= gps_empty (gps (shm p')) - gps_empty (gps (shm p)) /\
  gps_read (gps (shm p')) =
    (gps_read (gps (shm p)) + (gps_empty (gps (shm p')) - gps_empty (gps (shm p))))
    mod GPS_BUFFER_SIZE.

(** [0 <= v && v <= 1] of C. *)
Definition in_unit (v : float) : bool := fle f0 v && fle v f1.

(** The four components of the motor vector. *)
Definition motors_all (P : float -> bool) (m : motors_t) : bool :=
  P (motors0 m) && P (motors1 m) && P (motors2 m) && P (motors3 m).

(** A number of sign [s]: not a NaN. *)
Definition has_sign (s : bool) (r : float) : bool :=
  match r with
  | S754_nan => false
  | S754_zero s' | S754_infinity s' | S754_finite s' _ _ => Bool.eqb s' s
  end.

(** A value of the format in the unit interval. *)
Definition pwm_ok (v : float) : bool := is_float v && in_unit v.

(* ================================================================= *)
(** ** operator.c: the command line *)

Module OperatorConsole.

(** The C string that starts at the first character of [s]: the
    characters before the first NUL. *)
Fixpoint c_string (s : string) : string :=
  match s with
  | EmptyString => EmptyString
  | String c s => if Ascii.eqb c "000" then EmptyString else String c (c_string s)
  end.

(** [strncpy(tmp, cmd, n); tmp[n] = 0;] for a [tmp] of [n + 1] bytes: the
    first [n] characters of the C string. *)
Fixpoint strncpy (n : nat) (src : string) : string :=
  match n, src with
  | S n, String c src => String c (strncpy n src)
  | _, _ => EmptyString
  end.

(** [tolower] in the C locale, which is the one of a program that never
    calls [setlocale]. *)
Definition tolower (c : ascii) : ascii :=
  let n := nat_of_ascii c in
  if (65 <=? n)%nat && (n <=? 90)%nat then ascii_of_nat (n + 32) else c.

(** [str_tolower] on a C string. *)
Fixpoint str_tolower (s : string) : string :=
  match s with
  | EmptyString => EmptyString
  | String c s => String (tolower c) (str_tolower s)
  end.

(** [if (len > 0 && tmp[len - 1] == '\n') tmp[len - 1] = 0;] *)
Fixpoint chomp (s : string) : string :=
  match s with
  | EmptyString => EmptyString
  | String c EmptyString => if Ascii.eqb c "010" then EmptyString else s
  | String c s => String c (chomp s)
  end.

(** [get_action_from_cmd]: the action stored through [out_action] when
    the function returns 1, [None] when it returns 0. *)
Definition get_action_from_cmd (cmd : string) : option current_action_t :=
  let tmp := strncpy 31 (c_string cmd) in
  let tmp := chomp tmp in
  let tmp := str_tolower tmp in
  if String.eqb tmp "samplegps" then Some SampleGPS
  else if String.eqb tmp "fly" then Some Fly
  else if String.eqb tmp "land" then Some Land
  else if String.eqb tmp "idle" then Some Idle
  else if String.eqb tmp "charge" then Some Charge
  else if String.eqb tmp "abort" then Some Abort
  else None.

(** The string that [printactln] prints for [a]. *)
Definition action_name (a : current_action_t) : string :=
  if a =? Reserved then "Reserved"
  else if a =? Fly then "Fly"
  else if a =? SampleGPS then "SampleGPS"
  else if a =? Land then "Land"
  else if a =? Idle then "Idle"
  else if a =? Charge then "Charge"
  else if a =? Abort then "Abort"
  else "Undefined".

(** What [main] hands to [sendto] for a line that [fgets] read from the
    standard input: the datagram of the action when
    [get_action_from_cmd] accepts the line, nothing otherwise. *)
Definition command_datagram (cmdline : string) : option (list Z) :=
  match get_action_from_cmd cmdline with
  | Some action => Some (Operator.datagram action)
  | None => None
  end.

End OperatorConsole.

(* ================================================================= *)
(** ** Runs *)

(** The iterations of a loop function at the successive readings of its
    clock. *)
Fixpoint run_ticks {L : Type} (step : timespec -> M L unit) (clocks : list timespec)
    (p : proc L) : option (proc L) :=
  match clocks with
  | [] => Some p
  | c :: cs =>
      match step c p with
      | Some (_, p') => run_ticks step cs p'
      | None => None
      end
  end.

(** Every reading of the clock is less than [ms] milliseconds after the
    one before, the first one after [last]. *)
Fixpoint gaps_below (ms : Z) (last : timespec) (clocks : list timespec) : Prop :=
  match clocks with
  | [] => True
  | c :: cs => elapsed c last < ms /\ gaps_below ms c cs
  end.

(** The controller, bound, that finds the region in [Fly] with the locks
    free, and reads from the accelerometer the numbers [a] that it read
    the time before, for the [t]-th time in a row. *)
Definition stalled_in_flight (a : acceleration_t) (t : Z) (p : proc FlightCtrl.statics)
  : Prop :=
  FlightCtrl.init (locals p) = false /\
  action_lock_free (shm p) /\
  action_type (action (shm p)) = Fly /\
  pwm_mutex (pwm (shm p)) = 1 /\
  accel_mutex (accel (shm p)) = 1 /\
  acceleration (accel (shm p)) = a /\
  FlightCtrl.last_accel (locals p) = a /\
  feq (x a) (x a) && feq (y a) (y a) && feq (z a) (z a) = true /\
  FlightCtrl.fly_timeout (locals p) = t.

(** The flight controller whose bind failed at second 100, the region in
    [Idle]. *)
Definition unbound_controller : proc FlightCtrl.statics :=
  Proc (FlightCtrl.set_last_time (at_time 100 0) FlightCtrl.initial) fresh_shm [] [].

(** Four iterations of it, the last one 4.8 seconds after the failed
    bind, none 2 seconds after the one before. *)
Definition slow_clocks : list timespec :=
  [ at_time 100 50000000; at_time 101 900000000; at_time 103 0; at_time 104 800000000 ].

(* ================================================================= *)
(** ** watchdog.c *)

Module Watchdog.

Definition WDG_SLEEP_US : Z := 100000.
Definition WDG_TIMEOUT_MS : Z := 2000.

(** [struct timeval]. *)
Record timeval := { tv_sec : Z; tv_usec : Z }.

(** [unsigned long], 64 bits wide on the Linux targets. *)
Definition ulong (z : Z) : Z := z mod 2 ^ 64.

(** [get_time_ms]; [tv] is what [gettimeofday] stores.  The sum is made
    in [unsigned long] and returned as [uint32_t]. *)
Definition get_time_ms (tv : timeval) : Z :=
  uint32 (ulong (ulong (ulong (tv_sec tv) * 1000) + ulong (tv_usec tv) / 1000)).

(** The statics of [watchdog_loop]: two arrays of five. *)
Record statics := {
  old : list Z;
  last_change_time : list Z }.

Definition initial : statics :=
  {| old := replicate 5 0; last_change_time := replicate 5 0 |}.

Definition set_old (f : list Z -> list Z) (l : statics) :=
  {| old := f (old l); last_change_time := last_change_time l |}.
Definition set_last_change_time (f : list Z -> list Z) (l : statics) :=
  {| old := old l; last_change_time := f (last_change_time l) |}.

(** [a[i]] for an index inside the array; the loops below use no other. *)
Definition at_index (a : list Z) (i : nat) : Z := default 0 (a !! i).

(** Lines 40 to 43: [n] more rounds of the first loop, the next for index
    [i]; [times k] is what the [k]-th call of [gettimeofday] stores. *)
Fixpoint start (n : nat) (i : nat) (times : nat -> timeval) : M statics unit :=
  match n with
  | O => mret tt
  | S n =>
      set_locals (set_last_change_time (<[i := get_time_ms (times i)]>));;
      set_locals (set_old (<[i := 0]>));;
      start n (S i) times
  end.

(** Lines 46 to 52: the array [new]. *)
Definition new_counters (w : wdg_counters_t) : list Z :=
  [ wdg_accel w; wdg_battery w; wdg_gps_ctrl w; wdg_telemetry w; wdg_flight_ctrl w ].

(** Lines 56 to 68: [n] more rounds of the inner loop, the next for index
    [i].  Returns [true] when the function returned from inside the loop. *)
Fixpoint scan (n : nat) (i : nat) (new : list Z) (now : Z) (ppid : Z) : M statics bool :=
  match n with
  | O => mret false
  | S n =>
      l ← get_locals;
      if negb (at_index new i =? at_index (old l) i) then
        set_locals (set_last_change_time (<[i := now]>));;
        set_locals (set_old (<[i := at_index new i]>));;
        scan n (S i) new now ppid
      else if WDG_TIMEOUT_MS <=? ulong (now - at_index (last_change_time l) i) then
        emit (printf "Process %d heartbeat timeout! Sending SIGUSR1 to parent %d\n"
                [Int (Z.of_nat i); Int ppid]);;
        emit (kill ppid SIGUSR1);;
        mret true
      else
        set_locals (set_old (<[i := at_index new i]>));;
        scan n (S i) new now ppid
  end.

(** One round of [while (1)]; [tv] is what [gettimeofday] stores, [ppid]
    what [getppid] returns.  Returns [true] when the function returned. *)
Definition pass (ppid : Z) (tv : timeval) : M statics bool :=
  w ← load wdg;
  let new := new_counters w in
  let now := get_time_ms tv in
  fired ← scan 5 0 new now ppid;
  if (fired : bool) then mret true
  else emit (usleep WDG_SLEEP_US);; mret false.

(** The rounds of [while (1)] for which [rounds] has the clock and the
    heartbeat counters as the five actors have left them in the region
    when the round reads them.  Returns [true] when the function returned,
    [false] when it is still in its loop after the last of [rounds]. *)
Fixpoint passes (ppid : Z) (rounds : list (timeval * wdg_counters_t)) : M statics bool :=
  match rounds with
  | [] => mret false
  | (tv, w) :: rounds =>
      store (set_wdg (fun _ => w));;
      fired ← pass ppid tv;
      if (fired : bool) then mret true else passes ppid rounds
  end.

(** [watchdog_loop]. *)
Definition watchdog_loop (ppid : Z) (times : nat -> timeval)
    (rounds : list (timeval * wdg_counters_t)) : M statics bool :=
  start 5 0 times;;
  passes ppid rounds.

(** Every counter of [w] differs from the one of [prev]. *)
Definition all_changed (prev w : wdg_counters_t) : Prop :=
  wdg_accel w <> wdg_accel prev /\ wdg_battery w <> wdg_battery prev /\
  wdg_gps_ctrl w <> wdg_gps_ctrl prev /\ wdg_telemetry w <> wdg_telemetry prev /\
  wdg_flight_ctrl w <> wdg_flight_ctrl prev.

(** In every round all five counters differ from the round before, the
    first from [prev]. *)
Fixpoint all_alive (prev : wdg_counters_t) (rounds : list (timeval * wdg_counters_t)) : Prop :=
  match rounds with
  | [] => True
  | (_, w) :: rounds => all_changed prev w /\ all_alive w rounds
  end.

(** Of the five counters the one at index [i] is the same in [w] and in
    [prev], the four others differ. *)
Definition only_stuck (i : nat) (prev w : wdg_counters_t) : Prop :=
  forall j : nat, (j < 5)%nat ->
    (at_index (new_counters w) j = at_index (new_counters prev) j <-> j = i).

(** In every round the counter at index [i] is still the one of [prev]
    and the four others differ from the round before. *)
Fixpoint stuck_since (i : nat) (prev : wdg_counters_t)
    (rounds : list (timeval * wdg_counters_t)) : Prop :=
  match rounds with
  | [] => True
  | (_, w) :: rounds => only_stuck i prev w /\ stuck_since i w rounds
  end.

End Watchdog.

(** The counters before the first heartbeat. *)
Definition no_heartbeat : wdg_counters_t :=
  {| wdg_flight_ctrl := 0; wdg_accel := 0; wdg_battery := 0;
     wdg_gps_ctrl := 0; wdg_telemetry := 0 |}.

(** The two arrays of the watchdog have their five elements. *)
Definition arrays_of_five (l : Watchdog.statics) : Prop :=
  length (Watchdog.old l) = 5%nat /\ length (Watchdog.last_change_time l) = 5%nat.

(** Heartbeat counters: [n] for the four actors that count, [telemetry]
    for the telemetry. *)
Definition counters (n telemetry : Z) : wdg_counters_t :=
  {| wdg_flight_ctrl := n; wdg_accel := n; wdg_battery := n;
     wdg_gps_ctrl := n; wdg_telemetry := telemetry |}.

(** The watchdog that saw all five counters change to [w] in a round at
    millisecond [t]. *)
Definition watching (t : Z) (w : wdg_counters_t) : proc Watchdog.statics :=
  Proc {| Watchdog.old := Watchdog.new_counters w;
          Watchdog.last_change_time := replicate 5 t |}
       (set_wdg (fun _ => w) fresh_shm) [] [].

Definition at_ms (s ms : Z) : Watchdog.timeval :=
  {| Watchdog.tv_sec := s; Watchdog.tv_usec := ms * 1000 |}.

(** Two readings of the clock, 100 milliseconds apart, in June 2024: the
    milliseconds since the epoch reach [400 * 2 ^ 32] at the second. *)
Definition before_wrap : Watchdog.timeval := at_ms 1717986918 300.
Definition after_wrap : Watchdog.timeval := at_ms 1717986918 400.

(* ================================================================= *)
(** ** The ring buffer between gps_ctrl.c and telemetry.c *)

(** The two counting semaphores and the two indices of the ring agree:
    [full] and [empty] share the slots of the array between them, and the
    write index is [full] slots ahead of the read index. *)
Definition ring_consistent (g : gps_shm) : Prop :=
  0 <= gps_full g /\ 0 <= gps_empty g /\
  gps_full g + gps_empty g = GPS_BUFFER_SIZE /\
  0 <= gps_read g < GPS_BUFFER_SIZE /\
  gps_write g = (gps_read g + gps_full g) mod GPS_BUFFER_SIZE.

(** One iteration of the producer or of the consumer, from the region it
    finds to the region it leaves, whatever its statics, the signals that
    interrupt its waits and the outcome of its socket calls. *)
Inductive ring_step : drone_shared_t -> drone_shared_t -> Prop :=
| gps_iteration (p p' : proc GpsCtrl.statics) :
    GpsCtrl.gps_loop p = Some (tt, p') -> ring_step (shm p) (shm p')
| telemetry_iteration (conn : Telemetry.connect_result) (n : Z) (p p' : proc Telemetry.statics) :
    Telemetry.telemetry_loop conn n p = Some (tt, p') -> ring_step (shm p) (shm p').

(** Iterations of the two, one after the other in any order. *)
Inductive ring_run : drone_shared_t -> drone_shared_t -> Prop :=
| ring_run_refl (s : drone_shared_t) : ring_run s s
| ring_run_step (s s' s'' : drone_shared_t) :
    ring_step s s' -> ring_run s' s'' -> ring_run s s''.

(** The region in [SampleGPS], untouched otherwise. *)
Definition sampling_shm : drone_shared_t := set_action (set_action_type SampleGPS) fresh_shm.

(** The same with the drone in the air: the motors at 0.505 and a
    reading of the accelerometer of -0.09298, 0.05 and 9.81. *)
Definition sampling_in_air : drone_shared_t :=
  set_accel (set_acceleration {| x := float_lit (-9298) 100000;
                                 y := float_lit 5 100;
                                 z := float_lit 981 100 |})
    (set_pwm (set_motors (all_motors (float_lit 505 1000))) sampling_shm).

(** The telemetry, connected, on the region that the producer of
    [ring_nearly_full] leaves. *)
Definition telemetry_turn : proc Telemetry.statics := turn_of connected ring_nearly_full.

(** The supervisor on the same region. *)
Definition supervisor_turn : proc DroneSys.statics := turn_of {| DroneSys.sigterm := 0; DroneSys.sigchld := 0 |} ring_nearly_full.

(* ================================================================= *)
(** ** The reader-writer lock with several readers *)

(** The lock as [c] readers that hold it leave it: the semaphore of the
    counter free, the one of the writers taken as soon as there is a
    reader. *)
Definition held_by (c : Z) : rw_lock_t :=
  {| read := 1; write := (if c =? 0 then 1 else 0); read_counter := c |}.

(** The region with [k] for the lock of [action]. *)
Definition with_lock (k : rw_lock_t) (s : drone_shared_t) : drone_shared_t :=
  set_action (set_action_lock (fun _ => k)) s.

(* ================================================================= *)
(** ** The drone on the ground *)

(** A zero of either sign. *)
Definition is_zero (v : float) : bool :=
  match v with S754_zero _ => true | _ => false end.

(** The four motors are off. *)
Definition at_rest (m : motors_t) : bool := motors_all is_zero m.

(* ================================================================= *)
(** ** accelerometer.c *)

Module Accelerometer.

(** [9.81f], [2.0f] and [0.2f]; [MAX_THRUST] is the token sequence
    [9.81f * 2.0f], which the expressions below have in its place. *)
Definition g : float := Eval vm_compute in float_lit 981 100.
Definition f2 : float := Eval vm_compute in float_of_Z 2.
Definition DIFF_FACTOR : float := Eval vm_compute in float_lit 2 10.

(** The statics of the file that [accel_loop] uses. *)
Record statics := { acc : acceleration_t; m : motors_t }.

Definition set_acc (v : acceleration_t) (l : statics) := {| acc := v; m := m l |}.
Definition set_m (v : motors_t) (l : statics) := {| acc := acc l; m := v |}.

Definition wdg_accel_incr (w : wdg_counters_t) : wdg_counters_t :=
  {| wdg_flight_ctrl := wdg_flight_ctrl w; wdg_accel := uint32 (wdg_accel w + 1);
     wdg_battery := wdg_battery w;
     wdg_gps_ctrl := wdg_gps_ctrl w; wdg_telemetry := wdg_telemetry w |}.

(** [(m0 + m1 + m2 + m3) * MAX_THRUST]. *)
Definition thrust (m : motors_t) : float :=
  fmul (fmul (fadd (fadd (fadd (motors0 m) (motors1 m)) (motors2 m)) (motors3 m)) g) f2.

(** [(m1 + m3 - m0 - m2) * (MAX_THRUST * DIFF_FACTOR)]. *)
Definition roll_acc (m : motors_t) : float :=
  fmul (fsub (fsub (fadd (motors1 m) (motors3 m)) (motors0 m)) (motors2 m))
       (fmul (fmul g f2) DIFF_FACTOR).

(** [(m2 + m3 - m0 - m1) * (MAX_THRUST * DIFF_FACTOR)]. *)
Definition pitch_acc (m : motors_t) : float :=
  fmul (fsub (fsub (fadd (motors2 m) (motors3 m)) (motors0 m)) (motors1 m))
       (fmul (fmul g f2) DIFF_FACTOR).

(** [accel_loop]; [noise_x], [noise_y] and [noise_z] are what the three
    calls of [gauss_noise] return, which draws them from [rand]. *)
Definition accel_loop (noise_x noise_y noise_z : float) : M statics unit :=
  sem_wait pwm_mutex_ref;;
  motors ← load (fun s => motors (pwm s));
  set_locals (set_m motors);;
  sem_post pwm_mutex_ref;;
  l ← get_locals;
  set_locals (set_acc {| x := fadd (roll_acc (m l)) noise_x;
                         y := fadd (pitch_acc (m l)) noise_y;
                         z := fadd (fsub (thrust (m l)) g) noise_z |});;
  l ← get_locals;
  emit (printf "Accelerometer sample: [x: %f, y: %f, z: %f];\n"
          [Flt (x (acc l)); Flt (y (acc l)); Flt (z (acc l))]);;
  sem_wait accel_mutex_ref;;
  store (set_accel (set_acceleration (acc l)));;
  sem_post accel_mutex_ref;;
  store (set_wdg wdg_accel_incr);;
  emit (usleep 10000).

End Accelerometer.

(** A number of the format: a zero or a finite value, no infinity and no
    NaN. *)
Definition is_finite (v : float) : bool :=
  match v with S754_zero _ | S754_finite _ _ _ => true | _ => false end.

(** The accelerometer process on the region of the flight controller
    flying at one half. *)
Definition accel_turn : proc Accelerometer.statics :=
  Proc {| Accelerometer.acc := {| x := f0; y := f0; z := f0 |};
          Accelerometer.m := all_motors f0 |}
       (shm (flight_proc Fly 50 (all_motors half))) [] [].

(* ================================================================= *)
(** ** A lock that is never given back *)

(** The semaphore of the writers is taken and no reader is counted: a
    writer holds the lock of [action]. *)
Definition writer_holds (s : drone_shared_t) : Prop :=
  write (action_lock (action s)) <= 0 /\ read_counter (action_lock (action s)) = 0.

(** The supervisor on the region that the flight controller left when it
    was killed between [rwlock_write_lock] and [rwlock_write_unlock]. *)
Definition killed_in_write : proc DroneSys.statics :=
  Proc {| DroneSys.sigterm := 0; DroneSys.sigchld := 0 |}
       (set_action (set_action_lock (set_write 0)) (shm (flight_proc Fly 50 (all_motors half))))
       [] [].

(** The lock of [action] and the two mutexes of the flight controller are
    free. *)
Definition locks_free (s : drone_shared_t) : Prop :=
  action_lock_free s /\ pwm_mutex (pwm s) = 1 /\ accel_mutex (accel s) = 1.

(* ================================================================= *)
(** ** Who writes what *)

(** The five actors that work on the region. *)
Inductive actor := FlightActor | BatteryActor | GpsActor | TelemetryActor | AccelActor.

(** One iteration of the loop function of an actor, from the region it
    finds to the region it leaves, whatever its statics and what comes
    from outside. *)
Inductive actor_step : actor -> drone_shared_t -> drone_shared_t -> Prop :=
| by_flight (clock : timespec) (bound : bool) (rs : list FlightCtrl.recv_result)
    (p p' : proc FlightCtrl.statics) :
    FlightCtrl.flight_loop clock bound rs p = Some (tt, p') ->
    actor_step FlightActor (shm p) (shm p')
| by_battery (clock : timespec) (p p' : proc Battery.statics) :
    Battery.battery_loop clock p = Some (tt, p') ->
    actor_step BatteryActor (shm p) (shm p')
| by_gps (p p' : proc GpsCtrl.statics) :
    GpsCtrl.gps_loop p = Some (tt, p') ->
    actor_step GpsActor (shm p) (shm p')
| by_telemetry (conn : Telemetry.connect_result) (n : Z) (p p' : proc Telemetry.statics) :
    Telemetry.telemetry_loop conn n p = Some (tt, p') ->
    actor_step TelemetryActor (shm p) (shm p')
| by_accel (noise_x noise_y noise_z : float) (p p' : proc Accelerometer.statics) :
    Accelerometer.accel_loop noise_x noise_y noise_z p = Some (tt, p') ->
    actor_step AccelActor (shm p) (shm p').

(* ================================================================= *)
(** ** Runs of the system *)

(** A zero, or a finite value below [2 ^ k] in magnitude. *)
Definition below (k : Z) (v : float) : bool :=
  match v with
  | S754_zero _ => true
  | S754_finite _ m e => Z.pos (digits2_pos m) + e <=? k
  | _ => false
  end.

(** What [gauss_noise] returns: a value of the format below one in
    magnitude.  [u1] is at least [1 / 2^31], which keeps
    [sqrtf(-2.0f * logf(u1))] below 7, the standard deviations are 0.02
    and 0.05, and the cosine is at most one. *)
Definition gauss_range (v : float) : bool := is_float v && below 0 v.

(** The three components of a reading are values of the format, none an
    infinity or a NaN. *)
Definition reading_ok (a : acceleration_t) : bool :=
  (is_float (x a) && is_finite (x a)) && (is_float (y a) && is_finite (y a))
  && (is_float (z a) && is_finite (z a)).

(** The region holds motor values of the unit interval and a finite
    reading, as the one that [init_drone_shm] leaves does. *)
Definition airworthy (s : drone_shared_t) : bool :=
  motors_all pwm_ok (motors (pwm s)) && reading_ok (acceleration (accel s)).

(** One step of the system on the region: an iteration of the loop
    function of one of the five actors, the accelerometer with the noise
    that [gauss_noise] gives it, or the supervisor that runs
    [sigusr1_handler]. *)
Inductive drone_step : drone_shared_t -> drone_shared_t -> Prop :=
| step_sensor (noise_x noise_y noise_z : float) (p p' : proc Accelerometer.statics) :
    gauss_range noise_x = true -> gauss_range noise_y = true ->
    gauss_range noise_z = true ->
    Accelerometer.accel_loop noise_x noise_y noise_z p = Some (tt, p') ->
    drone_step (shm p) (shm p')
| step_actor (who : actor) (s s' : drone_shared_t) :
    who <> AccelActor -> actor_step who s s' -> drone_step s s'
| step_reinit (p p' : proc DroneSys.statics) :
    DroneSys.sigusr1_handler p = Some (tt, p') -> drone_step (shm p) (shm p').

(** The regions that the system comes to from [s]. *)
Inductive drone_run (s : drone_shared_t) : drone_shared_t -> Prop :=
| run_start : drone_run s s
| run_step (s1 s2 : drone_shared_t) :
    drone_run s s1 -> drone_step s1 s2 -> drone_run s s2.

(** The region of a flight at one half, on which the accelerometer and
    then the flight controller take their turn. *)
Definition sensed_flight : drone_shared_t := shm (flight_proc Fly 50 (all_motors half)).
(* ################################################################# *)
(** * Properties *)

(** Symbolic execution of a process computation. *)
Ltac msimpl :=
  repeat (progress (unfold mbind, M_bind, mret, M_ret, when, get_locals, set_locals,
                    load, store, emit, blocked, next_intr; cbn)).

(** Boolean tests in the context become arithmetic facts. *)
Ltac tests :=
  repeat match goal with
  | H : (_ <=? _) = true |- _ => apply Z.leb_le in H
  | H : (_ <=? _) = false |- _ => apply Z.leb_gt in H
  | H : (_ <? _) = true |- _ => apply Z.ltb_lt in H
  | H : (_ <? _) = false |- _ => apply Z.ltb_ge in H
  | H : (_ =? _) = true |- _ => apply Z.eqb_eq in H
  | H : (_ =? _) = false |- _ => apply Z.eqb_neq in H
  | H : negb _ = true |- _ => apply negb_true_iff in H
  | H : negb _ = false |- _ => apply negb_false_iff in H
  | H : _ && _ = true |- _ => apply andb_true_iff in H; destruct H
  | H : _ && _ = false |- _ => apply andb_false_iff in H; destruct H
  | H : _ || _ = true |- _ => apply orb_true_iff in H; destruct H
  | H : _ || _ = false |- _ => apply orb_false_iff in H; destruct H
  end.

(** Closed comparisons are evaluated. *)
Ltac eval_closed :=
  repeat match goal with
  | |- context [Z.eqb ?a ?b] =>
      let v := eval vm_compute in (Z.eqb a b) in
      match v with
      | true => change (Z.eqb a b) with true
      | false => change (Z.eqb a b) with false
      end
  | |- context [Z.leb ?a ?b] =>
      let v := eval vm_compute in (Z.leb a b) in
      match v with
      | true => change (Z.leb a b) with true
      | false => change (Z.leb a b) with false
      end
  end.

Ltac fsimpl := repeat (progress (msimpl; eval_closed)).

Arguments read_action : simpl never.
Arguments write_action : simpl never.

(** ** The lock of [action] *)

Section ActionLock.
Context {L : Type}.

(** A reader that finds the lock free gets the value and leaves the
    lock as it found it. *)
Lemma read_action_free (p : proc L) :
  action_lock_free (shm p) ->
  read_action p = Some (action_type (action (shm p)), p).
Proof.
  destruct p as [l s o i]. destruct s as [? ? ? ? ? ? [[r w c] t] ? ? ? ?].
  unfold action_lock_free. cbn. intros (-> & -> & ->). reflexivity.
Qed.

(** A writer that finds the lock free stores the value and leaves the
    lock as it found it. *)
Lemma write_action_free (v : current_action_t) (p : proc L) :
  action_lock_free (shm p) ->
  write_action v p =
  Some (tt, Proc (locals p) (set_action (set_action_type v) (shm p)) (out p) (intr p)).
Proof.
  destruct p as [l s o i]. destruct s as [? ? ? ? ? ? [[r w c] t] ? ? ? ?].
  unfold action_lock_free. cbn. intros (-> & -> & ->). reflexivity.
Qed.

(** While a writer holds the lock, a reader and a second writer do not
    get in. *)
Lemma write_locked_excludes (v : current_action_t) (p : proc L) :
  read (action_lock (action (shm p))) = 1 ->
  write (action_lock (action (shm p))) = 0 ->
  read_counter (action_lock (action (shm p))) = 0 ->
  read_action p = None /\ write_action v p = None.
Proof.
  destruct p as [l s o i]. destruct s as [? ? ? ? ? ? [[r w c] t] ? ? ? ?].
  cbn. intros -> -> ->. split; reflexivity.
Qed.
(** Whatever the state of the lock, a reader that gets through returns
    the value of [action.type] and changes nothing but the lock. *)
Lemma read_action_frame (p p' : proc L) (a : current_action_t) :
  read_action p = Some (a, p') ->
  a = action_type (action (shm p)) /\
  locals p' = locals p /\ out p' = out p /\ intr p' = intr p /\
  action_type (action (shm p')) = action_type (action (shm p)) /\
  set_action (fun _ => action (shm p)) (shm p') = shm p.
Proof.
  destruct p as [l s o i]. destruct s as [? ? ? ? ? ? [[r w c] t] ? ? ? ?].
  unfold read_action, rwlock_read_lock, rwlock_read_unlock, sem_wait, sem_post.
  msimpl.
  repeat match goal with
  | |- context [if ?b then _ else _] => destruct b; msimpl
  end.
  all: intros H; inversion H; subst; cbn; repeat split.
Qed.

(** Whatever the state of the lock, a writer that gets through stores
    its value and changes nothing else but the lock. *)
Lemma write_action_frame (v : current_action_t) (p p' : proc L) :
  write_action v p = Some (tt, p') ->
  locals p' = locals p /\ out p' = out p /\ intr p' = intr p /\
  action_type (action (shm p')) = v /\
  set_action (fun _ => action (shm p)) (shm p') = shm p.
Proof.
  destruct p as [l s o i]. destruct s as [? ? ? ? ? ? [[r w c] t] ? ? ? ?].
  unfold write_action, rwlock_write_lock, rwlock_write_unlock, sem_wait, sem_post.
  msimpl.
  repeat match goal with
  | |- context [if ?b then _ else _] => destruct b; msimpl
  end.
  all: intros H; inversion H; subst; cbn; repeat split.
Qed.

End ActionLock.

(** ** Battery *)

Module BatteryFacts.
Import Battery.







End BatteryFacts.

(** ** Supervisor *)

Module DroneSysFacts.
Import DroneSys.

(** C9.  [sigusr1_handler] always returns; it sends SIGTERM to the six
    actors and replaces the region by [init_locks_shm] of it, which
    differs from the region in the semaphores and the reader count only:
    the charge, the action, the motors, the acceleration, the ring buffer
    with its two indices, and the process table, addresses, ports and
    heartbeat counters are the ones before the call.  The semaphores get
    their initial counts. *)
Theorem sigusr1_reinit_preserves_data (p : proc statics) :
  exists p',
    sigusr1_handler p = Some (tt, p') /\
    shm p' = init_locks_shm (shm p) /\
    locals p' = locals p /\
    (battery (shm p') = battery (shm p) /\
     action_type (action (shm p')) = action_type (action (shm p)) /\
     motors (pwm (shm p')) = motors (pwm (shm p)) /\
     acceleration (accel (shm p')) = acceleration (accel (shm p)) /\
     nmea (gps (shm p')) = nmea (gps (shm p)) /\
     gps_read (gps (shm p')) = gps_read (gps (shm p)) /\
     gps_write (gps (shm p')) = gps_write (gps (shm p))) /\
    (pids (shm p') = pids (shm p) /\
     operator_ip (shm p') = operator_ip (shm p) /\
     drone_ip (shm p') = drone_ip (shm p) /\
     telemetry_port (shm p') = telemetry_port (shm p) /\
     flight_ctrl_port (shm p') = flight_ctrl_port (shm p) /\
     wdg (shm p') = wdg (shm p)) /\
    (action_lock (action (shm p')) = {| read := 1; write := 1; read_counter := 0 |} /\
     accel_mutex (accel (shm p')) = 1 /\
     pwm_mutex (pwm (shm p')) = 1 /\
     gps_mutex (gps (shm p')) = 1 /\
     gps_empty (gps (shm p')) = GPS_BUFFER_SIZE /\
     gps_full (gps (shm p')) = 0) /\
    out p' = out p ++
      [ printf "SIGUSR1: Watchdog detected a deadlock...\n" [];
        kill (pid_accel (pids (shm p))) SIGTERM;
        kill (pid_battery (pids (shm p))) SIGTERM;
        kill (pid_gps_ctrl (pids (shm p))) SIGTERM;
        kill (pid_telemetry (pids (shm p))) SIGTERM;
        kill (pid_flight_ctrl (pids (shm p))) SIGTERM;
        kill (pid_wdg (pids (shm p))) SIGTERM ].
Proof.
  destruct p as [l s o i]. unfold sigusr1_handler. msimpl.
  eexists. split; [reflexivity|]. cbn.
  rewrite <- !app_assoc. cbn.
  repeat split; reflexivity.
Qed.

(** Reinitialising does reset the two counting semaphores of the ring
    while the indices stay: the characters that were pending between
    [gps_read] and [gps_write] are no longer announced by [gps_full]. *)
Lemma init_locks_forgets_pending (ptr : drone_shared_t) :
  gps_full (gps (init_locks_shm ptr)) = 0 /\
  gps_read (gps (init_locks_shm ptr)) = gps_read (gps ptr) /\
  gps_write (gps (init_locks_shm ptr)) = gps_write (gps ptr).
Proof. repeat split; reflexivity. Qed.

End DroneSysFacts.

(* ================================================================= *)
(** ** The reader-writer lock with several readers *)

Section Readers.
Context {L : Type}.

Arguments rwlock_read_lock : simpl never.
Arguments rwlock_read_unlock : simpl never.

Lemma with_lock_again (k1 k2 : rw_lock_t) (s : drone_shared_t) :
  with_lock k2 (with_lock k1 s) = with_lock k2 s.
Proof. destruct s. reflexivity. Qed.

Lemma with_lock_same (s : drone_shared_t) :
  with_lock (action_lock (action s)) s = s.
Proof. destruct s as [? ? ? ? ? ? [k t] ? ? ? ?]. reflexivity. Qed.

Lemma action_lock_with_lock (k : rw_lock_t) (s : drone_shared_t) :
  action_lock (action (with_lock k s)) = k.
Proof. destruct s. reflexivity. Qed.

(** One more reader. *)
Lemma read_lock_next (c : Z) (p : proc L) :
  action_lock (action (shm p)) = held_by c -> 0 <= c < 255 ->
  rwlock_read_lock p =
  Some (tt, Proc (locals p) (with_lock (held_by (c + 1)) (shm p)) (out p) (intr p)).
Proof.
  destruct p as [l s o i]. destruct s as [? ? ? ? ? ? [[r w k] t] ? ? ? ?].
  unfold held_by. cbn. intros [= -> -> ->] Hc.
  unfold rwlock_read_lock, sem_wait, sem_post. msimpl.
  unfold uint8. rewrite (Z.mod_small (c + 1)) by lia.
  replace (c + 1 =? 0) with false by (symmetry; apply Z.eqb_neq; lia).
  destruct (Z.eqb_spec c 0) as [->|Hn].
  - reflexivity.
  - replace (c + 1 =? 1) with false by (symmetry; apply Z.eqb_neq; lia).
    cbv beta iota delta [set_action set_action_lock set_read set_write set_read_counter
                         with_lock action action_lock read write read_counter shm mbind
                         M_bind store load].
    rewrite (Z.mod_small (c + 1)) by lia. reflexivity.
Qed.

(** One reader less. *)
Lemma read_unlock_next (c : Z) (p : proc L) :
  action_lock (action (shm p)) = held_by c -> 0 < c <= 255 ->
  rwlock_read_unlock p =
  Some (tt, Proc (locals p) (with_lock (held_by (c - 1)) (shm p)) (out p) (intr p)).
Proof.
  destruct p as [l s o i]. destruct s as [? ? ? ? ? ? [[r w k] t] ? ? ? ?].
  unfold held_by. cbn. intros [= -> -> ->] Hc.
  unfold rwlock_read_unlock, sem_wait, sem_post. msimpl.
  unfold uint8. rewrite (Z.mod_small (c - 1)) by lia.
  replace (c =? 0) with false by (symmetry; apply Z.eqb_neq; lia).
  destruct (Z.eqb_spec (c - 1) 0) as [E|Hn].
  all: cbv beta iota delta [set_action set_action_lock set_read set_write set_read_counter
                            with_lock action action_lock read write read_counter shm mbind
                            M_bind store load].
  all: rewrite (Z.mod_small (c - 1)) by lia; reflexivity.
Qed.

Lemma read_locks (n : nat) :
  forall (c : Z) (p : proc L),
  action_lock (action (shm p)) = held_by c -> 0 <= c -> c + Z.of_nat n <= 255 ->
  iterate n rwlock_read_lock p =
  Some (Proc (locals p)
             (if n is O then shm p else with_lock (held_by (c + Z.of_nat n)) (shm p))
             (out p) (intr p)).
Proof.
  induction n as [|n IH]; intros c p Hk Hc Hn.
  - destruct p; reflexivity.
  - cbn [iterate]. rewrite (read_lock_next c) by (try assumption; lia).
    rewrite (IH (c + 1)); cbn [shm locals out intr];
      [| apply action_lock_with_lock | lia | lia].
    destruct n; [|rewrite with_lock_again]; do 4 f_equal; lia.
Qed.

Lemma read_unlocks (n : nat) :
  forall (c : Z) (p : proc L),
  action_lock (action (shm p)) = held_by c -> Z.of_nat n <= c <= 255 ->
  iterate n rwlock_read_unlock p =
  Some (Proc (locals p)
             (if n is O then shm p else with_lock (held_by (c - Z.of_nat n)) (shm p))
             (out p) (intr p)).
Proof.
  induction n as [|n IH]; intros c p Hk Hn.
  - destruct p; reflexivity.
  - cbn [iterate]. rewrite (read_unlock_next c) by (try assumption; lia).
    rewrite (IH (c - 1)); cbn [shm locals out intr];
      [| apply action_lock_with_lock | lia].
    destruct n; [|rewrite with_lock_again]; do 4 f_equal; lia.
Qed.

(** A reader that comes to the lock while [c] others hold it reads the
    value and leaves the lock to them. *)
Lemma read_action_shared (c : Z) (p : proc L) :
  action_lock (action (shm p)) = held_by c -> 0 < c < 255 ->
  read_action p = Some (action_type (action (shm p)), p).
Proof.
  intros Hk Hc. unfold read_action, mbind, M_bind.
  rewrite (read_lock_next c) by (try exact Hk; lia).
  unfold load at 1. cbn [shm locals out intr].
  rewrite (read_unlock_next (c + 1)) by (try apply action_lock_with_lock; lia).
  cbn [shm locals out intr]. rewrite with_lock_again.
  replace (c + 1 - 1) with c by lia. rewrite <- Hk, with_lock_same.
  unfold mret, M_ret. destruct p as [l s o i].
  destruct s as [? ? ? ? ? ? [k t] ? ? ? ?]. reflexivity.
Qed.

(** A writer that comes to the lock while readers hold it waits. *)
Lemma write_action_waits (v : current_action_t) (c : Z) (p : proc L) :
  action_lock (action (shm p)) = held_by c -> 0 < c < 255 ->
  write_action v p = None.
Proof.
  destruct p as [l s o i]. destruct s as [? ? ? ? ? ? [[r w k] t] ? ? ? ?].
  unfold held_by. cbn. intros [= -> -> ->] Hc.
  unfold write_action, rwlock_write_lock, sem_wait. msimpl.
  replace (c =? 0) with false by (symmetry; apply Z.eqb_neq; lia).
  reflexivity.
Qed.

(** Readers share the lock and keep the writer out.  From a free lock,
    [n] readers, fewer than 256, all get the lock; the counter is then
    [n]; as long as one of them has not given the lock back, a writer does
    not get it; and when the [n] have given it back, the region is the one
    before the first of them, the lock free again. *)
Theorem readers_exclude_writer (n : nat) (p : proc L) :
  action_lock_free (shm p) -> (0 < n < 256)%nat ->
  exists q : proc L,
    iterate n rwlock_read_lock p = Some q /\
    read_counter (action_lock (action (shm q))) = Z.of_nat n /\
    (forall k : nat, (k < n)%nat ->
       exists q' : proc L,
         iterate k rwlock_read_unlock q = Some q' /\
         read_counter (action_lock (action (shm q'))) = Z.of_nat (n - k) /\
         rwlock_write_lock q' = None) /\
    iterate n rwlock_read_unlock q = Some p.
Proof.
  intros Hfree Hn.
  assert (H0 : action_lock (action (shm p)) = held_by 0).
  { destruct p as [l s o i]. destruct s as [? ? ? ? ? ? [[r w k] t] ? ? ? ?].
    unfold action_lock_free in Hfree. cbn in *. destruct Hfree as (-> & -> & ->).
    reflexivity. }
  eexists. split; [apply (read_locks n 0 p H0); lia|].
  destruct n as [|n]; [lia|]. cbn [Z.add].
  set (q := Proc _ _ _ _).
  assert (Hq : action_lock (action (shm q)) = held_by (Z.of_nat (S n)))
    by apply action_lock_with_lock.
  split; [rewrite Hq; reflexivity|]. split.
  - intros k Hk.
    set (sk := if k is O then shm q
               else with_lock (held_by (Z.of_nat (S n) - Z.of_nat k)) (shm q)).
    exists (Proc (locals q) sk (out q) (intr q)).
    split; [apply (read_unlocks k _ q Hq); lia|].
    assert (Hl : action_lock (action sk) = held_by (Z.of_nat (S n - k))).
    { subst sk. destruct k; [rewrite Hq; f_equal; lia|].
      rewrite action_lock_with_lock. f_equal. lia. }
    cbn [shm]. rewrite Hl. split; [reflexivity|].
    unfold rwlock_write_lock, sem_wait. msimpl. rewrite Hl. cbn.
    replace (Z.of_nat (S n - k) =? 0) with false by (symmetry; apply Z.eqb_neq; lia).
    reflexivity.
  - rewrite (read_unlocks (S n) _ q Hq) by lia.
    subst q. cbn [shm locals out intr]. rewrite with_lock_again, Z.sub_diag.
    rewrite <- H0, with_lock_same. destruct p; reflexivity.
Qed.

End Readers.

Lemma readers_exclude_writer_witness :
  let p := flight_proc Fly 50 (all_motors half) in
  action_lock_free (shm p) /\ (0 < 3 < 256)%nat /\
  exists q : proc FlightCtrl.statics,
    iterate 3 rwlock_read_lock p = Some q /\
    read_counter (action_lock (action (shm q))) = 3 /\
    (exists q' : proc FlightCtrl.statics,
       iterate 2 rwlock_read_unlock q = Some q' /\
       read_counter (action_lock (action (shm q'))) = 1 /\
       rwlock_write_lock q' = None) /\
    iterate 3 rwlock_read_unlock q = Some p.
Proof.
  intros p.
  assert (H1 : action_lock_free (shm p)) by (vm_compute; repeat split).
  assert (H2 : (0 < 3 < 256)%nat) by lia.
  split; [exact H1|]. split; [exact H2|].
  destruct (readers_exclude_writer 3 p H1 H2) as (q & Hq & Hc & Hk & Hu).
  exists q. split; [exact Hq|]. split; [exact Hc|]. split; [|exact Hu].
  apply (Hk 2%nat). lia.
Defined.

(** ** Flight controller *)

Arguments fadd : simpl never.
Arguments fsub : simpl never.
Arguments fmul : simpl never.
Arguments fdiv : simpl never.
Arguments flt : simpl never.
Arguments fle : simpl never.
Arguments feq : simpl never.

Module FlightFacts.
Import FlightCtrl.

(** The four bytes the operator sends are read back as the value sent. *)
Lemma recvfrom_datagram (old a : Z) :
  0 <= old < 2 ^ 32 -> 0 <= a < 2 ^ 32 ->
  recvfrom old (Operator.datagram a) = (sizeof_operator_cmd, a).
Proof.
  intros Ho Ha. unfold recvfrom, Operator.datagram, overwrite.
  match goal with |- context [take ?n ?l] => change (take n l) with l end.
  cbn [length le_value]. change (Z.of_nat 4) with 4.
  change (256 ^ 4) with 4294967296. change (256 ^ 3) with 16777216.
  change (256 ^ 2) with 65536. change (2 ^ 32) with 4294967296 in *.
  rewrite !Zmod_mod. rewrite (Z.div_small old) by lia.
  unfold sizeof_operator_cmd. f_equal.
  Z.to_euclidean_division_equations. lia.
Qed.

Arguments receive : simpl never.

(** [receive] on a datagram. *)
Lemma receive_datagram (payload : list Z) (rs : list recv_result) (c : Z) (p : proc statics) :
  receive (recv_datagram payload :: rs) c p =
  Some (snd (recvfrom c payload),
        Proc (locals p) (shm p)
             (out p ++ (if fst (recvfrom c payload) =? sizeof_operator_cmd
                        then [printf "Obtained command from operator: %d.\n"
                                [Int (snd (recvfrom c payload))]]
                        else []))
             (intr p)).
Proof.
  unfold receive. destruct (recvfrom c payload) as [n c'] eqn:E. cbn [fst snd].
  destruct (n =? sizeof_operator_cmd); msimpl; [reflexivity|].
  rewrite app_nil_r. destruct p; reflexivity.
Qed.

Lemma uint32_Reserved : 0 <= Reserved < 2 ^ 32.
Proof. vm_compute. split; congruence. Qed.

(** In [Charge] with the lock free: the command is stored from a charge
    of 15 on, and the lock is free again afterwards. *)
Lemma charge_command_free
    (clock : timespec) (bound : bool) (rs : list recv_result)
    (cmd : current_action_t) (p : proc statics) :
  listening clock bound (locals p) = true ->
  action_lock_free (shm p) ->
  action_type (action (shm p)) = Charge ->
  cmd = Idle \/ cmd = Abort ->
  exists p' evs,
    flight_loop clock bound (recv_datagram (Operator.datagram cmd) :: rs) p = Some (tt, p') /\
    out p' = out p ++ evs /\
    (action_type (action (shm p')) = cmd <-> 15 <= battery (shm p)) /\
    (15 <= battery (shm p) -> action_type (action (shm p')) = cmd) /\
    (battery (shm p) < 15 ->
       action_type (action (shm p')) = Charge /\
       In (printf "Charging: Battery below 15%%, ignoring operator commands.\n" []) evs) /\
    action_lock_free (shm p') /\
    battery (shm p') = battery (shm p) /\
    motors (pwm (shm p')) = motors (pwm (shm p)).
Proof.
  intros Hi H Ha Hc.
  assert (Hcmd : 0 <= cmd < 2 ^ 32) by (destruct Hc; subst; vm_compute; split; congruence).
  destruct p as [[cb la lacc ini nw lt ft] s o i]. cbn in Hi, H, Ha.
  unfold listening in Hi. cbn in Hi.
  unfold flight_loop. msimpl.
  destruct ini; cbn in Hi;
    [ apply andb_true_iff in Hi; destruct Hi as [-> ->] | ]; msimpl.
  all: rewrite receive_datagram, (recvfrom_datagram Reserved cmd uint32_Reserved Hcmd).
  all: msimpl; rewrite read_action_free by exact H; msimpl; rewrite Ha.
  all: destruct (negb (Charge =? la)); fsimpl; unfold dispatch; fsimpl.
  all: destruct Hc as [-> | ->]; fsimpl.
  all: destruct (15 <=? battery s) eqn:Eb; fsimpl.
  all: try (rewrite write_action_free by exact H; fsimpl).
  all: do 2 eexists; (split; [reflexivity|]);
       (split; [cbn; rewrite <- ?app_assoc; reflexivity|]).
  all: cbn [shm out locals intr]; tests.
  all: repeat apply conj.
  all: try (destruct s as [? ? ? ? ? ? [[r w k] t] ? ? ? ?]; apply H).
  all: cbn; intros; try reflexivity; try lia; try discriminate; auto 10.
  all: exfalso; rewrite Ha in *;
       match goal with H : Charge = _ |- _ => vm_compute in H; discriminate end.
Qed.

(** In [Charge] with the lock held by readers, at a charge of at least
    15: the controller reads the action, comes to the store and waits. *)
Lemma charge_command_waits
    (clock : timespec) (bound : bool) (rs : list recv_result)
    (cmd : current_action_t) (c : Z) (p : proc statics) :
  listening clock bound (locals p) = true ->
  action_lock (action (shm p)) = held_by c -> 0 < c < 255 ->
  action_type (action (shm p)) = Charge ->
  cmd = Idle \/ cmd = Abort ->
  15 <= battery (shm p) ->
  flight_loop clock bound (recv_datagram (Operator.datagram cmd) :: rs) p = None.
Proof.
  intros Hi Hk Hc' Ha Hc Hb. apply Z.leb_le in Hb.
  assert (Hcmd : 0 <= cmd < 2 ^ 32) by (destruct Hc; subst; vm_compute; split; congruence).
  destruct p as [[cb la lacc ini nw lt ft] s o i]. cbn in Hi, Hk, Ha, Hb.
  unfold listening in Hi. cbn in Hi.
  unfold flight_loop. msimpl.
  destruct ini; cbn in Hi;
    [ apply andb_true_iff in Hi; destruct Hi as [-> ->] | ]; msimpl.
  all: rewrite receive_datagram, (recvfrom_datagram Reserved cmd uint32_Reserved Hcmd).
  all: msimpl; rewrite (read_action_shared c) by (first [exact Hk | exact Hc']).
  all: cbn [shm]; rewrite Ha; msimpl.
  all: destruct (negb (Charge =? la)); fsimpl; unfold dispatch; fsimpl.
  all: destruct Hc as [-> | ->]; fsimpl.
  all: rewrite Hb; fsimpl.
  all: rewrite (write_action_waits _ c) by (first [exact Hk | exact Hc']).
  all: reflexivity.
Qed.

(** C4.  An iteration of the flight controller that reaches [recvfrom],
    finds the region in [Charge] with the lock free, and receives the
    datagram of the operator for [Idle] or for [Abort], returns; it stores
    the command in [Action] if and only if the charge it reads is at least
    15; below 15 it prints that the command is ignored and leaves [Action]
    at [Charge].  The lock is free again afterwards, and the charge and the
    motors are not written.  The store is made under the write lock: on
    the same region with the lock held by readers, the iteration that is to
    store the command waits for the lock and does not return. *)
Theorem charge_accepts_command_iff_charged
    (clock : timespec) (bound : bool) (rs : list recv_result)
    (cmd : current_action_t) (p : proc statics) :
  listening clock bound (locals p) = true ->
  action_lock_free (shm p) ->
  action_type (action (shm p)) = Charge ->
  cmd = Idle \/ cmd = Abort ->
  exists p' evs,
    flight_loop clock bound (recv_datagram (Operator.datagram cmd) :: rs) p = Some (tt, p') /\
    out p' = out p ++ evs /\
    (action_type (action (shm p')) = cmd <-> 15 <= battery (shm p)) /\
    (15 <= battery (shm p) -> action_type (action (shm p')) = cmd) /\
    (battery (shm p) < 15 ->
       action_type (action (shm p')) = Charge /\
       In (printf "Charging: Battery below 15%%, ignoring operator commands.\n" []) evs) /\
    action_lock_free (shm p') /\
    battery (shm p') = battery (shm p) /\
    motors (pwm (shm p')) = motors (pwm (shm p)) /\
    (15 <= battery (shm p) ->
     forall c : Z, 0 < c < 255 ->
       flight_loop clock bound (recv_datagram (Operator.datagram cmd) :: rs)
         (Proc (locals p) (with_lock (held_by c) (shm p)) (out p) (intr p)) = None).
Proof.
  intros Hi H Ha Hc.
  destruct (charge_command_free clock bound rs cmd p Hi H Ha Hc)
    as (p' & evs & H1 & H2 & H3 & H4 & H5 & H6 & H7 & H8).
  exists p', evs. repeat (split; [assumption|]).
  intros Hb c Hc'. apply (charge_command_waits clock bound rs cmd c); cbn [locals shm].
  - exact Hi.
  - apply action_lock_with_lock.
  - exact Hc'.
  - destruct (shm p); exact Ha.
  - exact Hc.
  - destruct (shm p); exact Hb.
Qed.

(** C4 on an instance: in [Charge] at a charge of 20 the command [Idle] is
    stored and the lock is free afterwards; with one reader holding the
    lock the iteration does not return. *)
Lemma charge_accepts_command_witness :
  let p := flight_proc Charge 20 (all_motors f0) in
  listening (at_time 10 0) false (locals p) = true /\
  action_lock_free (shm p) /\
  action_type (action (shm p)) = Charge /\
  (exists p',
     flight_loop (at_time 10 0) false [recv_datagram (Operator.datagram Idle)] p
       = Some (tt, p') /\
     action_type (action (shm p')) = Idle /\
     action_lock_free (shm p')) /\
  flight_loop (at_time 10 0) false [recv_datagram (Operator.datagram Idle)]
    (Proc (locals p) (with_lock (held_by 1) (shm p)) (out p) (intr p)) = None.
Proof.
  intros p.
  assert (H1 : listening (at_time 10 0) false (locals p) = true) by reflexivity.
  assert (H2 : action_lock_free (shm p)) by (vm_compute; auto).
  assert (H3 : action_type (action (shm p)) = Charge) by reflexivity.
  assert (H4 : 15 <= battery (shm p)) by (vm_compute; discriminate).
  split; [exact H1|]. split; [exact H2|]. split; [exact H3|].
  destruct (charge_accepts_command_iff_charged (at_time 10 0) false [] Idle p H1 H2 H3
              (or_introl eq_refl))
    as (p' & evs & Hrun & _ & _ & Hyes & _ & Hfree & _ & _ & Hheld).
  split.
  - exists p'. split; [exact Hrun|]. split; [exact (Hyes H4) | exact Hfree].
  - apply (Hheld H4 1). lia.
Defined.

(** C1 at its failing inputs.  An iteration that finds [Abort] at a charge
    of 50 and receives the operator's [Fly] stores [Fly] in [Action] and
    leaves the motors alone: the command is obeyed, nothing lands.  And
    with no command at all, the controller that saw [Fly] before stores
    [Abort] again, not [Fly]: [last_action] was set to the action just
    read before the [switch]. *)
Theorem abort_obeys_operator_fly :
  (exists p',
     flight_loop (at_time 10 0) false [recv_datagram (Operator.datagram Fly)]
                 aborted_in_flight = Some (tt, p') /\
     action_type (action (shm p')) = Fly /\
     motors (pwm (shm p')) = motors (pwm (shm aborted_in_flight))) /\
  (exists p',
     last_action (locals aborted_in_flight) = Fly /\
     flight_loop (at_time 10 0) false [] aborted_in_flight = Some (tt, p') /\
     action_type (action (shm p')) = Abort /\
     motors (pwm (shm p')) = all_motors (fsub half DELTA_DECREASE)).
Proof.
  split; eexists.
  - split; [vm_compute; reflexivity|]. split; vm_compute; reflexivity.
  - split; [reflexivity|]. split; [vm_compute; reflexivity|].
    split; vm_compute; reflexivity.
Qed.

(** C5 at its failing inputs.  In [Idle], a datagram of the single byte 4
    makes [Action] [Fly], and so does a datagram of six bytes that starts
    with the bytes of [Fly]: the test of the size guards nothing but a
    [printf]. *)
Theorem short_datagram_is_obeyed :
  (exists p',
     flight_loop (at_time 10 0) false [recv_datagram [4]]
                 (flight_proc Idle 100 (all_motors f0)) = Some (tt, p') /\
     action_type (action (shm p')) = Fly) /\
  (exists p',
     flight_loop (at_time 10 0) false [recv_datagram [4; 0; 0; 0; 9; 9]]
                 (flight_proc Idle 100 (all_motors f0)) = Some (tt, p') /\
     action_type (action (shm p')) = Fly).
Proof.
  split; eexists; (split; [vm_compute; reflexivity|]); vm_compute; reflexivity.
Qed.

End FlightFacts.

(** ** GPS producer *)

(** *** The ring as an array *)

Section Ring.

Let N := GPS_BUFFER_SIZE.

Lemma ring_next (a : Z) :
  0 <= a < 2 * N -> a mod N = if a <? N then a else a - N.
Proof.
  intros H. unfold N, GPS_BUFFER_SIZE in *. destruct (a <? 128 * 10) eqn:E; tests.
  - apply Z.mod_small. lia.
  - replace a with ((a - 128 * 10) + 1 * (128 * 10)) at 1 by lia.
    rewrite Z.mod_add by lia. apply Z.mod_small. lia.
Qed.

Lemma ring_index_range (a : Z) : 0 <= a mod N < N.
Proof. apply Z.mod_pos_bound. reflexivity. Qed.

(** The index moves by one, from the last slot to slot 0. *)
Lemma ring_advance (w : Z) :
  0 <= w < N ->
  size_t (w + 1) mod N = (if w =? N - 1 then 0 else w + 1).
Proof.
  intros H. unfold size_t. unfold N, GPS_BUFFER_SIZE in *.
  rewrite (Z.mod_small (w + 1)) by lia.
  rewrite ring_next by (unfold N, GPS_BUFFER_SIZE; lia).
  unfold N, GPS_BUFFER_SIZE.
  destruct (w =? 128 * 10 - 1) eqn:E, (w + 1 <? 128 * 10) eqn:E'; tests; lia.
Qed.

(** Storing [cs] from [w] on changes no slot outside of the ones it goes
    through. *)
Lemma ring_write_frame (cs : list ascii) (w : Z) (buf : nmea_t) (j : nat) :
  0 <= w < N ->
  (forall i : nat, (i < length cs)%nat -> j <> Z.to_nat ((w + Z.of_nat i) mod N)) ->
  ring_write cs w buf !! j = buf !! j.
Proof.
  revert w buf. induction cs as [|c cs IH]; intros w buf Hw Hj; [reflexivity|].
  cbn [ring_write]. rewrite IH.
  - apply list_lookup_insert_ne. intros E.
    apply (Hj 0%nat); [cbn; lia|].
    rewrite Z.add_0_r, Z.mod_small by exact Hw. symmetry. exact E.
  - apply ring_index_range.
  - intros i Hi. fold N. rewrite Zplus_mod_idemp_l.
    replace (w + 1 + Z.of_nat i) with (w + Z.of_nat (S i)) by lia.
    apply Hj. cbn. lia.
Qed.

(** After [cs], no longer than the ring, was stored from [w] on, it is
    read back from [w] on. *)
Lemma ring_write_lookup (cs : list ascii) (w : Z) (buf : nmea_t) (i : nat) :
  0 <= w < N -> length buf = Z.to_nat N -> (length cs <= Z.to_nat N)%nat ->
  (i < length cs)%nat ->
  ring_write cs w buf !! Z.to_nat ((w + Z.of_nat i) mod N) = cs !! i.
Proof.
  revert w buf i. induction cs as [|c cs IH]; intros w buf i Hw Hb Hn Hi; [cbn in Hi; lia|].
  cbn [ring_write]. destruct i as [|i].
  - rewrite Z.add_0_r, Z.mod_small by exact Hw.
    rewrite ring_write_frame.
    + cbn. apply list_lookup_insert_eq. unfold N, GPS_BUFFER_SIZE in *. lia.
    + apply ring_index_range.
    + intros i' Hi'. fold N. rewrite Zplus_mod_idemp_l.
      cbn in Hn. rewrite ring_next by (unfold N, GPS_BUFFER_SIZE in *; lia).
      unfold N, GPS_BUFFER_SIZE in *.
      destruct (w + 1 + Z.of_nat i' <? 128 * 10) eqn:E; tests; lia.
  - cbn [lookup list_lookup]. fold N.
    replace ((w + Z.of_nat (S i)) mod N) with (((w + 1) mod N + Z.of_nat i) mod N)
      by (rewrite Zplus_mod_idemp_l; f_equal; lia).
    apply IH.
    + apply ring_index_range.
    + unfold nmea_t in *. rewrite length_insert. exact Hb.
    + cbn in Hn. lia.
    + cbn in Hi. lia.
Qed.

(** The same, as a slice. *)
Lemma ring_slice_write (cs : list ascii) (w : Z) (buf : nmea_t) :
  0 <= w < N -> length buf = Z.to_nat N -> (length cs <= Z.to_nat N)%nat ->
  ring_slice (ring_write cs w buf) w (length cs) = cs.
Proof.
  intros Hw Hb Hn. unfold ring_slice. apply list_eq. intros i.
  rewrite list_lookup_fmap.
  destruct (decide (i < length cs)%nat) as [Hi|Hi].
  - rewrite lookup_seq_lt by exact Hi. cbn. fold N.
    rewrite ring_write_lookup by assumption.
    destruct (cs !! i) eqn:E; [reflexivity|].
    apply lookup_ge_None in E. lia.
  - rewrite lookup_seq_ge by lia. cbn. symmetry. apply lookup_ge_None. lia.
Qed.

Lemma ring_write_app (cs ds : list ascii) (w : Z) (buf : nmea_t) :
  0 <= w < N ->
  ring_write (cs ++ ds) w buf =
  ring_write ds ((w + Z.of_nat (length cs)) mod N) (ring_write cs w buf).
Proof.
  revert w buf. induction cs as [|c cs IH]; intros w buf Hw.
  - cbn. rewrite Z.add_0_r, Z.mod_small by exact Hw. reflexivity.
  - cbn [app ring_write length]. fold N. rewrite IH by apply ring_index_range.
    rewrite Zplus_mod_idemp_l. do 2 f_equal. lia.
Qed.

Lemma length_ring_write (cs : list ascii) (w : Z) (buf : nmea_t) :
  length (ring_write cs w buf) = length buf.
Proof.
  revert w buf. induction cs as [|c cs IH]; intros w buf; [reflexivity|].
  cbn [ring_write]. rewrite IH. unfold nmea_t in *. apply length_insert.
Qed.

End Ring.

Module GpsFacts.
Import GpsCtrl.

Arguments put_char : simpl never.
Arguments produce : simpl never.

(** A free mutex lets one character in. *)
Lemma put_char_free (c : ascii) (p : proc statics) :
  gps_mutex (gps (shm p)) = 1 ->
  put_char c p =
  Some (tt, Proc (locals p)
              (set_gps (fun g =>
                 {| gps_mutex := gps_mutex g;
                    gps_full := gps_full g + 1;
                    gps_empty := gps_empty g;
                    gps_write := size_t (gps_write g + 1) mod GPS_BUFFER_SIZE;
                    gps_read := gps_read g;
                    nmea := <[Z.to_nat (gps_write g) := c]> (nmea g) |}) (shm p))
              (out p) (intr p)).
Proof.
  destruct p as [l s o i]. destruct s as [? ? ? ? ? ? ? ? ? [m f e w r b] ?].
  cbn. intros ->. reflexivity.
Qed.

(** A held mutex lets nothing in: the producer is stuck. *)
Lemma put_char_held (c : ascii) (p : proc statics) :
  gps_mutex (gps (shm p)) <= 0 -> put_char c p = None.
Proof.
  destruct p as [l s o i]. destruct s as [? ? ? ? ? ? ? ? ? [m f e w r b] ?].
  cbn. intros H. unfold put_char, sem_wait. msimpl.
  destruct (0 <? m) eqn:E; [apply Z.ltb_lt in E; lia | reflexivity].
Qed.

Lemma length_chars (msg : string) :
  length (list_ascii_of_string msg) = String.length msg.
Proof. induction msg as [|c msg IH]; cbn; [reflexivity | now rewrite IH]. Qed.

Lemma drop_char_at (msg : string) (count : Z) :
  0 <= count < strlen msg ->
  drop (Z.to_nat count) (list_ascii_of_string msg) =
  char_at msg count :: drop (Z.to_nat (count + 1)) (list_ascii_of_string msg).
Proof.
  unfold strlen, char_at. intros H.
  rewrite <- length_chars in H.
  replace (Z.to_nat (count + 1)) with (S (Z.to_nat count)) by lia.
  destruct (list_ascii_of_string msg !! Z.to_nat count) as [c|] eqn:E.
  - cbn. apply drop_S. exact E.
  - apply lookup_ge_None in E. lia.
Qed.

Lemma drop_past_end (msg : string) (count : Z) :
  strlen msg <= count ->
  drop (Z.to_nat count) (list_ascii_of_string msg) = [].
Proof.
  unfold strlen. intros H. apply drop_ge.
  rewrite length_chars. lia.
Qed.

(** The producer's loop writes nothing outside of the [gps] part of the
    region. *)
Lemma ring_puts_frame (cs : list ascii) (s : drone_shared_t) :
  set_gps (fun _ => gps s) (ring_puts cs s) = s.
Proof.
  revert s. induction cs as [|c cs IH]; intros s; cbn [ring_puts].
  - destruct s; reflexivity.
  - destruct (0 <? gps_empty (gps s)); [|destruct s; reflexivity].
    transitivity (set_gps (fun _ => gps s)
                    (set_gps (fun _ => gps (produce_step c s))
                       (ring_puts cs (produce_step c s)))); [reflexivity|].
    rewrite IH. destruct s; reflexivity.
Qed.

(** [ring_puts] in closed form: of [cs] the first [k] characters go in,
    [k] being the smaller of the length of [cs] and of the count of
    [empty]. *)
Lemma ring_puts_spec (cs : list ascii) (s : drone_shared_t) :
  0 <= gps_empty (gps s) -> 0 <= gps_write (gps s) < GPS_BUFFER_SIZE ->
  let k := Z.min (Z.of_nat (length cs)) (gps_empty (gps s)) in
  let s' := ring_puts cs s in
  gps_full (gps s') = gps_full (gps s) + k /\
  gps_empty (gps s') = gps_empty (gps s) - k /\
  gps_write (gps s') = (gps_write (gps s) + k) mod GPS_BUFFER_SIZE /\
  gps_read (gps s') = gps_read (gps s) /\
  gps_mutex (gps s') = gps_mutex (gps s) /\
  nmea (gps s') = ring_write (take (Z.to_nat k) cs) (gps_write (gps s)) (nmea (gps s)).
Proof.
  revert s. induction cs as [|c cs IH]; intros s He Hw; cbn zeta.
  - cbn [ring_puts length take]. change (Z.of_nat 0) with 0.
    rewrite Z.min_l by lia. rewrite !Z.add_0_r, Z.sub_0_r, Z.mod_small by lia.
    repeat split.
  - cbn [ring_puts]. destruct (0 <? gps_empty (gps s)) eqn:E; tests.
    + specialize (IH (produce_step c s)). cbn in IH.
      rewrite ring_advance in IH by exact Hw.
      destruct IH as (H1 & H2 & H3 & H4 & H5 & H6).
      { lia. }
      { unfold GPS_BUFFER_SIZE in *.
        destruct (gps_write (gps s) =? 128 * 10 - 1) eqn:E'; tests; lia. }
      set (k1 := Z.min (Z.of_nat (length cs)) (gps_empty (gps s) - 1)) in *.
      assert (Hk : Z.min (Z.of_nat (length (c :: cs))) (gps_empty (gps s)) = k1 + 1)
        by (cbn [length]; lia).
      assert (Hk1 : 0 <= k1) by lia.
      rewrite Hk, H1, H2, H3, H4, H5, H6.
      replace (Z.to_nat (k1 + 1)) with (S (Z.to_nat k1)) by lia.
      cbn [take ring_write].
      assert (Hn : (if gps_write (gps s) =? GPS_BUFFER_SIZE - 1 then 0
                    else gps_write (gps s) + 1) = (gps_write (gps s) + 1) mod GPS_BUFFER_SIZE).
      { rewrite ring_next by (unfold GPS_BUFFER_SIZE in *; lia).
        unfold GPS_BUFFER_SIZE in *.
        destruct (gps_write (gps s) =? 128 * 10 - 1) eqn:E',
                 (gps_write (gps s) + 1 <? 128 * 10) eqn:E''; tests; lia. }
      rewrite Hn. rewrite Zplus_mod_idemp_l.
      repeat split; try lia; try (f_equal; lia).
    + rewrite Z.min_r by lia.
      assert (gps_empty (gps s) = 0) as -> by lia. cbn [Z.to_nat take ring_write].
      rewrite !Z.add_0_r, Z.sub_0_r, Z.mod_small by lia.
      repeat split.
Qed.

(** With no wait interrupted and the mutex free, the loop writes the rest
    of the sample as far as [empty] has slots, and tells whether it came to
    the end. *)
Lemma produce_uninterrupted (fuel : nat) (msg : string) (count : Z) (p : proc statics) :
  intr p = [] ->
  gps_mutex (gps (shm p)) = 1 ->
  0 <= gps_empty (gps (shm p)) ->
  0 <= count ->
  strlen msg - count < Z.of_nat fuel ->
  produce fuel msg count p =
  Some (strlen msg - count <=? gps_empty (gps (shm p)),
        Proc (locals p)
             (ring_puts (drop (Z.to_nat count) (list_ascii_of_string msg)) (shm p))
             (out p) []).
Proof.
  revert count p. induction fuel as [|fuel IH]; intros count p Hi Hm He Hc Hf.
  - assert (strlen msg <= count) by lia.
    rewrite drop_past_end by assumption. unfold produce. msimpl.
    replace (strlen msg - count <=? gps_empty (gps (shm p))) with true
      by (symmetry; apply Z.leb_le; lia).
    destruct p; cbn in *; subst; reflexivity.
  - unfold produce; fold produce.
    destruct (count <? strlen msg) eqn:E; tests.
    + rewrite (drop_char_at msg count) by lia. cbn [ring_puts].
      unfold sem_timedwait. msimpl. rewrite Hi. cbn.
      destruct (0 <? gps_empty (gps (shm p))) eqn:Ee; fsimpl; tests.
      * rewrite put_char_free by exact Hm. cbn.
        rewrite IH; cbn; try assumption; try reflexivity; try lia.
        do 2 f_equal.
        destruct (strlen msg - (count + 1) <=? gps_empty (gps (shm p)) - 1) eqn:E1,
                 (strlen msg - count <=? gps_empty (gps (shm p))) eqn:E2;
          tests; try reflexivity; lia.
      * replace (strlen msg - count <=? gps_empty (gps (shm p))) with false
          by (symmetry; apply Z.leb_gt; lia).
        reflexivity.
    + rewrite drop_past_end by lia. cbn.
      replace (strlen msg - count <=? gps_empty (gps (shm p))) with true
        by (symmetry; apply Z.leb_le; lia).
      destruct p; cbn in *; subst; reflexivity.
Qed.

(** [gps_loop] when no wait is interrupted and the mutex is free. *)
Lemma gps_loop_uninterrupted (p : proc statics) :
  intr p = [] ->
  gps_mutex (gps (shm p)) = 1 ->
  0 <= gps_empty (gps (shm p)) ->
  let msg := current_sample (locals p) in
  gps_loop p =
  Some (tt,
        Proc (if strlen msg <=? gps_empty (gps (shm p))
              then set_sample_index
                     (size_t (sample_index (locals p) + 1) mod nmea_samples_count (locals p))
                     (locals p)
              else locals p)
             (set_wdg wdg_gps_ctrl_incr (ring_puts (list_ascii_of_string msg) (shm p)))
             ((out p ++ [printf "Writing: " []]) ++ [sleep 1])
             []).
Proof.
  intros Hi Hm He msg. unfold gps_loop. msimpl. rewrite Hi. cbn [length].
  fold (current_sample (locals p)). fold msg.
  rewrite produce_uninterrupted;
    [ | reflexivity | exact Hm | exact He | lia | unfold strlen; lia ].
  cbn. rewrite Z.sub_0_r.
  destruct (strlen msg <=? gps_empty (gps (shm p))); reflexivity.
Qed.

(** Whatever the state of the mutex, a [put_char] that gets through
    stores the character at the write index, moves this index by one round
    the ring, announces one character more, and leaves the read index
    alone. *)
Lemma put_char_inv (c : ascii) (p p' : proc statics) :
  put_char c p = Some (tt, p') ->
  locals p' = locals p /\ out p' = out p /\ intr p' = intr p /\
  gps_read (gps (shm p')) = gps_read (gps (shm p)) /\
  gps_write (gps (shm p')) = size_t (gps_write (gps (shm p)) + 1) mod GPS_BUFFER_SIZE /\
  gps_full (gps (shm p')) = gps_full (gps (shm p)) + 1 /\
  gps_empty (gps (shm p')) = gps_empty (gps (shm p)) /\
  nmea (gps (shm p')) = <[Z.to_nat (gps_write (gps (shm p))) := c]> (nmea (gps (shm p))).
Proof.
  destruct p as [l s o i]. destruct s as [? ? ? ? ? ? ? ? ? [m f e w r b] ?].
  unfold put_char, sem_wait, sem_post. msimpl.
  destruct (0 <? m); msimpl; intros H; inversion H; subst; cbn; repeat split.
Qed.

(** The producer's loop, whatever interrupts it: it never touches the read
    index, and moves the write index round the ring by the number of
    characters it announces. *)
Lemma produce_inv (fuel : nat) (msg : string) :
  forall (count : Z) (p p' : proc statics) (b : bool),
  produce fuel msg count p = Some (b, p') ->
  0 <= gps_write (gps (shm p)) < GPS_BUFFER_SIZE ->
  locals p' = locals p /\
  gps_read (gps (shm p')) = gps_read (gps (shm p)) /\
  0 <= gps_write (gps (shm p')) < GPS_BUFFER_SIZE /\
  0 <= gps_full (gps (shm p')) - gps_full (gps (shm p)) /\
  gps_write (gps (shm p')) =
    (gps_write (gps (shm p)) + (gps_full (gps (shm p')) - gps_full (gps (shm p))))
    mod GPS_BUFFER_SIZE.
Proof.
  assert (Hrefl : forall p : proc statics,
            0 <= gps_write (gps (shm p)) < GPS_BUFFER_SIZE ->
            locals p = locals p /\
            gps_read (gps (shm p)) = gps_read (gps (shm p)) /\
            0 <= gps_write (gps (shm p)) < GPS_BUFFER_SIZE /\
            0 <= gps_full (gps (shm p)) - gps_full (gps (shm p)) /\
            gps_write (gps (shm p)) =
              (gps_write (gps (shm p)) + (gps_full (gps (shm p)) - gps_full (gps (shm p))))
              mod GPS_BUFFER_SIZE).
  { intros p Hw. rewrite Z.sub_diag, Z.add_0_r, Z.mod_small by exact Hw.
    repeat split; try lia. }
  induction fuel as [|fuel IH]; intros count p p' b Hrun Hw.
  - unfold produce in Hrun. cbn in Hrun. inversion Hrun; subst. apply Hrefl, Hw.
  - unfold produce in Hrun; fold produce in Hrun.
    destruct (count <? strlen msg).
    2: { cbn in Hrun. inversion Hrun; subst. apply Hrefl, Hw. }
    unfold sem_timedwait in Hrun. revert Hrun. msimpl.
    destruct (hd false (intr p)); fsimpl.
    + intros Hrun. apply IH in Hrun; [|exact Hw]. exact Hrun.
    + destruct (0 <? gps_empty (gps (shm p))); fsimpl.
      2: { intros Hrun. inversion Hrun; subst. cbn. apply Hrefl, Hw. }
      destruct (put_char _ _) as [[[] p1]|] eqn:Hput; [|discriminate].
      apply put_char_inv in Hput. cbn in Hput.
      destruct Hput as (Hl & _ & _ & Hr1 & Hw1 & Hf1 & _).
      intros Hrun. apply IH in Hrun.
      * destruct Hrun as (Hl2 & Hr2 & Hw2 & Hk2 & Hm2).
        rewrite Hl2, Hr2, Hl, Hr1. repeat split; try lia.
        rewrite Hm2, Hw1, Hf1.
        unfold size_t. rewrite (Z.mod_small (_ + 1)) by (unfold GPS_BUFFER_SIZE in *; lia).
        rewrite Zplus_mod_idemp_l. f_equal. lia.
      * rewrite Hw1. apply Z.mod_pos_bound. reflexivity.
Qed.

(** [gps_loop], whatever interrupts it. *)
Lemma gps_loop_inv (p p' : proc statics) :
  gps_loop p = Some (tt, p') ->
  0 <= gps_write (gps (shm p)) < GPS_BUFFER_SIZE ->
  gps_read (gps (shm p')) = gps_read (gps (shm p)) /\
  0 <= gps_write (gps (shm p')) < GPS_BUFFER_SIZE /\
  0 <= gps_full (gps (shm p')) - gps_full (gps (shm p)) /\
  gps_write (gps (shm p')) =
    (gps_write (gps (shm p)) + (gps_full (gps (shm p')) - gps_full (gps (shm p))))
    mod GPS_BUFFER_SIZE.
Proof.
  unfold gps_loop. msimpl.
  destruct (produce _ _ _ _) as [[b p1]|] eqn:Hrun; [|discriminate].
  intros H Hw. apply produce_inv in Hrun; [|exact Hw].
  cbn in Hrun. destruct Hrun as (_ & H1 & H2 & H3 & H4).
  destruct b; cbn in H; inversion H; subst; cbn; repeat split; try assumption; lia.
Qed.

(** No sample is longer than 69 characters. *)
Lemma current_sample_short (l : statics) :
  (String.length (current_sample l) <= 69)%nat.
Proof.
  unfold current_sample.
  destruct (Z.to_nat (sample_index l)) as [|[|[|[|n]]]];
    apply Nat.leb_le; vm_compute; reflexivity.
Qed.

(** C10.  A producer iteration, uninterrupted and with the mutex free,
    that finds only [k] slots, fewer than its sample has characters,
    returns after it wrote the first [k] characters of the sample at the
    write index; it leaves them in the ring, announced by [full], and does
    not move [sample_index].  Whenever the producer runs again on that
    ring, the consumer having freed room for the whole sample while the
    [k] characters are still there, it writes the same sample from its
    first character right behind them: read from the old write index on,
    the ring holds the prefix of [k] characters followed by the whole
    sample, and only now [sample_index] moves on. *)
Theorem gps_timeout_restarts_sample (p : proc statics) (k : nat) :
  let msg := list_ascii_of_string (current_sample (locals p)) in
  let w := gps_write (gps (shm p)) in
  intr p = [] ->
  gps_mutex (gps (shm p)) = 1 ->
  0 <= w < GPS_BUFFER_SIZE ->
  length (nmea (gps (shm p))) = Z.to_nat GPS_BUFFER_SIZE ->
  gps_empty (gps (shm p)) = Z.of_nat k ->
  (k < length msg)%nat ->
  exists p',
    gps_loop p = Some (tt, p') /\
    sample_index (locals p') = sample_index (locals p) /\
    gps_full (gps (shm p')) = gps_full (gps (shm p)) + Z.of_nat k /\
    gps_write (gps (shm p')) = (w + Z.of_nat k) mod GPS_BUFFER_SIZE /\
    ring_slice (nmea (gps (shm p'))) w k = take k msg /\
    forall q : proc statics,
      locals q = locals p' -> intr q = [] -> gps_mutex (gps (shm q)) = 1 ->
      gps_write (gps (shm q)) = gps_write (gps (shm p')) ->
      nmea (gps (shm q)) = nmea (gps (shm p')) ->
      Z.of_nat (length msg) <= gps_empty (gps (shm q)) ->
      (k + length msg <= Z.to_nat GPS_BUFFER_SIZE)%nat ->
      exists q',
        gps_loop q = Some (tt, q') /\
        ring_slice (nmea (gps (shm q'))) w (k + length msg) = take k msg ++ msg /\
        sample_index (locals q') =
          size_t (sample_index (locals p) + 1) mod nmea_samples_count (locals p).
Proof.
  intros msg w Hi Hm Hw Hb He Hk.
  assert (Hlen : strlen (current_sample (locals p)) = Z.of_nat (length msg))
    by (unfold strlen, msg; now rewrite length_chars).
  assert (Htk : length (take k msg) = k) by (rewrite length_take; lia).
  assert (Hshort : (length msg <= 69)%nat)
    by (unfold msg; rewrite length_chars; apply current_sample_short).
  destruct (ring_puts_spec msg (shm p)) as (H1 & H2 & H3 & H4 & H5 & H6);
    [lia | exact Hw |].
  rewrite He, Z.min_r in H1, H2, H3, H6 by lia. rewrite Nat2Z.id in H6.
  assert (He0 : 0 <= gps_empty (gps (shm p))) by lia.
  pose proof (gps_loop_uninterrupted p Hi Hm He0) as Hrun. cbn zeta in Hrun.
  eexists. split; [exact Hrun|]. clear Hrun.
  rewrite Hlen, He.
  replace (Z.of_nat (length msg) <=? Z.of_nat k) with false
    by (symmetry; apply Z.leb_gt; lia).
  cbn [locals shm gps set_wdg]. fold msg.
  split; [reflexivity|]. split; [exact H1|]. split; [exact H3|].
  split.
  { rewrite H6. rewrite <- Htk at 2.
    apply ring_slice_write;
      [exact Hw | exact Hb | rewrite Htk; unfold GPS_BUFFER_SIZE; lia]. }
  intros q Hl Hqi Hqm Hqw Hqb Hqe Hn. cbn [locals shm gps set_wdg] in Hl, Hqw, Hqb.
  fold msg in Hqw, Hqb. rewrite H3 in Hqw. rewrite H6 in Hqb.
  assert (Hmsgq : list_ascii_of_string (current_sample (locals q)) = msg)
    by (rewrite Hl; reflexivity).
  assert (Hlenq : strlen (current_sample (locals q)) = Z.of_nat (length msg))
    by (rewrite Hl; exact Hlen).
  destruct (ring_puts_spec msg (shm q)) as (_ & _ & _ & _ & _ & G6);
    [lia | rewrite Hqw; apply Z.mod_pos_bound; reflexivity |].
  rewrite Z.min_l in G6 by lia. rewrite Nat2Z.id, firstn_all in G6.
  assert (Hqe0 : 0 <= gps_empty (gps (shm q))) by lia.
  pose proof (gps_loop_uninterrupted q Hqi Hqm Hqe0) as Hrun. cbn zeta in Hrun.
  eexists. split; [exact Hrun|]. clear Hrun.
  rewrite Hlenq, Hmsgq.
  replace (Z.of_nat (length msg) <=? gps_empty (gps (shm q))) with true
    by (symmetry; apply Z.leb_le; lia).
  cbn [locals shm gps set_wdg sample_index]. rewrite Hl.
  split; [|reflexivity].
  rewrite G6, Hqw, Hqb.
  rewrite <- Htk at 1.
  rewrite <- ring_write_app by exact Hw.
  replace (k + length msg)%nat with (length (take k msg ++ msg))
    by (rewrite length_app, Htk; reflexivity).
  apply ring_slice_write; [exact Hw | exact Hb |].
  rewrite length_app, Htk. exact Hn.
Qed.

(** C10 on an instance: with 54 slots left and a sample of 55 characters
    to send, the iteration stores 54 characters and keeps the sample for
    the next iteration. *)
Lemma gps_timeout_restarts_witness :
  intr ring_nearly_full = [] /\
  gps_mutex (gps (shm ring_nearly_full)) = 1 /\
  0 <= gps_write (gps (shm ring_nearly_full)) < GPS_BUFFER_SIZE /\
  length (nmea (gps (shm ring_nearly_full))) = Z.to_nat GPS_BUFFER_SIZE /\
  gps_empty (gps (shm ring_nearly_full)) = 54 /\
  String.length (current_sample (locals ring_nearly_full)) = 55%nat /\
  exists p',
    gps_loop ring_nearly_full = Some (tt, p') /\
    sample_index (locals p') = 1 /\
    gps_full (gps (shm p')) = 1280.
Proof.
  assert (H1 : intr ring_nearly_full = []) by reflexivity.
  assert (H2 : gps_mutex (gps (shm ring_nearly_full)) = 1) by reflexivity.
  assert (H3 : 0 <= gps_write (gps (shm ring_nearly_full)) < GPS_BUFFER_SIZE)
    by (vm_compute; split; [discriminate | reflexivity]).
  assert (H4 : length (nmea (gps (shm ring_nearly_full))) = Z.to_nat GPS_BUFFER_SIZE)
    by (vm_compute; reflexivity).
  assert (H5 : gps_empty (gps (shm ring_nearly_full)) = Z.of_nat 54) by reflexivity.
  assert (H6 : (54 < length (list_ascii_of_string (current_sample (locals ring_nearly_full))))%nat)
    by (apply Nat.ltb_lt; vm_compute; reflexivity).
  split; [exact H1|]. split; [exact H2|]. split; [exact H3|]. split; [exact H4|].
  split; [exact H5|]. split; [vm_compute; reflexivity|].
  destruct (gps_timeout_restarts_sample ring_nearly_full 54 H1 H2 H3 H4 H5 H6)
    as (p' & Hrun & Hidx & Hfull & _).
  exists p'. split; [exact Hrun|]. split; [exact Hidx|]. exact Hfull.
Defined.

End GpsFacts.

(** ** Telemetry *)

Module TelemetryFacts.
Import Telemetry.

Arguments get_char : simpl never.
Arguments drain : simpl never.
Arguments BUF_APPEND : simpl never.

(** *** Strings *)

Lemma append_assoc (a b c : string) : ((a ++ b) ++ c = a ++ (b ++ c))%string.
Proof. induction a as [|x a IH]; cbn; [reflexivity | now rewrite IH]. Qed.

Lemma length_append (a b : string) :
  String.length (a ++ b) = (String.length a + String.length b)%nat.
Proof. induction a as [|x a IH]; cbn; [reflexivity | now rewrite IH]. Qed.

Lemma substring_whole (s : string) : substring 0 (String.length s) s = s.
Proof. induction s as [|x s IH]; cbn; [reflexivity | now rewrite IH]. Qed.

Lemma ptr_append (a b : string) : ptr (a ++ b) = ptr a + ptr b.
Proof. unfold ptr. rewrite length_append. lia. Qed.

(** With room for the text, its newline and the terminating zero,
    [BUF_APPEND] appends the text and the newline. *)
Lemma BUF_APPEND_fits (msg text : string) :
  ptr msg + ptr text + 1 < sizeof_msg ->
  BUF_APPEND msg text = (msg ++ text ++ nl)%string.
Proof.
  intros H. unfold BUF_APPEND.
  assert (Hl : ptr (text ++ nl) = ptr text + 1) by (rewrite ptr_append; reflexivity).
  unfold ptr in *. unfold sizeof_msg in *.
  destruct (Z.of_nat (String.length msg) <? 256) eqn:E1; tests; [|lia].
  destruct (0 <? Z.of_nat (String.length (text ++ nl))) eqn:E2; tests; [|lia].
  destruct (Z.of_nat (String.length (text ++ nl)) <? 256 - Z.of_nat (String.length msg))
    eqn:E3; tests; [|lia].
  rewrite Nat2Z.id, substring_whole. reflexivity.
Qed.

(** [BUF_APPEND] never takes the message beyond 255 characters, and never
    shortens it. *)
Lemma BUF_APPEND_bound (msg text : string) :
  ptr msg < sizeof_msg -> ptr msg <= ptr (BUF_APPEND msg text) < sizeof_msg.
Proof.
  intros H. unfold BUF_APPEND.
  destruct (ptr msg <? sizeof_msg) eqn:E1; tests; [|lia].
  destruct (0 <? Z.of_nat (String.length (text ++ nl))) eqn:E2; tests; [|lia].
  rewrite ptr_append.
  assert (Hs : forall n s, ptr (substring 0 n s) <= Z.of_nat n).
  { intros n s. unfold ptr. revert s. induction n as [|n IH]; intros [|x s]; cbn; try lia.
    specialize (IH s). lia. }
  assert (H0 : forall s, 0 <= ptr s) by (intros; unfold ptr; lia).
  destruct (Z.of_nat (String.length (text ++ nl)) <? sizeof_msg - ptr msg) eqn:E3; tests.
  - specialize (Hs (Z.to_nat (Z.of_nat (String.length (text ++ nl)))) (text ++ nl)%string).
    specialize (H0 (substring 0 (Z.to_nat (Z.of_nat (String.length (text ++ nl))))
                      (text ++ nl))). lia.
  - specialize (Hs (Z.to_nat (sizeof_msg - ptr msg - 1)) (text ++ nl)%string).
    specialize (H0 (substring 0 (Z.to_nat (sizeof_msg - ptr msg - 1)) (text ++ nl))). lia.
Qed.

(** *** The ring as the consumer reads it *)

Lemma ring_slice_S (buf : nmea_t) (r : Z) (k : nat) :
  0 <= r < GPS_BUFFER_SIZE ->
  ring_slice buf r (S k) =
  default "000"%char (buf !! Z.to_nat r)
  :: ring_slice buf ((r + 1) mod GPS_BUFFER_SIZE) k.
Proof.
  intros Hr. unfold ring_slice. cbn [seq map]. f_equal.
  - rewrite Z.add_0_r, Z.mod_small by exact Hr. reflexivity.
  - rewrite <- seq_shift, map_map. apply map_ext. intros i.
    rewrite Zplus_mod_idemp_l. do 4 f_equal. lia.
Qed.

(** One character out of the ring. *)
Lemma get_char_run (p : proc statics) :
  get_char p =
  Some (default "000"%char (nmea (gps (shm p)) !! Z.to_nat (gps_read (gps (shm p)))),
        Proc (locals p)
             (set_gps (fun g =>
                {| gps_mutex := gps_mutex g + 1;
                   gps_full := gps_full g;
                   gps_empty := gps_empty g + 1;
                   gps_write := gps_write g;
                   gps_read := size_t (gps_read g + 1) mod GPS_BUFFER_SIZE;
                   nmea := nmea g |}) (shm p))
             (out p) (intr p)).
Proof. destruct p as [l s o i]. reflexivity. Qed.

Lemma set_gps_ext (f g : gps_shm -> gps_shm) (s : drone_shared_t) :
  f (gps s) = g (gps s) -> set_gps f s = set_gps g s.
Proof. intros H. unfold set_gps. rewrite H. reflexivity. Qed.

Lemma consumed_0 (s : drone_shared_t) :
  0 <= gps_read (gps s) < GPS_BUFFER_SIZE -> set_gps (consumed 0) s = s.
Proof.
  intros H. destruct s as [? ? ? ? ? ? ? ? ? [m f e w r b] ?]. cbn in H.
  unfold set_gps, consumed. cbn.
  rewrite Z.sub_0_r, !Z.add_0_r, Z.mod_small by exact H. reflexivity.
Qed.

(** When the ring announces [k] characters without a line end among them,
    the message has room for them, no wait is interrupted and the mutex is
    free, the loop reads the [k] characters, times out on [full], appends
    [NO FIX.] through [BUF_APPEND] and comes to the store of [Abort]. *)
Lemma drain_pending_to_store (k : nat) :
  forall (fuel : nat) (msg : string) (p : proc statics),
  (k < fuel)%nat ->
  intr p = [] ->
  gps_mutex (gps (shm p)) = 1 ->
  gps_full (gps (shm p)) = Z.of_nat k ->
  0 <= gps_read (gps (shm p)) < GPS_BUFFER_SIZE ->
  ptr msg + Z.of_nat k < sizeof_msg - 2 ->
  Forall (fun c => c <> "010"%char)
         (ring_slice (nmea (gps (shm p))) (gps_read (gps (shm p))) k) ->
  drain fuel msg p =
  match write_action Abort
          (Proc (locals p) (set_gps (consumed (Z.of_nat k)) (shm p))
                (out p ++ [printf "\n[GPS timeout: no new data]\n" []]) [])
  with
  | Some (_, q) =>
      Some (BUF_APPEND
              (msg ++ string_of_list_ascii
                        (ring_slice (nmea (gps (shm p))) (gps_read (gps (shm p))) k))
              "NO FIX.", q)
  | None => None
  end.
Proof.
  induction k as [|k IH]; intros fuel msg p Hf Hi Hm Hfull Hr Hp Hnl.
  - destruct fuel as [|fuel]; [lia|]. unfold drain; fold drain.
    change (Z.of_nat 0) with 0 in *.
    destruct (ptr msg <? sizeof_msg - 2) eqn:E; tests; [|lia].
    unfold sem_timedwait. msimpl. rewrite Hi. cbn. rewrite Hfull. fsimpl.
    rewrite consumed_0 by exact Hr.
    cbn [ring_slice seq map string_of_list_ascii].
    replace (msg ++ "")%string with msg
      by (clear; induction msg as [|c m IHm]; cbn; [reflexivity | now rewrite <- IHm]).
    destruct p as [l s o i]. cbn in Hi. subst i.
    destruct (write_action Abort _) as [[[] q]|]; reflexivity.
  - destruct fuel as [|fuel]; [lia|]. unfold drain; fold drain.
    destruct (ptr msg <? sizeof_msg - 2) eqn:E; tests; [|lia].
    rewrite ring_slice_S in * by exact Hr.
    apply Forall_cons in Hnl. destruct Hnl as [Hc Hnl].
    unfold sem_timedwait. msimpl. rewrite Hi. cbn. rewrite Hfull.
    replace (0 <? Z.of_nat (S k)) with true by (symmetry; apply Z.ltb_lt; lia).
    fsimpl. rewrite Hm. fsimpl. rewrite get_char_run. cbn.
    assert (Hsz : size_t (gps_read (gps (shm p)) + 1) mod GPS_BUFFER_SIZE
                  = (gps_read (gps (shm p)) + 1) mod GPS_BUFFER_SIZE).
    { unfold size_t. rewrite (Z.mod_small (_ + 1)) by (unfold GPS_BUFFER_SIZE in *; lia).
      reflexivity. }
    apply Ascii.eqb_neq in Hc. rewrite Hc.
    rewrite IH; cbn; rewrite ?Hsz; try assumption; try reflexivity; try lia.
    + assert (Hs : set_gps (consumed (Z.of_nat k))
                     (set_gps (fun g =>
                        {| gps_mutex := gps_mutex g - 1 + 1;
                           gps_full := gps_full g - 1;
                           gps_empty := gps_empty g + 1;
                           gps_write := gps_write g;
                           gps_read := (gps_read g + 1) mod GPS_BUFFER_SIZE;
                           nmea := nmea g |}) (shm p))
                   = set_gps (consumed (Z.of_nat (S k))) (shm p)).
      { destruct p as [l s o i]. destruct s as [? ? ? ? ? ? ? ? ? [m f e w r b] ?].
        cbn in *. subst. unfold set_gps, consumed. cbn. do 2 f_equal; try lia.
        rewrite Zplus_mod_idemp_l. f_equal. lia. }
      rewrite append_assoc. cbn [append].
      match goal with
      | |- match write_action Abort ?q1 with _ => _ end
           = match write_action Abort ?q2 with _ => _ end =>
          replace q1 with q2; [reflexivity|]
      end.
      rewrite <- Hs. destruct p as [l s o i].
      destruct s as [? ? ? ? ? ? ? ? ? [m f e w r b] ?]. cbn in *. subst.
      unfold set_gps, consumed. cbn. rewrite Hsz. reflexivity.
    + apply Z.mod_pos_bound. reflexivity.
    + rewrite ptr_append. change (ptr (String _ "")) with 1. lia.
Qed.

(** With the lock of [action] free, [Abort] is stored. *)
Lemma drain_pending_then_timeout (k : nat) :
  forall (fuel : nat) (msg : string) (p : proc statics),
  (k < fuel)%nat ->
  intr p = [] ->
  gps_mutex (gps (shm p)) = 1 ->
  gps_full (gps (shm p)) = Z.of_nat k ->
  0 <= gps_read (gps (shm p)) < GPS_BUFFER_SIZE ->
  ptr msg + Z.of_nat k < sizeof_msg - 2 ->
  Forall (fun c => c <> "010"%char)
         (ring_slice (nmea (gps (shm p))) (gps_read (gps (shm p))) k) ->
  action_lock_free (shm p) ->
  drain fuel msg p =
  Some (BUF_APPEND
          (msg ++ string_of_list_ascii
                    (ring_slice (nmea (gps (shm p))) (gps_read (gps (shm p))) k))
          "NO FIX.",
        Proc (locals p)
             (set_action (set_action_type Abort)
                (set_gps (consumed (Z.of_nat k)) (shm p)))
             (out p ++ [printf "\n[GPS timeout: no new data]\n" []])
             []).
Proof.
  intros fuel msg p Hf Hi Hm Hfull Hr Hp Hnl Hlock.
  rewrite (drain_pending_to_store k) by assumption.
  rewrite write_action_free; [reflexivity|].
  destruct p as [l s o i]. destruct s. exact Hlock.
Qed.

(** With the lock of [action] held by readers, the loop waits at the
    store. *)
Lemma drain_pending_waits (k : nat) (c : Z) (fuel : nat) (msg : string) (p : proc statics) :
  (k < fuel)%nat ->
  intr p = [] ->
  gps_mutex (gps (shm p)) = 1 ->
  gps_full (gps (shm p)) = Z.of_nat k ->
  0 <= gps_read (gps (shm p)) < GPS_BUFFER_SIZE ->
  ptr msg + Z.of_nat k < sizeof_msg - 2 ->
  Forall (fun c => c <> "010"%char)
         (ring_slice (nmea (gps (shm p))) (gps_read (gps (shm p))) k) ->
  action_lock (action (shm p)) = held_by c -> 0 < c < 255 ->
  drain fuel msg p = None.
Proof.
  intros Hf Hi Hm Hfull Hr Hp Hnl Hk Hc.
  rewrite (drain_pending_to_store k) by assumption.
  rewrite (write_action_waits Abort c); [reflexivity | | exact Hc].
  destruct p as [l s o i]. destruct s. exact Hk.
Qed.

(** The message composed in [SampleGPS] on a ring that runs dry after
    [k] characters. *)
Lemma compose_timeout (p : proc statics) (k : nat) :
  let s := shm p in
  let pending := ring_slice (nmea (gps s)) (gps_read (gps s)) k in
  let text := (gps_header s ++ string_of_list_ascii pending)%string in
  intr p = [] ->
  action_lock_free s ->
  action_type (action s) = SampleGPS ->
  gps_mutex (gps s) = 1 ->
  gps_full (gps s) = Z.of_nat k ->
  0 <= gps_read (gps s) < GPS_BUFFER_SIZE ->
  Forall (fun c => c <> "010"%char) pending ->
  ptr (gps_header s) + Z.of_nat k < sizeof_msg - 2 ->
  exists p',
    compose p = Some (BUF_APPEND (BUF_APPEND text "NO FIX.") (nl ++ "}"), p') /\
    locals p' = locals p /\
    action_type (action (shm p')) = Abort /\
    action_lock_free (shm p') /\
    gps (shm p') = consumed (Z.of_nat k) (gps s).
Proof.
  intros s pending text Hi Hlock Ha Hm Hfull Hr Hnl Hp.
  subst text pending s.
  destruct p as [l s o i]. cbn [shm locals intr] in *. subst i.
  unfold compose, gps_header. msimpl. unfold sem_trywait, sem_post. msimpl.
  destruct (0 <? accel_mutex (accel s)) eqn:E1; fsimpl;
    destruct (0 <? pwm_mutex (pwm s)) eqn:E2; fsimpl.
  all: unfold gps_header in Hp; rewrite E1, E2, Ha in Hp.
  all: rewrite read_action_free by exact Hlock; cbn; rewrite Ha; fsimpl.
  all: rewrite (drain_pending_then_timeout k); cbn;
         try assumption; try reflexivity; try lia.
  all: try (unfold ptr, sizeof_msg in Hp; lia).
  all: eexists; split; [reflexivity|]; cbn; repeat apply conj; try reflexivity.
  all: destruct s as [? ? ? ? ? ? [[r w c] t] ? ? ? ?]; apply Hlock.
Qed.

(** The same with the lock of [action] held by readers: the telemetry
    reads the action, reads the ring, and waits at the store of [Abort]. *)
Lemma compose_waits (p : proc statics) (k : nat) (c : Z) :
  let s := shm p in
  let pending := ring_slice (nmea (gps s)) (gps_read (gps s)) k in
  intr p = [] ->
  action_lock (action s) = held_by c -> 0 < c < 255 ->
  action_type (action s) = SampleGPS ->
  gps_mutex (gps s) = 1 ->
  gps_full (gps s) = Z.of_nat k ->
  0 <= gps_read (gps s) < GPS_BUFFER_SIZE ->
  Forall (fun c => c <> "010"%char) pending ->
  ptr (gps_header s) + Z.of_nat k < sizeof_msg - 2 ->
  compose p = None.
Proof.
  intros s pending Hi Hk Hc Ha Hm Hfull Hr Hnl Hp.
  subst pending s.
  destruct p as [l s o i]. cbn [shm locals intr] in *. subst i.
  unfold compose, gps_header. msimpl. unfold sem_trywait, sem_post. msimpl.
  destruct (0 <? accel_mutex (accel s)) eqn:E1; fsimpl;
    destruct (0 <? pwm_mutex (pwm s)) eqn:E2; fsimpl.
  all: unfold gps_header in Hp; rewrite E1, E2, Ha in Hp.
  all: rewrite (read_action_shared c) by (first [exact Hk | exact Hc]).
  all: cbn; rewrite Ha; fsimpl.
  all: rewrite (drain_pending_waits k c); cbn;
         try assumption; try reflexivity; try lia.
  all: try (unfold ptr, sizeof_msg in Hp; lia).
Qed.

Arguments compose : simpl never.

(** C6, amended.  A telemetry iteration that composes a message in
    [SampleGPS], with no wait interrupted and the mutex of the ring and the
    lock of [action] free, on a ring that announces [k] characters with no
    line end among them and then nothing more within the five seconds,
    [k] being less than the room left in the message, the reading of the
    accelerometer holding no NaN: it returns; the message it sends is the
    header, the [k] characters, then [NO FIX.] and the closing of the
    block, both through [BUF_APPEND], which cuts what it appends to the
    bytes left in the 256 of the message; [NO FIX.] and its newline are
    whole as soon as 9 bytes are left.  [Action] is stored as [Abort], the
    lock is free again, and the ring has been read by [k] characters.  The
    store is made under the write lock: on the same region with the lock
    held by readers, the iteration waits for the lock and does not
    return. *)
Theorem telemetry_timeout_no_fix
    (conn : connect_result) (n : Z) (p : proc statics) (k : nat) :
  let s := shm p in
  let pending := ring_slice (nmea (gps s)) (gps_read (gps s)) k in
  let text := (gps_header s ++ string_of_list_ascii pending)%string in
  init (locals p) = false \/ is_connected conn = true ->
  intr p = [] ->
  action_lock_free s ->
  action_type (action s) = SampleGPS ->
  numbers (acceleration (accel s)) = true ->
  gps_mutex (gps s) = 1 ->
  gps_full (gps s) = Z.of_nat k ->
  0 <= gps_read (gps s) < GPS_BUFFER_SIZE ->
  Forall (fun c => c <> "010"%char) pending ->
  ptr (gps_header s) + Z.of_nat k < sizeof_msg - 2 ->
  (exists p',
     telemetry_loop conn n p = Some (tt, p') /\
     In (send (BUF_APPEND (BUF_APPEND text "NO FIX.") (nl ++ "}"))) (out p') /\
     (ptr text + 9 <= sizeof_msg ->
        BUF_APPEND text "NO FIX." = (text ++ "NO FIX." ++ nl)%string) /\
     action_type (action (shm p')) = Abort /\
     action_lock_free (shm p') /\
     gps (shm p') = consumed (Z.of_nat k) (gps s)) /\
  (forall c : Z, 0 < c < 255 ->
     telemetry_loop conn n
       (Proc (locals p) (with_lock (held_by c) s) (out p) (intr p)) = None).
Proof.
  intros s pending text Hc Hi Hlock Ha _ Hm Hfull Hr Hnl Hp.
  assert (Hfit : ptr text + 9 <= sizeof_msg ->
                 BUF_APPEND text "NO FIX." = (text ++ "NO FIX." ++ nl)%string).
  { intros H. apply BUF_APPEND_fits. change (ptr "NO FIX.") with 7. lia. }
  assert (Hcomp : forall (l : statics) (o : list event),
            exists p', compose (Proc l (shm p) o []) =
                       Some (BUF_APPEND (BUF_APPEND text "NO FIX.") (nl ++ "}"), p') /\
                       locals p' = l /\
                       action_type (action (shm p')) = Abort /\
                       action_lock_free (shm p') /\
                       gps (shm p') = consumed (Z.of_nat k) (gps s)).
  { intros l o.
    apply (compose_timeout (Proc l (shm p) o []) k); cbn; try assumption; reflexivity. }
  assert (Hwait : forall (c : Z) (l : statics) (o : list event), 0 < c < 255 ->
            compose (Proc l (with_lock (held_by c) (shm p)) o []) = None).
  { intros c l o Hc'.
    apply (compose_waits (Proc l (with_lock (held_by c) (shm p)) o []) k c);
      cbn [shm intr]; try exact Hc'; try reflexivity.
    all: destruct (shm p); try assumption; reflexivity. }
  subst text pending s.
  destruct p as [[fd ini] s o i]. cbn [shm locals init intr] in *. subst i.
  split.
  - unfold telemetry_loop. msimpl.
    destruct ini.
    + destruct conn as [ | | |c]; try (destruct Hc as [Hc|Hc]; discriminate).
      cbn. msimpl.
      match goal with |- context [compose (Proc ?l1 s ?o1 [])] =>
        destruct (Hcomp l1 o1) as (p' & H1 & H2 & H3 & H4 & H5) end.
      rewrite H1. msimpl.
      destruct (n <=? 0); eexists; (split; [reflexivity|]); cbn.
      all: split; [rewrite !in_app_iff; cbn; auto 10|].
      all: split; [exact Hfit|]; repeat split; try assumption; apply H4.
    + msimpl.
      destruct (Hcomp {| sock_fd := fd; init := false |} o) as (p' & H1 & H2 & H3 & H4 & H5).
      rewrite H1. msimpl.
      destruct (n <=? 0); eexists; (split; [reflexivity|]); cbn.
      all: split; [rewrite !in_app_iff; cbn; auto 10|].
      all: split; [exact Hfit|]; repeat split; try assumption; apply H4.
  - intros c Hc'. unfold telemetry_loop. msimpl.
    destruct ini.
    + destruct conn as [ | | |fd']; try (destruct Hc as [Hc|Hc]; discriminate).
      cbn. msimpl. rewrite Hwait by exact Hc'. reflexivity.
    + msimpl. rewrite Hwait by exact Hc'. reflexivity.
Qed.

(** *** The consumer's side of the ring, whatever happens *)

Lemma gps_action_frame (a : action_shm) (s s' : drone_shared_t) :
  set_action (fun _ => a) s' = s -> gps s' = gps s.
Proof. intros <-. destruct s'. reflexivity. Qed.

(** One character out of the ring: the read index moves by one round the
    ring, [empty] has one slot more, and neither the write index nor the
    content of the ring changes. *)
Lemma get_char_inv (c : ascii) (p p' : proc statics) :
  get_char p = Some (c, p') ->
  c = default "000"%char (nmea (gps (shm p)) !! Z.to_nat (gps_read (gps (shm p)))) /\
  locals p' = locals p /\ out p' = out p /\ intr p' = intr p /\
  gps_write (gps (shm p')) = gps_write (gps (shm p)) /\
  gps_read (gps (shm p')) = size_t (gps_read (gps (shm p)) + 1) mod GPS_BUFFER_SIZE /\
  gps_empty (gps (shm p')) = gps_empty (gps (shm p)) + 1 /\
  gps_full (gps (shm p')) = gps_full (gps (shm p)) /\
  nmea (gps (shm p')) = nmea (gps (shm p)).
Proof.
  rewrite get_char_run. intros H. inversion H; subst. cbn.
  destruct (shm p). cbn. repeat split.
Qed.

Lemma consumer_inv_same (p p' : proc statics) :
  gps (shm p') = gps (shm p) ->
  0 <= gps_read (gps (shm p)) < GPS_BUFFER_SIZE ->
  consumer_inv p p'.
Proof.
  intros E Hr. unfold consumer_inv. rewrite E.
  rewrite Z.sub_diag, Z.add_0_r, Z.mod_small by exact Hr.
  repeat split; try lia.
Qed.

Lemma consumer_inv_step (p p1 p' : proc statics) :
  0 <= gps_read (gps (shm p)) < GPS_BUFFER_SIZE ->
  gps_write (gps (shm p1)) = gps_write (gps (shm p)) ->
  nmea (gps (shm p1)) = nmea (gps (shm p)) ->
  gps_read (gps (shm p1)) = size_t (gps_read (gps (shm p)) + 1) mod GPS_BUFFER_SIZE ->
  gps_empty (gps (shm p1)) = gps_empty (gps (shm p)) + 1 ->
  consumer_inv p1 p' -> consumer_inv p p'.
Proof.
  unfold consumer_inv. intros Hr Hw Hb Hr1 He1 (G1 & G2 & G3 & G4 & G5).
  rewrite G1, G2, Hw, Hb. repeat split; try lia.
  rewrite G5, Hr1, He1.
  unfold size_t. rewrite (Z.mod_small (_ + 1)) by (unfold GPS_BUFFER_SIZE in *; lia).
  rewrite Zplus_mod_idemp_l. f_equal. lia.
Qed.

Lemma drain_inv (fuel : nat) :
  forall (msg msg' : string) (p p' : proc statics),
  drain fuel msg p = Some (msg', p') ->
  0 <= gps_read (gps (shm p)) < GPS_BUFFER_SIZE ->
  locals p' = locals p /\ consumer_inv p p'.
Proof.
  induction fuel as [|fuel IH]; intros msg msg' p p' Hrun Hr.
  - cbn in Hrun. inversion Hrun; subst. split; [reflexivity|].
    apply consumer_inv_same; [reflexivity | exact Hr].
  - unfold drain in Hrun; fold drain in Hrun.
    destruct (ptr msg <? sizeof_msg - 2).
    2: { cbn in Hrun. inversion Hrun; subst. split; [reflexivity|].
         apply consumer_inv_same; [reflexivity | exact Hr]. }
    destruct p as [l s o i]. destruct s as [a1 a2 a3 a4 a5 a6 a7 a8 a9 [m f e w r b] a11].
    cbn in Hr.
    unfold sem_timedwait, sem_post in Hrun. revert Hrun. msimpl.
    destruct (hd false i); fsimpl.
    { intros [= <- <-]. cbn. split; [reflexivity|].
      apply consumer_inv_same; [reflexivity | exact Hr]. }
    destruct (0 <? f); fsimpl.
    2: { destruct (write_action _ _) as [[[] p1]|] eqn:Hw; [|discriminate].
         apply write_action_frame in Hw. cbn in Hw.
         destruct Hw as (Hl & _ & _ & _ & Hs).
         intros [= <- <-]. split; [exact Hl|].
         apply consumer_inv_same; [|exact Hr].
         apply gps_action_frame in Hs. exact Hs. }
    destruct (hd false (tl i)); fsimpl.
    { intros [= <- <-]. cbn. split; [reflexivity|].
      apply consumer_inv_same; [|exact Hr]. unfold set_gps_full, set_gps_mutex. cbn. f_equal; lia. }
    destruct (0 <? m); fsimpl.
    2: { intros [= <- <-]. cbn. split; [reflexivity|].
         apply consumer_inv_same; [|exact Hr]. unfold set_gps_full, set_gps_mutex. cbn. f_equal; lia. }
    destruct (get_char _) as [[c p1]|] eqn:Hg; [|discriminate].
    apply get_char_inv in Hg. cbn in Hg.
    destruct Hg as (_ & Hl & _ & _ & Hw1 & Hr1 & He1 & _ & Hb1).
    assert (Hr1' : 0 <= gps_read (gps (shm p1)) < GPS_BUFFER_SIZE)
      by (rewrite Hr1; apply Z.mod_pos_bound; reflexivity).
    assert (Hstep : forall q, consumer_inv p1 q ->
              consumer_inv (Proc l (Build_drone_shared_t a1 a2 a3 a4 a5 a6 a7 a8 a9
                                      (Build_gps_shm m f e w r b) a11) o i) q).
    { intros q. apply consumer_inv_step; assumption. }
    destruct (Ascii.eqb c "010").
    + intros [= <- <-]. split; [exact Hl|].
      apply Hstep, consumer_inv_same; [reflexivity | exact Hr1'].
    + intros Hrun. apply IH in Hrun; [|exact Hr1'].
      destruct Hrun as (Hl2 & Hinv). split; [congruence|]. apply Hstep, Hinv.
Qed.

Lemma compose_inv (msg : string) (p p' : proc statics) :
  compose p = Some (msg, p') ->
  0 <= gps_read (gps (shm p)) < GPS_BUFFER_SIZE ->
  locals p' = locals p /\ consumer_inv p p'.
Proof.
  destruct p as [l s o i]. destruct s as [a1 a2 a3 a4 a5 a6 a7 a8 a9 g a11].
  cbn [shm gps locals]. intros Hrun Hr. revert Hrun.
  unfold compose. msimpl. unfold sem_trywait, sem_post. msimpl.
  destruct (0 <? accel_mutex a8); fsimpl; destruct (0 <? pwm_mutex a9); fsimpl.
  all: destruct (read_action _) as [[a p1]|] eqn:Hread; [|discriminate].
  all: apply read_action_frame in Hread; cbn in Hread.
  all: destruct Hread as (_ & Hl & _ & _ & _ & Hs).
  all: apply gps_action_frame in Hs; cbn in Hs.
  all: assert (Hr1 : 0 <= gps_read (gps (shm p1)) < GPS_BUFFER_SIZE)
         by (rewrite Hs; exact Hr).
  all: destruct (a =? SampleGPS); fsimpl.
  all: lazymatch goal with
       | |- context [drain ?f ?m ?q] =>
           destruct (drain f m q) as [[msg1 p2]|] eqn:Hd; [|discriminate];
           apply drain_inv in Hd; [|exact Hr1];
           cbn [shm gps locals] in Hd; destruct Hd as (Hl2 & Hinv);
           intros [= <- <-]; split; [cbn; congruence|];
           unfold consumer_inv in *; cbn [shm gps] in *;
           rewrite Hs in Hinv; exact Hinv
       | |- _ =>
           intros [= <- <-]; split; [exact Hl|];
           apply consumer_inv_same; [exact Hs | exact Hr]
       end.
Qed.

(** [telemetry_loop], whatever its outcome. *)
Lemma telemetry_loop_inv (conn : connect_result) (n : Z) (p p' : proc statics) :
  telemetry_loop conn n p = Some (tt, p') ->
  0 <= gps_read (gps (shm p)) < GPS_BUFFER_SIZE ->
  consumer_inv p p'.
Proof.
  destruct p as [[fd ini] s o i]. cbn [shm gps]. intros Hrun Hr. revert Hrun.
  assert (Hcomp : forall l o msg q,
            compose (Proc l s o i) = Some (msg, q) ->
            consumer_inv (Proc {| sock_fd := fd; init := ini |} s o i) q).
  { intros l1 o1 msg q Hc. apply compose_inv in Hc; [|exact Hr].
    destruct Hc as (_ & Hc). exact Hc. }
  unfold telemetry_loop. msimpl.
  destruct ini; [destruct conn as [ | | |c]|]; cbn; msimpl.
  1-3: (intros [= <-]; apply consumer_inv_same; [reflexivity | exact Hr]).
  all: match goal with |- context [compose ?q] =>
         destruct (compose q) as [[msg q']|] eqn:Hc end; [|discriminate].
  all: apply Hcomp in Hc.
  all: destruct (n <=? 0); cbn; intros [= <-]; exact Hc.
Qed.

(** C6 on an instance: the drone is in the air, the ring holds 131
    characters without a line end and nothing comes after them; the header
    is the four lines of the reading and the opening of the block, the
    message has room, and ends in the 131 characters, [NO FIX.] and the
    closing of the block.  With one reader holding the lock the iteration
    does not return. *)
Lemma telemetry_timeout_no_fix_witness :
  let p := stalled_ring_in_air 1 in
  let s := shm p in
  let pending := ring_slice (nmea (gps s)) (gps_read (gps s)) 131 in
  let text := (gps_header s ++ string_of_list_ascii pending)%string in
  (init (locals p) = false \/ is_connected connect_fails = true) /\
  intr p = [] /\
  action_lock_free s /\
  action_type (action s) = SampleGPS /\
  numbers (acceleration (accel s)) = true /\
  gps_mutex (gps s) = 1 /\
  gps_full (gps s) = 131 /\
  0 <= gps_read (gps s) < GPS_BUFFER_SIZE /\
  Forall (fun c => c <> "010"%char) pending /\
  ptr (gps_header s) + 131 < sizeof_msg - 2 /\
  ptr text + 9 <= sizeof_msg /\
  gps_header s =
    ("BAT = 100%" ++ nl ++
     "ACCEL = (x: -0.092980, y: 0.050000, z: 9.810000)" ++ nl ++
     "MOTORS PWM = [51%, 51%, 51%, 51%]" ++ nl ++
     "ACTION = 2" ++ nl ++ "GPS {" ++ nl ++ nl)%string /\
  (exists p',
     telemetry_loop connect_fails 1 p = Some (tt, p') /\
     In (send (BUF_APPEND (text ++ "NO FIX." ++ nl) (nl ++ "}"))) (out p') /\
     action_type (action (shm p')) = Abort /\
     action_lock_free (shm p') /\
     gps_full (gps (shm p')) = 0) /\
  telemetry_loop connect_fails 1 (Proc (locals p) (with_lock (held_by 1) s) (out p) (intr p)) = None.
Proof.
  intros p s pending text.
  assert (H1 : init (locals p) = false \/ is_connected connect_fails = true) by (left; reflexivity).
  assert (H2 : intr p = []) by reflexivity.
  assert (H3 : action_lock_free s) by (vm_compute; repeat split).
  assert (H4 : action_type (action s) = SampleGPS) by reflexivity.
  assert (Hn : numbers (acceleration (accel s)) = true) by (vm_compute; reflexivity).
  assert (H5 : gps_mutex (gps s) = 1) by reflexivity.
  assert (H6 : gps_full (gps s) = Z.of_nat 131) by (vm_compute; reflexivity).
  assert (H7 : 0 <= gps_read (gps s) < GPS_BUFFER_SIZE)
    by (vm_compute; split; [discriminate | reflexivity]).
  assert (H8 : Forall (fun c => c <> "010"%char) pending).
  { unfold pending, s, p. vm_compute ring_slice.
    repeat (apply Forall_cons; split; [discriminate|]). apply Forall_nil_2. }
  assert (H9 : ptr (gps_header s) + Z.of_nat 131 < sizeof_msg - 2)
    by (vm_compute; reflexivity).
  assert (H10 : ptr text + 9 <= sizeof_msg) by (vm_compute; discriminate).
  split; [exact H1|]. split; [exact H2|]. split; [exact H3|]. split; [exact H4|].
  split; [exact Hn|].
  split; [exact H5|]. split; [exact H6|]. split; [exact H7|]. split; [exact H8|].
  split; [exact H9|]. split; [exact H10|]. split; [vm_compute; reflexivity|].
  destruct (telemetry_timeout_no_fix connect_fails 1 p 131 H1 H2 H3 H4 Hn H5 H6 H7 H8 H9)
    as ((p' & Hrun & Hsend & Hfit & Ha & Hl & Hg) & Hheld).
  split.
  - exists p'. split; [exact Hrun|]. split.
    + unfold text, pending, s. rewrite <- (Hfit H10). exact Hsend.
    + split; [exact Ha|]. split; [exact Hl|]. rewrite Hg. vm_compute. reflexivity.
  - apply (Hheld 1). lia.
Defined.

(** C6, the instance that the claim does not cover: the ring holds 143
    characters without a line end and nothing comes after them.  The
    iteration reads them, which takes the message to 250 bytes, times out on
    [full] and stores [Abort]; of [NO FIX.] the five bytes that are left
    take [NO FI], and the message sent has no [NO FIX.] in it. *)
Lemma telemetry_no_fix_clipped_counterexample :
  exists (p' : proc statics) (msg : string),
    gps_full (gps (shm (stalled_ring 13))) = 143 /\
    telemetry_loop connect_fails 1 (stalled_ring 13) = Some (tt, p') /\
    out p' = [printf "Obtained GPS strings: " [];
              printf "\n[GPS timeout: no new data]\n" [];
              printf "\n" []; send msg; usleep TELEMETRY_TIMEOUT_US] /\
    String.length msg = 255%nat /\
    substring 250 5 msg = "NO FI"%string /\
    index 0 "NO FIX." msg = None /\
    action_type (action (shm p')) = Abort.
Proof.
  eexists. eexists.
  split; [vm_compute; reflexivity|].
  split; [vm_compute; reflexivity|].
  split; [vm_compute; reflexivity|].
  split; [vm_compute; reflexivity|].
  split; [vm_compute; reflexivity|].
  split; [vm_compute; reflexivity|].
  vm_compute; reflexivity.
Qed.

End TelemetryFacts.

(* ================================================================= *)
(** ** The two indices of the ring *)

Module RingFacts.

(** C8.  The producer and the consumer on the ring of [GPS_BUFFER_SIZE]
    = 1280 slots, their index in the range of the ring.  A [put_char] that
    returns, as it does when the mutex is free, moved the write index by
    one modulo 1280, so from 1279 to 0, and left the read index alone; a
    [get_char] always returns, and moved the read index by one modulo 1280,
    so from 1279 to 0, and left the write index alone.  Whatever a whole
    iteration of [gps_loop] does, time out, be interrupted or complete, when
    it returns it has moved the write index round the ring by the number of
    characters it announced on [full] and has not touched the read index;
    whatever an iteration of [telemetry_loop] does, when it returns it has
    moved the read index round the ring by the number of slots it gave back
    on [empty] and has not touched the write index.  Both indices stay in
    the range of the ring. *)
Theorem ring_indices_advance
    (pg : proc GpsCtrl.statics) (pt : proc Telemetry.statics) :
  let N := GPS_BUFFER_SIZE in
  let g := gps (shm pg) in
  let t := gps (shm pt) in
  0 <= gps_write g < N ->
  0 <= gps_read t < N ->
  (forall c : ascii,
     (0 < gps_mutex g -> exists pg', GpsCtrl.put_char c pg = Some (tt, pg')) /\
     forall pg' : proc GpsCtrl.statics,
       GpsCtrl.put_char c pg = Some (tt, pg') ->
       gps_write (gps (shm pg')) = (gps_write g + 1) mod N /\
       0 <= gps_write (gps (shm pg')) < N /\
       (gps_write g = N - 1 -> gps_write (gps (shm pg')) = 0) /\
       gps_read (gps (shm pg')) = gps_read g) /\
  (exists (c : ascii) (pt' : proc Telemetry.statics),
     Telemetry.get_char pt = Some (c, pt') /\
     gps_read (gps (shm pt')) = (gps_read t + 1) mod N /\
     0 <= gps_read (gps (shm pt')) < N /\
     (gps_read t = N - 1 -> gps_read (gps (shm pt')) = 0) /\
     gps_write (gps (shm pt')) = gps_write t) /\
  (forall pg' : proc GpsCtrl.statics,
     GpsCtrl.gps_loop pg = Some (tt, pg') ->
     let k := gps_full (gps (shm pg')) - gps_full g in
     0 <= k /\
     gps_write (gps (shm pg')) = (gps_write g + k) mod N /\
     0 <= gps_write (gps (shm pg')) < N /\
     gps_read (gps (shm pg')) = gps_read g) /\
  (forall (conn : Telemetry.connect_result) (n : Z) (pt' : proc Telemetry.statics),
     Telemetry.telemetry_loop conn n pt = Some (tt, pt') ->
     let k := gps_empty (gps (shm pt')) - gps_empty t in
     0 <= k /\
     gps_read (gps (shm pt')) = (gps_read t + k) mod N /\
     0 <= gps_read (gps (shm pt')) < N /\
     gps_write (gps (shm pt')) = gps_write t).
Proof.
  intros N g t Hw Hr.
  assert (Hnext : forall a, 0 <= a < N -> size_t (a + 1) mod N = (a + 1) mod N).
  { intros a Ha. unfold size_t. f_equal. apply Z.mod_small.
    unfold N, GPS_BUFFER_SIZE in Ha. lia. }
  assert (Hwrap : forall a, a = N - 1 -> (a + 1) mod N = 0).
  { intros a ->. replace (N - 1 + 1) with N by lia. apply Z_mod_same_full. }
  split; [|split; [|split]].
  - intros c. split.
    + intros Hm. destruct pg as [l s o i].
      destruct s as [a1 a2 a3 a4 a5 a6 a7 a8 a9 [m f e w r b] a11].
      cbn in Hm. unfold GpsCtrl.put_char, sem_wait, sem_post. msimpl.
      apply Z.ltb_lt in Hm. rewrite Hm. msimpl. eexists. reflexivity.
    + intros pg' Hrun. apply GpsFacts.put_char_inv in Hrun.
      destruct Hrun as (_ & _ & _ & Hr' & Hw' & _).
      fold g in Hw', Hr'. fold N in Hw'. rewrite Hnext in Hw' by exact Hw.
      rewrite Hw'. split; [reflexivity|]. split; [apply Z.mod_pos_bound; reflexivity|].
      split; [apply Hwrap | exact Hr'].
  - destruct (Telemetry.get_char pt) as [[c pt']|] eqn:Hrun.
    2: { rewrite TelemetryFacts.get_char_run in Hrun. discriminate. }
    exists c, pt'. split; [reflexivity|].
    apply TelemetryFacts.get_char_inv in Hrun.
    destruct Hrun as (_ & _ & _ & _ & Hw' & Hr' & _).
    fold t in Hw', Hr'. fold N in Hr'. rewrite Hnext in Hr' by exact Hr.
    rewrite Hr'. split; [reflexivity|]. split; [apply Z.mod_pos_bound; reflexivity|].
    split; [apply Hwrap | exact Hw'].
  - intros pg' Hrun k. apply GpsFacts.gps_loop_inv in Hrun; [|exact Hw].
    destruct Hrun as (H1 & H2 & H3 & H4). repeat split; try assumption; apply H2.
  - intros conn n pt' Hrun k. apply TelemetryFacts.telemetry_loop_inv in Hrun; [|exact Hr].
    destruct Hrun as (H1 & _ & H2 & H3 & H4). repeat split; try assumption; apply H2.
Qed.

(** C8 on instances: the producer and the consumer at the last slot of
    the ring go to slot 0 with their next character; the producer's
    iteration that finds 54 slots at index 1226 ends at index 0, and the
    consumer's iteration that reads the 66 characters of the first line
    from index 0 ends at index 66. *)
Lemma ring_indices_advance_witness :
  gps_write (gps (shm writer_at_last_slot)) = 1279 /\
  gps_read (gps (shm reader_at_last_slot)) = 1279 /\
  (exists pg',
     GpsCtrl.put_char "*" writer_at_last_slot = Some (tt, pg') /\
     gps_write (gps (shm pg')) = 0 /\
     gps_read (gps (shm pg')) = 0) /\
  (exists c pt',
     Telemetry.get_char reader_at_last_slot = Some (c, pt') /\
     gps_read (gps (shm pt')) = 0 /\
     gps_write (gps (shm pt')) = 0) /\
  (exists pg',
     GpsCtrl.gps_loop ring_nearly_full = Some (tt, pg') /\
     gps_write (gps (shm ring_nearly_full)) = 1226 /\
     gps_full (gps (shm pg')) - gps_full (gps (shm ring_nearly_full)) = 54 /\
     gps_write (gps (shm pg')) = 0) /\
  (exists pt',
     Telemetry.telemetry_loop Telemetry.connect_fails 1 (turn_of connected ring_nearly_full) = Some (tt, pt') /\
     gps_empty (gps (shm pt')) - gps_empty (gps (shm ring_nearly_full)) = 66 /\
     gps_read (gps (shm pt')) = 66).
Proof.
  assert (Hw : 0 <= gps_write (gps (shm writer_at_last_slot)) < GPS_BUFFER_SIZE)
    by (vm_compute; split; [discriminate | reflexivity]).
  assert (Hr : 0 <= gps_read (gps (shm reader_at_last_slot)) < GPS_BUFFER_SIZE)
    by (vm_compute; split; [discriminate | reflexivity]).
  assert (Hw2 : 0 <= gps_write (gps (shm ring_nearly_full)) < GPS_BUFFER_SIZE)
    by (vm_compute; split; [discriminate | reflexivity]).
  assert (Hr2 : 0 <= gps_read (gps (shm (turn_of connected ring_nearly_full)))
                < GPS_BUFFER_SIZE)
    by (vm_compute; split; [discriminate | reflexivity]).
  destruct (ring_indices_advance writer_at_last_slot reader_at_last_slot Hw Hr)
    as (Hput & Hget & _ & _).
  destruct (ring_indices_advance ring_nearly_full (turn_of connected ring_nearly_full)
              Hw2 Hr2) as (_ & _ & Hgps & Htel).
  split; [vm_compute; reflexivity|]. split; [vm_compute; reflexivity|].
  split; [|split; [|split]].
  - destruct (Hput "*"%char) as (Hex & Hstep).
    destruct Hex as (pg' & Hrun); [vm_compute; reflexivity|].
    destruct (Hstep pg' Hrun) as (_ & _ & H0 & Hrd).
    exists pg'. split; [exact Hrun|]. split.
    + apply H0. vm_compute. reflexivity.
    + rewrite Hrd. vm_compute. reflexivity.
  - destruct Hget as (c & pt' & Hrun & _ & _ & H0 & Hwr).
    exists c, pt'. split; [exact Hrun|]. split.
    + apply H0. vm_compute. reflexivity.
    + rewrite Hwr. vm_compute. reflexivity.
  - destruct (GpsCtrl.gps_loop ring_nearly_full) as [[[] pg']|] eqn:Hrun;
      [|vm_compute in Hrun; discriminate].
    destruct (Hgps pg' eq_refl) as (_ & Hmv & _).
    assert (Hk : gps_full (gps (shm pg')) - gps_full (gps (shm ring_nearly_full)) = 54).
    { vm_compute in Hrun. injection Hrun as <-. vm_compute. reflexivity. }
    exists pg'. split; [reflexivity|]. split; [vm_compute; reflexivity|].
    split; [exact Hk|]. rewrite Hmv, Hk. vm_compute. reflexivity.
  - destruct (Telemetry.telemetry_loop Telemetry.connect_fails 1 (turn_of connected ring_nearly_full))
      as [[[] pt']|] eqn:Hrun; [|vm_compute in Hrun; discriminate].
    destruct (Htel Telemetry.connect_fails 1 pt' Hrun) as (_ & Hmv & _).
    assert (Hk : gps_empty (gps (shm pt')) - gps_empty (gps (shm ring_nearly_full)) = 66).
    { vm_compute in Hrun. injection Hrun as <-. vm_compute. reflexivity. }
    exists pt'. split; [reflexivity|]. split; [exact Hk|].
    change (gps_empty (gps (shm (turn_of connected ring_nearly_full))))
      with (gps_empty (gps (shm ring_nearly_full))) in Hmv.
    rewrite Hmv, Hk. vm_compute. reflexivity.
Defined.

End RingFacts.

(* ================================================================= *)
(** ** binary32 arithmetic *)

Module FloatFacts.

(** The powers of the goal and of the context become variables. *)
Ltac hide_pows :=
  repeat match goal with
  | |- context [Z.pow ?a ?b] =>
      let x := fresh "pw" in set (x := Z.pow a b) in *; clearbody x
  | H : context [Z.pow ?a ?b] |- _ =>
      let x := fresh "pw" in set (x := Z.pow a b) in *; clearbody x
  end.

(** *** The number of digits *)

Lemma digits2_pos_bounds (p : positive) :
  2 ^ (Z.pos (digits2_pos p) - 1) <= Z.pos p < 2 ^ Z.pos (digits2_pos p).
Proof.
  induction p as [p IH|p IH|]; cbn [digits2_pos].
  - rewrite Pos2Z.inj_succ. change (Z.pos p~1) with (2 * Z.pos p + 1).
    replace (Z.succ (Z.pos (digits2_pos p)) - 1) with (Z.succ (Z.pos (digits2_pos p) - 1)) by lia.
    rewrite !Z.pow_succ_r by lia.
    hide_pows. lia.
  - rewrite Pos2Z.inj_succ. change (Z.pos p~0) with (2 * Z.pos p).
    replace (Z.succ (Z.pos (digits2_pos p)) - 1) with (Z.succ (Z.pos (digits2_pos p) - 1)) by lia.
    rewrite !Z.pow_succ_r by lia.
    hide_pows. lia.
  - vm_compute. split; [discriminate | reflexivity].
Qed.

(** A number below [2 ^ n] has at most [n] digits. *)
Lemma digits2_pos_le (p : positive) (n : Z) :
  Z.pos p < 2 ^ n -> Z.pos (digits2_pos p) <= n.
Proof.
  intros H. destruct (digits2_pos_bounds p) as [Hlo _].
  destruct (Z_lt_le_dec n (Z.pos (digits2_pos p))) as [Hlt|]; [|assumption].
  exfalso.
  destruct (Z_lt_le_dec n 0) as [Hn|Hn].
  - rewrite Z.pow_neg_r in H by exact Hn. lia.
  - assert (2 ^ n <= 2 ^ (Z.pos (digits2_pos p) - 1)) by (apply Z.pow_le_mono_r; lia).
    lia.
Qed.

Lemma Zdigits2_bound (m : Z) : 0 <= m -> m < 2 ^ Zdigits2 m.
Proof.
  destruct m as [|p|p]; intros H; [reflexivity | | lia].
  apply digits2_pos_bounds.
Qed.

(** *** Shifts to the left *)

Lemma digits2_pos_shl (k m : positive) :
  Z.pos (digits2_pos (Pos.iter xO m k)) = Z.pos (digits2_pos m) + Z.pos k.
Proof.
  induction k as [|k IH] using Pos.peano_ind.
  - cbn. lia.
  - rewrite Pos.iter_succ. cbn [digits2_pos]. rewrite Pos2Z.inj_succ, IH. lia.
Qed.

Lemma shl_value (k m : positive) : Z.pos (Pos.iter xO m k) = Z.pos m * 2 ^ Z.pos k.
Proof.
  induction k as [|k IH] using Pos.peano_ind.
  - cbn. lia.
  - rewrite Pos.iter_succ, Pos2Z.inj_succ, Z.pow_succ_r by lia.
    change (Z.pos (Pos.iter xO m k)~0) with (2 * Z.pos (Pos.iter xO m k)).
    rewrite IH. lia.
Qed.

(** [shl_align] towards a smaller exponent keeps the value. *)
Lemma shl_align_value (m : positive) (e ez : Z) :
  ez <= e ->
  Z.pos (fst (shl_align m e ez)) = Z.pos m * 2 ^ (e - ez) /\
  snd (shl_align m e ez) = ez.
Proof.
  intros H. unfold shl_align.
  destruct (ez - e) as [|d|d] eqn:E; cbn [fst snd]; try lia.
  - replace (e - ez) with 0 by lia. split; lia.
  - rewrite shl_value. replace (e - ez) with (Z.pos d) by lia. split; reflexivity.
Qed.

(** *** Shifts to the right *)

Lemma shr_1_m (mrs : shr_record) :
  0 <= shr_m mrs -> shr_m (shr_1 mrs) = shr_m mrs / 2.
Proof.
  destruct mrs as [[|[p|p|]|p] r s]; cbn [shr_m shr_1]; intros H; try lia.
  - reflexivity.
  - rewrite <- Z.div2_div. reflexivity.
  - rewrite <- Z.div2_div. reflexivity.
  - reflexivity.
Qed.

Lemma iter_shr_1_m (p : positive) :
  forall mrs : shr_record,
  0 <= shr_m mrs ->
  shr_m (SpecFloat.iter_pos shr_1 p mrs) = shr_m mrs / 2 ^ Z.pos p.
Proof.
  assert (Hpos : forall q, 0 < 2 ^ Z.pos q) by (intros q; apply Z.pow_pos_nonneg; lia).
  induction p as [p IH|p IH|]; intros mrs H; cbn [SpecFloat.iter_pos].
  - assert (H1 : 0 <= shr_m (shr_1 mrs))
      by (rewrite shr_1_m by exact H; apply Z.div_pos; lia).
    assert (H2 : 0 <= shr_m (SpecFloat.iter_pos shr_1 p (shr_1 mrs)))
      by (rewrite IH by exact H1; apply Z.div_pos; [lia | apply Hpos]).
    rewrite IH by exact H2. rewrite IH by exact H1. rewrite shr_1_m by exact H.
    rewrite !Z.div_div by first [lia | apply Hpos | apply Z.neq_sym, Z.lt_neq, Hpos].
    f_equal. change (Z.pos p~1) with (2 * Z.pos p + 1).
    replace (2 * Z.pos p + 1) with (1 + Z.pos p + Z.pos p) by lia.
    rewrite !Z.pow_add_r by lia. lia.
  - assert (H2 : 0 <= shr_m (SpecFloat.iter_pos shr_1 p mrs))
      by (rewrite IH by exact H; apply Z.div_pos; [lia | apply Hpos]).
    rewrite IH by exact H2. rewrite IH by exact H.
    rewrite !Z.div_div by first [lia | apply Hpos | apply Z.neq_sym, Z.lt_neq, Hpos].
    f_equal. change (Z.pos p~0) with (2 * Z.pos p).
    replace (2 * Z.pos p) with (Z.pos p + Z.pos p) by lia.
    rewrite !Z.pow_add_r by lia. lia.
  - apply shr_1_m, H.
Qed.

(** *** Rounding never makes a NaN *)

Lemma shr_nonneg (mrs : shr_record) (e n : Z) :
  0 <= shr_m mrs -> 0 <= shr_m (fst (shr mrs e n)).
Proof.
  intros H. destruct n as [|p|p]; cbn [shr fst]; try exact H.
  rewrite iter_shr_1_m by exact H.
  apply Z.div_pos; [exact H | apply Z.pow_pos_nonneg; lia].
Qed.

Lemma shr_record_of_loc_m (m : Z) (l : location) : shr_m (shr_record_of_loc m l) = m.
Proof. destruct l as [|[]]; reflexivity. Qed.

Lemma shr_fexp_nonneg (m e : Z) (l : location) :
  0 <= m -> 0 <= shr_m (fst (shr_fexp prec32 emax32 m e l)).
Proof.
  intros H. unfold shr_fexp. apply shr_nonneg. rewrite shr_record_of_loc_m. exact H.
Qed.

Lemma round_nearest_even_range (m : Z) (l : location) :
  m <= round_nearest_even m l <= m + 1.
Proof. destruct l as [|[]]; cbn; try destruct (Z.even m); lia. Qed.

Lemma binary_round_aux_sign (sx : bool) (mx ex : Z) (lx : location) :
  0 <= mx -> has_sign sx (binary_round_aux prec32 emax32 sx mx ex lx) = true.
Proof.
  intros H. unfold binary_round_aux.
  pose proof (shr_fexp_nonneg mx ex lx H) as H1.
  destruct (shr_fexp prec32 emax32 mx ex lx) as [mrs' e']. cbn [fst] in H1.
  assert (H1' : 0 <= round_nearest_even (shr_m mrs') (loc_of_shr_record mrs'))
    by (pose proof (round_nearest_even_range (shr_m mrs') (loc_of_shr_record mrs')); lia).
  pose proof (shr_fexp_nonneg _ e' loc_Exact H1') as H2.
  destruct (shr_fexp prec32 emax32 _ e' loc_Exact) as [mrs'' e'']. cbn [fst] in H2.
  destruct (shr_m mrs'') as [|m|m]; [| |lia].
  - cbn. apply eqb_reflx.
  - destruct (e'' <=? _); cbn; apply eqb_reflx.
Qed.

Lemma binary_round_sign (sx : bool) (mx : positive) (ex : Z) :
  has_sign sx (binary_round prec32 emax32 sx mx ex) = true.
Proof.
  unfold binary_round. destruct (shl_align _ _ _) as [mz ez].
  apply binary_round_aux_sign. lia.
Qed.

Lemma has_sign_not_nan (s : bool) (r : float) : has_sign s r = true -> is_nan r = false.
Proof. destruct r; cbn; congruence. Qed.

Lemma binary_normalize_not_nan (m e : Z) (sz : bool) :
  is_nan (binary_normalize prec32 emax32 m e sz) = false.
Proof.
  destruct m as [|p|p]; cbn [binary_normalize]; [reflexivity | |];
    eapply has_sign_not_nan, binary_round_sign.
Qed.

(** *** The order *)

Lemma SFcompare_antisym (a b : float) :
  SFcompare b a = option_map CompOpp (SFcompare a b).
Proof.
  destruct a as [sa|sa| |sa ma ea], b as [sb|sb| |sb mb eb]; cbn;
    try reflexivity; try (destruct sa; reflexivity); try (destruct sb; reflexivity);
    try (destruct sa, sb; reflexivity).
  pose proof (Pos.compare_cont_antisym ma mb Eq) as P. cbn [CompOpp] in P.
  destruct sa, sb; cbn; try reflexivity.
  all: rewrite (Z.compare_antisym ea eb); destruct (ea ?= eb); cbn; try reflexivity.
  all: rewrite <- P; destruct (Pos.compare_cont Eq ma mb); reflexivity.
Qed.

(** Between numbers, [!(a < b)] is [b <= a]. *)
Lemma flt_false_fle (a b : float) :
  is_nan a = false -> is_nan b = false -> flt a b = false -> fle b a = true.
Proof.
  unfold flt, fle, SFltb, SFleb. rewrite (SFcompare_antisym a b).
  destruct a, b; cbn [is_nan]; try discriminate; intros _ _;
    destruct (SFcompare _ _) as [[]|] eqn:E; cbn; try discriminate; try reflexivity;
    cbn in E; try discriminate;
    repeat match type of E with context [if ?s then _ else _] => destruct s end;
    discriminate.
Qed.

(** *** Rounding below one *)

Lemma fexp32 (e : Z) : fexp prec32 emax32 e = Z.max (e - 24) (-149).
Proof. reflexivity. Qed.

Lemma fle_finite_f1 (m : positive) (e : Z) :
  e < -23 \/ (e = -23 /\ m = 8388608%positive) ->
  fle (S754_finite false m e) f1 = true.
Proof.
  unfold fle, SFleb, f1, SFcompare. intros [H|[-> ->]].
  - apply Z.compare_lt_iff in H. rewrite H. reflexivity.
  - reflexivity.
Qed.

(** The first shift of [binary_round_aux], on a mantissa that is not
    shorter than the format wants it: the exponent becomes the one of the
    format, and the mantissa fits in 24 bits. *)
Lemma shr_fexp_first (mx ex : Z) (lx : location) :
  0 <= mx ->
  ex <= fexp prec32 emax32 (Zdigits2 mx + ex) ->
  snd (shr_fexp prec32 emax32 mx ex lx) = fexp prec32 emax32 (Zdigits2 mx + ex) /\
  0 <= shr_m (fst (shr_fexp prec32 emax32 mx ex lx)) < 2 ^ 24.
Proof.
  intros Hm Hal. pose proof (Zdigits2_bound mx Hm) as Hd.
  assert (Hd0 : 0 <= Zdigits2 mx) by (destruct mx; cbn; lia).
  unfold shr_fexp, shr. rewrite fexp32 in *.
  destruct (Z.max (Zdigits2 mx + ex - 24) (-149) - ex) as [|p|p] eqn:E; cbn [fst snd].
  - rewrite shr_record_of_loc_m. split; [lia|]. split; [exact Hm|].
    assert (2 ^ Zdigits2 mx <= 2 ^ 24) by (apply Z.pow_le_mono_r; lia).
    lia.
  - rewrite iter_shr_1_m by (rewrite shr_record_of_loc_m; exact Hm).
    rewrite shr_record_of_loc_m. split; [lia|].
    assert (Hp : 0 < 2 ^ Z.pos p) by (apply Z.pow_pos_nonneg; lia).
    split; [apply Z.div_pos; lia|].
    apply Z.div_lt_upper_bound; [exact Hp|].
    rewrite <- Z.pow_add_r by lia.
    assert (2 ^ Zdigits2 mx <= 2 ^ (Z.pos p + 24)) by (apply Z.pow_le_mono_r; lia).
    lia.
  - lia.
Qed.

(** The second shift and the result, on a mantissa of at most [2 ^ 24] at
    an exponent of at most -24. *)
Lemma finish_below_one (m2 e1 : Z) :
  0 <= m2 <= 2 ^ 24 ->
  -149 <= e1 <= -24 ->
  fle (let '(mrs, e) := shr_fexp prec32 emax32 m2 e1 loc_Exact in
       match shr_m mrs with
       | 0 => S754_zero false
       | Z.pos m => if e <=? emax32 - prec32 then S754_finite false m e
                    else S754_infinity false
       | Z.neg _ => S754_nan
       end) f1 = true.
Proof.
  intros Hm He.
  destruct (Z.eq_dec m2 (2 ^ 24)) as [->|Hne].
  - unfold shr_fexp, shr. change (Zdigits2 (2 ^ 24)) with 25. rewrite fexp32.
    replace (Z.max (25 + e1 - 24) (-149) - e1) with 1 by lia.
    cbn [shr_record_of_loc SpecFloat.iter_pos].
    change (shr_1 {| shr_m := 2 ^ 24; shr_r := false; shr_s := false |})
      with {| shr_m := 8388608; shr_r := false; shr_s := false |}.
    cbn [shr_m].
    replace (e1 + 1 <=? emax32 - prec32) with true
      by (symmetry; apply Z.leb_le; unfold emax32, prec32; lia).
    apply fle_finite_f1. lia.
  - assert (Hlt : m2 < 2 ^ 24) by lia.
    assert (Hd : Zdigits2 m2 <= 24).
    { destruct m2 as [|p|p]; [cbn; lia | | lia]. apply digits2_pos_le, Hlt. }
    unfold shr_fexp, shr. rewrite fexp32.
    destruct (Z.max (Zdigits2 m2 + e1 - 24) (-149) - e1) as [|p|p] eqn:E; [| lia |].
    all: cbn [shr_record_of_loc shr_m].
    all: destruct m2 as [|m|m]; [reflexivity | | lia].
    all: replace (e1 <=? emax32 - prec32) with true
           by (symmetry; apply Z.leb_le; unfold emax32, prec32; lia).
    all: apply fle_finite_f1; lia.
Qed.

Lemma binary_round_aux_below_one (mx ex : Z) (lx : location) :
  0 <= mx ->
  Zdigits2 mx + ex <= 0 ->
  ex <= fexp prec32 emax32 (Zdigits2 mx + ex) ->
  fle (binary_round_aux prec32 emax32 false mx ex lx) f1 = true.
Proof.
  intros Hm Hd Hal. unfold binary_round_aux.
  destruct (shr_fexp_first mx ex lx Hm Hal) as [H1 H2].
  destruct (shr_fexp prec32 emax32 mx ex lx) as [mrs' e']. cbn [fst snd] in H1, H2.
  pose proof (round_nearest_even_range (shr_m mrs') (loc_of_shr_record mrs')) as Hr.
  apply finish_below_one; [lia|].
  rewrite H1, fexp32. lia.
Qed.

(** A positive number below one is rounded to at most one. *)
Lemma binary_round_below_one (m : positive) (e : Z) :
  Z.pos (digits2_pos m) + e <= 0 ->
  fle (binary_round prec32 emax32 false m e) f1 = true.
Proof.
  intros Hd. unfold binary_round, shl_align.
  destruct (fexp prec32 emax32 (Z.pos (digits2_pos m) + e) - e) as [|k|k] eqn:E.
  - apply binary_round_aux_below_one; cbn [Zdigits2]; lia.
  - apply binary_round_aux_below_one; cbn [Zdigits2]; lia.
  - apply binary_round_aux_below_one; cbn [Zdigits2]; rewrite ?digits2_pos_shl; try lia.
    replace (Z.pos (digits2_pos m) + Z.pos k
             + fexp prec32 emax32 (Z.pos (digits2_pos m) + e))
      with (Z.pos (digits2_pos m) + e) by lia.
    lia.
Qed.

(** *** Rounding gives values of the format *)

Lemma digits2_pos_gt (p : positive) (k : Z) :
  2 ^ k <= Z.pos p -> k < Z.pos (digits2_pos p).
Proof.
  intros H. destruct (digits2_pos_bounds p) as [_ Hhi].
  destruct (Z_lt_le_dec k (Z.pos (digits2_pos p))) as [|Hle]; [assumption|].
  exfalso.
  assert (2 ^ Z.pos (digits2_pos p) <= 2 ^ k) by (apply Z.pow_le_mono_r; lia).
  lia.
Qed.

(** The first shift leaves a mantissa of 24 bits exactly, unless the
    exponent is the least one. *)
Lemma shr_fexp_first_normal (mx ex : Z) (lx : location) :
  0 <= mx ->
  ex <= fexp prec32 emax32 (Zdigits2 mx + ex) ->
  fexp prec32 emax32 (Zdigits2 mx + ex) <> -149 ->
  2 ^ 23 <= shr_m (fst (shr_fexp prec32 emax32 mx ex lx)).
Proof.
  intros Hm Hal Hn. rewrite fexp32 in *.
  destruct mx as [|p|p]; [cbn [Zdigits2] in *; lia | | lia].
  cbn [Zdigits2] in *.
  destruct (digits2_pos_bounds p) as [Hlo _].
  unfold shr_fexp, shr. cbn [Zdigits2]. rewrite fexp32.
  replace (Z.max (Z.pos (digits2_pos p) + ex - 24) (-149) - ex)
    with (Z.pos (digits2_pos p) - 24) by lia.
  destruct (Z.pos (digits2_pos p) - 24) as [|n|n] eqn:E; cbn [fst]; [| |lia].
  - rewrite shr_record_of_loc_m.
    replace (Z.pos (digits2_pos p) - 1) with 23 in Hlo by lia. exact Hlo.
  - rewrite iter_shr_1_m by (rewrite shr_record_of_loc_m; lia).
    rewrite shr_record_of_loc_m.
    assert (Hp : 0 < 2 ^ Z.pos n) by (apply Z.pow_pos_nonneg; lia).
    apply Z.div_le_lower_bound; [exact Hp|].
    rewrite <- Z.pow_add_r by lia.
    replace (Z.pos n + 23) with (Z.pos (digits2_pos p) - 1) by lia. exact Hlo.
Qed.

Lemma bounded_canonical (m : positive) (e : Z) :
  fexp prec32 emax32 (Z.pos (digits2_pos m) + e) = e ->
  (e <=? emax32 - prec32) = true ->
  is_float (S754_finite false m e) = true /\ is_float (S754_finite true m e) = true.
Proof.
  intros Hc He. unfold is_float, valid_binary, bounded, canonical_mantissa.
  rewrite Hc, Z.eqb_refl, He. split; reflexivity.
Qed.

Lemma finish_valid (sx : bool) (m2 e1 : Z) :
  0 <= m2 <= 2 ^ 24 ->
  -149 <= e1 ->
  (e1 <> -149 -> 2 ^ 23 <= m2) ->
  is_float (let '(mrs, e) := shr_fexp prec32 emax32 m2 e1 loc_Exact in
            match shr_m mrs with
            | 0 => S754_zero sx
            | Z.pos m => if e <=? emax32 - prec32 then S754_finite sx m e
                         else S754_infinity sx
            | Z.neg _ => S754_nan
            end) = true.
Proof.
  intros Hm He Hn.
  destruct (Z.eq_dec m2 (2 ^ 24)) as [->|Hne].
  - unfold shr_fexp, shr. change (Zdigits2 (2 ^ 24)) with 25. rewrite fexp32.
    replace (Z.max (25 + e1 - 24) (-149) - e1) with 1 by lia.
    cbn [shr_record_of_loc SpecFloat.iter_pos].
    change (shr_1 {| shr_m := 2 ^ 24; shr_r := false; shr_s := false |})
      with {| shr_m := 8388608; shr_r := false; shr_s := false |}.
    cbn [shr_m].
    destruct (e1 + 1 <=? emax32 - prec32) eqn:E; [|reflexivity].
    destruct (bounded_canonical 8388608 (e1 + 1)) as [H1 H2]; [|exact E|].
    + change (Z.pos (digits2_pos 8388608)) with 24. rewrite fexp32. lia.
    + destruct sx; assumption.
  - assert (Hlt : m2 < 2 ^ 24) by lia.
    destruct m2 as [|m|m]; [| |lia].
    + unfold shr_fexp, shr. cbn [Zdigits2]. rewrite fexp32.
      destruct (Z.max (0 + e1 - 24) (-149) - e1) as [|p|p] eqn:E; [reflexivity | lia | reflexivity].
    + assert (Hd : Z.pos (digits2_pos m) <= 24) by (apply digits2_pos_le, Hlt).
      assert (Hd' : e1 <> -149 -> 24 <= Z.pos (digits2_pos m)).
      { intros H. specialize (Hn H). apply digits2_pos_gt in Hn. lia. }
      unfold shr_fexp, shr. cbn [Zdigits2]. rewrite fexp32.
      destruct (Z.max (Z.pos (digits2_pos m) + e1 - 24) (-149) - e1) as [|p|p] eqn:E;
        [| lia |].
      all: cbn [shr_record_of_loc shr_m].
      all: destruct (e1 <=? emax32 - prec32) eqn:E1; [|reflexivity].
      all: destruct (bounded_canonical m e1) as [H1 H2]; [|exact E1|destruct sx; assumption].
      all: rewrite fexp32; destruct (Z.eq_dec e1 (-149)) as [->|H]; [lia|].
      all: specialize (Hd' H); lia.
Qed.

Lemma binary_round_aux_valid (sx : bool) (mx ex : Z) (lx : location) :
  0 <= mx ->
  ex <= fexp prec32 emax32 (Zdigits2 mx + ex) ->
  is_float (binary_round_aux prec32 emax32 sx mx ex lx) = true.
Proof.
  intros Hm Hal. unfold binary_round_aux.
  destruct (shr_fexp_first mx ex lx Hm Hal) as [H1 H2].
  pose proof (shr_fexp_first_normal mx ex lx Hm Hal) as H3.
  destruct (shr_fexp prec32 emax32 mx ex lx) as [mrs' e']. cbn [fst snd] in H1, H2, H3.
  pose proof (round_nearest_even_range (shr_m mrs') (loc_of_shr_record mrs')) as Hr.
  apply finish_valid; [lia | rewrite H1, fexp32; lia |].
  intros He. rewrite H1 in He. specialize (H3 He). lia.
Qed.

Lemma binary_round_valid (sx : bool) (m : positive) (e : Z) :
  is_float (binary_round prec32 emax32 sx m e) = true.
Proof.
  unfold binary_round, shl_align.
  destruct (fexp prec32 emax32 (Z.pos (digits2_pos m) + e) - e) as [|k|k] eqn:E.
  - apply binary_round_aux_valid; cbn [Zdigits2]; lia.
  - apply binary_round_aux_valid; cbn [Zdigits2]; lia.
  - apply binary_round_aux_valid; cbn [Zdigits2]; rewrite ?digits2_pos_shl; try lia.
    replace (Z.pos (digits2_pos m) + Z.pos k
             + fexp prec32 emax32 (Z.pos (digits2_pos m) + e))
      with (Z.pos (digits2_pos m) + e) by lia.
    lia.
Qed.

Lemma binary_normalize_valid (m e : Z) (sz : bool) :
  is_float (binary_normalize prec32 emax32 m e sz) = true.
Proof.
  destruct m as [|p|p]; cbn [binary_normalize]; [reflexivity | |];
    apply binary_round_valid.
Qed.

Lemma fadd_valid (a b : float) :
  is_float a = true -> is_float b = true -> is_float (fadd a b) = true.
Proof.
  intros Ha Hb. unfold fadd, SFadd.
  destruct a as [sa|sa| |sa ma ea], b as [sb|sb| |sb mb eb];
    try reflexivity; try assumption;
    try (destruct sa, sb; reflexivity).
  apply binary_normalize_valid.
Qed.

Lemma fsub_valid (a b : float) :
  is_float a = true -> is_float b = true -> is_float (fsub a b) = true.
Proof.
  intros Ha Hb. unfold fsub, SFsub.
  destruct a as [sa|sa| |sa ma ea], b as [sb|sb| |sb mb eb];
    try reflexivity; try assumption;
    try (destruct sa, sb; reflexivity).
  all: try (destruct sb; exact Hb).
  all: apply binary_normalize_valid.
Qed.

(** *** The clamps *)

Import FlightCtrl.

Lemma in_unit_cases (v : float) :
  in_unit v = true ->
  (exists s, v = S754_zero s) \/ (exists m e, v = S754_finite false m e).
Proof.
  unfold in_unit. intros H. apply andb_true_iff in H. destruct H as [H0 H1].
  destruct v as [s|[]| |[] m e].
  - left. exists s. reflexivity.
  - discriminate H0.
  - discriminate H1.
  - discriminate H0.
  - discriminate H0.
  - right. exists m, e. reflexivity.
Qed.

Lemma in_unit_not_nan (v : float) : in_unit v = true -> is_nan v = false.
Proof. destruct v; try reflexivity. discriminate. Qed.

Lemma nonneg_fle_f0 (r : float) : has_sign false r = true -> fle f0 r = true.
Proof. destruct r as [s|[]| |[] m e]; try discriminate; reflexivity. Qed.

Lemma neg_fle_f1 (r : float) : has_sign true r = true -> fle r f1 = true.
Proof. destruct r as [[]|[]| |[] m e]; try discriminate; reflexivity. Qed.

Lemma clamp_hi_le (r : float) :
  is_nan r = false -> is_nan (clamp_hi r) = false /\ fle (clamp_hi r) f1 = true.
Proof.
  intros H. unfold clamp_hi. destruct (flt f1 r) eqn:E.
  - split; reflexivity.
  - split; [exact H|]. apply flt_false_fle; [reflexivity | exact H | exact E].
Qed.

Lemma clamp_lo_in_unit (r : float) :
  is_nan r = false -> fle r f1 = true -> in_unit (clamp_lo r) = true.
Proof.
  intros H H1. unfold clamp_lo. destruct (flt r f0) eqn:E.
  - reflexivity.
  - unfold in_unit. rewrite H1, andb_true_r.
    apply flt_false_fle; [exact H | reflexivity | exact E].
Qed.

(** The two clamps of the stabilization take any number into the unit
    interval. *)
Lemma clamps_in_unit (r : float) :
  is_nan r = false -> in_unit (clamp_lo (clamp_hi r)) = true.
Proof.
  intros H. destruct (clamp_hi_le r H) as [H1 H2]. apply clamp_lo_in_unit; assumption.
Qed.

(** The clamp from above takes a number that is not negative into the
    unit interval. *)
Lemma clamp_hi_in_unit (r : float) :
  has_sign false r = true -> in_unit (clamp_hi r) = true.
Proof.
  intros H. unfold clamp_hi. destruct (flt f1 r) eqn:E.
  - reflexivity.
  - unfold in_unit. rewrite nonneg_fle_f0 by exact H. cbn [andb].
    apply flt_false_fle; [reflexivity | eapply has_sign_not_nan, H | exact E].
Qed.

(** *** Sums and differences *)

Lemma fadd_nonneg (v : float) (mc : positive) (ec : Z) :
  in_unit v = true -> has_sign false (fadd v (S754_finite false mc ec)) = true.
Proof.
  intros H. destruct (in_unit_cases v H) as [[s ->]|(m & e & ->)].
  - reflexivity.
  - unfold fadd, SFadd. cbn [cond_Zopp].
    change (Z.pos ?a + Z.pos ?b) with (Z.pos (a + b)). cbn [binary_normalize].
    apply binary_round_sign.
Qed.

Lemma fsub_not_nan (v d : float) :
  in_unit v = true -> is_nan d = false -> is_nan (fsub v d) = false.
Proof.
  intros H Hd. destruct (in_unit_cases v H) as [[s ->]|(m & e & ->)];
    destruct d as [sd|sd| |sd md ed]; try discriminate; try reflexivity.
  - destruct s, sd; reflexivity.
  - unfold fsub, SFsub. apply binary_normalize_not_nan.
Qed.

(** A valid number that compares at most equal to one has a mantissa
    and an exponent of at most one. *)
Lemma unit_value (m : positive) (e : Z) :
  is_float (S754_finite false m e) = true ->
  fle (S754_finite false m e) f1 = true ->
  e <= 0 /\ Z.pos m <= 2 ^ (- e).
Proof.
  unfold is_float, valid_binary, bounded, canonical_mantissa. intros Hv Hle.
  apply andb_true_iff in Hv. destruct Hv as [Hc _].
  apply Z.eqb_eq in Hc. rewrite fexp32 in Hc.
  assert (Hd : Z.pos (digits2_pos m) <= 24) by lia. clear Hc.
  assert (Hm24 : Z.pos m <= 2 ^ 24).
  { destruct (digits2_pos_bounds m) as [_ Hb].
    apply Z.lt_le_incl, (Z.lt_le_trans _ _ _ Hb), Z.pow_le_mono_r; [reflexivity | exact Hd]. }
  unfold fle, SFleb, f1, SFcompare in Hle.
  destruct (Z.compare_spec e (-23)) as [He|He|He].
  - subst e. split; [apply Z.leb_le; reflexivity|].
    rewrite Pos.compare_cont_spec in Hle.
    change (2 ^ (- (-23))) with (Z.pos 8388608).
    apply Pos2Z.pos_le_pos. unfold Pos.le. intros E. rewrite E in Hle.
    discriminate Hle.
  - assert (He0 : e <= 0 /\ 24 <= - e) by (clear Hm24; lia).
    split; [apply He0|].
    apply (Z.le_trans _ _ _ Hm24), Z.pow_le_mono_r; [reflexivity | apply He0].
  - discriminate Hle.
Qed.

(** Taking a positive number off a valid number of the unit interval
    leaves at most one. *)
Lemma fsub_le_one (v : float) (mc : positive) (ec : Z) :
  is_float v = true -> in_unit v = true ->
  fle (fsub v (S754_finite false mc ec)) f1 = true.
Proof.
  intros Hv Hu. destruct (in_unit_cases v Hu) as [[s ->]|(m & e & ->)].
  - reflexivity.
  - unfold in_unit in Hu. apply andb_true_iff in Hu. destruct Hu as [_ Hle].
    destruct (unit_value m e Hv Hle) as [He Hm].
    unfold fsub, SFsub. cbn [cond_Zopp].
    destruct (shl_align_value m e (Z.min e ec) (Z.le_min_l e ec)) as [Ha _].
    set (a := fst (shl_align m e (Z.min e ec))) in *.
    set (b := fst (shl_align mc ec (Z.min e ec))).
    destruct (Z.pos a - Z.pos b) as [|S|S] eqn:E; cbn [binary_normalize].
    + reflexivity.
    + apply binary_round_below_one.
      assert (Hlt : Z.pos S < 2 ^ (- Z.min e ec)).
      { assert (Hpw : 2 ^ (- e) * 2 ^ (e - Z.min e ec) = 2 ^ (- Z.min e ec))
          by (rewrite <- Z.pow_add_r by lia; f_equal; lia).
        assert (Hp : 0 <= 2 ^ (e - Z.min e ec)) by (apply Z.pow_nonneg; lia).
        assert (Z.pos m * 2 ^ (e - Z.min e ec) <= 2 ^ (- e) * 2 ^ (e - Z.min e ec))
          by (apply Z.mul_le_mono_nonneg_r; assumption).
        lia. }
      apply digits2_pos_le in Hlt. lia.
    + apply neg_fle_f1, binary_round_sign.
Qed.

(** *** The three updates of a motor *)

(** [+= DELTA_INCREASE] and the clamp at one. *)
Lemma increase_in_unit (v : float) :
  in_unit v = true -> in_unit (clamp_hi (fadd v DELTA_INCREASE)) = true.
Proof. intros H. apply clamp_hi_in_unit, fadd_nonneg, H. Qed.

(** The stabilization and its two clamps. *)
Lemma stabilize_in_unit (v d : float) :
  in_unit v = true -> is_nan d = false ->
  in_unit (clamp_lo (clamp_hi (fsub v d))) = true.
Proof. intros H Hd. apply clamps_in_unit, fsub_not_nan; assumption. Qed.

(** [-= DELTA_DECREASE] and the clamp at zero. *)
Lemma decrease_in_unit (v : float) :
  is_float v = true -> in_unit v = true ->
  in_unit (clamp_lo (fsub v DELTA_DECREASE)) = true.
Proof.
  intros Hv H. apply clamp_lo_in_unit.
  - apply fsub_not_nan; [exact H | reflexivity].
  - apply fsub_le_one; assumption.
Qed.

Lemma clamp_hi_valid (r : float) : is_float r = true -> is_float (clamp_hi r) = true.
Proof. intros H. unfold clamp_hi. destruct (flt f1 r); [reflexivity | exact H]. Qed.

Lemma clamp_lo_valid (r : float) : is_float r = true -> is_float (clamp_lo r) = true.
Proof. intros H. unfold clamp_lo. destruct (flt r f0); [reflexivity | exact H]. Qed.

Lemma increase_ok (v : float) :
  pwm_ok v = true -> pwm_ok (clamp_hi (fadd v DELTA_INCREASE)) = true.
Proof.
  unfold pwm_ok. rewrite !andb_true_iff. intros [Hv Hu]. split.
  - apply clamp_hi_valid, fadd_valid; [exact Hv | reflexivity].
  - apply increase_in_unit, Hu.
Qed.

Lemma stabilize_ok (v d : float) :
  pwm_ok v = true -> is_float d = true -> is_nan d = false ->
  pwm_ok (clamp_lo (clamp_hi (fsub v d))) = true.
Proof.
  unfold pwm_ok. rewrite !andb_true_iff. intros [Hv Hu] Hd Hn. split.
  - apply clamp_lo_valid, clamp_hi_valid, fsub_valid; assumption.
  - apply stabilize_in_unit; assumption.
Qed.

Lemma decrease_ok (v : float) :
  pwm_ok v = true -> pwm_ok (clamp_lo (fsub v DELTA_DECREASE)) = true.
Proof.
  unfold pwm_ok. rewrite !andb_true_iff. intros [Hv Hu]. split.
  - apply clamp_lo_valid, fsub_valid; [exact Hv | reflexivity].
  - apply decrease_in_unit; assumption.
Qed.

Lemma motors_all_map (P Q : float -> bool) (f : float -> float) (m : motors_t) :
  (forall v, P v = true -> Q (f v) = true) ->
  motors_all P m = true -> motors_all Q (motors_map f m) = true.
Proof.
  intros Hf. unfold motors_all, motors_map. cbn [motors0 motors1 motors2 motors3].
  rewrite !andb_true_iff. intros [[[H0 H1] H2] H3].
  repeat split; apply Hf; assumption.
Qed.

End FloatFacts.

(* ================================================================= *)
(** ** The motor vector *)

Module MotorFacts.
Import FlightCtrl FloatFacts.

Arguments receive : simpl never.
Arguments clamp_hi : simpl never.
Arguments clamp_lo : simpl never.
Arguments motors_sum : simpl never.

(** What a store to [action] leaves alone. *)
Lemma action_frame (a : action_shm) (s s' : drone_shared_t) :
  set_action (fun _ => a) s' = s -> pwm s' = pwm s /\ accel s' = accel s.
Proof. intros <-. destruct s'. split; reflexivity. Qed.

Lemma write_action_data (v : current_action_t) (p p' : proc statics) :
  write_action v p = Some (tt, p') ->
  pwm (shm p') = pwm (shm p) /\ accel (shm p') = accel (shm p).
Proof.
  intros H. apply write_action_frame in H.
  destruct H as (_ & _ & _ & _ & H). eapply action_frame, H.
Qed.

Lemma read_action_data (a : current_action_t) (p p' : proc statics) :
  read_action p = Some (a, p') ->
  pwm (shm p') = pwm (shm p) /\ accel (shm p') = accel (shm p).
Proof.
  intros H. apply read_action_frame in H.
  destruct H as (_ & _ & _ & _ & _ & H). eapply action_frame, H.
Qed.

Lemma when_write_action_data (b : bool) (v : current_action_t) (p p' : proc statics) :
  when b (write_action v) p = Some (tt, p') ->
  pwm (shm p') = pwm (shm p) /\ accel (shm p') = accel (shm p).
Proof.
  destruct b; cbn.
  - apply write_action_data.
  - intros [= <-]. split; reflexivity.
Qed.

Lemma receive_data (rs : list recv_result) :
  forall (cmd cmd' : Z) (p p' : proc statics),
  receive rs cmd p = Some (cmd', p') ->
  pwm (shm p') = pwm (shm p) /\ accel (shm p') = accel (shm p).
Proof.
  induction rs as [|[errno|payload] rs IH]; intros cmd cmd' p p'.
  - intros [= _ <-]. split; reflexivity.
  - unfold receive; fold receive.
    destruct (errno =? EWOULDBLOCK); [intros [= _ <-]; split; reflexivity|].
    destruct ((errno =? EAGAIN) || (errno =? EINTR)); [apply IH|].
    msimpl. destruct (write_action Abort p) as [[[] p1]|] eqn:Hw; [|discriminate].
    apply write_action_data in Hw. intros [= _ <-]. exact Hw.
  - unfold receive. destruct (recvfrom cmd payload) as [n c]. msimpl.
    destruct (n =? sizeof_operator_cmd); msimpl; intros [= _ <-]; split; reflexivity.
Qed.

(** [case Land:], whenever it returns. *)
Lemma case_Land_ok (ca cmd : Z) (p p' : proc statics) :
  case_Land ca cmd p = Some (tt, p') ->
  motors_all pwm_ok (motors (pwm (shm p))) = true ->
  motors_all pwm_ok (motors (pwm (shm p'))) = true.
Proof.
  unfold case_Land. destruct (negb _).
  - intros H. apply write_action_data in H. destruct H as [H _]. rewrite H. auto.
  - destruct p as [l s o i].
    destruct s as [a1 a2 a3 a4 a5 a6 [[rd wr rc] ty] a8 [pm mot] a10 a11].
    unfold rwlock_write_lock, rwlock_write_unlock, sem_wait, sem_post. msimpl.
    destruct (0 <? pm); msimpl; [|discriminate].
    destruct (feq _ f0); msimpl.
    + destruct (0 <? wr); msimpl; [|discriminate].
      destruct (ca =? Abort); msimpl; intros [= <-]; cbn; intros Hm.
      all: apply (motors_all_map pwm_ok); [apply decrease_ok | exact Hm].
    + intros [= <-]; cbn; intros Hm.
      apply (motors_all_map pwm_ok); [apply decrease_ok | exact Hm].
Qed.

(** [case Fly:], whenever it returns. *)
Lemma case_Fly_ok (cmd : Z) (p p' : proc statics) :
  let a := acceleration (accel (shm p)) in
  case_Fly cmd p = Some (tt, p') ->
  motors_all pwm_ok (motors (pwm (shm p))) = true ->
  is_float (x a) = true -> is_float (y a) = true ->
  is_nan (fadd (x a) (y a)) = false ->
  motors_all pwm_ok (motors (pwm (shm p'))) = true.
Proof.
  destruct p as [l s o i].
  destruct s as [a1 a2 a3 a4 a5 a6 a7 [am acc] [pm mot] a10 a11].
  cbn [shm accel acceleration pwm motors]. intros Hrun Hm Hx Hy Hn. revert Hrun.
  unfold case_Fly, sem_wait, sem_post. msimpl.
  destruct (0 <? pm); msimpl; [|discriminate].
  destruct (0 <? am); msimpl; [|discriminate].
  destruct (0 <? pm - 1 + 1); msimpl; [|discriminate].
  match goal with |- context [set_motors ?t] => set (tm := t) end.
  assert (Htm : motors_all pwm_ok tm = true).
  { assert (H1 : motors_all pwm_ok
                   (if flt (fdiv (motors_sum mot) f4) FLY_THRESH
                    then motors_map (fun v => clamp_hi (fadd v DELTA_INCREASE)) mot
                    else mot) = true).
    { destruct (flt _ FLY_THRESH); [|exact Hm].
      apply (motors_all_map pwm_ok); [apply increase_ok | exact Hm]. }
    subst tm. destruct (fle ACCEL_STABILIZATION_THRESHOLD _); [|exact H1].
    apply (motors_all_map pwm_ok); [|exact H1].
    intros v Hv. apply stabilize_ok; [exact Hv | apply fadd_valid; assumption | exact Hn]. }
  clearbody tm.
  match goal with |- context [Proc l ?s o i] => set (q0 := Proc l s o i) end.
  assert (Hq0 : motors (pwm (shm q0)) = tm) by reflexivity.
  clearbody q0.
  assert (Hend : forall q : proc statics,
            motors (pwm (shm q)) = tm ->
            (if negb (Z.land cmd (Z.lor SampleGPS (Z.lor Land Abort)) =? 0)
             then write_action cmd
             else fun p : proc statics => Some (tt, p))
              (Proc (set_last_accel acc (locals q)) (shm q) (out q) (intr q)) =
            Some (tt, p') ->
            motors_all pwm_ok (motors (pwm (shm p'))) = true).
  { intros q Hq. destruct (negb _).
    - intros H. apply write_action_data in H. destruct H as [H _]. cbn in H.
      rewrite H, Hq. exact Htm.
    - intros [= <-]. cbn. rewrite Hq. exact Htm. }
  destruct (feq _ _ && feq _ _ && feq _ _).
  - destruct (MAX_FLY_TIMEOUT <=? _).
    + match goal with |- context [write_action Abort ?q] =>
        destruct (write_action Abort q) as [[[] q1]|] eqn:Hw end; [|discriminate].
      apply write_action_data in Hw. destruct Hw as [Hw _]. cbn in Hw.
      apply Hend. cbn. rewrite Hw. exact Hq0.
    + apply Hend. exact Hq0.
  - apply Hend. exact Hq0.
Qed.

(** The [switch], whenever it returns. *)
Lemma dispatch_ok (ca cmd : Z) (p p' : proc statics) :
  let a := acceleration (accel (shm p)) in
  dispatch ca cmd p = Some (tt, p') ->
  motors_all pwm_ok (motors (pwm (shm p))) = true ->
  is_float (x a) = true -> is_float (y a) = true ->
  is_nan (fadd (x a) (y a)) = false ->
  motors_all pwm_ok (motors (pwm (shm p'))) = true.
Proof.
  intros a Hrun Hm Hx Hy Hn. revert Hrun. unfold dispatch.
  assert (Hwa : forall v (q : proc statics),
            pwm (shm q) = pwm (shm p) ->
            write_action v q = Some (tt, p') ->
            motors_all pwm_ok (motors (pwm (shm p'))) = true).
  { intros v q Hq H. apply write_action_data in H. destruct H as [H _].
    rewrite H, Hq. exact Hm. }
  destruct (ca =? Fly); [intros H; eapply case_Fly_ok; eassumption|].
  destruct (ca =? SampleGPS).
  { intros H. apply when_write_action_data in H. destruct H as [H _].
    rewrite H. exact Hm. }
  destruct (ca =? Idle).
  { intros H. apply when_write_action_data in H. destruct H as [H _].
    rewrite H. exact Hm. }
  destruct (ca =? Charge).
  { destruct (negb _); msimpl; [|intros [= <-]; exact Hm].
    destruct (15 <=? battery (shm p)).
    - apply Hwa. reflexivity.
    - msimpl. intros [= <-]. exact Hm. }
  destruct (ca =? Abort).
  { unfold case_Abort. msimpl. destruct (battery (shm p) <? 15).
    - apply Hwa. reflexivity.
    - msimpl.
      match goal with |- context [write_action ?v ?q] =>
        destruct (write_action v q) as [[[] q1]|] eqn:Hw end; [|discriminate].
      apply write_action_data in Hw. destruct Hw as [Hw _]. cbn in Hw.
      intros H. apply case_Land_ok in H; [exact H|]. rewrite Hw. exact Hm. }
  destruct (ca =? Land); [intros H; eapply case_Land_ok; eassumption|].
  msimpl. apply Hwa. reflexivity.
Qed.

(** An iteration of [flight_loop] that returns, whatever the action it
    finds, the clock, the outcome of the bind and the datagrams received:
    if the four motor values are values of the format in the unit
    interval, and the [x] and the [y] of the accelerometer reading are
    values of the format whose sum is not a NaN, then the four motor values
    it leaves are again values of the format in the unit interval. *)
Lemma flight_iteration_ok
    (clock : timespec) (bound : bool) (rs : list recv_result) (p p' : proc statics) :
  let a := acceleration (accel (shm p)) in
  flight_loop clock bound rs p = Some (tt, p') ->
  motors_all pwm_ok (motors (pwm (shm p))) = true ->
  is_float (x a) = true -> is_float (y a) = true ->
  is_nan (fadd (x a) (y a)) = false ->
  motors_all pwm_ok (motors (pwm (shm p'))) = true.
Proof.
  intros a Hrun Hm Hx Hy Hn. revert Hrun.
  assert (Htail : forall (cmd : Z) (q : proc statics),
            pwm (shm q) = pwm (shm p) -> accel (shm q) = accel (shm p) ->
            (current_action ← read_action;
             l ← get_locals;
             when (negb (current_action =? last_action l))
               (emit (printf "Current state: " []);;
                printactln current_action;;
                set_locals (set_last_action current_action));;
             dispatch current_action cmd;;
             store (set_wdg wdg_flight_ctrl_incr);;
             emit (usleep DELTA_SIMULATION_US)) q = Some (tt, p') ->
            motors_all pwm_ok (motors (pwm (shm p'))) = true).
  { intros cmd q Hq1 Hq2. msimpl.
    destruct (read_action q) as [[ca q1]|] eqn:Hr; [|discriminate].
    apply read_action_data in Hr. destruct Hr as [Hr1 Hr2].
    assert (Hd : forall q2 q3 : proc statics,
              shm q2 = shm q1 -> dispatch ca cmd q2 = Some (tt, q3) ->
              motors_all pwm_ok (motors (pwm (shm q3))) = true).
    { intros q2 q3 Hs H. apply dispatch_ok in H; [exact H | | | |];
        rewrite Hs, ?Hr1, ?Hr2, ?Hq1, ?Hq2; assumption. }
    destruct (negb _); unfold printactln; msimpl.
    all: match goal with |- context [dispatch ?c ?d ?q2] =>
           destruct (dispatch c d q2) as [[[] q3]|] eqn:Hrun end; [|discriminate].
    all: apply Hd in Hrun; [|reflexivity].
    all: intros [= <-]; exact Hrun. }
  unfold flight_loop. msimpl.
  destruct (init (locals p)); [destruct (BIND_RETRY_MS <=? _); [destruct bound|]|]; msimpl.
  all: try match goal with |- context [receive ?r ?c ?q] =>
             destruct (receive r c q) as [[c1 q1]|] eqn:Hr; [|discriminate];
             apply receive_data in Hr; destruct Hr as [Hr1 Hr2];
             apply (Htail c1 q1); [exact Hr1 | exact Hr2]
           end.
  all: match goal with |- context [read_action ?q] =>
         apply (Htail Reserved q); reflexivity end.
Qed.

End MotorFacts.

(* ================================================================= *)
(** ** Operator console *)

Module OperatorFacts.
Import OperatorConsole.

Lemma tolower_idem (c : ascii) : tolower (tolower c) = tolower c.
Proof. destruct c as [[] [] [] [] [] [] [] []]; reflexivity. Qed.

Lemma tolower_nul (c : ascii) : Ascii.eqb (tolower c) "000" = Ascii.eqb c "000".
Proof. destruct c as [[] [] [] [] [] [] [] []]; reflexivity. Qed.

Lemma tolower_newline (c : ascii) : Ascii.eqb (tolower c) "010" = Ascii.eqb c "010".
Proof. destruct c as [[] [] [] [] [] [] [] []]; reflexivity. Qed.

Lemma str_tolower_idem (s : string) : str_tolower (str_tolower s) = str_tolower s.
Proof. induction s as [|c s IH]; cbn [str_tolower]; [reflexivity|]. now rewrite tolower_idem, IH. Qed.

Lemma c_string_lower (s : string) : c_string (str_tolower s) = str_tolower (c_string s).
Proof.
  induction s as [|c s IH]; cbn [str_tolower c_string]; [reflexivity|].
  rewrite tolower_nul. destruct (Ascii.eqb c "000"); cbn [str_tolower]; [reflexivity|].
  now rewrite IH.
Qed.

Lemma strncpy_lower (n : nat) (s : string) :
  strncpy n (str_tolower s) = str_tolower (strncpy n s).
Proof.
  revert s. induction n as [|n IH]; intros [|c s]; cbn [str_tolower strncpy]; try reflexivity.
  now rewrite IH.
Qed.

Lemma chomp_lower (s : string) : chomp (str_tolower s) = str_tolower (chomp s).
Proof.
  induction s as [|c s IH]; [reflexivity|].
  destruct s as [|d s].
  - cbn [str_tolower chomp]. rewrite tolower_newline.
    destruct (Ascii.eqb c "010"); reflexivity.
  - change (str_tolower (String c (String d s)))
      with (String (tolower c) (str_tolower (String d s))).
    change (chomp (String c (String d s))) with (String c (chomp (String d s))).
    cbn [str_tolower]. rewrite <- IH. cbn [str_tolower]. reflexivity.
Qed.

(** The function sees its argument through [str_tolower] only. *)
Lemma get_action_lower (cmd : string) :
  get_action_from_cmd (str_tolower cmd) = get_action_from_cmd cmd.
Proof.
  unfold get_action_from_cmd.
  now rewrite c_string_lower, strncpy_lower, chomp_lower, str_tolower_idem.
Qed.

(** [get_action_from_cmd] does not tell upper case from lower case:
    two lines that differ in the case of their letters only get the same
    answer. *)
Theorem get_action_case_insensitive (a b : string) :
  str_tolower a = str_tolower b ->
  get_action_from_cmd a = get_action_from_cmd b.
Proof.
  intros H. rewrite <- (get_action_lower a), <- (get_action_lower b), H. reflexivity.
Qed.

Lemma get_action_case_insensitive_witness :
  str_tolower ("SampleGPS" ++ nl) = str_tolower ("sAMPLEgps" ++ nl) /\
  get_action_from_cmd ("SampleGPS" ++ nl) = get_action_from_cmd ("sAMPLEgps" ++ nl) /\
  get_action_from_cmd ("sAMPLEgps" ++ nl) = Some SampleGPS.
Proof.
  assert (H : str_tolower ("SampleGPS" ++ nl) = str_tolower ("sAMPLEgps" ++ nl))
    by reflexivity.
  split; [exact H|]. split; [|reflexivity].
  exact (get_action_case_insensitive _ _ H).
Defined.

(** The six values that [get_action_from_cmd] can store. *)
Lemma get_action_in_six (cmd : string) (a : current_action_t) :
  get_action_from_cmd cmd = Some a ->
  In a [SampleGPS; Fly; Land; Idle; Charge; Abort].
Proof.
  unfold get_action_from_cmd.
  repeat match goal with |- context [if ?b then _ else _] =>
           destruct b; [intros [= <-]; cbn; auto 10|] end.
  discriminate.
Qed.

Lemma printactln_name (a : current_action_t) (p : proc FlightCtrl.statics) :
  FlightCtrl.printactln a p =
  Some (tt, Proc (locals p) (shm p) (out p ++ [printf "%s\n" [Str (action_name a)]]) (intr p)).
Proof.
  unfold FlightCtrl.printactln, action_name, emit.
  repeat match goal with |- context [if ?b then _ else _] => destruct b end; reflexivity.
Qed.

(** What [get_action_from_cmd] accepts is one of the six enumerators
    that a command can name, never [Reserved] and never a value outside
    of the enumeration; the line it accepted is, up to the case of the
    letters and one final newline, the name that [printactln] prints
    for this action, and this name is accepted in turn. *)
Theorem get_action_enumerator (cmd : string) (a : current_action_t) :
  get_action_from_cmd cmd = Some a ->
  In a [SampleGPS; Fly; Land; Idle; Charge; Abort] /\
  str_tolower (chomp (strncpy 31 (c_string cmd))) = str_tolower (action_name a) /\
  get_action_from_cmd (action_name a ++ nl) = Some a.
Proof.
  unfold get_action_from_cmd.
  set (tmp := str_tolower (chomp (strncpy 31 (c_string cmd)))).
  destruct (String.eqb_spec tmp "samplegps") as [E|_];
    [intros [= <-]; rewrite E; cbn; auto 10|].
  destruct (String.eqb_spec tmp "fly") as [E|_];
    [intros [= <-]; rewrite E; cbn; auto 10|].
  destruct (String.eqb_spec tmp "land") as [E|_];
    [intros [= <-]; rewrite E; cbn; auto 10|].
  destruct (String.eqb_spec tmp "idle") as [E|_];
    [intros [= <-]; rewrite E; cbn; auto 10|].
  destruct (String.eqb_spec tmp "charge") as [E|_];
    [intros [= <-]; rewrite E; cbn; auto 10|].
  destruct (String.eqb_spec tmp "abort") as [E|_];
    [intros [= <-]; rewrite E; cbn; auto 10|].
  discriminate.
Qed.

Lemma get_action_enumerator_witness :
  get_action_from_cmd ("LAND" ++ nl) = Some Land /\
  In Land [SampleGPS; Fly; Land; Idle; Charge; Abort] /\
  get_action_from_cmd (action_name Land ++ nl) = Some Land.
Proof.
  assert (H : get_action_from_cmd ("LAND" ++ nl) = Some Land) by reflexivity.
  split; [exact H|].
  destruct (get_action_enumerator _ _ H) as (H1 & _ & H3).
  split; [exact H1 | exact H3].
Defined.

(** The name that [printactln] prints for an action, typed back at the
    console, is accepted as this action exactly for the six enumerators
    that a command can name: for [Reserved] and for a value outside of the
    enumeration the printed name is no command. *)
Theorem printed_name_round_trip (a : current_action_t) (p : proc FlightCtrl.statics) :
  exists name p',
    FlightCtrl.printactln a p = Some (tt, p') /\
    out p' = out p ++ [printf "%s\n" [Str name]] /\
    (get_action_from_cmd (name ++ nl) = Some a <->
     In a [SampleGPS; Fly; Land; Idle; Charge; Abort]).
Proof.
  exists (action_name a). eexists. split; [apply printactln_name|].
  split; [reflexivity|]. split.
  - intros H. apply get_action_enumerator in H. apply H.
  - cbn [In]. intros [<-|[<-|[<-|[<-|[<-|[<-|[]]]]]]]; reflexivity.
Qed.

End OperatorFacts.

(* ================================================================= *)
(** ** Flight controller: the states and the socket *)

Module FlightMore.
Import FlightCtrl FlightFacts.

Arguments receive : simpl never.

(** The closed comparisons [<?] of the goal are evaluated. *)
Ltac eval_ltb :=
  repeat match goal with
  | |- context [Z.ltb ?a ?b] =>
      let v := eval vm_compute in (Z.ltb a b) in
      match v with
      | true => change (Z.ltb a b) with true
      | false => change (Z.ltb a b) with false
      end
  end.
Ltac zsimpl := repeat (progress (fsimpl; eval_ltb)).

(** In [Idle] and in [SampleGPS] an iteration that receives the four
    bytes of any 32-bit value [c] stores [c] itself in [Action] as soon as
    [c] has a bit in common with the commands of the state, [Fly], [Charge]
    and [Abort] in [Idle], [Fly] and [Abort] in [SampleGPS], be [c] an
    enumerator or not; otherwise, and when nothing was received, [Action]
    stays.  The motors, the charge and the ring are not written. *)
Theorem standby_command
    (clock : timespec) (bound : bool) (rs : list recv_result) (c : Z)
    (p : proc statics) :
  let a := action_type (action (shm p)) in
  let mask := if a =? Idle then Z.lor Fly (Z.lor Charge Abort) else Z.lor Fly Abort in
  listening clock bound (locals p) = true ->
  action_lock_free (shm p) ->
  0 <= c < 2 ^ 32 ->
  a = Idle \/ a = SampleGPS ->
  (exists p',
     flight_loop clock bound (recv_datagram (Operator.datagram c) :: rs) p = Some (tt, p') /\
     action_type (action (shm p')) = (if Z.land c mask =? 0 then a else c) /\
     action_lock_free (shm p') /\
     pwm (shm p') = pwm (shm p) /\ battery (shm p') = battery (shm p) /\
     gps (shm p') = gps (shm p)) /\
  (exists p',
     flight_loop clock bound [] p = Some (tt, p') /\
     shm p' = set_wdg wdg_flight_ctrl_incr (shm p)).
Proof.
  intros a mask Hi H Hc Ha. subst a mask.
  destruct p as [[cb la lacc ini nw lt ft] s o i]. cbn in Hi, H, Ha |- *.
  unfold listening in Hi. cbn in Hi.
  unfold flight_loop. msimpl.
  destruct ini; cbn in Hi;
    [ apply andb_true_iff in Hi; destruct Hi as [-> ->] | ]; msimpl.
  all: rewrite receive_datagram, (recvfrom_datagram Reserved c uint32_Reserved Hc).
  all: unfold receive; msimpl; rewrite !read_action_free by exact H; msimpl.
  all: destruct Ha as [Ha|Ha]; rewrite Ha.
  all: split.
  all: destruct (negb (_ =? la)); fsimpl; unfold dispatch; fsimpl.
  all: try (destruct (Z.land c _ =? 0) eqn:Ec; fsimpl).
  all: try (rewrite write_action_free by exact H; fsimpl).
  all: eexists; (split; [reflexivity|]); cbn.
  all: try (destruct s as [? ? ? ? ? ? [[? ? ?] ?] ? ? ? ?]; cbn in *;
            destruct H as (-> & -> & ->); subst; reflexivity).
  all: repeat split; try reflexivity; try apply H; try assumption.
Qed.

(** In [Idle], the four bytes of 68, which is [Fly | Abort] and no
    enumerator, are stored in [Action] as they are. *)
Lemma standby_command_witness :
  let p := flight_proc Idle 100 (all_motors f0) in
  listening (at_time 10 0) false (locals p) = true /\
  action_lock_free (shm p) /\
  0 <= 68 < 2 ^ 32 /\
  action_type (action (shm p)) = Idle /\
  exists p',
    flight_loop (at_time 10 0) false [recv_datagram (Operator.datagram 68)] p = Some (tt, p') /\
    action_type (action (shm p')) = 68.
Proof.
  intros p.
  assert (H1 : listening (at_time 10 0) false (locals p) = true) by reflexivity.
  assert (H2 : action_lock_free (shm p)) by (vm_compute; auto).
  assert (H3 : 0 <= 68 < 2 ^ 32) by (split; [discriminate | reflexivity]).
  assert (H4 : action_type (action (shm p)) = Idle) by reflexivity.
  split; [exact H1|]. split; [exact H2|]. split; [exact H3|]. split; [exact H4|].
  destruct (standby_command (at_time 10 0) false [] 68 p H1 H2 H3 (or_introl H4))
    as [(p' & Hrun & Ha & _) _].
  exists p'. split; [exact Hrun|]. rewrite Ha. reflexivity.
Defined.

(** An iteration that finds in [Action] a value that is none of the
    six states of the [switch], [Reserved], 0 or a value with several
    bits among them, and that received a datagram or nothing, reports the
    value on the standard error and stores [Abort]; the command, if any,
    is not looked at, and the motors are not written. *)
Theorem unknown_state_aborts
    (clock : timespec) (bound : bool) (rs : list recv_result) (p : proc statics) :
  let a := action_type (action (shm p)) in
  listening clock bound (locals p) = true ->
  action_lock_free (shm p) ->
  ~ In a [Fly; SampleGPS; Idle; Charge; Abort; Land] ->
  (forall e, head rs <> Some (recv_error e)) ->
  exists p',
    flight_loop clock bound rs p = Some (tt, p') /\
    action_type (action (shm p')) = Abort /\
    In (fprintf_stderr
          "Unexpected state value obtained: %d. Switching to `Abort` due to undefined behavior.\n."
          [Int a]) (out p') /\
    action_lock_free (shm p') /\
    pwm (shm p') = pwm (shm p).
Proof.
  intros a Hi H Ha Hrs. subst a.
  assert (Hne : forall v, In v [Fly; SampleGPS; Idle; Charge; Abort; Land] ->
                  (action_type (action (shm p)) =? v) = false).
  { intros v Hv. apply Z.eqb_neq. intros E. apply Ha. rewrite E. exact Hv. }
  destruct p as [[cb la lacc ini nw lt ft] s o i]. cbn in Hi, H, Ha, Hne |- *.
  unfold listening in Hi. cbn in Hi.
  unfold flight_loop. msimpl.
  destruct ini; cbn in Hi;
    [ apply andb_true_iff in Hi; destruct Hi as [-> ->] | ]; msimpl.
  all: destruct rs as [|[e|d] rs]; [| exfalso; apply (Hrs e); reflexivity |].
  all: try rewrite receive_datagram.
  all: unfold receive; msimpl; rewrite !read_action_free by exact H; msimpl.
  all: destruct (negb (_ =? la)); fsimpl; unfold dispatch.
  all: rewrite !Hne by (cbn; auto 10); msimpl.
  all: rewrite write_action_free by exact H; fsimpl.
  all: eexists; (split; [reflexivity|]); cbn.
  all: split; [reflexivity|].
  all: split; [rewrite !in_app_iff; cbn; auto 10|].
  all: split; [exact H | reflexivity].
Qed.

Lemma unknown_state_aborts_witness :
  let p := flight_proc 68 100 (all_motors half) in
  listening (at_time 10 0) false (locals p) = true /\
  action_lock_free (shm p) /\
  ~ In (action_type (action (shm p))) [Fly; SampleGPS; Idle; Charge; Abort; Land] /\
  exists p',
    flight_loop (at_time 10 0) false [recv_datagram (Operator.datagram Fly)] p
      = Some (tt, p') /\
    action_type (action (shm p')) = Abort.
Proof.
  intros p.
  assert (H1 : listening (at_time 10 0) false (locals p) = true) by reflexivity.
  assert (H2 : action_lock_free (shm p)) by (vm_compute; auto).
  assert (H3 : ~ In (action_type (action (shm p))) [Fly; SampleGPS; Idle; Charge; Abort; Land])
    by (vm_compute; intuition discriminate).
  split; [exact H1|]. split; [exact H2|]. split; [exact H3|].
  destruct (unknown_state_aborts (at_time 10 0) false
              [recv_datagram (Operator.datagram Fly)] p H1 H2 H3)
    as (p' & Hrun & Ha & _); [intros e; discriminate|].
  exists p'. split; [exact Hrun | exact Ha].
Defined.

(** One iteration of a controller that is not bound, less than
    [BIND_RETRY_MS] after the time it keeps. *)
Lemma unbound_tick (clock : timespec) (bound : bool) (rs : list recv_result)
    (p : proc statics) :
  init (locals p) = true ->
  elapsed clock (last_time (locals p)) < BIND_RETRY_MS ->
  action_lock_free (shm p) ->
  action_type (action (shm p)) = Idle ->
  exists p' evs,
    flight_loop clock bound rs p = Some (tt, p') /\
    init (locals p') = true /\
    last_time (locals p') = clock /\
    action_lock_free (shm p') /\
    action_type (action (shm p')) = Idle /\
    out p' = out p ++ evs /\
    ~ In (printf "Connection is not initialized. Trying to bind... " []) evs.
Proof.
  intros Hi He H Ha.
  destruct p as [[cb la lacc ini nw lt ft] s o i]. cbn in Hi, He, H, Ha |- *. subst ini.
  apply Z.leb_gt in He.
  unfold flight_loop. msimpl. rewrite He. msimpl.
  rewrite read_action_free by exact H. msimpl. rewrite Ha.
  destruct (negb (Idle =? la)); fsimpl; unfold dispatch; fsimpl.
  all: do 2 eexists; (split; [reflexivity|]); cbn.
  all: repeat (split; [first [reflexivity | exact H | exact Ha
                              | rewrite <- ?app_assoc; reflexivity]|]).
  all: cbn; intuition discriminate.
Qed.

(** A controller that is not bound sets the time it measures from to
    the clock in every iteration, so the two seconds of [BIND_RETRY_MS]
    never elapse between iterations that follow each other faster: over
    any such sequence of readings of the clock, in [Idle], it does not
    try to bind again, even where the bind would succeed, and every
    datagram stays unread. *)
Theorem bind_never_retried
    (bound : bool) (rs : list recv_result) (clocks : list timespec) :
  forall p : proc statics,
  init (locals p) = true ->
  gaps_below BIND_RETRY_MS (last_time (locals p)) clocks ->
  action_lock_free (shm p) ->
  action_type (action (shm p)) = Idle ->
  exists p' evs,
    run_ticks (fun c => flight_loop c bound rs) clocks p = Some p' /\
    init (locals p') = true /\
    action_type (action (shm p')) = Idle /\
    out p' = out p ++ evs /\
    ~ In (printf "Connection is not initialized. Trying to bind... " []) evs.
Proof.
  induction clocks as [|c cs IH]; intros p Hi Hg H Ha.
  - exists p, []. cbn. rewrite app_nil_r. intuition.
  - destruct Hg as [Hc Hg].
    destruct (unbound_tick c bound rs p Hi Hc H Ha)
      as (p1 & ev1 & Hrun & Hi1 & Hl1 & H1 & Ha1 & Ho1 & Hn1).
    rewrite <- Hl1 in Hg.
    destruct (IH p1 Hi1 Hg H1 Ha1) as (p' & ev2 & Hrun2 & Hi2 & Ha2 & Ho2 & Hn2).
    exists p', (ev1 ++ ev2). cbn [run_ticks]. rewrite Hrun.
    split; [exact Hrun2|]. split; [exact Hi2|]. split; [exact Ha2|].
    split; [rewrite Ho2, Ho1, app_assoc; reflexivity|].
    rewrite in_app_iff. tauto.
Qed.

Lemma bind_never_retried_witness :
  init (locals unbound_controller) = true /\
  gaps_below BIND_RETRY_MS (last_time (locals unbound_controller)) slow_clocks /\
  action_lock_free (shm unbound_controller) /\
  action_type (action (shm unbound_controller)) = Idle /\
  exists p' evs,
    run_ticks (fun c => flight_loop c true []) slow_clocks unbound_controller = Some p' /\
    init (locals p') = true /\
    action_type (action (shm p')) = Idle /\
    out p' = out unbound_controller ++ evs /\
    ~ In (printf "Connection is not initialized. Trying to bind... " []) evs.
Proof.
  assert (H1 : init (locals unbound_controller) = true) by reflexivity.
  assert (H2 : gaps_below BIND_RETRY_MS (last_time (locals unbound_controller)) slow_clocks)
    by (vm_compute; repeat split).
  assert (H3 : action_lock_free (shm unbound_controller)) by (vm_compute; repeat split).
  assert (H4 : action_type (action (shm unbound_controller)) = Idle) by reflexivity.
  repeat split; try assumption.
  exact (bind_never_retried true [] slow_clocks unbound_controller H1 H2 H3 H4).
Defined.


(** One iteration on a stalled accelerometer. *)
Lemma stalled_tick (clock : timespec) (bound : bool) (a : acceleration_t) (t : Z)
    (p : proc statics) :
  stalled_in_flight a t p -> 0 <= t < MAX_FLY_TIMEOUT ->
  exists p',
    flight_loop clock bound [] p = Some (tt, p') /\
    if t + 1 <? MAX_FLY_TIMEOUT then stalled_in_flight a (t + 1) p'
    else action_type (action (shm p')) = Abort /\ fly_timeout (locals p') = 0.
Proof.
  intros (Hi & H & Ha & Hpm & Ham & Hacc & Hla & Hsame & Ht) Hr.
  destruct p as [[cb la lacc ini nw lt ft] s o i].
  destruct s as [a1 a2 a3 a4 a5 a6 [[rd wr rc] ty] [am acc] [pm mot] a10 a11].
  unfold action_lock_free in H. cbn in Hi, H, Ha, Hpm, Ham, Hacc, Hla, Ht.
  destruct H as (-> & -> & ->). subst ini ty pm am acc lacc ft.
  pose proof Hsame as Hxyz. rewrite !andb_true_iff in Hxyz.
  destruct Hxyz as [[Hx Hy] Hz].
  assert (Hu : uint8 (t + 1) = t + 1)
    by (unfold uint8; apply Z.mod_small; unfold MAX_FLY_TIMEOUT in Hr; lia).
  unfold flight_loop. msimpl. unfold receive. msimpl.
  rewrite read_action_free by (cbn; repeat split). msimpl.
  assert (Hd : forall (l : statics) (o : list event),
            last_accel l = a -> fly_timeout l = t ->
            exists q,
              dispatch Fly Reserved
                (Proc l (Build_drone_shared_t a1 a2 a3 a4 a5 a6
                           (Build_action_shm (Build_rw_lock_t 1 1 0) Fly)
                           (Build_accel_shm 1 a) (Build_pwm_shm 1 mot) a10 a11) o i)
                = Some (tt, q) /\
              init q.(locals) = init l /\
              if t + 1 <? MAX_FLY_TIMEOUT then
                action q.(shm) = Build_action_shm (Build_rw_lock_t 1 1 0) Fly /\
                pwm_mutex (pwm q.(shm)) = 1 /\ accel q.(shm) = Build_accel_shm 1 a /\
                last_accel q.(locals) = a /\ fly_timeout q.(locals) = t + 1
              else action_type (action q.(shm)) = Abort /\ fly_timeout q.(locals) = 0).
  { intros l0 o0 Hl0 Ht0. destruct l0 as [cb0 la0 lacc0 ini0 nw0 lt0 ft0].
    cbn in Hl0, Ht0. subst lacc0 ft0.
    unfold dispatch. fsimpl. unfold case_Fly, sem_wait, sem_post. zsimpl.
    rewrite ?Hx, ?Hy, ?Hz. zsimpl. rewrite ?Hx, ?Hy, ?Hz. zsimpl. rewrite Hu.
    destruct (t + 1 <? MAX_FLY_TIMEOUT) eqn:E.
    - replace (MAX_FLY_TIMEOUT <=? t + 1) with false
        by (symmetry; apply Z.leb_gt; apply Z.ltb_lt in E; exact E).
      fsimpl. eexists. split; [reflexivity|]. cbn. repeat split.
    - replace (MAX_FLY_TIMEOUT <=? t + 1) with true
        by (symmetry; apply Z.leb_le; apply Z.ltb_ge in E; exact E).
      fsimpl. rewrite write_action_free by (cbn; repeat split). fsimpl.
      eexists. split; [reflexivity|]. cbn. repeat split. }
  destruct (negb (Fly =? la)); msimpl.
  all: match goal with |- context [dispatch Fly Reserved (Proc ?l _ ?o _)] =>
         destruct (Hd l o eq_refl eq_refl) as (q & Hq & Hqi & Hrest) end.
  all: rewrite Hq; msimpl; eexists; (split; [reflexivity|]).
  all: destruct (t + 1 <? MAX_FLY_TIMEOUT); cbn; [|exact Hrest].
  all: destruct Hrest as (Hqa & Hqp & Hqacc & Hql & Hqt).
  all: unfold stalled_in_flight, action_lock_free; cbn.
  all: rewrite Hqi, Hqa, Hqp, Hqacc, Hql, Hqt; cbn.
  all: repeat split; exact Hsame.
Qed.

(** In [Fly], the accelerometer reading equal to the one before and
    no command coming, the controller counts: from a count of [t] it
    stays in [Fly] for the next [MAX_FLY_TIMEOUT - t - 1] iterations, and
    the iteration after them stores [Abort] and sets the count back to 0. *)
Theorem repeated_reading_aborts
    (bound : bool) (a : acceleration_t) (clocks : list timespec) :
  forall (t : Z) (p : proc statics),
  stalled_in_flight a t p -> 0 <= t < MAX_FLY_TIMEOUT ->
  Z.of_nat (length clocks) <= MAX_FLY_TIMEOUT - t ->
  exists p',
    run_ticks (fun c => flight_loop c bound []) clocks p = Some p' /\
    action_type (action (shm p')) =
      (if Z.of_nat (length clocks) =? MAX_FLY_TIMEOUT - t then Abort else Fly).
Proof.
  induction clocks as [|c cs IH]; intros t p Hs Ht Hlen.
  - exists p. split; [reflexivity|].
    replace (Z.of_nat (length []) =? MAX_FLY_TIMEOUT - t) with false
      by (symmetry; apply Z.eqb_neq; cbn; lia).
    apply Hs.
  - cbn [length] in *. rewrite Nat2Z.inj_succ in *.
    destruct (stalled_tick c bound a t p Hs Ht) as (p1 & Hrun & Hnext).
    cbn [run_ticks]. rewrite Hrun.
    destruct (t + 1 <? MAX_FLY_TIMEOUT) eqn:E.
    + apply Z.ltb_lt in E. destruct (IH (t + 1) p1 Hnext) as (p' & Hrun' & Ha'); [lia | lia |].
      exists p'. split; [exact Hrun'|]. rewrite Ha'.
      replace (MAX_FLY_TIMEOUT - (t + 1)) with (MAX_FLY_TIMEOUT - t - 1) by lia.
      destruct (Z.eqb_spec (Z.of_nat (length cs)) (MAX_FLY_TIMEOUT - t - 1));
        destruct (Z.eqb_spec (Z.succ (Z.of_nat (length cs))) (MAX_FLY_TIMEOUT - t));
        try reflexivity; lia.
    + apply Z.ltb_ge in E. destruct cs as [|c' cs]; [|cbn [length] in Hlen; lia].
      exists p1. split; [reflexivity|].
      replace (Z.succ (Z.of_nat (length [])) =? MAX_FLY_TIMEOUT - t) with true
        by (symmetry; apply Z.eqb_eq; cbn; lia).
      apply Hnext.
Qed.

Lemma repeated_reading_aborts_witness :
  let p := flight_proc Fly 50 (all_motors half) in
  let a := {| x := f0; y := f0; z := f0 |} in
  let clocks := repeat (at_time 0 0) 10 in
  stalled_in_flight a 0 p /\ 0 <= 0 < MAX_FLY_TIMEOUT /\
  Z.of_nat (length clocks) <= MAX_FLY_TIMEOUT - 0 /\
  exists p',
    run_ticks (fun c => flight_loop c false []) clocks p = Some p' /\
    action_type (action (shm p')) = Abort.
Proof.
  intros p a clocks.
  assert (H1 : stalled_in_flight a 0 p) by (vm_compute; repeat split).
  assert (H2 : 0 <= 0 < MAX_FLY_TIMEOUT) by (split; [discriminate | reflexivity]).
  assert (H3 : Z.of_nat (length clocks) <= MAX_FLY_TIMEOUT - 0) by discriminate.
  repeat split; try assumption; try discriminate.
  exact (repeated_reading_aborts false a clocks 0 p H1 H2 H3).
Defined.


(** When [recvfrom] fails with an error that is neither
    [EWOULDBLOCK] nor [EINTR], the iteration stores [Abort], reports the
    error and marks the socket as not bound; the [switch] of the same
    iteration then runs on [Abort]: below a charge of 15 it stores
    [Charge] and leaves the motors, from 15 on it takes the motors down by
    one step, and [Action] ends as [Abort], or as [Charge] when that step
    brought the motors to rest. *)
Theorem socket_error_aborts
    (clock : timespec) (bound : bool) (e : Z) (rs : list recv_result)
    (p : proc statics) :
  listening clock bound (locals p) = true ->
  action_lock_free (shm p) ->
  0 < pwm_mutex (pwm (shm p)) ->
  e <> EWOULDBLOCK -> e <> EINTR ->
  exists p',
    flight_loop clock bound (recv_error e :: rs) p = Some (tt, p') /\
    init (locals p') = true /\
    In (perror "recvfrom") (out p') /\
    (action_type (action (shm p')) = Abort \/ action_type (action (shm p')) = Charge) /\
    (battery (shm p) < 15 ->
       action_type (action (shm p')) = Charge /\
       motors (pwm (shm p')) = motors (pwm (shm p))) /\
    (15 <= battery (shm p) ->
       motors (pwm (shm p')) =
         motors_map (fun v => clamp_lo (fsub v DELTA_DECREASE)) (motors (pwm (shm p)))).
Proof.
  intros Hi H Hpm He1 He2.
  destruct p as [[cb la lacc ini nw lt ft] s o i].
  destruct s as [a1 a2 a3 a4 a5 a6 [[rd wr rc] ty] a8 [pm mot] a10 a11].
  unfold action_lock_free in H. cbn in Hi, H, Hpm |- *. destruct H as (-> & -> & ->).
  apply Z.ltb_lt in Hpm. apply Z.eqb_neq in He1, He2.
  unfold listening in Hi. cbn in Hi.
  unfold flight_loop. msimpl.
  destruct ini; cbn in Hi;
    [ apply andb_true_iff in Hi; destruct Hi as [-> ->] | ]; msimpl.
  all: unfold receive; rewrite He1.
  all: change (e =? EAGAIN) with (e =? EWOULDBLOCK); rewrite He1, He2; cbn [orb]; msimpl.
  all: rewrite write_action_free by (cbn; repeat split); msimpl.
  all: rewrite read_action_free by (cbn; repeat split); msimpl.
  all: destruct (Z.eqb_spec Abort la) as [<-|Hla]; cbn [negb]; fsimpl;
         unfold dispatch; fsimpl.
  all: unfold case_Abort; msimpl.
  all: destruct (a11 <? 15) eqn:Eb; msimpl.
  all: rewrite write_action_free by (cbn; repeat split); msimpl.
  all: try (eexists; (split; [reflexivity|]); cbn; tests;
            split; [reflexivity|]; split; [rewrite !in_app_iff; cbn; auto 10|];
            split; [auto|]; split; [intros _; split; reflexivity | intros; lia]).
  all: unfold case_Land; fsimpl; unfold sem_wait, sem_post; msimpl; rewrite Hpm; msimpl.
  all: destruct (feq _ f0); msimpl.
  all: repeat (unfold rwlock_write_lock, rwlock_write_unlock, sem_wait, sem_post; fsimpl).
  all: eval_ltb; msimpl.
  all: eexists; (split; [reflexivity|]); cbn; tests.
  all: split; [reflexivity|]; split; [rewrite !in_app_iff; cbn; auto 10|].
  all: split; [auto|]; split; [intros; lia | intros _; reflexivity].
Qed.

Lemma socket_error_aborts_witness :
  let p := flight_proc Fly 50 (all_motors half) in
  let e := 111 in
  listening (at_time 7 0) false (locals p) = true /\
  action_lock_free (shm p) /\
  0 < pwm_mutex (pwm (shm p)) /\
  e <> EWOULDBLOCK /\ e <> EINTR /\
  exists p',
    flight_loop (at_time 7 0) false [recv_error e] p = Some (tt, p') /\
    init (locals p') = true /\
    In (perror "recvfrom") (out p') /\
    (action_type (action (shm p')) = Abort \/ action_type (action (shm p')) = Charge) /\
    (battery (shm p) < 15 ->
       action_type (action (shm p')) = Charge /\
       motors (pwm (shm p')) = motors (pwm (shm p))) /\
    (15 <= battery (shm p) ->
       motors (pwm (shm p')) =
         motors_map (fun v => clamp_lo (fsub v DELTA_DECREASE)) (motors (pwm (shm p)))).
Proof.
  intros p e.
  assert (H1 : listening (at_time 7 0) false (locals p) = true) by reflexivity.
  assert (H2 : action_lock_free (shm p)) by (vm_compute; repeat split).
  assert (H3 : 0 < pwm_mutex (pwm (shm p))) by reflexivity.
  assert (H4 : e <> EWOULDBLOCK) by discriminate.
  assert (H5 : e <> EINTR) by discriminate.
  split; [exact H1|]. split; [exact H2|]. split; [exact H3|].
  split; [exact H4|]. split; [exact H5|].
  exact (socket_error_aborts (at_time 7 0) false e [] p H1 H2 H3 H4 H5).
Defined.


(** From the console to the region: a line that
    [get_action_from_cmd] accepts as the action [a] leaves the operator as
    a datagram, and the controller that receives it in [Idle] stores [a]
    when [a] is [Fly], [Charge] or [Abort], and stays in [Idle] for
    [SampleGPS], [Land] and [Idle]. *)
Theorem typed_command_in_idle
    (clock : timespec) (bound : bool) (rs : list recv_result) (line : string)
    (a : current_action_t) (p : proc statics) :
  listening clock bound (locals p) = true ->
  action_lock_free (shm p) ->
  action_type (action (shm p)) = Idle ->
  OperatorConsole.get_action_from_cmd line = Some a ->
  exists d p',
    OperatorConsole.command_datagram line = Some d /\
    flight_loop clock bound (recv_datagram d :: rs) p = Some (tt, p') /\
    action_type (action (shm p')) =
      (if (a =? Fly) || (a =? Charge) || (a =? Abort) then a else Idle).
Proof.
  intros Hi H Ha Hcmd.
  pose proof (OperatorFacts.get_action_in_six _ _ Hcmd) as Hsix.
  unfold OperatorConsole.command_datagram. rewrite Hcmd.
  exists (Operator.datagram a).
  assert (Hr : 0 <= a < 2 ^ 32).
  { cbn [In] in Hsix.
    destruct Hsix as [<-|[<-|[<-|[<-|[<-|[<-|[]]]]]]]; split; (discriminate || reflexivity). }
  destruct p as [[cb la lacc ini nw lt ft] s o i]. cbn in Hi, H, Ha |- *.
  unfold listening in Hi. cbn in Hi.
  unfold flight_loop. msimpl.
  destruct ini; cbn in Hi;
    [ apply andb_true_iff in Hi; destruct Hi as [-> ->] | ]; msimpl.
  all: rewrite receive_datagram, (recvfrom_datagram Reserved a uint32_Reserved Hr).
  all: msimpl; rewrite read_action_free by exact H; msimpl; rewrite Ha.
  all: destruct (negb (Idle =? la)); fsimpl; unfold dispatch; fsimpl.
  all: cbn [In] in Hsix; destruct Hsix as [<-|[<-|[<-|[<-|[<-|[<-|[]]]]]]]; fsimpl.
  all: try (rewrite write_action_free by exact H; fsimpl).
  all: eexists; (split; [reflexivity|]); (split; [reflexivity|]); cbn.
  all: try reflexivity; exact Ha.
Qed.

Lemma typed_command_in_idle_witness :
  let p := flight_proc Idle 100 (all_motors f0) in
  listening (at_time 10 0) false (locals p) = true /\
  action_lock_free (shm p) /\
  action_type (action (shm p)) = Idle /\
  OperatorConsole.get_action_from_cmd ("Fly" ++ nl) = Some Fly /\
  exists d p',
    OperatorConsole.command_datagram ("Fly" ++ nl) = Some d /\
    flight_loop (at_time 10 0) false [recv_datagram d] p = Some (tt, p') /\
    action_type (action (shm p')) = Fly.
Proof.
  intros p.
  assert (H1 : listening (at_time 10 0) false (locals p) = true) by reflexivity.
  assert (H2 : action_lock_free (shm p)) by (vm_compute; auto).
  assert (H3 : action_type (action (shm p)) = Idle) by reflexivity.
  assert (H4 : OperatorConsole.get_action_from_cmd ("Fly" ++ nl) = Some Fly) by reflexivity.
  split; [exact H1|]. split; [exact H2|]. split; [exact H3|]. split; [exact H4|].
  destruct (typed_command_in_idle (at_time 10 0) false [] _ _ p H1 H2 H3 H4)
    as (d & p' & Hd & Hrun & Ha).
  exists d, p'. split; [exact Hd|]. split; [exact Hrun | exact Ha].
Defined.

End FlightMore.

(* ================================================================= *)
(** ** Telemetry: the message and the region *)

Module TelemetryMore.
Import Telemetry TelemetryFacts.

Arguments get_char : simpl never.
Arguments drain : simpl never.
Arguments BUF_APPEND : simpl never.
Arguments compose : simpl never.

(** What a store to [action] leaves alone. *)
Lemma action_frame_fields (a : action_shm) (s s' : drone_shared_t) :
  set_action (fun _ => a) s' = s ->
  wdg s' = wdg s /\ accel s' = accel s /\ pwm s' = pwm s /\ gps s' = gps s /\
  battery s' = battery s.
Proof. intros <-. destruct s'. repeat split. Qed.

(** The loop over the ring, whatever happens in it: the message stays
    within the buffer, the two counting semaphores keep their sum, and of
    the region nothing but the ring and [action] is written. *)
Lemma drain_more (fuel : nat) :
  forall (msg msg' : string) (p p' : proc statics),
  drain fuel msg p = Some (msg', p') ->
  ptr msg < sizeof_msg ->
  0 <= gps_full (gps (shm p)) ->
  ptr msg <= ptr msg' < sizeof_msg /\
  locals p' = locals p /\
  gps_full (gps (shm p')) + gps_empty (gps (shm p'))
    = gps_full (gps (shm p)) + gps_empty (gps (shm p)) /\
  0 <= gps_full (gps (shm p')) /\
  wdg (shm p') = wdg (shm p) /\ accel (shm p') = accel (shm p) /\
  pwm (shm p') = pwm (shm p) /\ battery (shm p') = battery (shm p) /\
  exists evs, out p' = out p ++ evs /\ forall m, ~ In (send m) evs.
Proof.
  assert (Hnil : forall o : list event,
            exists evs, o = o ++ evs /\ forall m, ~ In (send m) evs).
  { intros o. exists []. rewrite app_nil_r. split; [reflexivity | intros m []]. }
  assert (Hone : forall (o : list event) e, (forall m, e <> send m) ->
            exists evs, o ++ [e] = o ++ evs /\ forall m, ~ In (send m) evs).
  { intros o e He. exists [e]. split; [reflexivity|]. intros m [E|[]]. exact (He m E). }
  induction fuel as [|fuel IH]; intros msg msg' p p' Hrun Hp Hf.
  - cbn in Hrun. injection Hrun as <- <-. repeat split; try lia. apply Hnil.
  - unfold drain in Hrun; fold drain in Hrun.
    destruct (ptr msg <? sizeof_msg - 2) eqn:E.
    2: { cbn in Hrun. injection Hrun as <- <-. repeat split; try lia. apply Hnil. }
    destruct p as [l s o i]. destruct s as [a1 a2 a3 a4 a5 a6 a7 a8 a9 [m f e w r b] a11].
    cbn in Hf. apply Z.ltb_lt in E.
    unfold sem_timedwait, sem_post in Hrun. revert Hrun. msimpl.
    destruct (hd false i); fsimpl.
    { intros [= <- <-]. cbn. repeat split; try lia. apply Hone. discriminate. }
    destruct (0 <? f) eqn:Ef; fsimpl.
    2: { destruct (write_action _ _) as [[[] p1]|] eqn:Hw; [|discriminate].
         apply write_action_frame in Hw. cbn in Hw.
         destruct Hw as (Hl & Ho & _ & _ & Hs).
         apply action_frame_fields in Hs. cbn in Hs.
         destruct Hs as (Hs1 & Hs2 & Hs3 & Hs4 & Hs5).
         intros [= <- <-]. rewrite Hs1, Hs2, Hs3, Hs4, Hs5, Ho. cbn.
         pose proof (BUF_APPEND_bound msg "NO FIX." Hp).
         repeat split; try assumption; try lia. apply Hone. discriminate. }
    apply Z.ltb_lt in Ef.
    destruct (hd false (tl i)); fsimpl.
    { intros [= <- <-]. cbn. repeat split; try lia. apply Hone. discriminate. }
    destruct (0 <? m); fsimpl.
    2: { intros [= <- <-]. cbn. repeat split; try lia. apply Hone. discriminate. }
    rewrite get_char_run. cbn.
    assert (Hp1 : forall c, ptr (msg ++ String c EmptyString) = ptr msg + 1)
      by (intros c; rewrite ptr_append; reflexivity).
    destruct (Ascii.eqb _ "010").
    + intros [= <- <-]. cbn. rewrite Hp1. unfold sizeof_msg in *.
      repeat split; try lia. apply Hnil.
    + intros Hrun. apply IH in Hrun; cbn; [|rewrite Hp1; unfold sizeof_msg in *; lia | lia].
      cbn in Hrun. rewrite Hp1 in Hrun.
      destruct Hrun as (H1 & H2 & H3 & H4 & H5 & H6 & H7 & H8 & H9).
      repeat split; try assumption; lia.
Qed.

(** The message of an iteration, whatever the region holds. *)
Lemma compose_more (msg : string) (p p' : proc statics) :
  compose p = Some (msg, p') ->
  0 <= gps_full (gps (shm p)) ->
  ptr msg < sizeof_msg /\
  locals p' = locals p /\
  gps_full (gps (shm p')) + gps_empty (gps (shm p'))
    = gps_full (gps (shm p)) + gps_empty (gps (shm p)) /\
  0 <= gps_full (gps (shm p')) /\
  wdg (shm p') = wdg (shm p) /\
  acceleration (accel (shm p')) = acceleration (accel (shm p)) /\
  motors (pwm (shm p')) = motors (pwm (shm p)) /\
  battery (shm p') = battery (shm p) /\
  exists evs, out p' = out p ++ evs /\ forall m, ~ In (send m) evs.
Proof.
  destruct p as [l s o i]. destruct s as [a1 a2 a3 a4 a5 a6 a7 [am acc] [pm mot] g a11].
  cbn [shm gps locals]. intros Hrun Hf. revert Hrun.
  unfold compose. msimpl. unfold sem_trywait, sem_post. msimpl.
  assert (Hb : forall m t, ptr m < sizeof_msg -> ptr (BUF_APPEND m t) < sizeof_msg)
    by (intros m t Hm; apply BUF_APPEND_bound, Hm).
  assert (H0 : ptr EmptyString < sizeof_msg) by reflexivity.
  destruct (0 <? am); fsimpl; destruct (0 <? pm); fsimpl.
  all: destruct (read_action _) as [[a p1]|] eqn:Hread; [|discriminate].
  all: apply read_action_frame in Hread; cbn in Hread.
  all: destruct Hread as (_ & Hl & Ho & _ & _ & Hs).
  all: apply action_frame_fields in Hs; cbn in Hs.
  all: destruct Hs as (Hs1 & Hs2 & Hs3 & Hs4 & Hs5).
  all: destruct (a =? SampleGPS); fsimpl.
  all: lazymatch goal with
       | |- context [drain ?f ?mm ?q] =>
           destruct (drain f mm q) as [[msg1 p2]|] eqn:Hd; [|discriminate];
           apply drain_more in Hd; [| auto 10 | cbn; rewrite Hs4; exact Hf];
           cbn in Hd;
           destruct Hd as (Hd0 & Hd1 & Hd2 & Hd3 & Hd4 & Hd5 & Hd6 & Hd7 & evs & Hd8 & Hd9);
           intros [= <- <-]; cbn;
           rewrite ?Hd1, ?Hd2, ?Hd4, ?Hd5, ?Hd6, ?Hd7, ?Hd8, ?Hl, ?Ho,
                   ?Hs1, ?Hs2, ?Hs3, ?Hs4, ?Hs5;
           repeat split; try assumption; try reflexivity; try (apply Hb; lia);
           exists ((printf "Obtained GPS strings: " [] :: evs) ++ [printf "\n" []]);
           split; [rewrite <- !app_assoc; reflexivity|];
           intros m Hin; rewrite in_app_iff in Hin; cbn in Hin;
           destruct Hin as [[Hin|Hin]|[Hin|[]]];
           [discriminate | exact (Hd9 m Hin) | discriminate]
       | |- _ =>
           intros [= <- <-]; cbn;
           rewrite ?Hl, ?Ho, ?Hs1, ?Hs2, ?Hs3, ?Hs4, ?Hs5;
           repeat split; try assumption; try reflexivity; auto 10;
           exists []; rewrite app_nil_r; split; [reflexivity | intros m []]
       end.
Qed.

(** Whatever the region holds and whatever happens on the ring, a
    message that an iteration of [telemetry_loop] hands to [send] has at
    most 255 bytes: [ptr] never leaves the 256 bytes of [msg]. *)
Theorem message_fits_buffer (conn : connect_result) (n : Z) (p p' : proc statics) :
  telemetry_loop conn n p = Some (tt, p') ->
  0 <= gps_full (gps (shm p)) ->
  exists evs,
    out p' = out p ++ evs /\
    forall m, In (send m) evs -> (String.length m <= 255)%nat.
Proof.
  destruct p as [[fd ini] s o i]. cbn [shm gps out]. intros Hrun Hf. revert Hrun.
  assert (Hcomp : forall l o1 msg q,
            compose (Proc l s o1 i) = Some (msg, q) ->
            ptr msg < sizeof_msg /\
            exists evs, out q = o1 ++ evs /\ forall m, ~ In (send m) evs).
  { intros l1 o1 msg q Hc. apply compose_more in Hc; [|exact Hf].
    destruct Hc as (H1 & _ & _ & _ & _ & _ & _ & _ & H2). split; assumption. }
  unfold telemetry_loop. msimpl.
  destruct ini; [destruct conn as [ | | |c]|]; cbn; msimpl.
  1-3: (intros [= <-]; cbn; eexists; (split; [rewrite <- ?app_assoc; reflexivity|]);
        intros m Hin; cbn in Hin;
        repeat (destruct Hin as [Hin|Hin]; [discriminate Hin|]); contradiction).
  all: match goal with |- context [compose ?q] =>
         destruct (compose q) as [[msg q']|] eqn:Hc end; [|discriminate].
  all: apply Hcomp in Hc; destruct Hc as (Hlen & evs & Ho & Hns).
  all: destruct (n <=? 0); cbn; intros [= <-]; cbn; rewrite Ho.
  all: eexists; (split; [rewrite <- !app_assoc; reflexivity|]).
  all: intros m Hin; cbn in Hin; rewrite ?in_app_iff in Hin; cbn in Hin.
  all: unfold ptr, sizeof_msg in Hlen.
  all: repeat match goal with H : _ \/ _ |- _ => destruct H end;
         try discriminate; try contradiction.
  all: try (exfalso; eapply Hns; eassumption).
  all: match goal with H : send _ = send _ |- _ => injection H as <- end; lia.
Qed.

Lemma message_fits_buffer_witness :
  0 <= gps_full (gps (shm (stalled_ring 13))) /\
  exists p' evs,
    telemetry_loop connect_fails 1 (stalled_ring 13) = Some (tt, p') /\
    out p' = out (stalled_ring 13) ++ evs /\
    forall m, In (send m) evs -> (String.length m <= 255)%nat.
Proof.
  assert (H0 : 0 <= gps_full (gps (shm (stalled_ring 13)))) by (vm_compute; discriminate).
  split; [exact H0|].
  destruct (telemetry_loop connect_fails 1 (stalled_ring 13)) as [[[] p']|] eqn:Hrun;
    [|vm_compute in Hrun; discriminate].
  destruct (message_fits_buffer connect_fails 1 (stalled_ring 13) p' Hrun H0) as (evs & Ho & Hlen).
  exists p', evs. split; [reflexivity|]. split; [exact Ho | exact Hlen].
Defined.

(** The heartbeat of the telemetry.  An iteration that returns counts
    one heartbeat, except the one whose [send] failed: that one leaves the
    counter alone, forgets the socket and asks for a new connection, and
    does not sleep.  An iteration that could not connect reports the call
    that failed, sends nothing, counts its heartbeat and stays
    unconnected.  The other four counters are never written. *)
Theorem telemetry_heartbeat (conn : connect_result) (n : Z) (p p' : proc statics) :
  let linked := negb (init (locals p)) || is_connected conn in
  let failed := linked && (n <=? 0) in
  telemetry_loop conn n p = Some (tt, p') ->
  0 <= gps_full (gps (shm p)) ->
  wdg (shm p') = (if failed then wdg (shm p) else wdg_telemetry_incr (wdg (shm p))) /\
  init (locals p') = (if linked then n <=? 0 else true) /\
  (failed = true -> sock_fd (locals p') = -1) /\
  (linked = false ->
     sock_fd (locals p') = -1 /\
     out p' = out p
              ++ match conn with
                 | socket_fails => [perror "telemetry socket()"]
                 | address_refused => [perror "telemetry inet_pton"]
                 | _ => [printf "Trying TCP connect to %s:%d...\n"
                           [Str (operator_ip (shm p)); Int (telemetry_port (shm p))];
                         perror "Telemetry connect"]
                 end
              ++ [usleep TELEMETRY_TIMEOUT_US]) /\
  (failed = true <->
   last (out p') = Some (fprintf_stderr "Telemetry send failed, connection lost\n" [])).
Proof.
  destruct p as [[fd ini] s o i]. cbn [shm gps out locals init]. intros Hrun Hf. revert Hrun.
  assert (Hcomp : forall l o1 msg q,
            compose (Proc l s o1 i) = Some (msg, q) ->
            locals q = l /\ wdg (shm q) = wdg s).
  { intros l1 o1 msg q Hc. apply compose_more in Hc; [|exact Hf].
    destruct Hc as (_ & H1 & _ & _ & H2 & _). split; assumption. }
  unfold telemetry_loop. msimpl.
  destruct ini; [destruct conn as [ | | |c]|]; cbn; msimpl.
  1-3: (intros [= <-]; cbn; rewrite ?app_assoc, last_snoc;
        repeat split; try discriminate; try reflexivity;
        rewrite <- ?app_assoc; reflexivity).
  all: match goal with |- context [compose ?q] =>
         destruct (compose q) as [[msg q']|] eqn:Hc end; [|discriminate].
  all: apply Hcomp in Hc; destruct Hc as (Hl & Hw).
  all: destruct (n <=? 0); cbn; intros [= <-]; cbn; rewrite ?Hl, ?Hw; cbn.
  all: rewrite ?app_assoc, last_snoc.
  all: repeat split; try discriminate; try reflexivity.
Qed.

Lemma telemetry_heartbeat_witness :
  0 <= gps_full (gps (shm (stalled_ring 5))) /\
  0 <= gps_full (gps fresh_shm) /\
  (exists p',
     telemetry_loop connect_fails 0 (stalled_ring 5) = Some (tt, p') /\
     wdg (shm p') = wdg (shm (stalled_ring 5)) /\
     init (locals p') = true /\
     sock_fd (locals p') = -1) /\
  (exists p',
     telemetry_loop connect_fails 1 (Proc initial fresh_shm [] []) = Some (tt, p') /\
     wdg (shm p') = wdg_telemetry_incr (wdg fresh_shm) /\
     out p' = [printf "Trying TCP connect to %s:%d...\n" [Str EmptyString; Int 0];
               perror "Telemetry connect"; usleep TELEMETRY_TIMEOUT_US]).
Proof.
  assert (H0 : 0 <= gps_full (gps (shm (stalled_ring 5)))) by (vm_compute; discriminate).
  assert (H1 : 0 <= gps_full (gps fresh_shm)) by (vm_compute; discriminate).
  split; [exact H0|]. split; [exact H1|]. split.
  - destruct (telemetry_loop connect_fails 0 (stalled_ring 5)) as [[[] p']|] eqn:Hrun;
      [|vm_compute in Hrun; discriminate].
    destruct (telemetry_heartbeat connect_fails 0 (stalled_ring 5) p' Hrun H0)
      as (Hw & Hi & Hs & _).
    exists p'. split; [reflexivity|]. split; [exact Hw|]. split; [exact Hi|].
    apply Hs. reflexivity.
  - destruct (telemetry_loop connect_fails 1 (Proc initial fresh_shm [] [])) as [[[] p']|] eqn:Hrun;
      [|vm_compute in Hrun; discriminate].
    destruct (telemetry_heartbeat connect_fails 1 (Proc initial fresh_shm [] []) p' Hrun H1)
      as (Hw & _ & _ & Ho & _).
    exists p'. split; [reflexivity|]. split; [exact Hw|].
    destruct (Ho eq_refl) as [_ Hout]. rewrite Hout. reflexivity.
Defined.


End TelemetryMore.

(* ================================================================= *)
(** ** The watchdog *)

Module WatchdogFacts.
Import Watchdog.

Lemma get_time_ms_range (tv : timeval) : 0 <= get_time_ms tv < 2 ^ 32.
Proof. unfold get_time_ms, uint32. apply Z.mod_pos_bound. reflexivity. Qed.

(** The first loop fills the two arrays. *)
Lemma start_five (times : nat -> timeval) (p : proc statics) :
  arrays_of_five (locals p) ->
  start 5 0 times p =
  Some (tt, Proc {| old := replicate 5 0;
                    last_change_time := map (fun i => get_time_ms (times i)) (seq 0 5) |}
                 (shm p) (out p) (intr p)).
Proof.
  destruct p as [[o lc] s ou it]. unfold arrays_of_five. cbn. intros [Ho Hl].
  destruct o as [|o0 [|o1 [|o2 [|o3 [|o4 [|]]]]]]; try discriminate.
  destruct lc as [|t0 [|t1 [|t2 [|t3 [|t4 [|]]]]]]; try discriminate.
  reflexivity.
Qed.

(** A round that finds every counter changed. *)
Lemma alive_pass (ppid : Z) (tv : timeval) (prev : wdg_counters_t) (p : proc statics) :
  old (locals p) = new_counters prev ->
  length (last_change_time (locals p)) = 5%nat ->
  all_changed prev (wdg (shm p)) ->
  pass ppid tv p =
  Some (false, Proc {| old := new_counters (wdg (shm p));
                       last_change_time := replicate 5 (get_time_ms tv) |}
                    (shm p) (out p ++ [usleep WDG_SLEEP_US]) (intr p)).
Proof.
  destruct p as [[o lc] s ou it]. cbn. intros -> Hl (H1 & H2 & H3 & H4 & H5).
  destruct lc as [|t0 [|t1 [|t2 [|t3 [|t4 [|]]]]]]; try discriminate.
  apply Z.eqb_neq in H1, H2, H3, H4, H5.
  unfold pass, scan, at_index. msimpl.
  rewrite H1. msimpl. rewrite H2. msimpl. rewrite H3. msimpl.
  rewrite H4. msimpl. rewrite H5. msimpl. reflexivity.
Qed.

Lemma alive_passes (ppid : Z) (rounds : list (timeval * wdg_counters_t)) :
  forall (prev : wdg_counters_t) (p : proc statics),
  old (locals p) = new_counters prev ->
  length (last_change_time (locals p)) = 5%nat ->
  all_alive prev rounds ->
  exists p',
    passes ppid rounds p = Some (false, p') /\
    out p' = out p ++ repeat (usleep WDG_SLEEP_US) (length rounds).
Proof.
  induction rounds as [|[tv w] rounds IH]; intros prev p Ho Hl Ha.
  - exists p. split; [reflexivity|]. cbn. rewrite app_nil_r. reflexivity.
  - destruct Ha as [Hc Ha]. cbn [passes]. msimpl.
    erewrite alive_pass; [| exact Ho | exact Hl | exact Hc ]. cbn.
    edestruct (IH w) as (p' & Hrun & Hout); [| | exact Ha |].
    3: { exists p'. split; [exact Hrun|]. rewrite Hout. cbn.
         rewrite <- app_assoc. reflexivity. }
    + reflexivity.
    + reflexivity.
Qed.

(** As long as each of the five heartbeat counters differs, in every round,
    from what it was in the round before (in the first round: from 0), the
    watchdog stays in its loop and does nothing but sleep, whatever the
    clock shows: it sends no signal. *)
Theorem watchdog_quiet_while_alive
    (ppid : Z) (times : nat -> timeval) (rounds : list (timeval * wdg_counters_t))
    (p : proc statics) :
  arrays_of_five (locals p) ->
  all_alive no_heartbeat rounds ->
  exists p',
    watchdog_loop ppid times rounds p = Some (false, p') /\
    out p' = out p ++ repeat (usleep WDG_SLEEP_US) (length rounds).
Proof.
  intros H5 Ha. unfold watchdog_loop.
  unfold mbind, M_bind. rewrite start_five by exact H5.
  exact (alive_passes ppid rounds no_heartbeat
           (Proc {| old := replicate 5 0;
                    last_change_time := map (fun i => get_time_ms (times i)) (seq 0 5) |}
                 (shm p) (out p) (intr p))
           eq_refl eq_refl Ha).
Qed.

Lemma watchdog_quiet_while_alive_witness :
  let rounds := [ (at_ms 100 100, counters 1 1); (at_ms 100 200, counters 2 2) ] in
  let p := Proc initial fresh_shm [] [] in
  arrays_of_five (locals p) /\
  all_alive no_heartbeat rounds /\
  exists p',
    watchdog_loop 1 (fun _ => at_ms 100 0) rounds p = Some (false, p') /\
    out p' = out p ++ repeat (usleep WDG_SLEEP_US) (length rounds).
Proof.
  intros rounds p.
  assert (H1 : arrays_of_five (locals p)) by (split; reflexivity).
  assert (H2 : all_alive no_heartbeat rounds) by (cbn; repeat split; discriminate).
  split; [exact H1|]. split; [exact H2|].
  exact (watchdog_quiet_while_alive 1 (fun _ => at_ms 100 0) rounds p H1 H2).
Defined.

(** *** One round of the inner loop *)

Arguments scan : simpl never.
Arguments ulong : simpl never.

Lemma scan_changed (n i : nat) (new : list Z) (now ppid : Z) (p : proc statics) :
  (at_index new i =? at_index (old (locals p)) i) = false ->
  scan (S n) i new now ppid p =
  scan n (S i) new now ppid
    (Proc {| old := <[i := at_index new i]> (old (locals p));
             last_change_time := <[i := now]> (last_change_time (locals p)) |}
          (shm p) (out p) (intr p)).
Proof.
  intros E. unfold scan; fold scan. unfold mbind, M_bind, get_locals. cbv beta iota.
  rewrite E. reflexivity.
Qed.

Lemma scan_waiting (n i : nat) (new : list Z) (now ppid : Z) (p : proc statics) :
  (at_index new i =? at_index (old (locals p)) i) = true ->
  (WDG_TIMEOUT_MS <=? ulong (now - at_index (last_change_time (locals p)) i)) = false ->
  scan (S n) i new now ppid p =
  scan n (S i) new now ppid
    (Proc {| old := <[i := at_index new i]> (old (locals p));
             last_change_time := last_change_time (locals p) |}
          (shm p) (out p) (intr p)).
Proof.
  intros E T. unfold scan; fold scan. unfold mbind, M_bind, get_locals. cbv beta iota.
  rewrite E, T. reflexivity.
Qed.

Lemma scan_fired (n i : nat) (new : list Z) (now ppid : Z) (p : proc statics) :
  (at_index new i =? at_index (old (locals p)) i) = true ->
  (WDG_TIMEOUT_MS <=? ulong (now - at_index (last_change_time (locals p)) i)) = true ->
  scan (S n) i new now ppid p =
  Some (true,
        Proc (locals p) (shm p)
             (out p ++
              [ printf "Process %d heartbeat timeout! Sending SIGUSR1 to parent %d\n"
                  [Int (Z.of_nat i); Int ppid];
                kill ppid SIGUSR1 ])
             (intr p)).
Proof.
  intros E T. unfold scan; fold scan. unfold mbind, M_bind, get_locals. cbv beta iota.
  rewrite E, T. cbn. rewrite <- app_assoc. reflexivity.
Qed.

Lemma stuck_eqb (i j : nat) (prev w : wdg_counters_t) :
  only_stuck i prev w -> (j < 5)%nat ->
  (at_index (new_counters w) j =? at_index (new_counters prev) j) = Nat.eqb j i.
Proof.
  intros H Hj. specialize (H j Hj).
  destruct (Z.eqb_spec (at_index (new_counters w) j) (at_index (new_counters prev) j)) as [E|E];
    destruct (Nat.eqb_spec j i) as [F|F]; try reflexivity.
  - exfalso. apply F, H, E.
  - exfalso. apply E, H, F.
Qed.

Lemma ulong_small (d : Z) : 0 <= d < 2 ^ 32 -> ulong d = d.
Proof. intros H. unfold ulong. apply Z.mod_small. lia. Qed.

Lemma ulong_wrapped (d : Z) : - 2 ^ 32 < d < 0 -> ulong d = d + 2 ^ 64.
Proof.
  intros H. unfold ulong.
  replace d with (d + 2 ^ 64 + (-1) * 2 ^ 64) at 1 by ring.
  rewrite Z_mod_plus_full. apply Z.mod_small. lia.
Qed.

(** The five cases of an index of the arrays. *)
Ltac five_cases i H :=
  destruct i as [|[|[|[|[|i]]]]]; [ | | | | | exfalso; lia ].

(** A round on a counter that stopped less than the timeout ago. *)
Lemma stuck_pass_quiet (ppid : Z) (tv : timeval) (i : nat) (prev : wdg_counters_t)
    (p : proc statics) :
  (i < 5)%nat ->
  old (locals p) = new_counters prev ->
  length (last_change_time (locals p)) = 5%nat ->
  only_stuck i prev (wdg (shm p)) ->
  at_index (last_change_time (locals p)) i <= get_time_ms tv
    < at_index (last_change_time (locals p)) i + WDG_TIMEOUT_MS ->
  exists l',
    pass ppid tv p = Some (false, Proc l' (shm p) (out p ++ [usleep WDG_SLEEP_US]) (intr p)) /\
    old l' = new_counters (wdg (shm p)) /\
    length (last_change_time l') = 5%nat /\
    at_index (last_change_time l') i = at_index (last_change_time (locals p)) i.
Proof.
  destruct p as [[o lc] s ou it]. cbn. intros Hi -> Hl Hs Ht.
  destruct lc as [|t0 [|t1 [|t2 [|t3 [|t4 [|]]]]]]; try discriminate.
  pose proof (stuck_eqb i 0 prev (wdg s) Hs ltac:(lia)) as E0.
  pose proof (stuck_eqb i 1 prev (wdg s) Hs ltac:(lia)) as E1.
  pose proof (stuck_eqb i 2 prev (wdg s) Hs ltac:(lia)) as E2.
  pose proof (stuck_eqb i 3 prev (wdg s) Hs ltac:(lia)) as E3.
  pose proof (stuck_eqb i 4 prev (wdg s) Hs ltac:(lia)) as E4.
  assert (T : (WDG_TIMEOUT_MS <=?
               ulong (get_time_ms tv - at_index [t0; t1; t2; t3; t4] i)) = false).
  { apply Z.leb_gt. rewrite ulong_small; unfold WDG_TIMEOUT_MS in *; lia. }
  unfold pass. unfold mbind, M_bind, load. cbn [shm].
  five_cases i Hi; cbn in E0, E1, E2, E3, E4, T |- *;
    repeat (first [ rewrite scan_changed by (cbn; assumption)
                  | rewrite scan_waiting by (cbn; assumption) ]; cbn);
    eexists; (split; [reflexivity|]); cbn; repeat split; reflexivity.
Qed.

(** A round on a counter that stopped the timeout ago, or longer. *)
Lemma stuck_pass_late (ppid : Z) (tv : timeval) (i : nat) (prev : wdg_counters_t)
    (p : proc statics) :
  (i < 5)%nat ->
  old (locals p) = new_counters prev ->
  length (last_change_time (locals p)) = 5%nat ->
  only_stuck i prev (wdg (shm p)) ->
  0 <= at_index (last_change_time (locals p)) i ->
  at_index (last_change_time (locals p)) i + WDG_TIMEOUT_MS <= get_time_ms tv ->
  exists l',
    pass ppid tv p =
    Some (true,
          Proc l' (shm p)
               (out p ++
                [ printf "Process %d heartbeat timeout! Sending SIGUSR1 to parent %d\n"
                    [Int (Z.of_nat i); Int ppid];
                  kill ppid SIGUSR1 ])
               (intr p)).
Proof.
  destruct p as [[o lc] s ou it]. cbn. intros Hi -> Hl Hs H0 Ht.
  destruct lc as [|t0 [|t1 [|t2 [|t3 [|t4 [|]]]]]]; try discriminate.
  pose proof (stuck_eqb i 0 prev (wdg s) Hs ltac:(lia)) as E0.
  pose proof (stuck_eqb i 1 prev (wdg s) Hs ltac:(lia)) as E1.
  pose proof (stuck_eqb i 2 prev (wdg s) Hs ltac:(lia)) as E2.
  pose proof (stuck_eqb i 3 prev (wdg s) Hs ltac:(lia)) as E3.
  pose proof (stuck_eqb i 4 prev (wdg s) Hs ltac:(lia)) as E4.
  pose proof (get_time_ms_range tv) as Hr.
  assert (T : (WDG_TIMEOUT_MS <=?
               ulong (get_time_ms tv - at_index [t0; t1; t2; t3; t4] i)) = true).
  { apply Z.leb_le. rewrite ulong_small; unfold WDG_TIMEOUT_MS in *; lia. }
  unfold pass. unfold mbind, M_bind, load. cbn [shm].
  five_cases i Hi; cbn in E0, E1, E2, E3, E4, T |- *;
    repeat (first [ rewrite scan_changed by (cbn; assumption)
                  | rewrite scan_fired by (cbn; assumption) ]; cbn);
    eexists; reflexivity.
Qed.

(** A process that stops counting is reported at the first round that
    comes [WDG_TIMEOUT_MS] or more after the last change the watchdog saw
    of its counter, not earlier: with the four others counting, the rounds
    within the timeout only sleep, and the first round at or past it prints
    the index of the process, sends [SIGUSR1] to the parent and
    returns. *)
Theorem stuck_process_reported
    (ppid : Z) (i : nat) (prev : wdg_counters_t)
    (quiet : list (timeval * wdg_counters_t)) (late : timeval * wdg_counters_t)
    (p : proc statics) :
  let t0 := at_index (last_change_time (locals p)) i in
  (i < 5)%nat ->
  old (locals p) = new_counters prev ->
  length (last_change_time (locals p)) = 5%nat ->
  0 <= t0 ->
  stuck_since i prev (quiet ++ [late]) ->
  Forall (fun r => t0 <= get_time_ms (fst r) < t0 + WDG_TIMEOUT_MS) quiet ->
  t0 + WDG_TIMEOUT_MS <= get_time_ms (fst late) ->
  exists p',
    passes ppid (quiet ++ [late]) p = Some (true, p') /\
    out p' = out p ++ repeat (usleep WDG_SLEEP_US) (length quiet) ++
             [ printf "Process %d heartbeat timeout! Sending SIGUSR1 to parent %d\n"
                 [Int (Z.of_nat i); Int ppid];
               kill ppid SIGUSR1 ].
Proof.
  intros t0 Hi. subst t0. revert prev p.
  induction quiet as [|[tv w] quiet IH]; intros prev p Ho Hl H0 Hs Hq Ht.
  - destruct late as [tv w]. cbn in Hs, Ht |- *. destruct Hs as [Hs _]. msimpl.
    edestruct (stuck_pass_late ppid tv i prev
                 (Proc (locals p) (set_wdg (fun _ => w) (shm p)) (out p) (intr p)))
      as (l' & Hrun); [exact Hi | exact Ho | exact Hl | exact Hs | exact H0 | exact Ht |].
    rewrite Hrun. cbn. eexists. split; reflexivity.
  - cbn in Hs. destruct Hs as [Hs Hss]. inversion Hq as [|? ? Hq1 Hq2]; subst.
    cbn [fst] in Hq1. cbn [app passes]. msimpl.
    edestruct (stuck_pass_quiet ppid tv i prev
                 (Proc (locals p) (set_wdg (fun _ => w) (shm p)) (out p) (intr p)))
      as (l' & Hrun & Ho' & Hl' & Ht');
      [exact Hi | exact Ho | exact Hl | exact Hs | exact Hq1 |].
    rewrite Hrun. cbn. cbn in Ht', Ho'.
    edestruct (IH w (Proc l' (set_wdg (fun _ => w) (shm p))
                          (out p ++ [usleep WDG_SLEEP_US]) (intr p)))
      as (p' & Hrun' & Hout'); cbn; rewrite ?Ht'; try eassumption.
    exists p'. split; [exact Hrun'|]. rewrite Hout'. cbn.
    rewrite <- app_assoc. reflexivity.
Qed.

(** The counters of [counters n t] and [counters n' t] agree at the index
    of the telemetry only, when [n] and [n'] differ. *)
Lemma counters_only_stuck (n n' t : Z) :
  n <> n' -> only_stuck 3 (counters n t) (counters n' t).
Proof.
  intros Hn j Hj. destruct j as [|[|[|[|[|j]]]]]; cbn; try lia; split; intros H;
    try discriminate; try reflexivity; exfalso; apply Hn; symmetry; exact H.
Qed.

Lemma stuck_process_reported_witness :
  let p := watching 5000 (counters 7 7) in
  let quiet := [ (at_ms 5 100, counters 8 7); (at_ms 6 900, counters 9 7) ] in
  let late := (at_ms 7 0, counters 10 7) in
  let t0 := at_index (last_change_time (locals p)) 3 in
  (3 < 5)%nat /\
  old (locals p) = new_counters (counters 7 7) /\
  length (last_change_time (locals p)) = 5%nat /\
  0 <= t0 /\
  stuck_since 3 (counters 7 7) (quiet ++ [late]) /\
  Forall (fun r => t0 <= get_time_ms (fst r) < t0 + WDG_TIMEOUT_MS) quiet /\
  t0 + WDG_TIMEOUT_MS <= get_time_ms (fst late) /\
  exists p',
    passes 1 (quiet ++ [late]) p = Some (true, p') /\
    out p' = out p ++ repeat (usleep WDG_SLEEP_US) (length quiet) ++
             [ printf "Process %d heartbeat timeout! Sending SIGUSR1 to parent %d\n"
                 [Int 3; Int 1];
               kill 1 SIGUSR1 ].
Proof.
  intros p quiet late t0.
  assert (H1 : (3 < 5)%nat) by lia.
  assert (H2 : old (locals p) = new_counters (counters 7 7)) by reflexivity.
  assert (H3 : length (last_change_time (locals p)) = 5%nat) by reflexivity.
  assert (H4 : 0 <= t0) by (vm_compute; discriminate).
  assert (H5 : stuck_since 3 (counters 7 7) (quiet ++ [late]))
    by (unfold quiet, late; cbn [stuck_since app]; repeat apply conj; try exact I;
        apply counters_only_stuck; discriminate).
  assert (H6 : Forall (fun r => t0 <= get_time_ms (fst r) < t0 + WDG_TIMEOUT_MS) quiet)
    by (repeat constructor; vm_compute; congruence).
  assert (H7 : t0 + WDG_TIMEOUT_MS <= get_time_ms (fst late)) by (vm_compute; discriminate).
  split; [exact H1|]. split; [exact H2|]. split; [exact H3|]. split; [exact H4|].
  split; [exact H5|]. split; [exact H6|]. split; [exact H7|].
  exact (stuck_process_reported 1 3 (counters 7 7) quiet late p H1 H2 H3 H4 H5 H6 H7).
Defined.

(** The clock of [get_time_ms] has 32 bits and starts again at 0 every
    [2 ^ 32] milliseconds.  In the round that reads a clock value below
    the recorded times, a counter that did not change since the round
    before is taken for timed out, however short ago it changed: the round
    reports the first such process, signals the parent and returns. *)
Theorem clock_wrap_false_alarm (ppid : Z) (tv : timeval) (i : nat) (p : proc statics) :
  arrays_of_five (locals p) ->
  (i < 5)%nat ->
  at_index (new_counters (wdg (shm p))) i = at_index (old (locals p)) i ->
  Forall (fun t => get_time_ms tv < t < 2 ^ 32) (last_change_time (locals p)) ->
  exists (p' : proc statics) (j : nat),
    pass ppid tv p = Some (true, p') /\ (j <= i)%nat /\
    out p' = out p ++
             [ printf "Process %d heartbeat timeout! Sending SIGUSR1 to parent %d\n"
                 [Int (Z.of_nat j); Int ppid];
               kill ppid SIGUSR1 ].
Proof.
  destruct p as [[o lc] s ou it]. unfold arrays_of_five. cbn. intros [Ho Hl] Hi Hs Hw.
  destruct o as [|o0 [|o1 [|o2 [|o3 [|o4 [|]]]]]]; try discriminate.
  destruct lc as [|t0 [|t1 [|t2 [|t3 [|t4 [|]]]]]]; try discriminate.
  pose proof (get_time_ms_range tv) as Hr.
  assert (T : forall t, get_time_ms tv < t < 2 ^ 32 ->
                        (WDG_TIMEOUT_MS <=? ulong (get_time_ms tv - t)) = true).
  { intros t Ht. apply Z.leb_le. rewrite ulong_wrapped; unfold WDG_TIMEOUT_MS; lia. }
  inversion Hw as [|? ? W0 Hw1]; subst. inversion Hw1 as [|? ? W1 Hw2]; subst.
  inversion Hw2 as [|? ? W2 Hw3]; subst. inversion Hw3 as [|? ? W3 Hw4]; subst.
  inversion Hw4 as [|? ? W4 _]; subst.
  apply T in W0, W1, W2, W3, W4. clear T Hw Hw1 Hw2 Hw3 Hw4.
  unfold pass. unfold mbind, M_bind, load. cbn [shm].
  five_cases i Hi; cbn in Hs;
    repeat match goal with
    | |- context [scan (S ?n) ?j ?new ?now ?pp ?q] =>
        let E := fresh "E" in
        destruct (at_index new j =? at_index (old (locals q)) j) eqn:E;
        [ rewrite (scan_fired n j new now pp q E) by (cbn; assumption);
          exists (Proc (locals q) (shm q)
                    (out q ++
                     [ printf "Process %d heartbeat timeout! Sending SIGUSR1 to parent %d\n"
                         [Int (Z.of_nat j); Int pp];
                       kill pp SIGUSR1 ])
                    (intr q)), j;
          split; [reflexivity|]; split; [lia | reflexivity]
        | rewrite (scan_changed n j new now pp q E); cbn;
          try (exfalso; cbn in E; apply Z.eqb_neq in E; apply E; exact Hs) ]
    end.
Qed.

Lemma clock_wrap_false_alarm_witness :
  let p := Proc (locals (watching (get_time_ms before_wrap) (counters 7 7)))
                (set_wdg (fun _ => counters 8 7) fresh_shm) [] [] in
  arrays_of_five (locals p) /\
  (3 < 5)%nat /\
  at_index (new_counters (wdg (shm p))) 3 = at_index (old (locals p)) 3 /\
  Forall (fun t => get_time_ms after_wrap < t < 2 ^ 32) (last_change_time (locals p)) /\
  exists (p' : proc statics) (j : nat),
    pass 1 after_wrap p = Some (true, p') /\ (j <= 3)%nat /\
    out p' = out p ++
             [ printf "Process %d heartbeat timeout! Sending SIGUSR1 to parent %d\n"
                 [Int (Z.of_nat j); Int 1];
               kill 1 SIGUSR1 ].
Proof.
  intros p.
  assert (H1 : arrays_of_five (locals p)) by (split; reflexivity).
  assert (H2 : (3 < 5)%nat) by lia.
  assert (H3 : at_index (new_counters (wdg (shm p))) 3 = at_index (old (locals p)) 3)
    by reflexivity.
  assert (H4 : Forall (fun t => get_time_ms after_wrap < t < 2 ^ 32)
                      (last_change_time (locals p)))
    by (repeat constructor; vm_compute; congruence).
  split; [exact H1|]. split; [exact H2|]. split; [exact H3|]. split; [exact H4|].
  exact (clock_wrap_false_alarm 1 after_wrap 3 p H1 H2 H3 H4).
Defined.

End WatchdogFacts.

(* ================================================================= *)
(** ** The ring buffer: producer and consumer together *)

Module RingMore.
Import GpsFacts TelemetryFacts TelemetryMore.

Arguments GpsCtrl.produce : simpl never.
Arguments GpsCtrl.put_char : simpl never.
Arguments Telemetry.compose : simpl never.

(** The producer's loop takes from [empty] what it gives to [full]. *)
Lemma produce_count (fuel : nat) (msg : string) :
  forall (count : Z) (p p' : proc GpsCtrl.statics) (b : bool),
  GpsCtrl.produce fuel msg count p = Some (b, p') ->
  0 <= gps_empty (gps (shm p)) ->
  gps_full (gps (shm p')) + gps_empty (gps (shm p'))
    = gps_full (gps (shm p)) + gps_empty (gps (shm p)) /\
  0 <= gps_empty (gps (shm p')).
Proof.
  induction fuel as [|fuel IH]; intros count p p' b Hrun He.
  - unfold GpsCtrl.produce in Hrun. cbn in Hrun. injection Hrun as <- <-. split; [reflexivity | exact He].
  - unfold GpsCtrl.produce in Hrun; fold GpsCtrl.produce in Hrun.
    destruct (count <? GpsCtrl.strlen msg).
    2: { cbn in Hrun. injection Hrun as <- <-. split; [reflexivity | exact He]. }
    unfold sem_timedwait in Hrun. revert Hrun. msimpl.
    destruct (hd false (intr p)); fsimpl.
    + intros Hrun. apply IH in Hrun; [|exact He]. exact Hrun.
    + destruct (0 <? gps_empty (gps (shm p))) eqn:E; fsimpl.
      2: { intros [= <- <-]. cbn. split; [reflexivity | exact He]. }
      apply Z.ltb_lt in E.
      destruct (GpsCtrl.put_char _ _) as [[[] p1]|] eqn:Hput; [|discriminate].
      apply put_char_inv in Hput. cbn in Hput.
      destruct Hput as (_ & _ & _ & _ & _ & Hf1 & He1 & _).
      intros Hrun. apply IH in Hrun; [|rewrite He1; lia].
      destruct Hrun as [Hs Hp]. split; [|exact Hp]. rewrite Hs, Hf1, He1. lia.
Qed.

Lemma gps_loop_ring (p p' : proc GpsCtrl.statics) :
  GpsCtrl.gps_loop p = Some (tt, p') ->
  ring_consistent (gps (shm p)) -> ring_consistent (gps (shm p')).
Proof.
  intros Hrun (Hf & He & Hsum & Hr & Hw).
  assert (Hwr : 0 <= gps_write (gps (shm p)) < GPS_BUFFER_SIZE)
    by (rewrite Hw; apply Z.mod_pos_bound; reflexivity).
  pose proof (gps_loop_inv p p' Hrun Hwr) as (Hr' & Hw' & Hd & Hm).
  assert (Hc : gps_full (gps (shm p')) + gps_empty (gps (shm p'))
                 = gps_full (gps (shm p)) + gps_empty (gps (shm p)) /\
               0 <= gps_empty (gps (shm p'))).
  { revert Hrun. unfold GpsCtrl.gps_loop. msimpl.
    destruct (GpsCtrl.produce _ _ _ _) as [[b p1]|] eqn:Hp; [|discriminate].
    apply produce_count in Hp; [|exact He]. cbn in Hp.
    destruct b; cbn; intros [= <-]; cbn; exact Hp. }
  destruct Hc as [Hs' He'].
  unfold ring_consistent. rewrite Hr'. repeat split; try lia.
  rewrite Hm, Hw, Zplus_mod_idemp_l. f_equal. lia.
Qed.

Lemma telemetry_loop_count (conn : Telemetry.connect_result) (n : Z) (p p' : proc Telemetry.statics) :
  Telemetry.telemetry_loop conn n p = Some (tt, p') ->
  0 <= gps_full (gps (shm p)) ->
  gps_full (gps (shm p')) + gps_empty (gps (shm p'))
    = gps_full (gps (shm p)) + gps_empty (gps (shm p)) /\
  0 <= gps_full (gps (shm p')).
Proof.
  destruct p as [[fd ini] s o i]. cbn [shm gps]. intros Hrun Hf. revert Hrun.
  assert (Hcomp : forall l o1 msg q,
            Telemetry.compose (Proc l s o1 i) = Some (msg, q) ->
            gps_full (gps (shm q)) + gps_empty (gps (shm q))
              = gps_full (gps s) + gps_empty (gps s) /\
            0 <= gps_full (gps (shm q))).
  { intros l1 o1 msg q Hc. apply compose_more in Hc; [|exact Hf].
    destruct Hc as (_ & _ & H1 & H2 & _). split; assumption. }
  unfold Telemetry.telemetry_loop. msimpl.
  destruct ini; [destruct conn as [ | | |c]|]; cbn; msimpl.
  1-3: (intros [= <-]; cbn; split; [reflexivity | exact Hf]).
  all: match goal with |- context [Telemetry.compose ?q] =>
         destruct (Telemetry.compose q) as [[msg q']|] eqn:Hc end; [|discriminate].
  all: apply Hcomp in Hc.
  all: destruct (n <=? 0); cbn; intros [= <-]; cbn; exact Hc.
Qed.

Lemma telemetry_loop_ring (conn : Telemetry.connect_result) (n : Z) (p p' : proc Telemetry.statics) :
  Telemetry.telemetry_loop conn n p = Some (tt, p') ->
  ring_consistent (gps (shm p)) -> ring_consistent (gps (shm p')).
Proof.
  intros Hrun (Hf & He & Hsum & Hr & Hw).
  pose proof (telemetry_loop_inv conn n p p' Hrun Hr) as (Hw' & _ & Hr' & Hd & Hm).
  pose proof (telemetry_loop_count conn n p p' Hrun Hf) as (Hs' & Hf').
  unfold ring_consistent. repeat split; try lia.
  rewrite Hw', Hw, Hm, Zplus_mod_idemp_l. f_equal. lia.
Qed.

(** The ring stays consistent.  Over iterations of the producer and of
    the consumer that return, in any order and number, interrupted or not,
    the counts of [full] and [empty] stay non-negative and add up to the
    size of the array, the read index stays inside the array, and the
    write index stays [full] slots ahead of the read index. *)
Theorem ring_stays_consistent (s s' : drone_shared_t) :
  ring_run s s' -> ring_consistent (gps s) -> ring_consistent (gps s').
Proof.
  induction 1 as [s | s s1 s2 Hstep _ IH]; intros Hc; [exact Hc|].
  apply IH. destruct Hstep as [p p' Hrun | conn n p p' Hrun].
  - exact (gps_loop_ring p p' Hrun Hc).
  - exact (telemetry_loop_ring conn n p p' Hrun Hc).
Qed.

Lemma ring_stays_consistent_witness :
  ring_consistent (gps (shm telemetry_turn)) /\
  exists s',
    ring_run (shm telemetry_turn) s' /\
    gps_full (gps s') < gps_full (gps (shm telemetry_turn)) /\
    ring_consistent (gps s').
Proof.
  assert (Hc : ring_consistent (gps (shm telemetry_turn)))
    by (vm_compute; repeat split; congruence).
  split; [exact Hc|].
  destruct (Telemetry.telemetry_loop Telemetry.connect_fails 1 telemetry_turn) as [[[] p']|] eqn:Hrun;
    [|vm_compute in Hrun; discriminate].
  assert (Hr : ring_run (shm telemetry_turn) (shm p'))
    by (eapply ring_run_step;
        [exact (telemetry_iteration Telemetry.connect_fails 1 telemetry_turn p' Hrun) | apply ring_run_refl]).
  exists (shm p'). split; [exact Hr|]. split.
  - vm_compute in Hrun. injection Hrun as <-. reflexivity.
  - exact (ring_stays_consistent _ _ Hr Hc).
Defined.

(** The reinitialisation on [SIGUSR1] sets [full] to 0 and [empty] to the
    size of the array and leaves the two indices where they are.  On a
    consistent ring the handler leaves a consistent ring exactly when the
    ring was empty or full; with characters pending and slots free, the
    write index is afterwards ahead of the read index although [full] is
    0. *)
Theorem reinit_keeps_ring_iff (p : proc DroneSys.statics) :
  ring_consistent (gps (shm p)) ->
  exists p',
    DroneSys.sigusr1_handler p = Some (tt, p') /\
    (ring_consistent (gps (shm p')) <->
     gps_full (gps (shm p)) = 0 \/ gps_full (gps (shm p)) = GPS_BUFFER_SIZE).
Proof.
  intros (Hf & He & Hsum & Hr & Hw).
  destruct p as [l s o i]. unfold DroneSys.sigusr1_handler. msimpl.
  eexists. split; [reflexivity|]. cbn in *.
  destruct s as [? ? ? ? ? ? ? ? ? [m f e w r b] ?]. cbn in *.
  unfold ring_consistent, DroneSys.sem_init. cbn. rewrite Z.add_0_r.
  rewrite (Z.mod_small r) by exact Hr. unfold GPS_BUFFER_SIZE in *.
  split.
  - intros (_ & _ & _ & _ & Hw'). rewrite Hw in Hw'.
    destruct (Z_lt_ge_dec (r + f) (128 * 10)) as [Hlt|Hge].
    + rewrite Z.mod_small in Hw' by lia. left. lia.
    + replace (r + f) with (r + f - 128 * 10 + 1 * (128 * 10)) in Hw' by ring.
      rewrite Z_mod_plus_full, Z.mod_small in Hw' by lia. right. lia.
  - intros [H0|HN]; repeat split; try lia.
    + rewrite Hw, H0, Z.add_0_r. apply Z.mod_small. lia.
    + rewrite Hw, HN. replace (r + 128 * 10) with (r + 1 * (128 * 10)) by ring.
      rewrite Z_mod_plus_full. apply Z.mod_small. lia.
Qed.

Lemma reinit_keeps_ring_iff_witness :
  ring_consistent (gps (shm supervisor_turn)) /\
  exists p',
    DroneSys.sigusr1_handler supervisor_turn = Some (tt, p') /\
    gps_full (gps (shm supervisor_turn)) = 1226 /\
    (ring_consistent (gps (shm p')) <->
     gps_full (gps (shm supervisor_turn)) = 0 \/
     gps_full (gps (shm supervisor_turn)) = GPS_BUFFER_SIZE).
Proof.
  assert (Hc : ring_consistent (gps (shm supervisor_turn)))
    by (vm_compute; repeat split; congruence).
  split; [exact Hc|].
  destruct (reinit_keeps_ring_iff supervisor_turn Hc) as (p' & Hrun & Hiff).
  exists p'. split; [exact Hrun|]. split; [reflexivity | exact Hiff].
Defined.

(** *** A line through the ring *)

Import Telemetry.

Arguments Telemetry.drain : simpl never.
Arguments Telemetry.get_char : simpl never.
Arguments Telemetry.BUF_APPEND : simpl never.

(** When the ring announces more than the characters of [line], which has
    no line end, and the character after them is the line end, the loop
    reads the line with its end and stops there. *)
Lemma drain_line (line : list ascii) :
  forall (fuel : nat) (msg : string) (p : proc Telemetry.statics),
  (length line < fuel)%nat ->
  intr p = [] ->
  gps_mutex (gps (shm p)) = 1 ->
  Z.of_nat (length line) < gps_full (gps (shm p)) ->
  0 <= gps_read (gps (shm p)) < GPS_BUFFER_SIZE ->
  Telemetry.ptr msg + Z.of_nat (length line) < sizeof_msg - 2 ->
  Forall (fun c => c <> "010"%char) line ->
  ring_slice (nmea (gps (shm p))) (gps_read (gps (shm p))) (S (length line))
    = line ++ ["010"%char] ->
  Telemetry.drain fuel msg p =
  Some ((msg ++ string_of_list_ascii (line ++ ["010"%char]))%string,
        Proc (locals p)
             (set_gps (Telemetry.consumed (Z.of_nat (S (length line)))) (shm p))
             (out p) []).
Proof.
  induction line as [|c line IH]; intros fuel msg p Hfu Hi Hm Hfull Hr Hp Hnl Hs;
    (destruct fuel as [|fuel]; [cbn in Hfu; lia|]);
    unfold Telemetry.drain; fold Telemetry.drain;
    (destruct (Telemetry.ptr msg <? sizeof_msg - 2) eqn:E; tests; [|cbn in Hp; lia]);
    rewrite ring_slice_S in Hs by exact Hr; cbn [app] in Hs;
    assert (Hc := f_equal (hd "000"%char) Hs); cbn [hd] in Hc;
    apply (f_equal (@tl ascii)) in Hs; cbn [tl] in Hs;
    unfold sem_timedwait; msimpl; rewrite Hi; cbn;
    (replace (0 <? gps_full (gps (shm p))) with true
       by (symmetry; apply Z.ltb_lt; cbn in Hfull; lia));
    fsimpl; rewrite Hm; fsimpl; rewrite get_char_run; cbn; rewrite Hc;
    assert (Hsz : size_t (gps_read (gps (shm p)) + 1) mod GPS_BUFFER_SIZE
                  = (gps_read (gps (shm p)) + 1) mod GPS_BUFFER_SIZE)
      by (unfold size_t;
          rewrite (Z.mod_small (_ + 1)) by (unfold GPS_BUFFER_SIZE in *; lia);
          reflexivity).
  - cbn. do 3 f_equal.
    destruct p as [l s o i]. destruct s as [? ? ? ? ? ? ? ? ? [m f e w r b] ?].
    cbn in *. subst. unfold set_gps, Telemetry.consumed. cbn. rewrite Hsz. reflexivity.
  - apply Forall_cons in Hnl. destruct Hnl as [Hcn Hnl].
    apply Ascii.eqb_neq in Hcn. rewrite Hcn.
    rewrite IH; cbn; rewrite ?Hsz; try assumption; try reflexivity; try (cbn in *; lia).
    + f_equal. f_equal.
      * rewrite append_assoc. reflexivity.
      * f_equal.
        destruct p as [l s o i]. destruct s as [? ? ? ? ? ? ? ? ? [m f e w r b] ?].
        cbn in *. subst. unfold set_gps, Telemetry.consumed. cbn. rewrite Hsz.
        do 2 f_equal; try lia.
        rewrite Zplus_mod_idemp_l. f_equal. lia.
    + apply Z.mod_pos_bound. reflexivity.
    + rewrite ptr_append. change (Telemetry.ptr (String _ "")) with 1. cbn in Hp. lia.
Qed.

(** The message composed in [SampleGPS] when a line is pending. *)
Lemma compose_line (p : proc statics) (line : list ascii) :
  let s := shm p in
  intr p = [] ->
  action_lock_free s ->
  action_type (action s) = SampleGPS ->
  gps_mutex (gps s) = 1 ->
  Z.of_nat (length line) < gps_full (gps s) ->
  0 <= gps_read (gps s) < GPS_BUFFER_SIZE ->
  Forall (fun c => c <> "010"%char) line ->
  ring_slice (nmea (gps s)) (gps_read (gps s)) (S (length line)) = line ++ ["010"%char] ->
  ptr (gps_header s) + Z.of_nat (length line) < sizeof_msg - 2 ->
  exists p',
    compose p =
      Some (BUF_APPEND (gps_header s ++ string_of_list_ascii (line ++ ["010"%char]))
                       (nl ++ "}"), p') /\
    locals p' = locals p /\
    action_type (action (shm p')) = SampleGPS /\
    gps (shm p') = consumed (Z.of_nat (S (length line))) (gps s).
Proof.
  intros s Hi Hlock Ha Hm Hfull Hr Hnl Hs Hp. subst s.
  destruct p as [l s o i]. cbn [shm locals intr] in *. subst i.
  unfold compose, gps_header. msimpl. unfold sem_trywait, sem_post. msimpl.
  destruct (0 <? accel_mutex (accel s)) eqn:E1; fsimpl;
    destruct (0 <? pwm_mutex (pwm s)) eqn:E2; fsimpl.
  all: unfold gps_header in Hp; rewrite E1, E2, Ha in Hp.
  all: rewrite read_action_free by exact Hlock; cbn; rewrite Ha; fsimpl.
  all: rewrite (drain_line line); cbn;
         try assumption; try reflexivity; try lia.
  all: try (unfold ptr, sizeof_msg in Hp; lia).
  all: eexists; split; [reflexivity|]; cbn; repeat split; assumption.
Qed.

(** Every sample is a line: characters other than the line end, then the
    line end. *)
Lemma sample_is_line (l : GpsCtrl.statics) :
  0 <= GpsCtrl.sample_index l < 4 ->
  exists line : list ascii,
    list_ascii_of_string (GpsCtrl.current_sample l) = line ++ ["010"%char] /\
    Forall (fun c => c <> "010"%char) line /\
    (length line <= 68)%nat.
Proof.
  intros Hi. unfold GpsCtrl.current_sample.
  assert (Hok : forall s : string,
            forallb (fun c => negb (Ascii.eqb c "010"))
                    (removelast (list_ascii_of_string s)) = true ->
            list_ascii_of_string s = removelast (list_ascii_of_string s) ++ ["010"%char] ->
            (length (removelast (list_ascii_of_string s)) <=? 68)%nat = true ->
            exists line : list ascii,
              list_ascii_of_string s = line ++ ["010"%char] /\
              Forall (fun c => c <> "010"%char) line /\ (length line <= 68)%nat).
  { intros s H1 H2 H3. exists (removelast (list_ascii_of_string s)).
    split; [exact H2|]. split; [|apply Nat.leb_le; exact H3].
    apply Forall_forall. intros c Hc.
    rewrite forallb_forall in H1. specialize (H1 c).
    apply Ascii.eqb_neq, negb_true_iff, H1.
    apply list_elem_of_In. exact Hc. }
  destruct (Z.to_nat (GpsCtrl.sample_index l)) as [|[|[|[|k]]]] eqn:E; [..|lia];
    apply Hok; vm_compute; reflexivity.
Qed.

(** The parts of the region that the header of the message is made of
    are not written by the producer. *)
Lemma gps_header_ring_puts (cs : list ascii) (f : wdg_counters_t -> wdg_counters_t)
    (s : drone_shared_t) :
  gps_header (set_wdg f (GpsCtrl.ring_puts cs s)) = gps_header s /\
  action (set_wdg f (GpsCtrl.ring_puts cs s)) = action s.
Proof.
  pose proof (ring_puts_frame cs s) as H.
  destruct (GpsCtrl.ring_puts cs s) as [a1 a2 a3 a4 a5 a6 a7 a8 a9 g a11].
  rewrite <- H. split; reflexivity.
Qed.

(** A sample through the ring.  The producer, uninterrupted, on an empty
    ring in [SampleGPS], then the telemetry, connected, with room in its
    message for the header and the sample, the reading of the
    accelerometer holding no NaN: the message sent is the header followed
    by the sample, character for character, and the closing of the block;
    afterwards the ring is empty again, both indices advanced by the
    length of the sample, and the state is still [SampleGPS]. *)
Theorem sample_round_trip
    (lg : GpsCtrl.statics) (lt : statics) (conn : connect_result) (n : Z) (s : drone_shared_t) :
  let sample := GpsCtrl.current_sample lg in
  0 <= GpsCtrl.sample_index lg < 4 ->
  action_lock_free s ->
  action_type (action s) = SampleGPS ->
  numbers (acceleration (accel s)) = true ->
  gps_mutex (gps s) = 1 ->
  gps_full (gps s) = 0 ->
  gps_empty (gps s) = GPS_BUFFER_SIZE ->
  0 <= gps_read (gps s) < GPS_BUFFER_SIZE ->
  gps_write (gps s) = gps_read (gps s) ->
  length (nmea (gps s)) = Z.to_nat GPS_BUFFER_SIZE ->
  init lt = false \/ is_connected conn = true ->
  ptr (gps_header s) + GpsCtrl.strlen sample <= sizeof_msg - 2 ->
  exists (pg : proc GpsCtrl.statics) (pt : proc statics),
    GpsCtrl.gps_loop (Proc lg s [] []) = Some (tt, pg) /\
    telemetry_loop conn n (Proc lt (shm pg) [] []) = Some (tt, pt) /\
    In (send (BUF_APPEND (gps_header s ++ sample) (nl ++ "}"))) (out pt) /\
    gps_full (gps (shm pt)) = 0 /\
    gps_empty (gps (shm pt)) = GPS_BUFFER_SIZE /\
    gps_read (gps (shm pt)) = (gps_read (gps s) + GpsCtrl.strlen sample) mod GPS_BUFFER_SIZE /\
    gps_write (gps (shm pt)) = gps_read (gps (shm pt)) /\
    action_type (action (shm pt)) = SampleGPS.
Proof.
  intros sample Hidx Hlock Ha _ Hm Hfull Hempty Hr Hw Hlen Hc Hp.
  destruct (sample_is_line lg Hidx) as (line & Hline & Hnl & Hll).
  fold sample in Hline.
  assert (Hsl : GpsCtrl.strlen sample = Z.of_nat (S (length line))).
  { unfold GpsCtrl.strlen. rewrite <- length_chars, Hline, length_app. cbn. lia. }
  assert (Hstr : sample = string_of_list_ascii (line ++ ["010"%char])).
  { rewrite <- Hline. symmetry. apply string_of_list_ascii_of_string. }
  (* the producer *)
  pose proof (gps_loop_uninterrupted (Proc lg s [] [])) as Hg.
  cbn [intr shm locals out] in Hg. fold sample in Hg.
  specialize (Hg eq_refl Hm ltac:(rewrite Hempty; discriminate)).
  cbn zeta in Hg.
  pose proof (ring_puts_spec (list_ascii_of_string sample) s
                ltac:(rewrite Hempty; discriminate)
                ltac:(rewrite Hw; exact Hr)) as Hspec.
  cbn zeta in Hspec. rewrite Hline in Hspec.
  assert (Hk : Z.min (Z.of_nat (length (line ++ ["010"%char]))) (gps_empty (gps s))
               = Z.of_nat (S (length line))).
  { rewrite length_app, Hempty. cbn [length]. unfold GPS_BUFFER_SIZE. lia. }
  rewrite Hk in Hspec. rewrite <- Hline in Hspec.
  destruct Hspec as (S1 & S2 & S3 & S4 & S5 & S6).
  rewrite Nat2Z.id in S6.
  set (s1 := GpsCtrl.ring_puts (list_ascii_of_string sample) s) in *.
  assert (Htake : take (S (length line)) (list_ascii_of_string sample)
                  = line ++ ["010"%char]).
  { rewrite Hline. apply take_ge. rewrite length_app. cbn. lia. }
  rewrite Htake in S6.
  assert (Hslice : ring_slice (nmea (gps s1)) (gps_read (gps s1)) (S (length line))
                   = line ++ ["010"%char]).
  { rewrite S6, S4, Hw.
    replace (S (length line)) with (length (line ++ ["010"%char]))
      by (rewrite length_app; cbn; lia).
    apply ring_slice_write; [exact Hr | exact Hlen |].
    rewrite length_app. cbn. unfold GPS_BUFFER_SIZE. lia. }
  set (pg := Proc _ (set_wdg GpsCtrl.wdg_gps_ctrl_incr s1) _ []) in Hg.
  assert (Hcomp : forall (l : statics) (o : list event),
            exists p', compose (Proc l (shm pg) o []) =
                       Some (BUF_APPEND (gps_header s ++ sample) (nl ++ "}"), p') /\
                       locals p' = l /\
                       action_type (action (shm p')) = SampleGPS /\
                       gps (shm p') = consumed (Z.of_nat (S (length line))) (gps s1)).
  { intros l o.
    destruct (gps_header_ring_puts (list_ascii_of_string sample)
                GpsCtrl.wdg_gps_ctrl_incr s) as [Hh Hact].
    fold s1 in Hh, Hact.
    assert (Hg1 : gps (set_wdg GpsCtrl.wdg_gps_ctrl_incr s1) = gps s1)
      by (destruct s1; reflexivity).
    destruct (compose_line (Proc l (shm pg) o []) line) as (p' & H1 & H2 & H3 & H4);
      cbn [shm intr locals pg]; rewrite ?Hg1, ?Hh, ?Hact; try assumption;
      try reflexivity.
    - unfold action_lock_free in *. rewrite Hact. exact Hlock.
    - rewrite S5. exact Hm.
    - rewrite S1, Hfull. lia.
    - rewrite S4. exact Hr.
    - rewrite Hsl in Hp. lia.
    - exists p'. rewrite Hstr. cbn [shm pg] in H1, H4. rewrite Hh in H1.
      rewrite Hg1 in H4. repeat split; assumption. }
  assert (Hfin : forall pt : proc statics,
            gps (shm pt) = consumed (Z.of_nat (S (length line))) (gps s1) ->
            gps_full (gps (shm pt)) = 0 /\
            gps_empty (gps (shm pt)) = GPS_BUFFER_SIZE /\
            gps_read (gps (shm pt))
              = (gps_read (gps s) + GpsCtrl.strlen sample) mod GPS_BUFFER_SIZE /\
            gps_write (gps (shm pt)) = gps_read (gps (shm pt))).
  { intros pt ->. cbn. rewrite S1, S2, S3, S4, Hfull, Hempty, Hw, Hsl.
    repeat split; lia. }
  exists pg.
  enough (E : exists pt : proc statics,
            telemetry_loop conn n (Proc lt (shm pg) [] []) = Some (tt, pt) /\
            In (send (BUF_APPEND (gps_header s ++ sample) (nl ++ "}"))) (out pt) /\
            gps (shm pt) = consumed (Z.of_nat (S (length line))) (gps s1) /\
            action_type (action (shm pt)) = SampleGPS).
  { destruct E as (pt & E1 & E2 & E3 & E4). exists pt.
    destruct (Hfin pt E3) as (F1 & F2 & F3 & F4).
    repeat split; assumption. }
  destruct lt as [fd ini]. cbn [init] in Hc.
  unfold telemetry_loop. msimpl.
  destruct ini.
  - destruct conn as [ | | |c]; try (destruct Hc as [Hc|Hc]; discriminate).
    cbn. msimpl.
    match goal with |- context [compose (Proc ?l1 _ ?o1 [])] =>
      destruct (Hcomp l1 o1) as (p' & H1 & H2 & H3 & H4) end.
    cbn [shm pg] in H1 |- *. rewrite H1. msimpl.
    destruct (n <=? 0); eexists; (split; [reflexivity|]); cbn.
    all: split; [rewrite !in_app_iff; cbn; auto 10|].
    all: split; assumption.
  - msimpl.
    destruct (Hcomp {| sock_fd := fd; init := false |} []) as (p' & H1 & H2 & H3 & H4).
    cbn [shm pg] in H1 |- *. rewrite H1. msimpl.
    destruct (n <=? 0); eexists; (split; [reflexivity|]); cbn.
    all: split; [rewrite !in_app_iff; cbn; auto 10|].
    all: split; assumption.
Qed.

Lemma sample_round_trip_witness :
  let s := sampling_in_air in
  let sample := GpsCtrl.current_sample GpsCtrl.initial in
  0 <= GpsCtrl.sample_index GpsCtrl.initial < 4 /\
  action_lock_free s /\
  action_type (action s) = SampleGPS /\
  numbers (acceleration (accel s)) = true /\
  gps_mutex (gps s) = 1 /\
  gps_full (gps s) = 0 /\
  gps_empty (gps s) = GPS_BUFFER_SIZE /\
  0 <= gps_read (gps s) < GPS_BUFFER_SIZE /\
  gps_write (gps s) = gps_read (gps s) /\
  length (nmea (gps s)) = Z.to_nat GPS_BUFFER_SIZE /\
  (init connected = false \/ is_connected connect_fails = true) /\
  ptr (gps_header s) + GpsCtrl.strlen sample <= sizeof_msg - 2 /\
  gps_header s =
    ("BAT = 100%" ++ nl ++
     "ACCEL = (x: -0.092980, y: 0.050000, z: 9.810000)" ++ nl ++
     "MOTORS PWM = [51%, 51%, 51%, 51%]" ++ nl ++
     "ACTION = 2" ++ nl ++ "GPS {" ++ nl ++ nl)%string /\
  exists (pg : proc GpsCtrl.statics) (pt : proc statics),
    GpsCtrl.gps_loop (Proc GpsCtrl.initial s [] []) = Some (tt, pg) /\
    telemetry_loop connect_fails 1 (Proc connected (shm pg) [] []) = Some (tt, pt) /\
    In (send (BUF_APPEND (gps_header s ++ sample) (nl ++ "}"))) (out pt) /\
    gps_full (gps (shm pt)) = 0 /\
    gps_empty (gps (shm pt)) = GPS_BUFFER_SIZE /\
    gps_read (gps (shm pt)) = (gps_read (gps s) + GpsCtrl.strlen sample) mod GPS_BUFFER_SIZE /\
    gps_write (gps (shm pt)) = gps_read (gps (shm pt)) /\
    action_type (action (shm pt)) = SampleGPS.
Proof.
  intros s sample.
  assert (H1 : 0 <= GpsCtrl.sample_index GpsCtrl.initial < 4)
    by (split; [discriminate | reflexivity]).
  assert (H2 : action_lock_free s) by (vm_compute; repeat split).
  assert (H3 : action_type (action s) = SampleGPS) by reflexivity.
  assert (Hn : numbers (acceleration (accel s)) = true) by (vm_compute; reflexivity).
  assert (H4 : gps_mutex (gps s) = 1) by reflexivity.
  assert (H5 : gps_full (gps s) = 0) by reflexivity.
  assert (H6 : gps_empty (gps s) = GPS_BUFFER_SIZE) by reflexivity.
  assert (H7 : 0 <= gps_read (gps s) < GPS_BUFFER_SIZE)
    by (split; [discriminate | reflexivity]).
  assert (H8 : gps_write (gps s) = gps_read (gps s)) by reflexivity.
  assert (H9 : length (nmea (gps s)) = Z.to_nat GPS_BUFFER_SIZE)
    by (vm_compute; reflexivity).
  assert (H10 : init connected = false \/ is_connected connect_fails = true) by (left; reflexivity).
  assert (H11 : ptr (gps_header s) + GpsCtrl.strlen sample <= sizeof_msg - 2)
    by (vm_compute; discriminate).
  split; [exact H1|]. split; [exact H2|]. split; [exact H3|]. split; [exact Hn|].
  split; [exact H4|].
  split; [exact H5|]. split; [exact H6|]. split; [exact H7|]. split; [exact H8|].
  split; [exact H9|]. split; [exact H10|]. split; [exact H11|].
  split; [vm_compute; reflexivity|].
  exact (sample_round_trip GpsCtrl.initial connected connect_fails 1 s
           H1 H2 H3 Hn H4 H5 H6 H7 H8 H9 H10 H11).
Defined.

End RingMore.

(* ================================================================= *)
(** ** The battery over time, and with the flight controller *)

Module BatteryMore.
Import Battery.

(** One iteration of the battery process on a free lock. *)
Lemma battery_step (clock : timespec) (p : proc statics) :
  action_lock_free (shm p) -> 0 <= battery (shm p) <= 100 ->
  exists p' evs,
    battery_loop clock p = Some (tt, p') /\
    out p' = out p ++ evs /\
    action_lock_free (shm p') /\
    0 <= battery (shm p') <= 100 /\
    battery (shm p) - 1 <= battery (shm p') <= battery (shm p) + 1 /\
    (In (kill 0 SIGTERM) evs -> battery (shm p) = 0) /\
    pwm (shm p') = pwm (shm p) /\
    (action_type (action (shm p')) = action_type (action (shm p)) \/
     action_type (action (shm p')) = Abort /\ battery (shm p) < 15).
Proof.
  intros H Hb. destruct p as [[lt nw cb ca ini] s o i]. cbn in H, Hb.
  unfold battery_loop. msimpl.
  destruct ini; msimpl; rewrite read_action_free by exact H; msimpl;
    destruct (action_type (action s) =? Charge); msimpl.
  all: repeat match goal with
       | |- context [if ?b then _ else _] => destruct b eqn:?; msimpl
       end.
  all: try (rewrite write_action_free by exact H; msimpl).
  all: do 2 eexists; (split; [reflexivity|]);
       (split; [cbn; rewrite <- ?app_assoc; reflexivity|]).
  all: cbn; tests.
  all: unfold uint8 in *.
  all: try (rewrite (Z.mod_small (battery s + 1)) by lia).
  all: try (rewrite (Z.mod_small (battery s - 1)) by lia).
  all: repeat split; try exact H; try lia; try (left; reflexivity).
  all: try (intros Hin; repeat (destruct Hin as [Hin|Hin]; try discriminate Hin);
            try contradiction; lia).
  all: try (destruct s as [? ? ? ? ? ? [[r w c] t] ? ? ? ?];
            unfold action_lock_free in *; cbn in *; first [exact H | tauto | lia]).
  all: try (right; split; [reflexivity | tests; lia]).
Qed.

(** The charge stays a percentage.  Over any number of iterations of the
    battery process, at any times and in any state, the charge stays
    between 0 and 100 and moves by at most one per iteration; and as long
    as there were no more iterations than the charge they started from,
    none of them has sent the [SIGTERM] of the shutdown. *)
Theorem charge_stays_percentage (clocks : list timespec) :
  forall p : proc statics,
  action_lock_free (shm p) -> 0 <= battery (shm p) <= 100 ->
  exists p' evs,
    run_ticks battery_loop clocks p = Some p' /\
    out p' = out p ++ evs /\
    0 <= battery (shm p') <= 100 /\
    battery (shm p) - Z.of_nat (length clocks) <= battery (shm p')
      <= battery (shm p) + Z.of_nat (length clocks) /\
    (Z.of_nat (length clocks) <= battery (shm p) -> ~ In (kill 0 SIGTERM) evs).
Proof.
  induction clocks as [|c clocks IH]; intros p H Hb.
  - exists p, []. cbn. rewrite app_nil_r.
    split; [reflexivity|]. split; [reflexivity|]. split; [exact Hb|].
    split; [lia|]. intros _ [].
  - destruct (battery_step c p H Hb) as (p1 & e1 & Hrun & Ho & H1 & Hb1 & Hd & Hk & _).
    destruct (IH p1 H1 Hb1) as (p' & e2 & Hrun' & Ho' & Hb' & Hd' & Hk').
    exists p', (e1 ++ e2). cbn [run_ticks length]. rewrite Hrun.
    split; [exact Hrun'|]. split; [rewrite Ho', Ho, app_assoc; reflexivity|].
    split; [exact Hb'|]. split; [lia|].
    intros Hn Hin. apply in_app_or in Hin. destruct Hin as [Hin|Hin].
    + apply Hk in Hin. lia.
    + apply Hk' in Hin; [exact Hin | lia].
Qed.

Lemma charge_stays_percentage_witness :
  let p := battery_proc Fly 3 (at_time 0 0) in
  let clocks := [at_time 2 0; at_time 4 0; at_time 6 0] in
  action_lock_free (shm p) /\ 0 <= battery (shm p) <= 100 /\
  exists p' evs,
    run_ticks battery_loop clocks p = Some p' /\
    out p' = out p ++ evs /\
    battery (shm p') = 0 /\
    ~ In (kill 0 SIGTERM) evs.
Proof.
  intros p clocks.
  assert (H1 : action_lock_free (shm p)) by (vm_compute; repeat split).
  assert (H2 : 0 <= battery (shm p) <= 100) by (vm_compute; split; discriminate).
  split; [exact H1|]. split; [exact H2|].
  destruct (charge_stays_percentage clocks p H1 H2) as (p' & evs & Hrun & Ho & _ & _ & Hk).
  exists p', evs. split; [exact Hrun|]. split; [exact Ho|]. split.
  - vm_compute in Hrun. injection Hrun as <-. reflexivity.
  - apply Hk. vm_compute. discriminate.
Defined.

(** *** The low charge and the flight controller *)

Arguments FlightCtrl.receive : simpl never.

(** The block under [_binded] on a free lock: it returns, and of the
    region it writes at most [Abort] into [action]. *)
Lemma receive_free (rs : list FlightCtrl.recv_result) :
  forall (cmd : Z) (p : proc FlightCtrl.statics),
  action_lock_free (shm p) ->
  exists cmd' p',
    FlightCtrl.receive rs cmd p = Some (cmd', p') /\
    (shm p' = shm p \/ shm p' = set_action (set_action_type Abort) (shm p)).
Proof.
  induction rs as [|[errno|payload] rs IH]; intros cmd p H.
  - exists cmd, p. split; [reflexivity | left; reflexivity].
  - unfold FlightCtrl.receive; fold FlightCtrl.receive.
    destruct (errno =? EWOULDBLOCK);
      [exists cmd, p; split; [reflexivity | left; reflexivity]|].
    destruct ((errno =? EAGAIN) || (errno =? EINTR)); [apply IH, H|].
    msimpl. rewrite write_action_free by exact H. cbn.
    do 2 eexists. split; [reflexivity|]. right. reflexivity.
  - rewrite FlightFacts.receive_datagram. do 2 eexists. split; [reflexivity|].
    left. reflexivity.
Qed.

(** An iteration of the flight controller that finds [Abort] and a charge
    below 15. *)
Lemma abort_low_charge (clock : timespec) (bound : bool) (rs : list FlightCtrl.recv_result)
    (p : proc FlightCtrl.statics) :
  action_lock_free (shm p) ->
  action_type (action (shm p)) = Abort ->
  battery (shm p) < 15 ->
  exists p',
    FlightCtrl.flight_loop clock bound rs p = Some (tt, p') /\
    action_type (action (shm p')) = Charge /\
    pwm (shm p') = pwm (shm p) /\
    battery (shm p') = battery (shm p).
Proof.
  intros H Ha Hb.
  assert (Htail : forall (cmd : Z) (q : proc FlightCtrl.statics),
            shm q = shm p \/ shm q = set_action (set_action_type Abort) (shm p) ->
            exists p',
              (current_action ← read_action;
               l ← get_locals;
               when (negb (current_action =? FlightCtrl.last_action l))
                 (emit (printf "Current state: " []);;
                  FlightCtrl.printactln current_action;;
                  set_locals (FlightCtrl.set_last_action current_action));;
               FlightCtrl.dispatch current_action cmd;;
               store (set_wdg FlightCtrl.wdg_flight_ctrl_incr);;
               emit (usleep FlightCtrl.DELTA_SIMULATION_US)) q = Some (tt, p') /\
              action_type (action (shm p')) = Charge /\
              pwm (shm p') = pwm (shm p) /\
              battery (shm p') = battery (shm p)).
  { intros cmd [l s o i] Hs. cbn [shm] in Hs.
    assert (Hq : action_lock_free s /\ action_type (action s) = Abort /\
                 pwm s = pwm (shm p) /\ battery s = battery (shm p)).
    { destruct Hs as [->| ->];
        [split; [exact H|]; split; [exact Ha|]; split; reflexivity|].
      destruct (shm p) as [? ? ? ? ? ? [[r w c] t] ? ? ? ?].
      unfold action_lock_free in *. cbn in *. repeat split; try reflexivity; apply H. }
    destruct Hq as (Hf & Hqa & Hqp & Hqb).
    msimpl. rewrite read_action_free by exact Hf. msimpl. rewrite Hqa.
    assert (Hlow : (battery s <? 15) = true) by (apply Z.ltb_lt; lia).
    destruct (negb (Abort =? FlightCtrl.last_action l)); msimpl;
      unfold FlightCtrl.printactln, FlightCtrl.dispatch, FlightCtrl.case_Abort; fsimpl;
      rewrite Hlow; msimpl; rewrite write_action_free by exact Hf; msimpl.
    all: eexists; split; [reflexivity|]; cbn.
    all: destruct s; cbn in *; repeat split; assumption. }
  destruct p as [[cb la lacc ini nw lt ft] s o i]. cbn [shm] in *.
  unfold FlightCtrl.flight_loop. msimpl.
  destruct ini; msimpl.
  - destruct (FlightCtrl.BIND_RETRY_MS <=? _); msimpl; [destruct bound; msimpl|].
    + match goal with |- context [FlightCtrl.receive rs ?c ?q] =>
        destruct (receive_free rs c q H) as (cmd' & q' & Hr & Hs) end.
      rewrite Hr. cbn. apply Htail. exact Hs.
    + apply Htail. left. reflexivity.
    + apply Htail. left. reflexivity.
  - match goal with |- context [FlightCtrl.receive rs ?c ?q] =>
      destruct (receive_free rs c q H) as (cmd' & q' & Hr & Hs) end.
    rewrite Hr. cbn. apply Htail. exact Hs.
Qed.

(** A low charge in flight.  In a state other than [Charge] and [Abort],
    for instance [Fly], the iteration of the battery process that steps
    the charge down from below 15, and the next iteration of the flight
    controller, whatever it receives: the state is then [Charge], the
    charge one less, and the four motor values are the ones of before,
    the drone having not been landed. *)
Theorem low_charge_keeps_motors
    (cb cf : timespec) (bound : bool) (rs : list FlightCtrl.recv_result)
    (lb : statics) (lf : FlightCtrl.statics) (s : drone_shared_t) :
  action_lock_free s ->
  action_type (action s) <> Charge ->
  action_type (action s) <> Abort ->
  0 < battery s < 15 ->
  DISCHARGE_INTERVAL_MS <= elapsed_at cb lb ->
  exists (pb : proc statics) (pf : proc FlightCtrl.statics),
    battery_loop cb (Proc lb s [] []) = Some (tt, pb) /\
    action_type (action (shm pb)) = Abort /\
    FlightCtrl.flight_loop cf bound rs (Proc lf (shm pb) [] []) = Some (tt, pf) /\
    action_type (action (shm pf)) = Charge /\
    battery (shm pf) = battery s - 1 /\
    motors (pwm (shm pf)) = motors (pwm s).
Proof.
  intros H Hc Ha Hb He.
  assert (Hstep : exists pb,
            battery_loop cb (Proc lb s [] []) = Some (tt, pb) /\
            action_type (action (shm pb)) = Abort /\
            action_lock_free (shm pb) /\
            battery (shm pb) = battery s - 1 /\
            pwm (shm pb) = pwm s).
  { assert (Hz : forall c, elapsed c c = 0)
      by (intros c; unfold elapsed; rewrite !Z.sub_diag; reflexivity).
    destruct lb as [lt nw cbat ca ini]. unfold elapsed_at in He. cbn [init last_time] in He.
    apply Z.eqb_neq in Hc, Ha.
    unfold battery_loop. msimpl.
    destruct ini; msimpl; rewrite read_action_free by exact H; msimpl;
      rewrite Hc; msimpl.
    - exfalso. rewrite Hz in He. unfold DISCHARGE_INTERVAL_MS in He. lia.
    - replace (DISCHARGE_INTERVAL_MS <=? elapsed cb lt) with true
        by (symmetry; apply Z.leb_le; exact He).
      msimpl.
      replace (0 <? battery s) with true by (symmetry; apply Z.ltb_lt; lia).
      msimpl.
      replace (battery s <? 15) with true by (symmetry; apply Z.ltb_lt; lia).
      rewrite Ha. msimpl. rewrite write_action_free by exact H. msimpl.
      eexists. split; [reflexivity|]. cbn.
      unfold uint8. rewrite Z.mod_small by lia.
      destruct s as [? ? ? ? ? ? [[r w c] t] ? ? ? ?].
      unfold action_lock_free in *. cbn in *. repeat split; apply H. }
  destruct Hstep as (pb & Hrun & Hab & Hfb & Hbb & Hpb).
  destruct (abort_low_charge cf bound rs (Proc lf (shm pb) [] []))
    as (pf & Hrf & Haf & Hpf & Hbf); cbn [shm]; try assumption; [lia|].
  exists pb, pf. cbn [shm] in *.
  repeat split; try assumption; [lia | rewrite Hpf, Hpb; reflexivity].
Qed.

Lemma low_charge_keeps_motors_witness :
  let p := battery_proc Fly 14 (at_time 2 0) in
  let f := flight_proc Fly 14 (all_motors half) in
  action_lock_free (shm f) /\
  action_type (action (shm f)) <> Charge /\
  action_type (action (shm f)) <> Abort /\
  0 < battery (shm f) < 15 /\
  DISCHARGE_INTERVAL_MS <= elapsed_at (at_time 4 0) (locals p) /\
  exists (pb : proc statics) (pf : proc FlightCtrl.statics),
    battery_loop (at_time 4 0) (Proc (locals p) (shm f) [] []) = Some (tt, pb) /\
    action_type (action (shm pb)) = Abort /\
    FlightCtrl.flight_loop (at_time 4 0) false [] (Proc (locals f) (shm pb) [] [])
      = Some (tt, pf) /\
    action_type (action (shm pf)) = Charge /\
    battery (shm pf) = battery (shm f) - 1 /\
    motors (pwm (shm pf)) = motors (pwm (shm f)).
Proof.
  intros p f.
  assert (H1 : action_lock_free (shm f)) by (vm_compute; repeat split).
  assert (H2 : action_type (action (shm f)) <> Charge) by (vm_compute; discriminate).
  assert (H3 : action_type (action (shm f)) <> Abort) by (vm_compute; discriminate).
  assert (H4 : 0 < battery (shm f) < 15) by (vm_compute; split; reflexivity).
  assert (H5 : DISCHARGE_INTERVAL_MS <= elapsed_at (at_time 4 0) (locals p))
    by (vm_compute; discriminate).
  split; [exact H1|]. split; [exact H2|]. split; [exact H3|]. split; [exact H4|].
  split; [exact H5|].
  exact (low_charge_keeps_motors (at_time 4 0) (at_time 4 0) false [] (locals p) (locals f)
           (shm f) H1 H2 H3 H4 H5).
Defined.

End BatteryMore.

(* ================================================================= *)
(** ** The telemetry as a reader *)

Module TelemetryReads.
Import Telemetry TelemetryFacts TelemetryMore.

Arguments get_char : simpl never.
Arguments drain : simpl never.
Arguments BUF_APPEND : simpl never.

(** The loop over the ring stores nothing in [action] but [Abort]. *)
Lemma drain_action (fuel : nat) :
  forall (msg msg' : string) (p p' : proc statics),
  drain fuel msg p = Some (msg', p') ->
  action_type (action (shm p')) = action_type (action (shm p)) \/
  action_type (action (shm p')) = Abort.
Proof.
  induction fuel as [|fuel IH]; intros msg msg' p p' Hrun.
  - cbn in Hrun. injection Hrun as <- <-. left. reflexivity.
  - unfold drain in Hrun; fold drain in Hrun.
    destruct (ptr msg <? sizeof_msg - 2).
    2: { cbn in Hrun. injection Hrun as <- <-. left. reflexivity. }
    destruct p as [l s o i]. destruct s as [a1 a2 a3 a4 a5 a6 a7 a8 a9 [m f e w r b] a11].
    unfold sem_timedwait, sem_post in Hrun. revert Hrun. msimpl.
    destruct (hd false i); fsimpl.
    { intros [= <- <-]. left. reflexivity. }
    destruct (0 <? f); fsimpl.
    2: { destruct (write_action _ _) as [[[] p1]|] eqn:Hw; [|discriminate].
         apply write_action_frame in Hw. destruct Hw as (_ & _ & _ & Ht & _).
         intros [= <- <-]. right. exact Ht. }
    destruct (hd false (tl i)); fsimpl.
    { intros [= <- <-]. left. reflexivity. }
    destruct (0 <? m); fsimpl.
    2: { intros [= <- <-]. left. reflexivity. }
    rewrite get_char_run. cbn.
    destruct (Ascii.eqb _ "010").
    + intros [= <- <-]. left. reflexivity.
    + intros Hrun. apply IH in Hrun. exact Hrun.
Qed.

Lemma compose_action (msg : string) (p p' : proc statics) :
  compose p = Some (msg, p') ->
  (action_type (action (shm p')) = action_type (action (shm p)) \/
   action_type (action (shm p)) = SampleGPS /\ action_type (action (shm p')) = Abort) /\
  (action_type (action (shm p)) <> SampleGPS -> gps (shm p') = gps (shm p)).
Proof.
  destruct p as [l s o i]. destruct s as [a1 a2 a3 a4 a5 a6 a7 a8 a9 g a11].
  cbn [shm]. unfold compose. msimpl. unfold sem_trywait, sem_post. msimpl.
  destruct (0 <? accel_mutex a8); fsimpl; destruct (0 <? pwm_mutex a9); fsimpl.
  all: destruct (read_action _) as [[a p1]|] eqn:Hread; [|discriminate].
  all: apply read_action_frame in Hread; cbn in Hread.
  all: destruct Hread as (-> & _ & _ & _ & Ht & Hs).
  all: apply action_frame_fields in Hs; cbn in Hs; destruct Hs as (_ & _ & _ & Hg & _).
  all: destruct (Z.eqb_spec (action_type a7) SampleGPS) as [E|E]; msimpl.
  all: lazymatch goal with
       | |- context [drain ?f ?mm ?q] =>
           destruct (drain f mm q) as [[m1 p2]|] eqn:Hd; [|discriminate];
           apply drain_action in Hd; cbn in Hd;
           intros [= <- <-]; cbn; (split; [|intros Hn; contradiction]);
           (destruct Hd as [Hd|Hd];
            [left; rewrite Hd; exact Ht | right; split; assumption])
       | |- _ => intros [= <- <-]; split; [left; exact Ht | intros _; exact Hg]
       end.
Qed.

(** The telemetry only reads.  Whatever an iteration of [telemetry_loop]
    that returns has found and sent, the charge, the acceleration, the
    four motor values, the content of the ring and its write index are
    the ones of before; [action] is the one of before, or [Abort] after
    [SampleGPS]; and outside of [SampleGPS] the ring with its semaphores
    and its read index is untouched. *)
Theorem telemetry_only_reads (conn : connect_result) (n : Z) (p p' : proc statics) :
  telemetry_loop conn n p = Some (tt, p') ->
  0 <= gps_read (gps (shm p)) < GPS_BUFFER_SIZE ->
  0 <= gps_full (gps (shm p)) ->
  battery (shm p') = battery (shm p) /\
  acceleration (accel (shm p')) = acceleration (accel (shm p)) /\
  motors (pwm (shm p')) = motors (pwm (shm p)) /\
  nmea (gps (shm p')) = nmea (gps (shm p)) /\
  gps_write (gps (shm p')) = gps_write (gps (shm p)) /\
  (action_type (action (shm p')) = action_type (action (shm p)) \/
   action_type (action (shm p)) = SampleGPS /\ action_type (action (shm p')) = Abort) /\
  (action_type (action (shm p)) <> SampleGPS -> gps (shm p') = gps (shm p)).
Proof.
  intros Hrun Hr Hf.
  pose proof (telemetry_loop_inv conn n p p' Hrun Hr) as (Hw & Hn & _).
  destruct p as [[fd ini] s o i]. cbn [shm gps] in *. revert Hrun.
  assert (Hcomp : forall l o1 msg q,
            compose (Proc l s o1 i) = Some (msg, q) ->
            battery (shm q) = battery s /\
            acceleration (accel (shm q)) = acceleration (accel s) /\
            motors (pwm (shm q)) = motors (pwm s) /\
            (action_type (action (shm q)) = action_type (action s) \/
             action_type (action s) = SampleGPS /\ action_type (action (shm q)) = Abort) /\
            (action_type (action s) <> SampleGPS -> gps (shm q) = gps s)).
  { intros l1 o1 msg q Hc. pose proof Hc as Hc2.
    apply compose_more in Hc; [|exact Hf]. apply compose_action in Hc2.
    destruct Hc as (_ & _ & _ & _ & _ & H1 & H2 & H3 & _). destruct Hc2 as [H4 H5].
    repeat split; assumption. }
  unfold telemetry_loop. msimpl.
  destruct ini; [destruct conn as [ | | |c]|]; cbn; msimpl.
  1-3: (intros [= <-]; cbn; repeat split; try reflexivity; left; reflexivity).
  all: match goal with |- context [compose ?q] =>
         destruct (compose q) as [[msg q']|] eqn:Hc end; [|discriminate].
  all: apply Hcomp in Hc; destruct Hc as (H1 & H2 & H3 & H4 & H5).
  all: destruct (n <=? 0); cbn; intros [= <-]; cbn in *.
  all: repeat split; assumption.
Qed.

Lemma telemetry_only_reads_witness :
  0 <= gps_read (gps (shm telemetry_turn)) < GPS_BUFFER_SIZE /\
  0 <= gps_full (gps (shm telemetry_turn)) /\
  exists p',
    telemetry_loop connect_fails 1 telemetry_turn = Some (tt, p') /\
    battery (shm p') = battery (shm telemetry_turn) /\
    motors (pwm (shm p')) = motors (pwm (shm telemetry_turn)) /\
    nmea (gps (shm p')) = nmea (gps (shm telemetry_turn)) /\
    gps_write (gps (shm p')) = gps_write (gps (shm telemetry_turn)).
Proof.
  assert (H1 : 0 <= gps_read (gps (shm telemetry_turn)) < GPS_BUFFER_SIZE)
    by (vm_compute; split; congruence).
  assert (H2 : 0 <= gps_full (gps (shm telemetry_turn))) by (vm_compute; discriminate).
  split; [exact H1|]. split; [exact H2|].
  destruct (telemetry_loop connect_fails 1 telemetry_turn) as [[[] p']|] eqn:Hrun;
    [|vm_compute in Hrun; discriminate].
  destruct (telemetry_only_reads connect_fails 1 telemetry_turn p' Hrun H1 H2)
    as (Hb & _ & Hm & Hn & Hw & _).
  exists p'. split; [reflexivity|]. repeat split; assumption.
Defined.

End TelemetryReads.

(* ================================================================= *)
(** ** Flight controller: commands in the air *)

Module FlightAir.
Import FlightCtrl FlightFacts.

Arguments receive : simpl never.

Ltac eval_lt :=
  repeat match goal with
  | |- context [Z.ltb ?a ?b] =>
      let v := eval vm_compute in (Z.ltb a b) in
      match v with
      | true => change (Z.ltb a b) with true
      | false => change (Z.ltb a b) with false
      end
  end.
Ltac asimpl := repeat (progress (fsimpl; eval_lt)).

(** In [Fly] and in [Land] an iteration that receives the four bytes of a
    32-bit value [c] with a bit of the commands of the state, [SampleGPS],
    [Land] and [Abort] in [Fly], [Fly] and [Abort] in [Land], leaves [c] in
    [Action]: in [Fly] also when the same iteration has counted the
    accelerometer out and stored [Abort] first; in [Land] without lowering
    the motors. *)
Theorem airborne_command
    (clock : timespec) (bound : bool) (rs : list recv_result) (c : Z)
    (p : proc statics) :
  let a := action_type (action (shm p)) in
  let mask := if a =? Fly then Z.lor SampleGPS (Z.lor Land Abort) else Z.lor Fly Abort in
  listening clock bound (locals p) = true ->
  action_lock_free (shm p) ->
  pwm_mutex (pwm (shm p)) = 1 -> accel_mutex (accel (shm p)) = 1 ->
  0 <= c < 2 ^ 32 ->
  a = Fly \/ a = Land ->
  Z.land c mask <> 0 ->
  exists p',
    flight_loop clock bound (recv_datagram (Operator.datagram c) :: rs) p = Some (tt, p') /\
    action_type (action (shm p')) = c /\
    action_lock_free (shm p') /\
    (a = Land -> motors (pwm (shm p')) = motors (pwm (shm p))).
Proof.
  intros a mask Hi H Hpm Ham Hc Ha Hm. subst a mask.
  destruct p as [[cb la lacc ini nw lt ft] s o i].
  destruct s as [a1 a2 a3 a4 a5 a6 [[rd wr rc] ty] [am acc] [pm mot] a10 a11].
  unfold action_lock_free in H. cbn in Hi, H, Ha, Hpm, Ham, Hm |- *.
  destruct H as (-> & -> & ->). subst pm am.
  unfold listening in Hi. cbn in Hi.
  apply Z.eqb_neq in Hm.
  set (s0' := Build_drone_shared_t a1 a2 a3 a4 a5 a6
                (Build_action_shm (Build_rw_lock_t 1 1 0) ty)
                (Build_accel_shm 1 acc) (Build_pwm_shm 1 mot) a10 a11).
  unfold flight_loop.
  set (tail := fun operator_cmd : Z =>
         current_action ← read_action;
         l ← get_locals;
         when (negb (current_action =? last_action l))
           (emit (printf "Current state: " []);;
            printactln current_action;;
            set_locals (set_last_action current_action));;
         dispatch current_action operator_cmd;;
         store (set_wdg wdg_flight_ctrl_incr);;
         emit (usleep DELTA_SIMULATION_US)).
  assert (Htail : forall q0 : proc statics, shm q0 = s0' ->
            exists p',
              tail c q0 = Some (tt, p') /\
              action_type (action (shm p')) = c /\
              (read (action_lock (action (shm p'))) = 1 /\
               write (action_lock (action (shm p'))) = 1 /\
               read_counter (action_lock (action (shm p'))) = 0) /\
              (ty = Land -> motors (pwm (shm p')) = mot)).
  { intros [l s' o1 i1] Hs'. cbn [shm] in Hs'. subst s' s0' tail.
    msimpl. rewrite read_action_free by (cbn; repeat split). msimpl.
    destruct Ha as [-> | ->].
    all: try change (Fly =? Fly) with true in Hm;
         try change (Land =? Fly) with false in Hm.
    all: cbv iota in Hm.
    all: destruct (negb (_ =? last_action l)); asimpl; unfold dispatch; asimpl.
    all: unfold case_Fly, case_Land, sem_wait, sem_post; asimpl; rewrite ?Hm; asimpl.
    all: repeat match goal with
         | |- context [if feq ?u ?v && _ && _ then _ else _] =>
             destruct (feq u v && _ && _); asimpl
         | |- context [if MAX_FLY_TIMEOUT <=? ?u then _ else _] =>
             destruct (MAX_FLY_TIMEOUT <=? u); asimpl
         end.
    all: rewrite ?write_action_free by (repeat split); asimpl.
    all: rewrite ?write_action_free by (repeat split); asimpl.
    all: eexists; (split; [reflexivity|]); cbn.
    all: split; [reflexivity|]; split; [repeat split|].
    all: first [ intros E; discriminate E | intros _; reflexivity ]. }
  clearbody tail. fold s0'.
  destruct ini; cbn in Hi; msimpl;
    [ apply andb_true_iff in Hi; destruct Hi as [Hi ->]; rewrite Hi; msimpl | ].
  all: rewrite receive_datagram, (recvfrom_datagram Reserved c uint32_Reserved Hc).
  all: cbn [fst snd]; change (sizeof_operator_cmd =? sizeof_operator_cmd) with true.
  all: msimpl; apply Htail; reflexivity.
Qed.

Lemma airborne_command_witness :
  let p := flight_proc Fly 50 (all_motors half) in
  listening (at_time 10 0) false (locals p) = true /\
  action_lock_free (shm p) /\
  pwm_mutex (pwm (shm p)) = 1 /\ accel_mutex (accel (shm p)) = 1 /\
  0 <= Land < 2 ^ 32 /\
  action_type (action (shm p)) = Fly /\
  Z.land Land (Z.lor SampleGPS (Z.lor Land Abort)) <> 0 /\
  exists p',
    flight_loop (at_time 10 0) false [recv_datagram (Operator.datagram Land)] p
      = Some (tt, p') /\
    action_type (action (shm p')) = Land.
Proof.
  intros p.
  assert (H1 : listening (at_time 10 0) false (locals p) = true) by reflexivity.
  assert (H2 : action_lock_free (shm p)) by (vm_compute; auto).
  assert (H3 : pwm_mutex (pwm (shm p)) = 1) by reflexivity.
  assert (H4 : accel_mutex (accel (shm p)) = 1) by reflexivity.
  assert (H5 : 0 <= Land < 2 ^ 32) by (split; [discriminate | reflexivity]).
  assert (H6 : action_type (action (shm p)) = Fly) by reflexivity.
  assert (H7 : Z.land Land (Z.lor SampleGPS (Z.lor Land Abort)) <> 0) by discriminate.
  split; [exact H1|]. split; [exact H2|]. split; [exact H3|]. split; [exact H4|].
  split; [exact H5|]. split; [exact H6|]. split; [exact H7|].
  destruct (airborne_command (at_time 10 0) false [] Land p H1 H2 H3 H4 H5
              (or_introl H6) H7) as (p' & Hrun & Hact & _).
  exists p'. split; [exact Hrun | exact Hact].
Defined.

(** The landing ends.  An iteration that receives nothing and finds the
    four motors off, in [Land], or in [Abort] with a charge of 15 or more:
    the motors stay off, at [0.0f], and the state becomes [Idle] after
    [Land] and [Charge] after [Abort]. *)
Theorem landing_completes
    (clock : timespec) (bound : bool) (p : proc statics) :
  let a := action_type (action (shm p)) in
  action_lock_free (shm p) ->
  pwm_mutex (pwm (shm p)) = 1 ->
  at_rest (motors (pwm (shm p))) = true ->
  a = Land \/ a = Abort /\ 15 <= battery (shm p) ->
  exists p',
    flight_loop clock bound [] p = Some (tt, p') /\
    action_type (action (shm p')) = (if a =? Land then Idle else Charge) /\
    motors (pwm (shm p')) = all_motors f0 /\
    action_lock_free (shm p') /\ pwm_mutex (pwm (shm p')) = 1.
Proof.
  intros a H Hpm Hrest Ha. subst a.
  destruct p as [[cb la lacc ini nw lt ft] s o i].
  destruct s as [a1 a2 a3 a4 a5 a6 [[rd wr rc] ty] [am acc] [pm mot] a10 a11].
  unfold action_lock_free in H. cbn in H, Ha, Hpm, Hrest |- *.
  destruct H as (-> & -> & ->). subst pm.
  destruct mot as [m0 m1 m2 m3]. unfold at_rest, motors_all in Hrest. cbn in Hrest.
  destruct m0 as [s0| | |]; try discriminate Hrest.
  destruct m1 as [s1| | |]; try discriminate Hrest.
  destruct m2 as [s2| | |]; try discriminate Hrest.
  destruct m3 as [s3| | |]; try discriminate Hrest. clear Hrest.
  assert (Hdec : forall s : bool, clamp_lo (fsub (S754_zero s) DELTA_DECREASE) = f0)
    by (intros []; vm_compute; reflexivity).
  assert (Havg : feq (fdiv (motors_sum (all_motors f0)) f4) f0 = true)
    by (vm_compute; reflexivity).
  assert (Hland : forall (ca : Z) (l : statics) (o1 : list event) (i1 : list bool) (t : Z),
            exists q,
              case_Land ca Reserved
                (Proc l (Build_drone_shared_t a1 a2 a3 a4 a5 a6
                           (Build_action_shm (Build_rw_lock_t 1 1 0) t)
                           (Build_accel_shm am acc)
                           (Build_pwm_shm 1 (Build_motors_t (S754_zero s0) (S754_zero s1)
                                               (S754_zero s2) (S754_zero s3)))
                           a10 a11) o1 i1)
              = Some (tt, q) /\
              action (shm q) = Build_action_shm (Build_rw_lock_t 1 1 0)
                                 (if ca =? Abort then Charge else Idle) /\
              pwm (shm q) = Build_pwm_shm 1 (all_motors f0) /\
              battery (shm q) = a11).
  { intros ca l o1 i1 t. unfold case_Land, sem_wait, sem_post. asimpl.
    unfold motors_map. cbn [motors0 motors1 motors2 motors3].
    rewrite !Hdec. fold (all_motors f0). rewrite Havg. msimpl.
    unfold rwlock_write_lock, rwlock_write_unlock, sem_wait, sem_post. asimpl.
    destruct (ca =? Abort); asimpl; eexists; (split; [reflexivity|]); cbn;
      repeat split. }
  set (s0' := Build_drone_shared_t a1 a2 a3 a4 a5 a6
                           (Build_action_shm (Build_rw_lock_t 1 1 0) ty)
                           (Build_accel_shm am acc)
                           (Build_pwm_shm 1 (Build_motors_t (S754_zero s0) (S754_zero s1)
                                               (S754_zero s2) (S754_zero s3)))
                           a10 a11).
  unfold flight_loop.
  set (tail := fun operator_cmd : Z =>
         current_action ← read_action;
         l ← get_locals;
         when (negb (current_action =? last_action l))
           (emit (printf "Current state: " []);;
            printactln current_action;;
            set_locals (set_last_action current_action));;
         dispatch current_action operator_cmd;;
         store (set_wdg wdg_flight_ctrl_incr);;
         emit (usleep DELTA_SIMULATION_US)).
  assert (Htail : forall q0 : proc statics, shm q0 = s0' ->
            exists p',
              tail Reserved q0 = Some (tt, p') /\
              action_type (action (shm p')) = (if ty =? Land then Idle else Charge) /\
              motors (pwm (shm p')) = all_motors f0 /\
              action_lock_free (shm p') /\ pwm_mutex (pwm (shm p')) = 1).
  { intros [l s' o1 i1] Hs'. cbn [shm] in Hs'. subst s' s0' tail.
    msimpl. rewrite read_action_free by (cbn; repeat split). msimpl.
    destruct Ha as [-> | [-> Hb]].
    - destruct (negb (Land =? last_action l)); asimpl; unfold dispatch; asimpl.
      all: match goal with |- context [case_Land ?ca Reserved ?q0] =>
             destruct (Hland ca (locals q0) (out q0) (intr q0) ca) as (q & Hq & Hqa & Hqp & _);
             cbn [locals out intr] in Hq;
             match type of Hq with ?lhs = _ =>
               change (case_Land ca Reserved q0) with lhs end
           end.
      all: rewrite Hq; msimpl; eexists; (split; [reflexivity|]); cbn.
      all: unfold action_lock_free; cbn; rewrite ?Hqa, ?Hqp; cbn; repeat split.
    - apply Z.leb_le in Hb.
      assert (Hlt : (a11 <? 15) = false) by (apply Z.ltb_ge; apply Z.leb_le in Hb; exact Hb).
      destruct (negb (Abort =? last_action l)) eqn:El; asimpl;
        unfold dispatch, case_Abort; asimpl; rewrite Hlt; msimpl.
      all: rewrite write_action_free by (cbn; repeat split); msimpl.
      all: try (apply negb_false_iff, Z.eqb_eq in El; rewrite <- El).
      all: match goal with |- context [case_Land ?ca Reserved ?q0] =>
             destruct (Hland ca (locals q0) (out q0) (intr q0) ca) as (q & Hq & Hqa & Hqp & _);
             cbn [locals out intr] in Hq;
             match type of Hq with ?lhs = _ =>
               change (case_Land ca Reserved q0) with lhs end
           end.
      all: rewrite Hq; msimpl; eexists; (split; [reflexivity|]); cbn.
      all: unfold action_lock_free; cbn; rewrite ?Hqa, ?Hqp; cbn; repeat split. }
  clearbody tail. fold s0'. unfold receive.
  destruct ini; msimpl.
  - destruct (BIND_RETRY_MS <=? _); msimpl; [destruct bound; msimpl|].
    all: apply Htail; reflexivity.
  - apply Htail. reflexivity.
Qed.

Lemma landing_completes_witness :
  let p := flight_proc Land 50 (all_motors f0) in
  action_lock_free (shm p) /\
  pwm_mutex (pwm (shm p)) = 1 /\
  at_rest (motors (pwm (shm p))) = true /\
  action_type (action (shm p)) = Land /\
  exists p',
    flight_loop (at_time 10 0) false [] p = Some (tt, p') /\
    action_type (action (shm p')) = Idle /\
    motors (pwm (shm p')) = all_motors f0.
Proof.
  intros p.
  assert (H1 : action_lock_free (shm p)) by (vm_compute; auto).
  assert (H2 : pwm_mutex (pwm (shm p)) = 1) by reflexivity.
  assert (H3 : at_rest (motors (pwm (shm p))) = true) by reflexivity.
  assert (H4 : action_type (action (shm p)) = Land) by reflexivity.
  split; [exact H1|]. split; [exact H2|]. split; [exact H3|]. split; [exact H4|].
  destruct (landing_completes (at_time 10 0) false p H1 H2 H3 (or_introl H4))
    as (p' & Hrun & Hact & Hm & _).
  exists p'. split; [exact Hrun|]. split; [exact Hact | exact Hm].
Defined.

End FlightAir.

(* ================================================================= *)
(** ** The accelerometer *)

Module AccelFacts.
Import Accelerometer FloatFacts.

(** A sum with a finite term is a NaN only if the other term is. *)
Lemma fadd_num (a b : float) :
  is_nan a = false -> is_finite b = true -> is_nan (fadd a b) = false.
Proof.
  intros Ha Hb. unfold fadd, SFadd.
  destruct a as [sa|sa| |sa ma ea], b as [sb|sb| |sb mb eb];
    try discriminate; try reflexivity.
  all: try (destruct sa, sb; reflexivity).
  all: apply binary_normalize_not_nan.
Qed.

Lemma fsub_num (a b : float) :
  is_nan a = false -> is_finite b = true -> is_nan (fsub a b) = false.
Proof.
  intros Ha Hb. unfold fsub, SFsub.
  destruct a as [sa|sa| |sa ma ea], b as [sb|sb| |sb mb eb];
    try discriminate; try reflexivity.
  all: try (destruct sa, sb; reflexivity).
  all: apply binary_normalize_not_nan.
Qed.

(** A product with a finite factor other than zero is a NaN only if the
    other factor is. *)
Lemma fmul_num (a : float) (s : bool) (mk : positive) (ek : Z) :
  is_nan a = false -> is_nan (fmul a (S754_finite s mk ek)) = false.
Proof.
  intros Ha. unfold fmul, SFmul.
  destruct a as [sa|sa| |sa ma ea]; try discriminate; try reflexivity.
  eapply has_sign_not_nan, binary_round_aux_sign. lia.
Qed.

Lemma finite_num (v : float) : is_finite v = true -> is_nan v = false.
Proof. destruct v; try discriminate; reflexivity. Qed.

Lemma roll_pitch_num (a b c d : float) :
  is_finite a = true -> is_finite b = true -> is_finite c = true -> is_finite d = true ->
  is_nan (fmul (fsub (fsub (fadd a b) c) d) (fmul (fmul g f2) DIFF_FACTOR)) = false.
Proof.
  intros Ha Hb Hc Hd.
  assert (Hk : exists s mk ek, fmul (fmul g f2) DIFF_FACTOR = S754_finite s mk ek)
    by (vm_compute; do 3 eexists; reflexivity).
  destruct Hk as (s & mk & ek & ->).
  apply fmul_num, fsub_num, Hd. apply fsub_num, Hc. apply fadd_num, Hb.
  apply finite_num, Ha.
Qed.

Lemma thrust_num (m : motors_t) :
  motors_all is_finite m = true -> is_nan (fsub (thrust m) g) = false.
Proof.
  unfold motors_all. rewrite !andb_true_iff. intros [[[H0 H1] H2] H3].
  apply fsub_num; [|reflexivity]. unfold thrust, f2, g.
  apply fmul_num. apply fmul_num.
  apply fadd_num, H3. apply fadd_num, H2. apply fadd_num, H1. apply finite_num, H0.
Qed.

(** The accelerometer never stores a NaN.  With the two mutexes free,
    finite motor values and finite noise, [accel_loop] returns, and the
    three components of the acceleration it stores are numbers; it gives
    back both mutexes, counts its heartbeat, and writes nothing else of the
    region. *)
Theorem accel_never_nan (noise_x noise_y noise_z : float) (p : proc statics) :
  0 < pwm_mutex (pwm (shm p)) -> 0 < accel_mutex (accel (shm p)) ->
  motors_all is_finite (motors (pwm (shm p))) = true ->
  is_finite noise_x = true -> is_finite noise_y = true -> is_finite noise_z = true ->
  exists p',
    accel_loop noise_x noise_y noise_z p = Some (tt, p') /\
    is_nan (x (acceleration (accel (shm p')))) = false /\
    is_nan (y (acceleration (accel (shm p')))) = false /\
    is_nan (z (acceleration (accel (shm p')))) = false /\
    pwm (shm p') = pwm (shm p) /\
    accel_mutex (accel (shm p')) = accel_mutex (accel (shm p)) /\
    action (shm p') = action (shm p) /\ gps (shm p') = gps (shm p) /\
    battery (shm p') = battery (shm p) /\
    wdg (shm p') = wdg_accel_incr (wdg (shm p)).
Proof.
  intros Hp Ha Hm Hx Hy Hz.
  destruct p as [[lacc lm] s o i].
  destruct s as [a1 a2 a3 a4 a5 a6 a7 [am av] [pm mot] a10 a11].
  cbn in Hp, Ha, Hm.
  unfold accel_loop, sem_wait, sem_post. msimpl.
  apply Z.ltb_lt in Hp. rewrite Hp. msimpl.
  apply Z.ltb_lt in Ha. rewrite Ha. msimpl.
  eexists. split; [reflexivity|]. cbn.
  pose proof Hm as Hm'. unfold motors_all in Hm'. rewrite !andb_true_iff in Hm'.
  destruct Hm' as [[[H0 H1] H2] H3].
  split; [apply fadd_num; [apply roll_pitch_num; assumption | exact Hx]|].
  split; [apply fadd_num; [apply roll_pitch_num; assumption | exact Hy]|].
  split; [apply fadd_num; [apply thrust_num; exact Hm | exact Hz]|].
  split; [unfold set_pwm_mutex; cbn; f_equal; lia|]. split; [lia|]. repeat split.
Qed.

Lemma accel_never_nan_witness :
  0 < pwm_mutex (pwm (shm accel_turn)) /\ 0 < accel_mutex (accel (shm accel_turn)) /\
  motors_all is_finite (motors (pwm (shm accel_turn))) = true /\
  is_finite f0 = true /\
  exists p',
    accel_loop f0 f0 f0 accel_turn = Some (tt, p') /\
    is_nan (x (acceleration (accel (shm p')))) = false /\
    is_nan (y (acceleration (accel (shm p')))) = false /\
    is_nan (z (acceleration (accel (shm p')))) = false.
Proof.
  assert (H1 : 0 < pwm_mutex (pwm (shm accel_turn))) by reflexivity.
  assert (H2 : 0 < accel_mutex (accel (shm accel_turn))) by reflexivity.
  assert (H3 : motors_all is_finite (motors (pwm (shm accel_turn))) = true) by reflexivity.
  assert (H4 : is_finite f0 = true) by reflexivity.
  split; [exact H1|]. split; [exact H2|]. split; [exact H3|]. split; [exact H4|].
  destruct (accel_never_nan f0 f0 f0 accel_turn H1 H2 H3 H4 H4 H4)
    as (p' & Hrun & Hx & Hy & Hz & _).
  exists p'. split; [exact Hrun|]. split; [exact Hx|]. split; [exact Hy | exact Hz].
Defined.

End AccelFacts.

(* ================================================================= *)
(** ** A lock that is never given back, and the reinitialisation *)

Module Recovery.
Import FlightCtrl.

Arguments receive : simpl never.
Arguments read_action : simpl never.
Arguments write_action : simpl never.

Lemma read_action_blocked {L : Type} (p : proc L) :
  writer_holds (shm p) -> read_action p = None.
Proof.
  destruct p as [l s o i]. destruct s as [? ? ? ? ? ? [[r w c] t] ? ? ? ?].
  unfold writer_holds. cbn. intros [Hw ->].
  unfold read_action, rwlock_read_lock, sem_wait, sem_post. msimpl.
  destruct (0 <? r); msimpl; [|reflexivity].
  change (uint8 (0 + 1) =? 1) with true. cbn.
  replace (0 <? w) with false by (symmetry; apply Z.ltb_ge; exact Hw). reflexivity.
Qed.

Lemma write_action_blocked {L : Type} (v : current_action_t) (p : proc L) :
  writer_holds (shm p) -> write_action v p = None.
Proof.
  destruct p as [l s o i]. destruct s as [? ? ? ? ? ? [[r w c] t] ? ? ? ?].
  unfold writer_holds. cbn. intros [Hw ->].
  unfold write_action, rwlock_write_lock, sem_wait. msimpl.
  replace (0 <? w) with false by (symmetry; apply Z.ltb_ge; exact Hw). reflexivity.
Qed.

(** The block under [_binded] while a writer holds the lock: it blocks,
    or it leaves the region as it is. *)
Lemma receive_held (rs : list recv_result) :
  forall (cmd : Z) (p : proc statics),
  writer_holds (shm p) ->
  receive rs cmd p = None \/
  exists cmd' p', receive rs cmd p = Some (cmd', p') /\ shm p' = shm p.
Proof.
  induction rs as [|[errno|payload] rs IH]; intros cmd p H.
  - right. exists cmd, p. split; reflexivity.
  - unfold receive; fold receive.
    destruct (errno =? EWOULDBLOCK); [right; exists cmd, p; split; reflexivity|].
    destruct ((errno =? EAGAIN) || (errno =? EINTR)); [apply IH, H|].
    left. unfold mbind, M_bind. rewrite write_action_blocked by exact H. reflexivity.
  - right. rewrite FlightFacts.receive_datagram. do 2 eexists. split; reflexivity.
Qed.

(** While a writer holds the lock, no iteration of the flight controller
    returns. *)
Lemma flight_loop_blocked (clock : timespec) (bound : bool) (rs : list recv_result)
    (p : proc statics) :
  writer_holds (shm p) -> flight_loop clock bound rs p = None.
Proof.
  intros H. unfold flight_loop.
  set (tail := fun operator_cmd : Z =>
         current_action ← read_action;
         l ← get_locals;
         when (negb (current_action =? last_action l))
           (emit (printf "Current state: " []);;
            printactln current_action;;
            set_locals (set_last_action current_action));;
         dispatch current_action operator_cmd;;
         store (set_wdg wdg_flight_ctrl_incr);;
         emit (usleep DELTA_SIMULATION_US)).
  assert (Htail : forall (cmd : Z) (q : proc statics),
            shm q = shm p -> tail cmd q = None).
  { intros cmd q Hq. subst tail. cbv beta. unfold mbind at 1, M_bind at 1.
    rewrite read_action_blocked by (rewrite Hq; exact H). reflexivity. }
  clearbody tail.
  assert (Hrecv : forall (cmd : Z) (q : proc statics),
            shm q = shm p ->
            match receive rs cmd q with
            | Some (a, p') => tail a p'
            | None => None
            end = None).
  { intros cmd q Hq.
    destruct (receive_held rs cmd q) as [Hr|(cmd' & q' & Hr & Hs)];
      [rewrite Hq; exact H | rewrite Hr; reflexivity |].
    rewrite Hr. apply Htail. rewrite Hs. exact Hq. }
  destruct p as [[cb la lacc ini nw lt ft] s o i]. cbn [shm] in *.
  msimpl. destruct ini; msimpl.
  - destruct (BIND_RETRY_MS <=? _); msimpl; [destruct bound; msimpl|].
    + apply Hrecv. reflexivity.
    + apply Htail. reflexivity.
    + apply Htail. reflexivity.
  - apply Hrecv. reflexivity.
Qed.

Lemma battery_loop_blocked (clock : timespec) (p : proc Battery.statics) :
  writer_holds (shm p) -> Battery.battery_loop clock p = None.
Proof.
  intros H. destruct p as [[lt nw cb ca ini] s o i]. cbn [shm] in H.
  unfold Battery.battery_loop. msimpl.
  destruct ini; msimpl; rewrite read_action_blocked by exact H; reflexivity.
Qed.

(** *** With the locks free *)

Lemma locks_free_action (v : current_action_t) (s : drone_shared_t) :
  locks_free s -> locks_free (set_action (set_action_type v) s).
Proof.
  destruct s as [? ? ? ? ? ? [[r w c] t] ? ? ? ?]. unfold locks_free, action_lock_free.
  cbn. tauto.
Qed.

Lemma write_action_returns (v : current_action_t) (q : proc statics) :
  locks_free (shm q) ->
  exists q', write_action v q = Some (tt, q') /\ locks_free (shm q').
Proof.
  intros H. rewrite write_action_free by apply H.
  eexists. split; [reflexivity|]. apply locks_free_action, H.
Qed.

Lemma when_write_action_returns (b : bool) (v : current_action_t) (q : proc statics) :
  locks_free (shm q) ->
  exists q', when b (write_action v) q = Some (tt, q') /\ locks_free (shm q').
Proof.
  intros H. destruct b; [apply write_action_returns, H|].
  exists q. split; [reflexivity | exact H].
Qed.

Lemma case_Land_returns (ca cmd : Z) (q : proc statics) :
  locks_free (shm q) -> exists q', case_Land ca cmd q = Some (tt, q').
Proof.
  intros H. unfold case_Land.
  destruct (negb _).
  { destruct (write_action_returns cmd q H) as (q' & Hq & _). exists q'. exact Hq. }
  destruct q as [l s o i].
  destruct s as [a1 a2 a3 a4 a5 a6 [[rd wr rc] ty] [am acc] [pm mot] a10 a11].
  unfold locks_free, action_lock_free in H. cbn in H.
  destruct H as ((-> & -> & ->) & -> & ->).
  unfold sem_wait, sem_post, rwlock_write_lock, rwlock_write_unlock, sem_wait, sem_post.
  FlightAir.asimpl.
  match goal with |- context [if feq ?u ?v then _ else _] => destruct (feq u v) end;
    FlightAir.asimpl; [destruct (ca =? Abort); FlightAir.asimpl|]; eexists; reflexivity.
Qed.

Lemma case_Abort_returns (ca cmd : Z) (q : proc statics) :
  locks_free (shm q) -> exists q', case_Abort ca cmd q = Some (tt, q').
Proof.
  intros H. unfold case_Abort. msimpl.
  destruct (battery (shm q) <? 15).
  - match goal with |- context [write_action ?v ?q0] =>
      destruct (write_action_returns v q0) as (q' & Hq & _); [exact H|] end.
    exists q'. exact Hq.
  - msimpl.
    match goal with |- context [write_action ?v ?q0] =>
      destruct (write_action_returns v q0) as (q' & Hq & Hf); [exact H|] end.
    rewrite Hq. cbn. apply case_Land_returns, Hf.
Qed.

Lemma case_Fly_returns (cmd : Z) (q : proc statics) :
  locks_free (shm q) -> exists q', case_Fly cmd q = Some (tt, q').
Proof.
  intros H. destruct q as [l s o i].
  destruct s as [a1 a2 a3 a4 a5 a6 [[rd wr rc] ty] [am acc] [pm mot] a10 a11].
  unfold locks_free, action_lock_free in H. cbn in H.
  destruct H as ((-> & -> & ->) & -> & ->).
  unfold case_Fly, sem_wait, sem_post. FlightAir.asimpl.
  match goal with |- context [if feq ?u ?v && ?b && ?c then _ else _] =>
    destruct (feq u v && b && c) end; FlightAir.asimpl.
  1: match goal with |- context [if MAX_FLY_TIMEOUT <=? ?u then _ else _] =>
       destruct (MAX_FLY_TIMEOUT <=? u) end; FlightAir.asimpl.
  all: repeat (rewrite write_action_free by (repeat split); FlightAir.asimpl).
  all: match goal with |- context [if negb ?b then _ else _] => destruct (negb b) end;
       FlightAir.asimpl.
  all: repeat (rewrite write_action_free by (repeat split); FlightAir.asimpl).
  all: eexists; reflexivity.
Qed.

Lemma dispatch_returns (ca cmd : Z) (q : proc statics) :
  locks_free (shm q) -> exists q', dispatch ca cmd q = Some (tt, q').
Proof.
  intros H. unfold dispatch.
  destruct (ca =? Fly); [apply case_Fly_returns, H|].
  destruct (ca =? SampleGPS).
  { destruct (when_write_action_returns (negb (Z.land cmd (Z.lor Fly Abort) =? 0)) cmd q H)
      as (q' & Hq & _). exists q'. exact Hq. }
  destruct (ca =? Idle).
  { destruct (when_write_action_returns
                (negb (Z.land cmd (Z.lor Fly (Z.lor Charge Abort)) =? 0)) cmd q H)
      as (q' & Hq & _). exists q'. exact Hq. }
  destruct (ca =? Charge).
  { destruct (negb _); msimpl; [|eexists; reflexivity].
    destruct (15 <=? battery (shm q)); msimpl; [|eexists; reflexivity].
    match goal with |- context [write_action ?v ?q0] =>
      destruct (write_action_returns v q0) as (q' & Hq & _); [exact H|] end.
    exists q'. exact Hq. }
  destruct (ca =? Abort); [apply case_Abort_returns, H|].
  destruct (ca =? Land); [apply case_Land_returns, H|].
  msimpl.
  match goal with |- context [write_action ?v ?q0] =>
    destruct (write_action_returns v q0) as (q' & Hq & _); [exact H|] end.
  exists q'. exact Hq.
Qed.

Lemma receive_returns (rs : list recv_result) :
  forall (cmd : Z) (p : proc statics),
  locks_free (shm p) ->
  exists cmd' p', receive rs cmd p = Some (cmd', p') /\ locks_free (shm p').
Proof.
  intros cmd p H.
  destruct (BatteryMore.receive_free rs cmd p) as (cmd' & p' & Hr & Hs); [apply H|].
  exists cmd', p'. split; [exact Hr|].
  destruct Hs as [-> | ->]; [exact H | apply locks_free_action, H].
Qed.

(** With the locks free every iteration of the flight controller
    returns. *)
Lemma flight_loop_returns (clock : timespec) (bound : bool) (rs : list recv_result)
    (p : proc statics) :
  locks_free (shm p) -> exists p', flight_loop clock bound rs p = Some (tt, p').
Proof.
  intros H. unfold flight_loop.
  set (tail := fun operator_cmd : Z =>
         current_action ← read_action;
         l ← get_locals;
         when (negb (current_action =? last_action l))
           (emit (printf "Current state: " []);;
            printactln current_action;;
            set_locals (set_last_action current_action));;
         dispatch current_action operator_cmd;;
         store (set_wdg wdg_flight_ctrl_incr);;
         emit (usleep DELTA_SIMULATION_US)).
  assert (Htail : forall (cmd : Z) (q : proc statics),
            locks_free (shm q) -> exists p', tail cmd q = Some (tt, p')).
  { intros cmd q Hq. subst tail. cbv beta. unfold mbind at 1, M_bind at 1.
    rewrite read_action_free by apply Hq.
    destruct q as [l s o i]. cbn [shm] in Hq. msimpl.
    destruct (negb _); unfold printactln; msimpl.
    all: match goal with |- context [dispatch ?a ?c ?q0] =>
           destruct (dispatch_returns a c q0 Hq) as (q' & Hd) end.
    all: rewrite Hd; eexists; reflexivity. }
  clearbody tail.
  assert (Hrecv : forall (cmd : Z) (q : proc statics),
            locks_free (shm q) ->
            exists p', match receive rs cmd q with
                       | Some (a, p') => tail a p'
                       | None => None
                       end = Some (tt, p')).
  { intros cmd q Hq.
    destruct (receive_returns rs cmd q Hq) as (cmd' & q' & Hr & Hf).
    rewrite Hr. apply Htail, Hf. }
  destruct p as [[cb la lacc ini nw lt ft] s o i]. cbn [shm] in *.
  msimpl. destruct ini; msimpl.
  - destruct (BIND_RETRY_MS <=? _); msimpl; [destruct bound; msimpl|].
    + apply Hrecv. exact H.
    + apply Htail. exact H.
    + apply Htail. exact H.
  - apply Hrecv. exact H.
Qed.

Lemma battery_loop_returns (clock : timespec) (p : proc Battery.statics) :
  action_lock_free (shm p) -> exists p', Battery.battery_loop clock p = Some (tt, p').
Proof.
  intros H. destruct p as [[lt nw cb ca ini] s o i]. cbn [shm] in H.
  unfold Battery.battery_loop. msimpl.
  destruct ini; msimpl; rewrite read_action_free by exact H; msimpl.
  all: repeat match goal with
       | |- context [if ?b then _ else _] => destruct b; msimpl
       end.
  all: try (rewrite write_action_free by exact H; msimpl).
  all: eexists; reflexivity.
Qed.

(** What the reinitialisation is for.  While a writer holds the lock of
    [action] and never gives it back, no iteration of the flight controller
    and none of the battery process returns, whatever their statics, the
    clock and the datagrams.  [sigusr1_handler] on this region returns, and
    on the region it leaves every iteration of the two returns. *)
Theorem reinit_unblocks (p : proc DroneSys.statics) :
  writer_holds (shm p) ->
  (forall clock bound rs (q : proc statics),
     shm q = shm p -> flight_loop clock bound rs q = None) /\
  (forall clock (q : proc Battery.statics),
     shm q = shm p -> Battery.battery_loop clock q = None) /\
  exists p',
    DroneSys.sigusr1_handler p = Some (tt, p') /\
    (forall clock bound rs (q : proc statics),
       shm q = shm p' -> exists q', flight_loop clock bound rs q = Some (tt, q')) /\
    (forall clock (q : proc Battery.statics),
       shm q = shm p' -> exists q', Battery.battery_loop clock q = Some (tt, q')).
Proof.
  intros H.
  split; [intros clock bound rs q Hq; apply flight_loop_blocked; rewrite Hq; exact H|].
  split; [intros clock q Hq; apply battery_loop_blocked; rewrite Hq; exact H|].
  destruct p as [l s o i]. unfold DroneSys.sigusr1_handler. msimpl.
  eexists. split; [reflexivity|]. cbn [shm].
  assert (Hf : locks_free (DroneSys.init_locks_shm s)).
  { destruct s as [? ? ? ? ? ? [[r w c] t] ? ? ? ?].
    unfold locks_free, action_lock_free. cbn. repeat split. }
  split.
  - intros clock bound rs q Hq. apply flight_loop_returns. rewrite Hq. exact Hf.
  - intros clock q Hq. apply battery_loop_returns. rewrite Hq. apply Hf.
Qed.

Lemma reinit_unblocks_witness :
  writer_holds (shm killed_in_write) /\
  Battery.battery_loop (at_time 1 0) (turn_of Battery.initial killed_in_write) = None /\
  exists p',
    DroneSys.sigusr1_handler killed_in_write = Some (tt, p') /\
    exists q',
      Battery.battery_loop (at_time 1 0) (turn_of Battery.initial p') = Some (tt, q').
Proof.
  assert (H : writer_holds (shm killed_in_write)) by (split; [discriminate | reflexivity]).
  split; [exact H|].
  destruct (reinit_unblocks killed_in_write H) as (_ & Hb & p' & Hrun & _ & Hr).
  split; [apply Hb; reflexivity|].
  exists p'. split; [exact Hrun|]. apply Hr. reflexivity.
Defined.

End Recovery.

(* ================================================================= *)
(** ** Who writes what *)

Module Writers.

Arguments FlightCtrl.receive : simpl never.
Arguments read_action : simpl never.
Arguments write_action : simpl never.
Arguments Telemetry.drain : simpl never.
Arguments Telemetry.get_char : simpl never.
Arguments Telemetry.BUF_APPEND : simpl never.
Arguments GpsCtrl.produce : simpl never.
Arguments GpsCtrl.put_char : simpl never.

(** The tests of the semaphores and of the control flow, one after the
    other. *)
Ltac branch :=
  repeat (match goal with
          | |- context [if 0 <? ?v then _ else _] => destruct (0 <? v)
          | |- context [if hd false ?i then _ else _] => destruct (hd false i)
          | |- context [if negb ?b then _ else _] => destruct (negb b)
          | |- context [if feq ?u ?v && ?b && ?c then _ else _] =>
              destruct (feq u v && b && c)
          | |- context [if feq ?u ?v then _ else _] => destruct (feq u v)
          | |- context [if ?u <=? ?v then _ else _] => destruct (u <=? v)
          | |- context [if ?u <? ?v then _ else _] => destruct (u <? v)
          | |- context [if ?u =? ?v then _ else _] => destruct (u =? v)
          | |- context [if ?u && ?v then _ else _] => destruct (u && v)
          end; msimpl).

Lemma write_action_keeps {L : Type} (v : current_action_t) (p p' : proc L) :
  write_action v p = Some (tt, p') ->
  wdg (shm p') = wdg (shm p) /\ accel (shm p') = accel (shm p) /\
  pwm (shm p') = pwm (shm p) /\ gps (shm p') = gps (shm p) /\
  battery (shm p') = battery (shm p).
Proof.
  intros H. apply write_action_frame in H. destruct H as (_ & _ & _ & _ & H).
  apply TelemetryMore.action_frame_fields in H. exact H.
Qed.

Lemma read_action_keeps {L : Type} (a : current_action_t) (p p' : proc L) :
  read_action p = Some (a, p') ->
  wdg (shm p') = wdg (shm p) /\ accel (shm p') = accel (shm p) /\
  pwm (shm p') = pwm (shm p) /\ gps (shm p') = gps (shm p) /\
  battery (shm p') = battery (shm p).
Proof.
  intros H. apply read_action_frame in H. destruct H as (_ & _ & _ & _ & _ & H).
  apply TelemetryMore.action_frame_fields in H. exact H.
Qed.

(** *** battery.c *)

Lemma battery_keeps (clock : timespec) (p p' : proc Battery.statics) :
  Battery.battery_loop clock p = Some (tt, p') ->
  accel (shm p') = accel (shm p) /\ pwm (shm p') = pwm (shm p) /\
  gps (shm p') = gps (shm p).
Proof.
  destruct p as [[lt nw cb ca ini] s o i]. cbn [shm].
  unfold Battery.battery_loop. msimpl.
  destruct ini; msimpl.
  all: destruct (read_action _) as [[a q]|] eqn:Hr; [|discriminate].
  all: apply read_action_keeps in Hr; cbn in Hr; destruct Hr as (_ & R1 & R2 & R3 & _).
  all: destruct q as [lq sq oq iq]; cbn in R1, R2, R3; msimpl.
  all: destruct (a =? Charge); msimpl.
  all: repeat match goal with
       | |- context [if ?b then _ else _] => destruct b; msimpl
       end.
  all: try (destruct (write_action _ _) as [[[] q2]|] eqn:Hw; [|discriminate];
            apply write_action_keeps in Hw; cbn in Hw;
            destruct Hw as (_ & W1 & W2 & W3 & _)).
  all: intros [= <-]; cbn; rewrite ?W1, ?W2, ?W3; destruct sq; cbn in *;
       repeat split; assumption.
Qed.

(** *** gps_ctrl.c *)

Lemma produce_keeps (fuel : nat) (msg : string) :
  forall (count : Z) (p p' : proc GpsCtrl.statics) (b : bool),
  GpsCtrl.produce fuel msg count p = Some (b, p') ->
  battery (shm p') = battery (shm p) /\ accel (shm p') = accel (shm p) /\
  pwm (shm p') = pwm (shm p).
Proof.
  induction fuel as [|fuel IH]; intros count p p' b Hrun.
  - unfold GpsCtrl.produce in Hrun. cbn in Hrun. injection Hrun as <- <-.
    repeat split.
  - unfold GpsCtrl.produce in Hrun; fold GpsCtrl.produce in Hrun.
    destruct (count <? GpsCtrl.strlen msg).
    2: { cbn in Hrun. injection Hrun as <- <-. repeat split. }
    destruct p as [l s o i]. destruct s as [a1 a2 a3 a4 a5 a6 a7 a8 a9 [m f e w r bf] a11].
    unfold sem_timedwait in Hrun. revert Hrun. msimpl.
    destruct (hd false i); fsimpl.
    + intros Hrun. apply IH in Hrun. exact Hrun.
    + destruct (0 <? e); fsimpl.
      2: { intros [= <- <-]. repeat split. }
      unfold GpsCtrl.put_char, sem_wait, sem_post. msimpl.
      destruct (0 <? m); msimpl; [|discriminate].
      intros Hrun. apply IH in Hrun. exact Hrun.
Qed.

Lemma gps_keeps (p p' : proc GpsCtrl.statics) :
  GpsCtrl.gps_loop p = Some (tt, p') ->
  battery (shm p') = battery (shm p) /\ accel (shm p') = accel (shm p) /\
  pwm (shm p') = pwm (shm p).
Proof.
  unfold GpsCtrl.gps_loop. msimpl.
  destruct (GpsCtrl.produce _ _ _ _) as [[b p1]|] eqn:Hp; [|discriminate].
  apply produce_keeps in Hp. cbn in Hp. destruct Hp as (H1 & H2 & H3).
  destruct b; cbn; intros [= <-]; cbn; destruct (shm p1); cbn in *;
    repeat split; assumption.
Qed.

(** *** accelerometer.c *)

Lemma accel_keeps (nx ny nz : float) (p p' : proc Accelerometer.statics) :
  Accelerometer.accel_loop nx ny nz p = Some (tt, p') ->
  battery (shm p') = battery (shm p) /\ motors (pwm (shm p')) = motors (pwm (shm p)) /\
  gps (shm p') = gps (shm p).
Proof.
  destruct p as [[lacc lm] s o i].
  destruct s as [a1 a2 a3 a4 a5 a6 a7 [am av] [pm mot] a10 a11].
  unfold Accelerometer.accel_loop, sem_wait, sem_post. msimpl.
  destruct (0 <? pm); msimpl; [|discriminate].
  destruct (0 <? am); msimpl; [|discriminate].
  intros [= <-]. repeat split.
Qed.

(** *** telemetry.c *)

Lemma drain_keeps (fuel : nat) :
  forall (msg msg' : string) (p p' : proc Telemetry.statics),
  Telemetry.drain fuel msg p = Some (msg', p') ->
  battery (shm p') = battery (shm p) /\ accel (shm p') = accel (shm p) /\
  pwm (shm p') = pwm (shm p).
Proof.
  induction fuel as [|fuel IH]; intros msg msg' p p' Hrun.
  - cbn in Hrun. injection Hrun as <- <-. repeat split.
  - unfold Telemetry.drain in Hrun; fold Telemetry.drain in Hrun.
    destruct (Telemetry.ptr msg <? Telemetry.sizeof_msg - 2).
    2: { cbn in Hrun. injection Hrun as <- <-. repeat split. }
    destruct p as [l s o i]. destruct s as [a1 a2 a3 a4 a5 a6 a7 a8 a9 [m f e w r b] a11].
    unfold sem_timedwait, sem_post in Hrun. revert Hrun. msimpl.
    destruct (hd false i); fsimpl.
    { intros [= <- <-]. repeat split. }
    destruct (0 <? f); fsimpl.
    2: { destruct (write_action _ _) as [[[] p1]|] eqn:Hw; [|discriminate].
         apply write_action_keeps in Hw. cbn in Hw.
         destruct Hw as (_ & W1 & W2 & _ & W3).
         intros [= <- <-]. repeat split; assumption. }
    destruct (hd false (tl i)); fsimpl.
    { intros [= <- <-]. repeat split. }
    destruct (0 <? m); fsimpl.
    2: { intros [= <- <-]. repeat split. }
    rewrite TelemetryFacts.get_char_run. cbn.
    destruct (Ascii.eqb _ "010").
    + intros [= <- <-]. repeat split.
    + intros Hrun. apply IH in Hrun. exact Hrun.
Qed.

Lemma telemetry_keeps (conn : Telemetry.connect_result) (n : Z) (p p' : proc Telemetry.statics) :
  Telemetry.telemetry_loop conn n p = Some (tt, p') ->
  battery (shm p') = battery (shm p) /\
  acceleration (accel (shm p')) = acceleration (accel (shm p)) /\
  motors (pwm (shm p')) = motors (pwm (shm p)).
Proof.
  destruct p as [[fd ini] s o i]. cbn [shm].
  assert (Hcomp : forall l o1 msg q,
            Telemetry.compose (Proc l s o1 i) = Some (msg, q) ->
            battery (shm q) = battery s /\
            acceleration (accel (shm q)) = acceleration (accel s) /\
            motors (pwm (shm q)) = motors (pwm s)).
  { intros l1 o1 msg q. destruct s as [a1 a2 a3 a4 a5 a6 a7 [am acc] [pm mot] g a11].
    unfold Telemetry.compose. msimpl. unfold sem_trywait, sem_post. msimpl.
    destruct (0 <? am); fsimpl; destruct (0 <? pm); fsimpl.
    all: destruct (read_action _) as [[a p1]|] eqn:Hread; [|discriminate].
    all: apply read_action_keeps in Hread; cbn in Hread.
    all: destruct Hread as (_ & R1 & R2 & _ & R3).
    all: destruct (a =? SampleGPS); fsimpl.
    all: lazymatch goal with
         | |- context [Telemetry.drain ?f ?mm ?q0] =>
             destruct (Telemetry.drain f mm q0) as [[msg1 p2]|] eqn:Hd; [|discriminate];
             apply drain_keeps in Hd; cbn in Hd; destruct Hd as (D1 & D2 & D3);
             intros [= <- <-]; cbn; rewrite D1, D2, D3, R1, R2, R3; repeat split
         | |- _ => intros [= <- <-]; rewrite R1, R2, R3; repeat split
         end. }
  unfold Telemetry.telemetry_loop. msimpl.
  destruct ini; [destruct conn as [ | | |c]|]; cbn; msimpl.
  1-3: (intros [= <-]; repeat split).
  all: match goal with |- context [Telemetry.compose ?q] =>
         destruct (Telemetry.compose q) as [[msg q']|] eqn:Hc end; [|discriminate].
  all: apply Hcomp in Hc; destruct Hc as (H1 & H2 & H3).
  all: destruct (n <=? 0); cbn; intros [= <-]; cbn.
  all: repeat split; assumption.
Qed.

(** *** flight_ctrl.c *)

(** What the flight controller leaves alone. *)
Ltac walk :=
  repeat first
    [ progress msimpl
    | match goal with
      | |- context [write_action ?v ?q] =>
          let W := fresh "W" in
          destruct (write_action v q) as [[[] ?]|] eqn:W;
          [apply write_action_keeps in W; cbn in W | discriminate]
      end
    | match goal with
      | |- context [if ?b then _ else _] => destruct b
      end
    | discriminate ].

Ltac kept :=
  intros [= <-]; cbn;
  repeat match goal with
         | H : _ /\ _ |- _ => destruct H
         end;
  repeat match goal with
         | q : proc _ |- _ => destruct q as [? [] ? ?]
         end;
  cbn in *; subst; repeat split; congruence.

Lemma receive_keeps (rs : list FlightCtrl.recv_result) :
  forall (cmd cmd' : Z) (p p' : proc FlightCtrl.statics),
  FlightCtrl.receive rs cmd p = Some (cmd', p') ->
  battery (shm p') = battery (shm p) /\ accel (shm p') = accel (shm p) /\
  gps (shm p') = gps (shm p).
Proof.
  induction rs as [|[errno|payload] rs IH]; intros cmd cmd' p p'.
  - intros [= _ <-]. repeat split.
  - unfold FlightCtrl.receive; fold FlightCtrl.receive.
    destruct (errno =? EWOULDBLOCK); [intros [= _ <-]; repeat split|].
    destruct ((errno =? EAGAIN) || (errno =? EINTR)); [apply IH|].
    msimpl. destruct (write_action Abort p) as [[[] p1]|] eqn:Hw; [|discriminate].
    apply write_action_keeps in Hw. destruct Hw as (_ & W1 & _ & W2 & W3).
    intros [= _ <-]. repeat split; assumption.
  - rewrite FlightFacts.receive_datagram. intros [= _ <-]. repeat split.
Qed.

Lemma case_Land_keeps (ca cmd : Z) (p p' : proc FlightCtrl.statics) :
  FlightCtrl.case_Land ca cmd p = Some (tt, p') ->
  battery (shm p') = battery (shm p) /\
  acceleration (accel (shm p')) = acceleration (accel (shm p)) /\
  gps (shm p') = gps (shm p).
Proof.
  destruct p as [l s o i].
  destruct s as [a1 a2 a3 a4 a5 a6 [[rd wr rc] ty] [am acc] [pm mot] a10 a11].
  unfold FlightCtrl.case_Land, sem_wait, sem_post, rwlock_write_lock, rwlock_write_unlock,
    sem_wait, sem_post.
  walk; kept.
Qed.

Lemma case_Abort_keeps (ca cmd : Z) (p p' : proc FlightCtrl.statics) :
  FlightCtrl.case_Abort ca cmd p = Some (tt, p') ->
  battery (shm p') = battery (shm p) /\
  acceleration (accel (shm p')) = acceleration (accel (shm p)) /\
  gps (shm p') = gps (shm p).
Proof.
  unfold FlightCtrl.case_Abort. msimpl.
  destruct (battery (shm p) <? 15); msimpl.
  - destruct (write_action _ _) as [[[] p1]|] eqn:Hw; [|discriminate].
    apply write_action_keeps in Hw. cbn in Hw. destruct Hw as (_ & W1 & _ & W2 & W3).
    intros [= <-]. rewrite W1. repeat split; assumption.
  - destruct (write_action _ _) as [[[] p1]|] eqn:Hw; [|discriminate].
    apply write_action_keeps in Hw. cbn in Hw. destruct Hw as (_ & W1 & _ & W2 & W3).
    intros H. apply case_Land_keeps in H. destruct H as (H1 & H2 & H3).
    rewrite H1, H2, H3, W1, W2, W3. repeat split.
Qed.

Lemma case_Fly_keeps (cmd : Z) (p p' : proc FlightCtrl.statics) :
  FlightCtrl.case_Fly cmd p = Some (tt, p') ->
  battery (shm p') = battery (shm p) /\
  acceleration (accel (shm p')) = acceleration (accel (shm p)) /\
  gps (shm p') = gps (shm p).
Proof.
  destruct p as [l s o i].
  destruct s as [a1 a2 a3 a4 a5 a6 a7 [am acc] [pm mot] a10 a11].
  unfold FlightCtrl.case_Fly, sem_wait, sem_post.
  msimpl.
  destruct (0 <? pm); msimpl; [|discriminate].
  destruct (0 <? am); msimpl; [|discriminate].
  destruct (0 <? pm - 1 + 1); msimpl; [|discriminate].
  match goal with |- context [if feq ?u ?v && ?b && ?c then _ else _] =>
    destruct (feq u v && b && c) end; msimpl.
  1: match goal with |- context [if FlightCtrl.MAX_FLY_TIMEOUT <=? ?u then _ else _] =>
       destruct (FlightCtrl.MAX_FLY_TIMEOUT <=? u) end; msimpl.
  1: destruct (write_action _ _) as [[[] p1]|] eqn:Hw; [|discriminate];
     apply write_action_keeps in Hw; cbn in Hw; destruct Hw as (_ & W1 & _ & W2 & W3);
     msimpl.
  all: match goal with |- context [if negb ?b then _ else _] => destruct (negb b) end;
       msimpl.
  all: try (destruct (write_action _ _) as [[[] p2]|] eqn:Hw2; [|discriminate];
            apply write_action_keeps in Hw2; cbn in Hw2;
            destruct Hw2 as (_ & V1 & _ & V2 & V3)).
  all: intros [= <-]; cbn; rewrite ?V1, ?V2, ?V3; cbn; rewrite ?W1, ?W2, ?W3;
       repeat split.
Qed.

Lemma dispatch_keeps (ca cmd : Z) (p p' : proc FlightCtrl.statics) :
  FlightCtrl.dispatch ca cmd p = Some (tt, p') ->
  battery (shm p') = battery (shm p) /\
  acceleration (accel (shm p')) = acceleration (accel (shm p)) /\
  gps (shm p') = gps (shm p).
Proof.
  assert (Hw : forall v (q q' : proc FlightCtrl.statics),
            write_action v q = Some (tt, q') ->
            battery (shm q') = battery (shm q) /\
            acceleration (accel (shm q')) = acceleration (accel (shm q)) /\
            gps (shm q') = gps (shm q)).
  { intros v q q' H. apply write_action_keeps in H. destruct H as (_ & W1 & _ & W2 & W3).
    rewrite W1. repeat split; assumption. }
  assert (Hww : forall b v (q q' : proc FlightCtrl.statics),
            when b (write_action v) q = Some (tt, q') ->
            battery (shm q') = battery (shm q) /\
            acceleration (accel (shm q')) = acceleration (accel (shm q)) /\
            gps (shm q') = gps (shm q)).
  { intros [] v q q'; [apply Hw|]. intros [= <-]. repeat split. }
  unfold FlightCtrl.dispatch.
  destruct (ca =? Fly); [apply case_Fly_keeps|].
  destruct (ca =? SampleGPS); [apply Hww|].
  destruct (ca =? Idle); [apply Hww|].
  destruct (ca =? Charge).
  { destruct (negb _); msimpl; [|intros [= <-]; repeat split].
    destruct (15 <=? battery (shm p)); msimpl; [|intros [= <-]; repeat split].
    intros H. apply Hw in H. exact H. }
  destruct (ca =? Abort); [apply case_Abort_keeps|].
  destruct (ca =? Land); [apply case_Land_keeps|].
  msimpl. intros H. apply Hw in H. exact H.
Qed.

Lemma flight_keeps (clock : timespec) (bound : bool) (rs : list FlightCtrl.recv_result)
    (p p' : proc FlightCtrl.statics) :
  FlightCtrl.flight_loop clock bound rs p = Some (tt, p') ->
  battery (shm p') = battery (shm p) /\
  acceleration (accel (shm p')) = acceleration (accel (shm p)) /\
  gps (shm p') = gps (shm p).
Proof.
  unfold FlightCtrl.flight_loop.
  set (tail := fun operator_cmd : Z =>
         current_action ← read_action;
         l ← get_locals;
         when (negb (current_action =? FlightCtrl.last_action l))
           (emit (printf "Current state: " []);;
            FlightCtrl.printactln current_action;;
            set_locals (FlightCtrl.set_last_action current_action));;
         FlightCtrl.dispatch current_action operator_cmd;;
         store (set_wdg FlightCtrl.wdg_flight_ctrl_incr);;
         emit (usleep FlightCtrl.DELTA_SIMULATION_US)).
  assert (Htail : forall (cmd : Z) (q : proc FlightCtrl.statics),
            tail cmd q = Some (tt, p') ->
            battery (shm p') = battery (shm q) /\
            acceleration (accel (shm p')) = acceleration (accel (shm q)) /\
            gps (shm p') = gps (shm q)).
  { intros cmd q. subst tail. cbv beta. unfold mbind at 1, M_bind at 1.
    destruct (read_action q) as [[a q1]|] eqn:Hr; [|discriminate].
    apply read_action_keeps in Hr. destruct Hr as (_ & R1 & _ & R2 & R3).
    destruct q1 as [l1 s1 o1 i1]. cbn [shm] in R1, R2, R3. msimpl.
    destruct (negb _); unfold FlightCtrl.printactln; msimpl.
    all: match goal with |- context [FlightCtrl.dispatch ?a0 ?c ?q0] =>
           destruct (FlightCtrl.dispatch a0 c q0) as [[[] q2]|] eqn:Hd; [|discriminate] end.
    all: apply dispatch_keeps in Hd; cbn in Hd; destruct Hd as (D1 & D2 & D3).
    all: intros [= <-]; cbn; destruct (shm q2); cbn in *.
    all: rewrite D1, D2, D3, R1, R2, R3; repeat split. }
  clearbody tail.
  assert (Hrecv : forall (cmd : Z) (q : proc FlightCtrl.statics),
            match FlightCtrl.receive rs cmd q with
            | Some (a, p1) => tail a p1
            | None => None
            end = Some (tt, p') ->
            battery (shm p') = battery (shm q) /\
            acceleration (accel (shm p')) = acceleration (accel (shm q)) /\
            gps (shm p') = gps (shm q)).
  { intros cmd q.
    destruct (FlightCtrl.receive rs cmd q) as [[c1 q1]|] eqn:Hr; [|discriminate].
    apply receive_keeps in Hr. destruct Hr as (R1 & R2 & R3).
    intros H. apply Htail in H. rewrite <- R1, <- R2, <- R3. exact H. }
  destruct p as [[cb la lacc ini nw lt ft] s o i]. cbn [shm] in *.
  msimpl. destruct ini; msimpl.
  - destruct (FlightCtrl.BIND_RETRY_MS <=? _); msimpl; [destruct bound; msimpl|].
    + intros H. apply Hrecv in H. exact H.
    + intros H. apply Htail in H. exact H.
    + intros H. apply Htail in H. exact H.
  - intros H. apply Hrecv in H. exact H.
Qed.

(** Every datum of the region has its writers.  Over one iteration of the
    loop function of any actor: the charge is changed by the battery
    process only, the acceleration by the accelerometer only, the motor
    values by the flight controller only, and the ring with its semaphores
    and indices by the GPS process and the telemetry only. *)
Theorem single_writers (who : actor) (s s' : drone_shared_t) :
  actor_step who s s' ->
  (who <> BatteryActor -> battery s' = battery s) /\
  (who <> AccelActor -> acceleration (accel s') = acceleration (accel s)) /\
  (who <> FlightActor -> motors (pwm s') = motors (pwm s)) /\
  (who <> GpsActor -> who <> TelemetryActor -> gps s' = gps s).
Proof.
  intros [clock bound rs p p' H | clock p p' H | p p' H | conn n p p' H
          | nx ny nz p p' H].
  - apply flight_keeps in H. destruct H as (H1 & H2 & H3).
    repeat split; intros; try congruence.
  - apply battery_keeps in H. destruct H as (H1 & H2 & H3).
    repeat split; intros; try congruence.
  - apply gps_keeps in H. destruct H as (H1 & H2 & H3).
    repeat split; intros; try congruence.
  - apply telemetry_keeps in H. destruct H as (H1 & H2 & H3).
    repeat split; intros; try congruence.
  - apply accel_keeps in H. destruct H as (H1 & H2 & H3).
    repeat split; intros; try congruence.
Qed.

Lemma single_writers_witness :
  let p := battery_proc Charge 99 (at_time 1 0) in
  exists s',
    actor_step BatteryActor (shm p) s' /\
    battery s' = 100 /\
    acceleration (accel s') = acceleration (accel (shm p)) /\
    motors (pwm s') = motors (pwm (shm p)) /\
    gps s' = gps (shm p).
Proof.
  intros p.
  destruct (Battery.battery_loop (at_time 1 600000000) p) as [[[] p']|] eqn:Hrun;
    [|vm_compute in Hrun; discriminate].
  pose proof (by_battery (at_time 1 600000000) p p' Hrun) as Hstep.
  destruct (single_writers BatteryActor (shm p) (shm p') Hstep) as (_ & Ha & Hm & Hg).
  exists (shm p'). split; [exact Hstep|]. split.
  - vm_compute in Hrun. injection Hrun as <-. reflexivity.
  - split; [apply Ha; discriminate|]. split; [apply Hm; discriminate|].
    apply Hg; discriminate.
Defined.

End Writers.

(* ================================================================= *)
(** ** The waits on the ring are timed *)

Module RingWaits.

Arguments read_action : simpl never.
Arguments write_action : simpl never.
Arguments Telemetry.drain : simpl never.
Arguments Telemetry.get_char : simpl never.
Arguments Telemetry.BUF_APPEND : simpl never.
Arguments GpsCtrl.produce : simpl never.

Lemma produce_returns (fuel : nat) (msg : string) :
  forall (count : Z) (p : proc GpsCtrl.statics),
  0 < gps_mutex (gps (shm p)) ->
  exists b p', GpsCtrl.produce fuel msg count p = Some (b, p').
Proof.
  induction fuel as [|fuel IH]; intros count p Hm.
  - do 2 eexists. reflexivity.
  - unfold GpsCtrl.produce; fold GpsCtrl.produce.
    destruct (count <? GpsCtrl.strlen msg); [|do 2 eexists; reflexivity].
    destruct p as [l s o i]. destruct s as [a1 a2 a3 a4 a5 a6 a7 a8 a9 [m f e w r bf] a11].
    cbn in Hm. unfold sem_timedwait. msimpl.
    destruct (hd false i); fsimpl; [apply IH; exact Hm|].
    destruct (0 <? e); fsimpl; [|do 2 eexists; reflexivity].
    unfold GpsCtrl.put_char, sem_wait, sem_post. msimpl.
    replace (0 <? m) with true by (symmetry; apply Z.ltb_lt; exact Hm). msimpl.
    apply IH. cbn. lia.
Qed.

Lemma drain_returns (fuel : nat) :
  forall (msg : string) (p : proc Telemetry.statics),
  action_lock_free (shm p) ->
  exists msg' p', Telemetry.drain fuel msg p = Some (msg', p').
Proof.
  induction fuel as [|fuel IH]; intros msg p H.
  - do 2 eexists. reflexivity.
  - unfold Telemetry.drain; fold Telemetry.drain.
    destruct (Telemetry.ptr msg <? Telemetry.sizeof_msg - 2); [|do 2 eexists; reflexivity].
    destruct p as [l s o i].
    destruct s as [a1 a2 a3 a4 a5 a6 [[rd wr rc] ty] a8 a9 [m f e w r b] a11].
    unfold action_lock_free in H. cbn in H. destruct H as (-> & -> & ->).
    unfold sem_timedwait, sem_post. msimpl.
    destruct (hd false i); fsimpl; [do 2 eexists; reflexivity|].
    destruct (0 <? f); fsimpl.
    2: { rewrite write_action_free by (repeat split). cbn. do 2 eexists. reflexivity. }
    destruct (hd false (tl i)); fsimpl; [do 2 eexists; reflexivity|].
    destruct (0 <? m); fsimpl; [|do 2 eexists; reflexivity].
    rewrite TelemetryFacts.get_char_run. cbn.
    destruct (Ascii.eqb _ "010"); [do 2 eexists; reflexivity|].
    apply IH. repeat split.
Qed.

(** Neither user of the ring waits for the other without a limit.  With
    the mutex of the ring free, [gps_loop] returns whatever the ring holds,
    also when it is full; with the lock of [action] free, [telemetry_loop]
    returns whatever the ring holds, also when it is empty or its mutex is
    taken. *)
Theorem ring_waits_are_timed
    (pg : proc GpsCtrl.statics) (conn : Telemetry.connect_result) (n : Z) (pt : proc Telemetry.statics) :
  0 < gps_mutex (gps (shm pg)) ->
  action_lock_free (shm pt) ->
  (exists p', GpsCtrl.gps_loop pg = Some (tt, p')) /\
  (exists p', Telemetry.telemetry_loop conn n pt = Some (tt, p')).
Proof.
  intros Hm H. split.
  - unfold GpsCtrl.gps_loop. msimpl.
    match goal with |- context [GpsCtrl.produce ?f ?mm ?c ?q] =>
      destruct (produce_returns f mm c q Hm) as (b & p1 & Hp) end.
    rewrite Hp. destruct b; cbn; eexists; reflexivity.
  - assert (Hcomp : forall l o1 i1, exists msg q,
              Telemetry.compose (Proc l (shm pt) o1 i1) = Some (msg, q)).
    { intros l1 o1 i1.
      destruct (shm pt) as [a1 a2 a3 a4 a5 a6 [[rd wr rc] ty] [am acc] [pm mot] g a11].
      unfold action_lock_free in H. cbn in H. destruct H as (-> & -> & ->).
      unfold Telemetry.compose. msimpl. unfold sem_trywait, sem_post. msimpl.
      destruct (0 <? am); fsimpl; destruct (0 <? pm); fsimpl.
      all: rewrite read_action_free by (repeat split); msimpl.
      all: destruct (ty =? SampleGPS); fsimpl; [|do 2 eexists; reflexivity].
      all: lazymatch goal with
           | |- context [Telemetry.drain ?f ?mm ?q0] =>
               destruct (drain_returns f mm q0) as (m1 & q1 & Hd); [repeat split|];
               rewrite Hd; do 2 eexists; reflexivity
           end. }
    destruct pt as [[fd ini] s o i]. cbn [shm] in *.
    unfold Telemetry.telemetry_loop. msimpl.
    destruct ini; [destruct conn as [ | | |c]|]; cbn; msimpl.
    1-3: (eexists; reflexivity).
    all: match goal with |- context [Telemetry.compose (Proc ?l _ ?o1 ?i1)] =>
           destruct (Hcomp l o1 i1) as (msg & q & Hc) end.
    all: rewrite Hc; cbn; destruct (n <=? 0); cbn; eexists; reflexivity.
Qed.

(** The producer on a ring with fewer slots free than its sample needs,
    the consumer on an empty ring. *)
Lemma ring_waits_are_timed_witness :
  let pt := Proc connected sampling_shm [] [] in
  0 < gps_mutex (gps (shm ring_nearly_full)) /\
  action_lock_free (shm pt) /\
  (exists p', GpsCtrl.gps_loop ring_nearly_full = Some (tt, p')) /\
  (exists p', Telemetry.telemetry_loop Telemetry.connect_fails 1 pt = Some (tt, p')).
Proof.
  intros pt.
  assert (H1 : 0 < gps_mutex (gps (shm ring_nearly_full))) by reflexivity.
  assert (H2 : action_lock_free (shm pt)) by (vm_compute; repeat split).
  split; [exact H1|]. split; [exact H2|].
  exact (ring_waits_are_timed ring_nearly_full Telemetry.connect_fails 1 pt H1 H2).
Defined.

End RingWaits.

(* ================================================================= *)
(** ** The magnitude of rounded results *)

Module Magnitude.
Import FloatFacts.

Lemma below_mono (k k' : Z) (v : float) : k <= k' -> below k v = true -> below k' v = true.
Proof.
  intros Hk. destruct v as [s|s| |s m e]; cbn; try congruence.
  intros H. apply Z.leb_le in H. apply Z.leb_le. lia.
Qed.

Lemma below_finite (k : Z) (v : float) : below k v = true -> is_finite v = true.
Proof. destruct v; cbn; congruence. Qed.

(** The second shift and the result, on a mantissa of at most [2 ^ 24]. *)
Lemma finish_below (sx : bool) (m2 e1 k : Z) :
  0 <= m2 <= 2 ^ 24 ->
  -149 <= e1 -> e1 + 24 <= k -> k <= 127 ->
  below (k + 1)
        (let '(mrs, e) := shr_fexp prec32 emax32 m2 e1 loc_Exact in
         match shr_m mrs with
         | 0 => S754_zero sx
         | Z.pos m => if e <=? emax32 - prec32 then S754_finite sx m e
                      else S754_infinity sx
         | Z.neg _ => S754_nan
         end) = true.
Proof.
  intros Hm He Hk Hk'.
  destruct (Z.eq_dec m2 (2 ^ 24)) as [->|Hne].
  - unfold shr_fexp, shr. change (Zdigits2 (2 ^ 24)) with 25. rewrite fexp32.
    replace (Z.max (25 + e1 - 24) (-149) - e1) with 1 by lia.
    cbn [shr_record_of_loc SpecFloat.iter_pos].
    change (shr_1 {| shr_m := 2 ^ 24; shr_r := false; shr_s := false |})
      with {| shr_m := 8388608; shr_r := false; shr_s := false |}.
    cbn [shr_m].
    replace (e1 + 1 <=? emax32 - prec32) with true
      by (symmetry; apply Z.leb_le; unfold emax32, prec32; lia).
    cbn [below]. change (Z.pos (digits2_pos 8388608)) with 24. apply Z.leb_le. lia.
  - assert (Hlt : m2 < 2 ^ 24) by lia.
    destruct m2 as [|m|m]; [| |lia].
    + unfold shr_fexp, shr. cbn [Zdigits2]. rewrite fexp32.
      destruct (Z.max (0 + e1 - 24) (-149) - e1) as [|p|p] eqn:E;
        [reflexivity | lia | reflexivity].
    + assert (Hd : Z.pos (digits2_pos m) <= 24) by (apply digits2_pos_le, Hlt).
      unfold shr_fexp, shr. cbn [Zdigits2]. rewrite fexp32.
      destruct (Z.max (Z.pos (digits2_pos m) + e1 - 24) (-149) - e1) as [|p|p] eqn:E;
        [| lia |].
      all: cbn [shr_record_of_loc shr_m].
      all: replace (e1 <=? emax32 - prec32) with true
             by (symmetry; apply Z.leb_le; unfold emax32, prec32; lia).
      all: cbn [below]; apply Z.leb_le; lia.
Qed.

Lemma binary_round_aux_below (sx : bool) (mx ex : Z) (lx : location) (k : Z) :
  0 <= mx ->
  ex <= fexp prec32 emax32 (Zdigits2 mx + ex) ->
  Zdigits2 mx + ex <= k -> -125 <= k <= 127 ->
  below (k + 1) (binary_round_aux prec32 emax32 sx mx ex lx) = true.
Proof.
  intros Hm Hal Hd Hk. unfold binary_round_aux.
  destruct (shr_fexp_first mx ex lx Hm Hal) as [H1 H2].
  destruct (shr_fexp prec32 emax32 mx ex lx) as [mrs' e']. cbn [fst snd] in H1, H2.
  pose proof (round_nearest_even_range (shr_m mrs') (loc_of_shr_record mrs')) as Hr.
  apply finish_below; [lia | rewrite H1, fexp32; lia | rewrite H1, fexp32; lia | lia].
Qed.

Lemma binary_round_below (sx : bool) (m : positive) (e k : Z) :
  Z.pos (digits2_pos m) + e <= k -> -125 <= k <= 127 ->
  below (k + 1) (binary_round prec32 emax32 sx m e) = true.
Proof.
  intros Hd Hk. unfold binary_round, shl_align.
  destruct (fexp prec32 emax32 (Z.pos (digits2_pos m) + e) - e) as [|j|j] eqn:E.
  - apply binary_round_aux_below; cbn [Zdigits2]; lia.
  - apply binary_round_aux_below; cbn [Zdigits2]; lia.
  - apply binary_round_aux_below; cbn [Zdigits2]; rewrite ?digits2_pos_shl; try lia.
    replace (Z.pos (digits2_pos m) + Z.pos j
             + fexp prec32 emax32 (Z.pos (digits2_pos m) + e))
      with (Z.pos (digits2_pos m) + e) by lia.
    lia.
Qed.

(** A sum of two aligned mantissas, each of which is below [2 ^ n]. *)
Lemma binary_normalize_below (m e n k : Z) (sz : bool) :
  - 2 ^ n < m < 2 ^ n -> n + e <= k -> -125 <= k <= 127 ->
  below (k + 1) (binary_normalize prec32 emax32 m e sz) = true.
Proof.
  intros Hm Hn Hk.
  destruct m as [|p|p]; cbn [binary_normalize]; [reflexivity | |].
  - apply binary_round_below; [|exact Hk].
    assert (Z.pos (digits2_pos p) <= n) by (apply digits2_pos_le; lia). lia.
  - apply binary_round_below; [|exact Hk].
    assert (Z.pos (digits2_pos p) <= n) by (apply digits2_pos_le; lia). lia.
Qed.

(** The aligned mantissa of a value below [2 ^ k]. *)
Lemma aligned_bound (m : positive) (e ez k : Z) :
  ez <= e -> Z.pos (digits2_pos m) + e <= k ->
  Z.pos (fst (shl_align m e ez)) < 2 ^ (k - ez).
Proof.
  intros He Hd. destruct (shl_align_value m e ez He) as [-> _].
  destruct (digits2_pos_bounds m) as [_ Hb].
  assert (Hp : 0 < 2 ^ (e - ez)) by (apply Z.pow_pos_nonneg; lia).
  assert (H1 : Z.pos m * 2 ^ (e - ez) < 2 ^ Z.pos (digits2_pos m) * 2 ^ (e - ez))
    by (apply Z.mul_lt_mono_pos_r; assumption).
  rewrite <- Z.pow_add_r in H1 by lia.
  assert (H2 : 2 ^ (Z.pos (digits2_pos m) + (e - ez)) <= 2 ^ (k - ez))
    by (apply Z.pow_le_mono_r; lia).
  lia.
Qed.

Lemma cond_Zopp_bound (s : bool) (m b : Z) : 0 < m < b -> - b < cond_Zopp s m < b.
Proof. destruct s; cbn; lia. Qed.

Lemma fadd_below (k : Z) (a b : float) :
  below k a = true -> below k b = true -> -125 <= k <= 125 ->
  below (k + 2) (fadd a b) = true.
Proof.
  intros Ha Hb Hk. unfold fadd, SFadd.
  destruct a as [sa|sa| |sa ma ea], b as [sb|sb| |sb mb eb]; try discriminate.
  - destruct sa, sb; reflexivity.
  - apply (below_mono k); [lia | exact Hb].
  - apply (below_mono k); [lia | exact Ha].
  - cbn [below] in Ha, Hb. apply Z.leb_le in Ha, Hb.
    pose proof (aligned_bound ma ea (Z.min ea eb) k (Z.le_min_l _ _) Ha) as H1.
    pose proof (aligned_bound mb eb (Z.min ea eb) k (Z.le_min_r _ _) Hb) as H2.
    replace (k + 2) with (k + 1 + 1) by lia.
    apply (binary_normalize_below _ _ (k - Z.min ea eb + 1)); [|lia|lia].
    rewrite Z.pow_add_r by lia. change (2 ^ 1) with 2.
    pose proof (cond_Zopp_bound sa _ _ (conj (Pos2Z.is_pos _) H1)).
    pose proof (cond_Zopp_bound sb _ _ (conj (Pos2Z.is_pos _) H2)).
    lia.
Qed.

Lemma fsub_below (k : Z) (a b : float) :
  below k a = true -> below k b = true -> -125 <= k <= 125 ->
  below (k + 2) (fsub a b) = true.
Proof.
  intros Ha Hb Hk. unfold fsub, SFsub.
  destruct a as [sa|sa| |sa ma ea], b as [sb|sb| |sb mb eb]; try discriminate.
  - destruct sa, sb; reflexivity.
  - apply (below_mono k); [lia | exact Hb].
  - apply (below_mono k); [lia | exact Ha].
  - cbn [below] in Ha, Hb. apply Z.leb_le in Ha, Hb.
    pose proof (aligned_bound ma ea (Z.min ea eb) k (Z.le_min_l _ _) Ha) as H1.
    pose proof (aligned_bound mb eb (Z.min ea eb) k (Z.le_min_r _ _) Hb) as H2.
    replace (k + 2) with (k + 1 + 1) by lia.
    apply (binary_normalize_below _ _ (k - Z.min ea eb + 1)); [|lia|lia].
    rewrite Z.pow_add_r by lia. change (2 ^ 1) with 2.
    pose proof (cond_Zopp_bound sa _ _ (conj (Pos2Z.is_pos _) H1)).
    pose proof (cond_Zopp_bound sb _ _ (conj (Pos2Z.is_pos _) H2)).
    lia.
Qed.

(** The digits of a product. *)
Lemma digits2_pos_mul (a b : positive) :
  Z.pos (digits2_pos a) + Z.pos (digits2_pos b) - 1 <= Z.pos (digits2_pos (a * b))
  <= Z.pos (digits2_pos a) + Z.pos (digits2_pos b).
Proof.
  destruct (digits2_pos_bounds a) as [La Ha], (digits2_pos_bounds b) as [Lb Hb].
  split.
  - assert (H : 2 ^ (Z.pos (digits2_pos a) + Z.pos (digits2_pos b) - 2) <= Z.pos (a * b)).
    { replace (Z.pos (digits2_pos a) + Z.pos (digits2_pos b) - 2)
        with ((Z.pos (digits2_pos a) - 1) + (Z.pos (digits2_pos b) - 1)) by lia.
      rewrite Z.pow_add_r, Pos2Z.inj_mul by lia.
      apply Z.mul_le_mono_nonneg; try assumption; apply Z.pow_nonneg; lia. }
    apply digits2_pos_gt in H. lia.
  - apply digits2_pos_le. rewrite Z.pow_add_r, Pos2Z.inj_mul by lia.
    apply Z.mul_lt_mono_nonneg; lia.
Qed.

(** The mantissa of a valid value has at most 24 digits, and exactly 24
    above the least exponent. *)
Lemma valid_digits (s : bool) (m : positive) (e : Z) :
  is_float (S754_finite s m e) = true ->
  Z.pos (digits2_pos m) <= 24 /\ -149 <= e /\ (e = -149 \/ Z.pos (digits2_pos m) = 24).
Proof.
  unfold is_float, valid_binary, bounded, canonical_mantissa. intros Hv.
  apply andb_true_iff in Hv. destruct Hv as [Hc _].
  apply Z.eqb_eq in Hc. rewrite fexp32 in Hc. lia.
Qed.

(** The product of two valid mantissas is not shorter than the format
    wants it. *)
Lemma fmul_aligned (sa sb : bool) (ma mb : positive) (ea eb : Z) :
  is_float (S754_finite sa ma ea) = true -> is_float (S754_finite sb mb eb) = true ->
  ea + eb <= fexp prec32 emax32 (Zdigits2 (Z.pos (ma * mb)) + (ea + eb)).
Proof.
  intros Ha Hb. apply valid_digits in Ha, Hb. rewrite fexp32. cbn [Zdigits2].
  pose proof (digits2_pos_mul ma mb) as [Hlo _].
  pose proof (Pos2Z.is_pos (digits2_pos ma)). pose proof (Pos2Z.is_pos (digits2_pos mb)).
  lia.
Qed.

Lemma fmul_valid (a b : float) :
  is_float a = true -> is_float b = true -> is_float (fmul a b) = true.
Proof.
  intros Ha Hb. unfold fmul, SFmul.
  destruct a as [sa|sa| |sa ma ea], b as [sb|sb| |sb mb eb]; try reflexivity.
  apply binary_round_aux_valid; [lia|]. apply (fmul_aligned sa sb); assumption.
Qed.

Lemma fmul_below (ka kb : Z) (a b : float) :
  is_float a = true -> is_float b = true ->
  below ka a = true -> below kb b = true -> -125 <= ka + kb <= 127 ->
  below (ka + kb + 1) (fmul a b) = true.
Proof.
  intros Va Vb Ha Hb Hk. unfold fmul, SFmul.
  destruct a as [sa|sa| |sa ma ea], b as [sb|sb| |sb mb eb]; try discriminate;
    try reflexivity.
  cbn [below] in Ha, Hb. apply Z.leb_le in Ha, Hb.
  apply binary_round_aux_below; [lia | apply (fmul_aligned sa sb); assumption | | lia].
  cbn [Zdigits2]. pose proof (digits2_pos_mul ma mb) as [_ Hhi]. lia.
Qed.

End Magnitude.

(* ================================================================= *)
(** ** The motor vector along the runs of the system *)

Module Airworthy.
Import FloatFacts Magnitude Accelerometer.

Lemma pwm_ok_below (v : float) : pwm_ok v = true -> is_float v = true /\ below 1 v = true.
Proof.
  unfold pwm_ok. intros H. apply andb_true_iff in H. destruct H as [Hv Hu].
  split; [exact Hv|].
  destruct (in_unit_cases v Hu) as [[s ->]|(m & e & ->)]; [reflexivity|].
  unfold in_unit in Hu. apply andb_true_iff in Hu. destruct Hu as [_ Hle].
  destruct (unit_value m e Hv Hle) as [He Hm].
  cbn [below]. apply Z.leb_le.
  assert (Z.pos (digits2_pos m) <= - e + 1).
  { apply digits2_pos_le. rewrite Z.pow_add_r by lia. change (2 ^ 1) with 2.
    assert (0 < 2 ^ (- e)) by (apply Z.pow_pos_nonneg; lia). lia. }
  lia.
Qed.

Lemma gauss_range_below (v : float) :
  gauss_range v = true -> is_float v = true /\ below 1 v = true.
Proof.
  unfold gauss_range. intros H. apply andb_true_iff in H. destruct H as [Hv Hb].
  split; [exact Hv|]. apply (below_mono 0); [lia | exact Hb].
Qed.

(** [(a + b - c - d) * (MAX_THRUST * DIFF_FACTOR)] and the noise, on
    motor values of the unit interval. *)
Lemma tilt_ok (a b c d n : float) :
  pwm_ok a = true -> pwm_ok b = true -> pwm_ok c = true -> pwm_ok d = true ->
  gauss_range n = true ->
  let v := fadd (fmul (fsub (fsub (fadd a b) c) d) (fmul (fmul g f2) DIFF_FACTOR)) n in
  is_float v && is_finite v = true.
Proof.
  intros Ha Hb Hc Hd Hn v.
  apply pwm_ok_below in Ha, Hb, Hc, Hd. apply gauss_range_below in Hn.
  destruct Ha as [Va Ba], Hb as [Vb Bb], Hc as [Vc Bc], Hd as [Vd Bd], Hn as [Vn Bn].
  assert (VK : is_float (fmul (fmul g f2) DIFF_FACTOR) = true) by (vm_compute; reflexivity).
  assert (BK : below 2 (fmul (fmul g f2) DIFF_FACTOR) = true) by (vm_compute; reflexivity).
  set (K := fmul (fmul g f2) DIFF_FACTOR) in *. clearbody K.
  assert (B1 : below 3 (fadd a b) = true) by (apply (fadd_below 1); try assumption; lia).
  assert (B2 : below 5 (fsub (fadd a b) c) = true).
  { apply (fsub_below 3); [exact B1 | apply (below_mono 1); [lia | exact Bc] | lia]. }
  assert (B3 : below 7 (fsub (fsub (fadd a b) c) d) = true).
  { apply (fsub_below 5); [exact B2 | apply (below_mono 1); [lia | exact Bd] | lia]. }
  assert (V3 : is_float (fsub (fsub (fadd a b) c) d) = true)
    by (repeat first [apply fsub_valid | apply fadd_valid | assumption]).
  assert (B4 : below 10 (fmul (fsub (fsub (fadd a b) c) d) K) = true)
    by (apply (fmul_below 7 2); try assumption; lia).
  assert (V4 : is_float (fmul (fsub (fsub (fadd a b) c) d) K) = true)
    by (apply fmul_valid; assumption).
  assert (B5 : below 12 v = true).
  { apply (fadd_below 10); [exact B4 | apply (below_mono 1); [lia | exact Bn] | lia]. }
  apply andb_true_iff. split; [apply fadd_valid; assumption | eapply below_finite, B5].
Qed.

(** [thrust - 9.81f] and the noise, on motor values of the unit
    interval. *)
Lemma lift_ok (m : motors_t) (n : float) :
  motors_all pwm_ok m = true -> gauss_range n = true ->
  let v := fadd (fsub (thrust m) g) n in
  is_float v && is_finite v = true.
Proof.
  intros Hm Hn v. unfold motors_all in Hm. rewrite !andb_true_iff in Hm.
  destruct Hm as [[[H0 H1] H2] H3].
  apply pwm_ok_below in H0, H1, H2, H3. apply gauss_range_below in Hn.
  destruct H0 as [V0 B0], H1 as [V1 B1], H2 as [V2 B2], H3 as [V3 B3], Hn as [Vn Bn].
  assert (Vg : is_float g = true) by reflexivity.
  assert (Bg : below 4 g = true) by reflexivity.
  assert (V2' : is_float f2 = true) by reflexivity.
  assert (B2' : below 2 f2 = true) by reflexivity.
  subst v. unfold thrust.
  set (S1 := fadd (motors0 m) (motors1 m)).
  assert (BS1 : below 3 S1 = true) by (apply (fadd_below 1); try assumption; lia).
  set (S2 := fadd S1 (motors2 m)).
  assert (BS2 : below 5 S2 = true).
  { apply (fadd_below 3); [exact BS1 | apply (below_mono 1); [lia | exact B2] | lia]. }
  set (S3 := fadd S2 (motors3 m)).
  assert (BS3 : below 7 S3 = true).
  { apply (fadd_below 5); [exact BS2 | apply (below_mono 1); [lia | exact B3] | lia]. }
  assert (VS3 : is_float S3 = true)
    by (subst S3 S2 S1; repeat first [apply fadd_valid | assumption]).
  clearbody S3.
  assert (BT1 : below 12 (fmul S3 g) = true) by (apply (fmul_below 7 4); try assumption; lia).
  assert (VT1 : is_float (fmul S3 g) = true) by (apply fmul_valid; assumption).
  assert (BT2 : below 15 (fmul (fmul S3 g) f2) = true)
    by (apply (fmul_below 12 2); try assumption; lia).
  assert (VT2 : is_float (fmul (fmul S3 g) f2) = true) by (apply fmul_valid; assumption).
  assert (BT3 : below 17 (fsub (fmul (fmul S3 g) f2) g) = true).
  { apply (fsub_below 15); [exact BT2 | apply (below_mono 4); [lia | exact Bg] | lia]. }
  assert (BT4 : below 19 (fadd (fsub (fmul (fmul S3 g) f2) g) n) = true).
  { apply (fadd_below 17); [exact BT3 | apply (below_mono 1); [lia | exact Bn] | lia]. }
  apply andb_true_iff. split.
  - apply fadd_valid; [apply fsub_valid|]; assumption.
  - eapply below_finite, BT4.
Qed.

(** What an iteration of the accelerometer stores. *)
Lemma accel_loop_stores (nx ny nz : float) (p p' : proc statics) :
  accel_loop nx ny nz p = Some (tt, p') ->
  motors (pwm (shm p')) = motors (pwm (shm p)) /\
  acceleration (accel (shm p')) =
    {| x := fadd (roll_acc (motors (pwm (shm p)))) nx;
       y := fadd (pitch_acc (motors (pwm (shm p)))) ny;
       z := fadd (fsub (thrust (motors (pwm (shm p)))) g) nz |}.
Proof.
  destruct p as [[lacc lm] s o i].
  destruct s as [a1 a2 a3 a4 a5 a6 a7 [am av] [pm mot] a10 a11].
  unfold accel_loop, sem_wait, sem_post. msimpl.
  destruct (0 <? pm); msimpl; [|discriminate].
  destruct (0 <? am); msimpl; [|discriminate].
  intros [= <-]. split; reflexivity.
Qed.

(** The accelerometer keeps the region airworthy. *)
Lemma sensor_step_ok (nx ny nz : float) (p p' : proc statics) :
  gauss_range nx = true -> gauss_range ny = true -> gauss_range nz = true ->
  accel_loop nx ny nz p = Some (tt, p') ->
  airworthy (shm p) = true -> airworthy (shm p') = true.
Proof.
  intros Hx Hy Hz Hrun. apply accel_loop_stores in Hrun. destruct Hrun as [Hm Ha].
  unfold airworthy. rewrite Hm, Ha, !andb_true_iff. intros [Hok _].
  split; [exact Hok|].
  pose proof Hok as Hok'. unfold motors_all in Hok'. rewrite !andb_true_iff in Hok'.
  destruct Hok' as [[[H0 H1] H2] H3].
  unfold reading_ok. cbn [x y z].
  pose proof (tilt_ok _ _ _ _ nx H1 H3 H0 H2 Hx) as Tx.
  pose proof (tilt_ok _ _ _ _ ny H2 H3 H0 H1 Hy) as Ty.
  pose proof (lift_ok _ nz Hok Hz) as Tz. cbv zeta in Tx, Ty, Tz.
  unfold roll_acc, pitch_acc. rewrite Tx, Ty, Tz. reflexivity.
Qed.

(** The flight controller keeps the region airworthy. *)
Lemma flight_step_ok (clock : timespec) (bound : bool) (rs : list FlightCtrl.recv_result)
    (p p' : proc FlightCtrl.statics) :
  FlightCtrl.flight_loop clock bound rs p = Some (tt, p') ->
  airworthy (shm p) = true -> airworthy (shm p') = true.
Proof.
  intros Hrun. unfold airworthy. rewrite !andb_true_iff. intros [Hm Hr].
  pose proof (Writers.flight_keeps clock bound rs p p' Hrun) as (_ & Ha & _).
  rewrite Ha. split; [|exact Hr].
  unfold reading_ok in Hr. rewrite !andb_true_iff in Hr.
  destruct Hr as [[[Vx Fx] [Vy Fy]] _].
  apply (MotorFacts.flight_iteration_ok clock bound rs p p' Hrun Hm Vx Vy).
  apply AccelFacts.fadd_num; [apply AccelFacts.finite_num, Fx | exact Fy].
Qed.

Lemma reinit_step_ok (p p' : proc DroneSys.statics) :
  DroneSys.sigusr1_handler p = Some (tt, p') ->
  airworthy (shm p) = true -> airworthy (shm p') = true.
Proof.
  destruct p as [l s o i]. unfold DroneSys.sigusr1_handler. msimpl.
  intros [= <-]. destruct s. exact (fun H => H).
Qed.

Lemma drone_step_ok (s s' : drone_shared_t) :
  drone_step s s' -> airworthy s = true -> airworthy s' = true.
Proof.
  intros [nx ny nz p p' Hx Hy Hz Hrun | who s1 s2 Hw Hstep | p p' Hrun].
  - exact (sensor_step_ok nx ny nz p p' Hx Hy Hz Hrun).
  - destruct Hstep as [clock bound rs p p' H | clock p p' H | p p' H | conn n p p' H
                       | nx ny nz p p' H].
    + exact (flight_step_ok clock bound rs p p' H).
    + apply Writers.battery_keeps in H. destruct H as (Ha & Hp & _).
      unfold airworthy. rewrite Ha, Hp. exact (fun H => H).
    + apply Writers.gps_keeps in H. destruct H as (_ & Ha & Hp).
      unfold airworthy. rewrite Ha, Hp. exact (fun H => H).
    + apply Writers.telemetry_keeps in H. destruct H as (_ & Ha & Hp).
      unfold airworthy. rewrite Ha, Hp. exact (fun H => H).
    + contradiction.
  - exact (reinit_step_ok p p' Hrun).
Qed.

Lemma drone_run_ok (s0 s : drone_shared_t) :
  airworthy s0 = true -> drone_run s0 s -> airworthy s = true.
Proof.
  intros H0 Hrun. induction Hrun as [|s1 s2 _ IH Hstep]; [exact H0|].
  exact (drone_step_ok s1 s2 Hstep IH).
Qed.

(** C3.  The system starts on the region that [init_drone_shm] leaves,
    or on any other that holds motor values of the unit interval and a
    finite accelerometer reading, and runs by iterations of its five
    actors in any order, the accelerometer adding the noise of
    [gauss_noise], and by re-initializations of the locks.  At every
    iteration of the flight controller in such a run, whatever the action
    it finds, the clock, the outcome of the bind and the datagrams
    received: the four motor values are values of the format in the unit
    interval before the iteration, and they are again when it returns. *)
Theorem motors_stay_in_unit
    (s0 : drone_shared_t) (clock : timespec) (bound : bool)
    (rs : list FlightCtrl.recv_result) (p p' : proc FlightCtrl.statics) :
  airworthy s0 = true ->
  drone_run s0 (shm p) ->
  FlightCtrl.flight_loop clock bound rs p = Some (tt, p') ->
  motors_all pwm_ok (motors (pwm (shm p))) = true /\
  motors_all pwm_ok (motors (pwm (shm p'))) = true.
Proof.
  intros H0 Hrun Hloop.
  pose proof (drone_run_ok s0 (shm p) H0 Hrun) as Hp.
  pose proof (flight_step_ok clock bound rs p p' Hloop Hp) as Hp'.
  unfold airworthy in Hp, Hp'. apply andb_true_iff in Hp, Hp'.
  split; [apply Hp | apply Hp'].
Qed.

(** C3 on an instance: from the region of a flight at one half, an
    iteration of the accelerometer and then one of the flight controller,
    which takes the motors to 0.505. *)
Lemma motors_stay_in_unit_witness :
  airworthy fresh_shm = true /\
  airworthy sensed_flight = true /\
  exists (pa : proc Accelerometer.statics) (pf : proc FlightCtrl.statics),
    accel_loop f0 f0 f0 accel_turn = Some (tt, pa) /\
    drone_run sensed_flight (shm pa) /\
    FlightCtrl.flight_loop (at_time 0 0) true []
      (Proc (FlightCtrl.set_init false FlightCtrl.initial) (shm pa) [] []) = Some (tt, pf) /\
    motors (pwm (shm pf)) = all_motors (S754_finite false 8472494 (-24)) /\
    motors_all pwm_ok (motors (pwm (shm pf))) = true.
Proof.
  assert (H0 : airworthy sensed_flight = true) by reflexivity.
  split; [reflexivity|]. split; [exact H0|].
  destruct (accel_loop f0 f0 f0 accel_turn) as [[[] pa]|] eqn:Ha;
    [|vm_compute in Ha; discriminate].
  assert (Hrun : drone_run sensed_flight (shm pa)).
  { apply (run_step _ sensed_flight); [apply run_start|].
    exact (step_sensor f0 f0 f0 accel_turn pa eq_refl eq_refl eq_refl Ha). }
  set (p := Proc (FlightCtrl.set_init false FlightCtrl.initial) (shm pa) [] []).
  destruct (FlightCtrl.flight_loop (at_time 0 0) true [] p) as [[[] pf]|] eqn:Hf;
    [|subst p; vm_compute in Ha; injection Ha as <-; vm_compute in Hf; discriminate].
  exists pa, pf. split; [reflexivity|]. split; [exact Hrun|]. split; [exact Hf|]. split.
  - subst p. vm_compute in Ha. injection Ha as <-. vm_compute in Hf.
    injection Hf as <-. reflexivity.
  - exact (proj2 (motors_stay_in_unit sensed_flight (at_time 0 0) true [] p pf H0 Hrun Hf)).
Defined.

(** The reading along the runs.  On every region that the system comes
    to from an airworthy one, by iterations of its five actors in any
    order, the accelerometer adding the noise of [gauss_noise], and by
    re-initializations of the locks, the three components of the
    accelerometer reading are finite values of the format: none is an
    infinity and none a NaN. *)
Theorem reading_stays_finite (s0 s : drone_shared_t) :
  airworthy s0 = true ->
  drone_run s0 s ->
  reading_ok (acceleration (accel s)) = true /\
  Telemetry.numbers (acceleration (accel s)) = true.
Proof.
  intros H0 Hrun. pose proof (drone_run_ok s0 s H0 Hrun) as H.
  unfold airworthy in H. apply andb_true_iff in H. destruct H as [_ H].
  split; [exact H|].
  unfold reading_ok in H. rewrite !andb_true_iff in H.
  destruct H as [[[_ Fx] [_ Fy]] [_ Fz]].
  apply AccelFacts.finite_num in Fx, Fy, Fz.
  unfold Telemetry.numbers. rewrite Fx, Fy, Fz. reflexivity.
Qed.

Lemma reading_stays_finite_witness :
  airworthy sensed_flight = true /\
  exists pa : proc Accelerometer.statics,
    accel_loop half f0 f0 accel_turn = Some (tt, pa) /\
    drone_run sensed_flight (shm pa) /\
    x (acceleration (accel (shm pa))) = half /\
    reading_ok (acceleration (accel (shm pa))) = true /\
    Telemetry.numbers (acceleration (accel (shm pa))) = true.
Proof.
  assert (H0 : airworthy sensed_flight = true) by reflexivity.
  split; [exact H0|].
  destruct (accel_loop half f0 f0 accel_turn) as [[[] pa]|] eqn:Ha;
    [|vm_compute in Ha; discriminate].
  assert (Hrun : drone_run sensed_flight (shm pa)).
  { apply (run_step _ sensed_flight); [apply run_start|].
    exact (step_sensor half f0 f0 accel_turn pa eq_refl eq_refl eq_refl Ha). }
  exists pa. split; [reflexivity|]. split; [exact Hrun|]. split.
  - vm_compute in Ha. injection Ha as <-. reflexivity.
  - exact (reading_stays_finite sensed_flight (shm pa) H0 Hrun).
Defined.

End Airworthy.
